(** * Flatland display compositor: a shallow embedding of
      [src/ui/scenic/lib/flatland/engine/display_compositor.cc]

    The compositor is a C++ object whose methods mutate a handful of maps and
    vectors and talk to four collaborators (the display controller, the
    renderer, the sysmem allocator and the release-fence manager).  The
    embedding keeps
    - the member variables as one record [World], with [std::unordered_map]
      as [gmap] and [std::vector] / [std::deque] as [list];
    - every call made to a collaborator as an entry appended to a
      chronological [trace];
    - every answer of a collaborator as a function of the trace so far (the
      record [Env]), which makes the methods deterministic functions;
    - program termination ([.at()] on a missing key, a failed [FX_CHECK],
      indexing past the end of a vector) as [None] in a state-and-failure
      monad [M]. *)

From Stdlib Require Import ZArith NArith List Bool Lia.
From Stdlib Require Import Floats.SpecFloat.
From stdpp Require Import base option list gmap.

Local Open Scope N_scope.

(** ** Single-precision floats

    [float] in the source is IEEE-754 binary32.  The Standard Library's
    [SpecFloat] gives its arithmetic for any precision. *)
Module Float32.

Definition prec : Z := 24.
Definition emax : Z := 128.

Definition mul : spec_float -> spec_float -> spec_float := SFmul prec emax.
Definition eqb : spec_float -> spec_float -> bool := SFeqb.
Definition leb : spec_float -> spec_float -> bool := SFleb.

(** The conversion of an integer to [float] ([static_cast<float>(n)], and
    the usual arithmetic conversion of the literal [255]). *)
Definition of_Z (z : Z) : spec_float := binary_normalize prec emax z 0 false.

Definition zero : spec_float := S754_zero false.
Definition one : spec_float := S754_finite false 8388608 (-23).

(** Truncation toward zero, the first half of a float-to-integer
    conversion.  Infinities and NaN have no truncated value. *)
Definition trunc (f : spec_float) : option Z :=
  match f with
  | S754_zero _ => Some 0%Z
  | S754_finite s m e =>
      let a := match e with
               | Z0 => Zpos m
               | Zpos p => (Zpos m * Z.pow_pos 2 p)%Z
               | Zneg p => (Zpos m / Z.pow_pos 2 p)%Z
               end in
      Some (if s then (- a)%Z else a)
  | _ => None
  end.

(** [static_cast<uint8_t>(f)]: the truncated value when it fits in eight
    bits; otherwise the conversion is undefined behaviour, [None] here. *)
Definition to_uint8 (f : spec_float) : option Z :=
  match trunc f with
  | Some z => if ((0 <=? z) && (z <=? 255))%Z then Some z else None
  | None => None
  end.

Definition valid (f : spec_float) : bool := valid_binary prec emax f.

End Float32.

(** ** Identifiers and enumerations *)

(** [allocation::kInvalidId] and [allocation::kInvalidImageId] (declared in
    [allocation/id.h]); [IsValidBufferImage] spells the latter as [0]. *)
Definition kInvalidId : N := 0.
Definition kInvalidImageId : N := 0.

Inductive BufferCollectionImportMode :=
| EnforceDisplayConstraints
| AttemptDisplayConstraints
| RendererOnly.

Inductive BufferCollectionUsage := kRenderTarget | kReadback | kClientImage.

Inductive BlendMode := SRC | SRC_OVER.
Inductive AlphaMode := DISABLE | PREMULTIPLIED.
Inductive ImageFlip := FLIP_NONE | FLIP_LEFT_RIGHT | FLIP_UP_DOWN.
Inductive Orientation := CCW_0_DEGREES | CCW_90_DEGREES | CCW_180_DEGREES | CCW_270_DEGREES.

Inductive PixelFormatType := BGRA32 | R8G8B8A8 | NV12 | I420 | OtherPixelFormatType (n : N).

Inductive zx_pixel_format_t :=
| ZX_PIXEL_FORMAT_NONE
| ZX_PIXEL_FORMAT_RGB_x888
| ZX_PIXEL_FORMAT_ARGB_8888
| ZX_PIXEL_FORMAT_BGR_888x
| ZX_PIXEL_FORMAT_ABGR_8888
| ZX_PIXEL_FORMAT_NV12
| ZX_PIXEL_FORMAT_I420.

Inductive FormatModifier :=
| FORMAT_MODIFIER_INTEL_I915_X_TILED
| FORMAT_MODIFIER_INTEL_I915_Y_TILED
| FORMAT_MODIFIER_INTEL_I915_YF_TILED
| OtherFormatModifier (v : N).

Record PixelFormat := {
  pf_type : PixelFormatType;
  has_format_modifier : bool;
  format_modifier : FormatModifier }.

Record ImageConfig := {
  ic_width : N;
  ic_height : N;
  ic_pixel_format : zx_pixel_format_t;
  ic_type : N }.

(** [allocation::ImageMetadata]. *)
Record ImageMetadata := {
  collection_id : N;
  identifier : N;
  vmo_index : N;
  width : N;
  height : N;
  multiply_color : spec_float * spec_float * spec_float * spec_float;
  blend_mode : BlendMode;
  flip : ImageFlip }.

Record vec2 := { vx : spec_float; vy : spec_float }.

(** [ImageRect], without the texel coordinates, which this file only hands
    on to [DisplaySrcDstFrames::New]. *)
Record ImageRect := {
  origin : vec2;
  extent : vec2;
  orientation : Orientation }.

Record RenderData := {
  rectangles : list ImageRect;
  images : list ImageMetadata;
  display_id : N }.

Record DisplayInfo := {
  dimensions : N * N;
  formats : list zx_pixel_format_t }.

(** ** Events

    A [zx::event] member owns its kernel object.  The model keeps the state
    of the [ZX_EVENT_SIGNALED] bit with the owner; the display controller
    reaches the same object through the id under which [ImportEvent]
    registered it.  A value-initialised [zx::event] holds no handle. *)
Inductive zx_event := EventInvalid | Event (signaled : bool).

(** [event.wait_one(ZX_EVENT_SIGNALED, zx::time(), nullptr) == ZX_OK] *)
Definition wait_one_signaled (e : zx_event) : bool :=
  match e with Event true => true | _ => false end.

(** [event.signal(ZX_EVENT_SIGNALED, 0)]: clears the bit. *)
Definition unsignal (e : zx_event) : zx_event :=
  match e with Event _ => Event false | EventInvalid => EventInvalid end.

(** [event.signal(0, ZX_EVENT_SIGNALED)]: sets the bit. *)
Definition signal (e : zx_event) : zx_event :=
  match e with Event _ => Event true | EventInvalid => EventInvalid end.

Record FrameEventData := {
  fe_wait_event : zx_event;
  fe_signal_event : zx_event;
  fe_wait_id : N;
  fe_signal_id : N }.

Record ImageEventData := {
  signal_event : zx_event;
  signal_id : N }.

(** What [operator[]] value-initialises for a missing key. *)
Definition ImageEventData_default : ImageEventData :=
  {| signal_event := EventInvalid; signal_id := 0 |}.

Record DisplayEngineData := {
  layers : list N;
  render_targets : list ImageMetadata;
  protected_render_targets : list ImageMetadata;
  frame_event_datas : list FrameEventData;
  vmo_count : N;
  curr_vmo : N }.

Record ApplyConfigInfo := {
  config_stamp : N;
  frame_number : N }.

Record ColorConversionData := {
  coefficients : list spec_float;
  preoffsets : list spec_float;
  postoffsets : list spec_float }.

(** ** The colour-conversion state machine

    [ColorConversionStateMachine] is declared and defined outside this
    file; [RenderFrame] only drives it. *)
Module ColorConversionStateMachine.

Inductive t :=
| Idle
| Dirty (cc : ColorConversionData)
| AppliedDirect (cc : ColorConversionData)
| AppliedGPU (cc : ColorConversionData).

Definition kDefaultColorConversionOffsets : list spec_float :=
  [Float32.zero; Float32.zero; Float32.zero].

Definition kDefaultColorConversionCoefficients : list spec_float :=
  [Float32.one; Float32.zero; Float32.zero;
   Float32.zero; Float32.one; Float32.zero;
   Float32.zero; Float32.zero; Float32.one].

Definition floats_eqb (a b : list spec_float) : bool :=
  (length a =? length b)%nat && forallb (fun '(x, y) => Float32.eqb x y) (combine a b).

Definition is_identity (cc : ColorConversionData) : bool :=
  floats_eqb (coefficients cc) kDefaultColorConversionCoefficients
  && floats_eqb (preoffsets cc) kDefaultColorConversionOffsets
  && floats_eqb (postoffsets cc) kDefaultColorConversionOffsets.

(** Modelled from the spec: the class [ColorConversionStateMachine], whose
    source is not part of this file.  "Client call set(cc) transitions to
    Dirty(cc)." *)
Definition SetData (cc : ColorConversionData) (s : t) : t := Dirty cc.

(** Modelled from the spec: [ColorConversionStateMachine::GetDataToApply],
    "returns cc only when Dirty; otherwise None". *)
Definition GetDataToApply (s : t) : option ColorConversionData :=
  match s with Dirty cc => Some cc | _ => None end.

(** Modelled from the spec: [ColorConversionStateMachine::SetApplyConfigSucceeded],
    "on successful direct apply with CC consumed: mark_applied_direct()". *)
Definition SetApplyConfigSucceeded (s : t) : t :=
  match s with Dirty cc => AppliedDirect cc | _ => s end.

(** Modelled from the spec: [ColorConversionStateMachine::GpuRequiresDisplayClearing],
    "true iff the previous direct apply installed a non-identity CC still
    on the display". *)
Definition GpuRequiresDisplayClearing (s : t) : bool :=
  match s with AppliedDirect cc => negb (is_identity cc) | _ => false end.

(** Modelled from the spec: [ColorConversionStateMachine::DisplayCleared],
    "after clearing, mark_display_cleared()": the data is again to be
    applied, now by the renderer. *)
Definition DisplayCleared (s : t) : t :=
  match s with AppliedDirect cc => Dirty cc | _ => s end.

End ColorConversionStateMachine.

(** ** Calls to the collaborators *)

Inductive Transform :=
| IDENTITY | REFLECT_X | REFLECT_Y | ROT_90 | ROT_180 | ROT_270
| ROT_90_REFLECT_X | ROT_90_REFLECT_Y.

Record Frame := { x_pos : N; y_pos : N; f_width : N; f_height : N }.

(** One constructor per call the file makes.  Channels (tokens, collection
    pointers) and kernel handles are numbers chosen by the environment. *)
Inductive Call :=
(* sysmem *)
| AllocatorAllocateSharedCollection
| TokenDuplicateSync (token : N) (copies : nat)
| TokenClose (token : N)
| AllocatorBindSharedCollection (token : N)
| CollectionSync (c : N)
| CollectionAttachToken (c : N)
| CollectionClose (c : N)
| CollectionSetConstraints (c : N) (has_constraints : bool)
| CollectionSetName (c : N) (protected : bool)
| CollectionCheckBuffersAllocated (c : N)
| CollectionWaitForBuffersAllocated (c : N)
(* renderer *)
| RendererImportBufferCollection (id token : N) (usage : BufferCollectionUsage)
| RendererReleaseBufferCollection (id : N) (usage : BufferCollectionUsage)
| RendererImportBufferImage (metadata : ImageMetadata) (usage : BufferCollectionUsage)
| RendererReleaseBufferImage (id : N)
| RendererRender (target : ImageMetadata) (rects : list ImageRect)
    (imgs : list ImageMetadata) (with_render_finished_fence : bool) (apply_cc : bool)
| RendererSetColorConversionValues (cc : ColorConversionData)
(* display controller *)
| DcImportBufferCollection (id token : N) (cfg : ImageConfig)
| DcReleaseBufferCollection (id : N)
| DcImportImage2 (cfg : ImageConfig) (cid iid vmo : N)
| DcReleaseImage (id : N)
| DcCreateLayer
| DcSetDisplayLayers (display : N) (ls : list N)
| DcSetLayerPrimaryConfig (layer : N) (cfg : ImageConfig)
| DcSetLayerPrimaryPosition (layer : N) (t : Transform) (src dst : Frame)
| DcSetLayerPrimaryAlpha (layer : N) (mode : AlphaMode) (alpha : spec_float)
| DcSetLayerImage (layer image wait_id sig_id : N)
| DcSetLayerColorConfig (layer : N) (format : zx_pixel_format_t) (col : list (option Z))
| DcSetDisplayColorConversion (display : N) (pre coeff post : list spec_float)
| DcCheckConfig (discard : bool)
| DcApplyConfig
| DcGetLatestAppliedConfigStamp
| DcImportEvent (id : N)
| DcSetMinimumRgb (v : N)
| DisplaySetVsyncCallback (display : N)
(* id generators of allocation/id.h *)
| GenerateUniqueBufferCollectionId
| GenerateUniqueImageId
(* release-fence manager *)
| RfmOnGpuCompositedFrame (frame : N) (release_fences : list N) (callback : N)
| RfmOnDirectScanoutFrame (frame : N) (release_fences : list N) (callback : N)
| RfmOnVsync (frame : N) (timestamp : Z).

(** The answers of the collaborators, each a function of the calls made so
    far, and the helpers of other files that this one calls. *)
Record Env := {
  (** status of a call: [true] is [ZX_OK] / [true] / [ConfigResult::OK] *)
  env_status : list Call -> Call -> bool;
  (** the second status some sysmem and controller calls return by pointer *)
  env_out_status : list Call -> Call -> bool;
  (** the [k]-th channel or object id a creating call hands back *)
  env_handle : list Call -> nat -> N;
  env_stamp : list Call -> N;
  env_pixel_format : list Call -> PixelFormat;
  RequiresRenderInProtected : list Call -> list ImageMetadata -> bool;
  SupportsRenderInProtected : bool;
  ChoosePreferredPixelFormat : list zx_pixel_format_t -> zx_pixel_format_t;
  (** the constant [kDisableDisplayComposition] of the header *)
  kDisableDisplayComposition : bool;
  DisplaySrcDstFrames_New : ImageRect -> ImageMetadata -> Frame * Frame;
  GetDisplayTransformFromOrientationAndFlip : Orientation -> ImageFlip -> Transform }.

(** ** The compositor's state *)

Record World := {
  import_mode_ : BufferCollectionImportMode;
  display_buffer_collection_ptrs_ : gmap N N;
  buffer_collection_supports_display_ : gmap N bool;
  buffer_collection_pixel_format_ : gmap N PixelFormat;
  image_event_map_ : gmap N ImageEventData;
  pending_images_in_config_ : list N;
  pending_apply_configs_ : list ApplyConfigInfo;
  last_presented_config_stamp_ : option N;
  display_engine_data_map_ : gmap N DisplayEngineData;
  display_info_map_ : gmap N DisplayInfo;
  cc_state_machine_ : ColorConversionStateMachine.t;
  (** calls made to the collaborators, oldest first *)
  trace : list Call;
  (** the id generator of [scenic_impl::ImportEvent] *)
  next_event_id : N }.

Definition set_display_buffer_collection_ptrs_ (f : gmap N N -> gmap N N) (w : World) : World :=
  {| import_mode_ := import_mode_ w;
     display_buffer_collection_ptrs_ := f (display_buffer_collection_ptrs_ w);
     buffer_collection_supports_display_ := buffer_collection_supports_display_ w;
     buffer_collection_pixel_format_ := buffer_collection_pixel_format_ w;
     image_event_map_ := image_event_map_ w;
     pending_images_in_config_ := pending_images_in_config_ w;
     pending_apply_configs_ := pending_apply_configs_ w;
     last_presented_config_stamp_ := last_presented_config_stamp_ w;
     display_engine_data_map_ := display_engine_data_map_ w;
     display_info_map_ := display_info_map_ w;
     cc_state_machine_ := cc_state_machine_ w;
     trace := trace w;
     next_event_id := next_event_id w |}.

Definition set_buffer_collection_supports_display_ (f : gmap N bool -> gmap N bool) (w : World) : World :=
  {| import_mode_ := import_mode_ w;
     display_buffer_collection_ptrs_ := display_buffer_collection_ptrs_ w;
     buffer_collection_supports_display_ := f (buffer_collection_supports_display_ w);
     buffer_collection_pixel_format_ := buffer_collection_pixel_format_ w;
     image_event_map_ := image_event_map_ w;
     pending_images_in_config_ := pending_images_in_config_ w;
     pending_apply_configs_ := pending_apply_configs_ w;
     last_presented_config_stamp_ := last_presented_config_stamp_ w;
     display_engine_data_map_ := display_engine_data_map_ w;
     display_info_map_ := display_info_map_ w;
     cc_state_machine_ := cc_state_machine_ w;
     trace := trace w;
     next_event_id := next_event_id w |}.

Definition set_buffer_collection_pixel_format_ (f : gmap N PixelFormat -> gmap N PixelFormat) (w : World) : World :=
  {| import_mode_ := import_mode_ w;
     display_buffer_collection_ptrs_ := display_buffer_collection_ptrs_ w;
     buffer_collection_supports_display_ := buffer_collection_supports_display_ w;
     buffer_collection_pixel_format_ := f (buffer_collection_pixel_format_ w);
     image_event_map_ := image_event_map_ w;
     pending_images_in_config_ := pending_images_in_config_ w;
     pending_apply_configs_ := pending_apply_configs_ w;
     last_presented_config_stamp_ := last_presented_config_stamp_ w;
     display_engine_data_map_ := display_engine_data_map_ w;
     display_info_map_ := display_info_map_ w;
     cc_state_machine_ := cc_state_machine_ w;
     trace := trace w;
     next_event_id := next_event_id w |}.

Definition set_image_event_map_ (f : gmap N ImageEventData -> gmap N ImageEventData) (w : World) : World :=
  {| import_mode_ := import_mode_ w;
     display_buffer_collection_ptrs_ := display_buffer_collection_ptrs_ w;
     buffer_collection_supports_display_ := buffer_collection_supports_display_ w;
     buffer_collection_pixel_format_ := buffer_collection_pixel_format_ w;
     image_event_map_ := f (image_event_map_ w);
     pending_images_in_config_ := pending_images_in_config_ w;
     pending_apply_configs_ := pending_apply_configs_ w;
     last_presented_config_stamp_ := last_presented_config_stamp_ w;
     display_engine_data_map_ := display_engine_data_map_ w;
     display_info_map_ := display_info_map_ w;
     cc_state_machine_ := cc_state_machine_ w;
     trace := trace w;
     next_event_id := next_event_id w |}.

Definition set_pending_images_in_config_ (f : list N -> list N) (w : World) : World :=
  {| import_mode_ := import_mode_ w;
     display_buffer_collection_ptrs_ := display_buffer_collection_ptrs_ w;
     buffer_collection_supports_display_ := buffer_collection_supports_display_ w;
     buffer_collection_pixel_format_ := buffer_collection_pixel_format_ w;
     image_event_map_ := image_event_map_ w;
     pending_images_in_config_ := f (pending_images_in_config_ w);
     pending_apply_configs_ := pending_apply_configs_ w;
     last_presented_config_stamp_ := last_presented_config_stamp_ w;
     display_engine_data_map_ := display_engine_data_map_ w;
     display_info_map_ := display_info_map_ w;
     cc_state_machine_ := cc_state_machine_ w;
     trace := trace w;
     next_event_id := next_event_id w |}.

Definition set_pending_apply_configs_ (f : list ApplyConfigInfo -> list ApplyConfigInfo) (w : World) : World :=
  {| import_mode_ := import_mode_ w;
     display_buffer_collection_ptrs_ := display_buffer_collection_ptrs_ w;
     buffer_collection_supports_display_ := buffer_collection_supports_display_ w;
     buffer_collection_pixel_format_ := buffer_collection_pixel_format_ w;
     image_event_map_ := image_event_map_ w;
     pending_images_in_config_ := pending_images_in_config_ w;
     pending_apply_configs_ := f (pending_apply_configs_ w);
     last_presented_config_stamp_ := last_presented_config_stamp_ w;
     display_engine_data_map_ := display_engine_data_map_ w;
     display_info_map_ := display_info_map_ w;
     cc_state_machine_ := cc_state_machine_ w;
     trace := trace w;
     next_event_id := next_event_id w |}.

Definition set_last_presented_config_stamp_ (v : option N) (w : World) : World :=
  {| import_mode_ := import_mode_ w;
     display_buffer_collection_ptrs_ := display_buffer_collection_ptrs_ w;
     buffer_collection_supports_display_ := buffer_collection_supports_display_ w;
     buffer_collection_pixel_format_ := buffer_collection_pixel_format_ w;
     image_event_map_ := image_event_map_ w;
     pending_images_in_config_ := pending_images_in_config_ w;
     pending_apply_configs_ := pending_apply_configs_ w;
     last_presented_config_stamp_ := v;
     display_engine_data_map_ := display_engine_data_map_ w;
     display_info_map_ := display_info_map_ w;
     cc_state_machine_ := cc_state_machine_ w;
     trace := trace w;
     next_event_id := next_event_id w |}.

Definition set_display_engine_data_map_ (f : gmap N DisplayEngineData -> gmap N DisplayEngineData) (w : World) : World :=
  {| import_mode_ := import_mode_ w;
     display_buffer_collection_ptrs_ := display_buffer_collection_ptrs_ w;
     buffer_collection_supports_display_ := buffer_collection_supports_display_ w;
     buffer_collection_pixel_format_ := buffer_collection_pixel_format_ w;
     image_event_map_ := image_event_map_ w;
     pending_images_in_config_ := pending_images_in_config_ w;
     pending_apply_configs_ := pending_apply_configs_ w;
     last_presented_config_stamp_ := last_presented_config_stamp_ w;
     display_engine_data_map_ := f (display_engine_data_map_ w);
     display_info_map_ := display_info_map_ w;
     cc_state_machine_ := cc_state_machine_ w;
     trace := trace w;
     next_event_id := next_event_id w |}.

Definition set_display_info_map_ (f : gmap N DisplayInfo -> gmap N DisplayInfo) (w : World) : World :=
  {| import_mode_ := import_mode_ w;
     display_buffer_collection_ptrs_ := display_buffer_collection_ptrs_ w;
     buffer_collection_supports_display_ := buffer_collection_supports_display_ w;
     buffer_collection_pixel_format_ := buffer_collection_pixel_format_ w;
     image_event_map_ := image_event_map_ w;
     pending_images_in_config_ := pending_images_in_config_ w;
     pending_apply_configs_ := pending_apply_configs_ w;
     last_presented_config_stamp_ := last_presented_config_stamp_ w;
     display_engine_data_map_ := display_engine_data_map_ w;
     display_info_map_ := f (display_info_map_ w);
     cc_state_machine_ := cc_state_machine_ w;
     trace := trace w;
     next_event_id := next_event_id w |}.

Definition set_cc_state_machine_ (f : ColorConversionStateMachine.t -> ColorConversionStateMachine.t) (w : World) : World :=
  {| import_mode_ := import_mode_ w;
     display_buffer_collection_ptrs_ := display_buffer_collection_ptrs_ w;
     buffer_collection_supports_display_ := buffer_collection_supports_display_ w;
     buffer_collection_pixel_format_ := buffer_collection_pixel_format_ w;
     image_event_map_ := image_event_map_ w;
     pending_images_in_config_ := pending_images_in_config_ w;
     pending_apply_configs_ := pending_apply_configs_ w;
     last_presented_config_stamp_ := last_presented_config_stamp_ w;
     display_engine_data_map_ := display_engine_data_map_ w;
     display_info_map_ := display_info_map_ w;
     cc_state_machine_ := f (cc_state_machine_ w);
     trace := trace w;
     next_event_id := next_event_id w |}.

Definition set_trace (f : list Call -> list Call) (w : World) : World :=
  {| import_mode_ := import_mode_ w;
     display_buffer_collection_ptrs_ := display_buffer_collection_ptrs_ w;
     buffer_collection_supports_display_ := buffer_collection_supports_display_ w;
     buffer_collection_pixel_format_ := buffer_collection_pixel_format_ w;
     image_event_map_ := image_event_map_ w;
     pending_images_in_config_ := pending_images_in_config_ w;
     pending_apply_configs_ := pending_apply_configs_ w;
     last_presented_config_stamp_ := last_presented_config_stamp_ w;
     display_engine_data_map_ := display_engine_data_map_ w;
     display_info_map_ := display_info_map_ w;
     cc_state_machine_ := cc_state_machine_ w;
     trace := f (trace w);
     next_event_id := next_event_id w |}.

Definition set_next_event_id (f : N -> N) (w : World) : World :=
  {| import_mode_ := import_mode_ w;
     display_buffer_collection_ptrs_ := display_buffer_collection_ptrs_ w;
     buffer_collection_supports_display_ := buffer_collection_supports_display_ w;
     buffer_collection_pixel_format_ := buffer_collection_pixel_format_ w;
     image_event_map_ := image_event_map_ w;
     pending_images_in_config_ := pending_images_in_config_ w;
     pending_apply_configs_ := pending_apply_configs_ w;
     last_presented_config_stamp_ := last_presented_config_stamp_ w;
     display_engine_data_map_ := display_engine_data_map_ w;
     display_info_map_ := display_info_map_ w;
     cc_state_machine_ := cc_state_machine_ w;
     trace := trace w;
     next_event_id := f (next_event_id w) |}.

(** ** The state-and-failure monad *)

Definition M (A : Type) : Type := World -> option (A * World).

Definition ret {A} (a : A) : M A := fun w => Some (a, w).

Definition bind {A B} (m : M A) (k : A -> M B) : M B :=
  fun w => match m w with
           | Some (a, w') => k a w'
           | None => None
           end.

(** Termination of the process: an exception nobody catches, a failed
    [FX_CHECK], or behaviour the language leaves undefined. *)
Definition crash {A} : M A := fun _ => None.

Definition get : M World := fun w => Some (w, w).
Definition modify (f : World -> World) : M unit := fun w => Some (tt, f w).

Declare Scope comp_scope.
Delimit Scope comp_scope with comp.
Notation "x <- m ;; k" := (bind m (fun x => k))
  (at level 100, m at next level, right associativity) : comp_scope.
Notation "m ;;; k" := (bind m (fun _ => k))
  (at level 100, right associativity) : comp_scope.
Local Open Scope comp_scope.

(** [for (i = 0; i < n; i++) body], where the body may [return r]. *)
Fixpoint for_range {R} (i : nat) (n : nat) (body : nat -> M (option R)) : M (option R) :=
  match n with
  | O => ret None
  | S n' =>
      r <- body i ;;
      match r with
      | Some v => ret (Some v)
      | None => for_range (S i) n' body
      end
  end.

(** [for (auto x : xs) body], where the body may [return r]. *)
Fixpoint for_each {A R} (xs : list A) (body : A -> M (option R)) : M (option R) :=
  match xs with
  | [] => ret None
  | x :: xs' =>
      r <- body x ;;
      match r with
      | Some v => ret (Some v)
      | None => for_each xs' body
      end
  end.

(** ** The methods of [display_compositor.cc] *)

Section Compositor.

Variable env : Env.

(** A call to a collaborator: appended to the trace, answered by [env]. *)
Definition call (c : Call) : M bool :=
  fun w => Some (env_status env (trace w) c, set_trace (fun t => t ++ [c]) w).

(** A call with a second status returned through a pointer. *)
Definition call2 (c : Call) : M (bool * bool) :=
  fun w => Some ((env_status env (trace w) c, env_out_status env (trace w) c),
                 set_trace (fun t => t ++ [c]) w).

Definition call_ (c : Call) : M unit := _ <- call c ;; ret tt.

(** The [k]-th object created by the call just made. *)
Definition new_handle (k : nat) : M N := w <- get ;; ret (env_handle env (trace w) k).

Definition ConvertZirconFormatToSysmemFormat (format : zx_pixel_format_t)
  : option PixelFormatType :=
  match format with
  | ZX_PIXEL_FORMAT_RGB_x888 | ZX_PIXEL_FORMAT_ARGB_8888 => Some BGRA32
  | ZX_PIXEL_FORMAT_BGR_888x | ZX_PIXEL_FORMAT_ABGR_8888 => Some R8G8B8A8
  | ZX_PIXEL_FORMAT_NV12 => Some NV12
  | ZX_PIXEL_FORMAT_I420 => Some I420
  | ZX_PIXEL_FORMAT_NONE => None
  end.

(** [None] is the failed [FX_CHECK]. *)
Definition BufferCollectionPixelFormatToZirconFormat (pixel_format : PixelFormat)
  : option zx_pixel_format_t :=
  match pf_type pixel_format with
  | BGRA32 => Some ZX_PIXEL_FORMAT_ARGB_8888
  | R8G8B8A8 => Some ZX_PIXEL_FORMAT_ABGR_8888
  | NV12 => Some ZX_PIXEL_FORMAT_NV12
  | I420 => Some ZX_PIXEL_FORMAT_I420
  | OtherPixelFormatType _ => None
  end.

Definition TYPE_SIMPLE : N := 0.

Definition BufferCollectionPixelFormatToImageType (pixel_format : PixelFormat) : N :=
  if has_format_modifier pixel_format then
    match format_modifier pixel_format with
    | FORMAT_MODIFIER_INTEL_I915_X_TILED => 1
    | FORMAT_MODIFIER_INTEL_I915_Y_TILED => 2
    | FORMAT_MODIFIER_INTEL_I915_YF_TILED => 3
    | OtherFormatModifier _ => TYPE_SIMPLE
    end
  else TYPE_SIMPLE.

Definition GetAlphaMode (blend_mode : BlendMode) : AlphaMode :=
  match blend_mode with
  | SRC => DISABLE
  | SRC_OVER => PREMULTIPLIED
  end.

(** Returns the duplicate, or [None] where the source returns an error
    string. *)
Definition DuplicateToken (token : N) : M (option N) :=
  ok <- call (TokenDuplicateSync token 1) ;;
  if ok then (h <- new_handle 0 ;; ret (Some h)) else ret None.

Definition ConvertToAttachToken (token : N) : M (option N) :=
  call_ (AllocatorBindSharedCollection token) ;;;
  c <- new_handle 0 ;;
  ok <- call (CollectionSync c) ;;
  if negb ok then ret None else
  ok <- call (CollectionAttachToken c) ;;
  attach_token <- new_handle 0 ;;
  if negb ok then ret None else
  ok <- call (CollectionClose c) ;;
  if negb ok then ret None else
  ret (Some attach_token).

Definition CreateBufferCollectionPtrWithEmptyConstraints (token : N) : M (option N) :=
  d <- DuplicateToken token ;;
  match d with
  | None => ret None
  | Some token_dup =>
      call_ (AllocatorBindSharedCollection token_dup) ;;;
      buffer_collection <- new_handle 0 ;;
      ok <- call (CollectionSetConstraints buffer_collection false) ;;
      if negb ok then ret None else ret (Some buffer_collection)
  end.

Definition IsValidBufferImage (metadata : ImageMetadata) : bool :=
  if identifier metadata =? 0 then false
  else if collection_id metadata =? kInvalidId then false
  else if (width metadata =? 0) || (height metadata =? 0) then false
  else true.

Definition CheckBuffersAllocated (token : N) : M bool :=
  st <- call2 (CollectionCheckBuffersAllocated token) ;;
  let '(check_status, out) := st in
  let allocation_status := if check_status then out else true in
  ret (check_status && allocation_status).

Definition GetPixelFormat (token : N) : M PixelFormat :=
  call_ (CollectionWaitForBuffersAllocated token) ;;;
  w <- get ;;
  ret (env_pixel_format env (trace w)).

Definition IsYUV (format : PixelFormat) : bool :=
  match pf_type format with
  | NV12 | I420 => true
  | _ => false
  end.

Definition DetermineDisplaySupportFor (token : N) : M (option PixelFormat) :=
  image_supports_display <- CheckBuffersAllocated token ;;
  if negb image_supports_display then ret None else
  pixel_format <- GetPixelFormat token ;;
  call_ (CollectionClose token) ;;;
  if IsYUV pixel_format then ret None else ret (Some pixel_format).

Definition ImageConfig_none : ImageConfig :=
  {| ic_width := 0; ic_height := 0; ic_pixel_format := ZX_PIXEL_FORMAT_NONE; ic_type := 0 |}.

Definition ImportBufferCollection (collection_id token : N) (usage : BufferCollectionUsage)
  : M bool :=
  let renderer_token := token in
  d <- DuplicateToken renderer_token ;;
  match d with
  | None => ret false
  | Some display_token =>
      ok <- call (RendererImportBufferCollection collection_id renderer_token usage) ;;
      if negb ok then ret false else
      w <- get ;;
      r <- match import_mode_ w with
           | RendererOnly =>
               call_ (TokenClose display_token) ;;;
               ret (inl true)
           | EnforceDisplayConstraints => ret (inr display_token)
           | AttemptDisplayConstraints =>
               a <- ConvertToAttachToken display_token ;;
               match a with
               | Some attach_token => ret (inr attach_token)
               | None => ret (inl false)
               end
           end ;;
      match r with
      | inl result => ret result
      | inr display_token =>
          c <- CreateBufferCollectionPtrWithEmptyConstraints display_token ;;
          match c with
          | None => ret false
          | Some collection_ptr =>
              modify (set_display_buffer_collection_ptrs_ (<[collection_id := collection_ptr]>)) ;;;
              call (DcImportBufferCollection collection_id display_token ImageConfig_none)
          end
      end
  end.

Definition ReleaseBufferCollection (collection_id : N) (usage : BufferCollectionUsage) : M unit :=
  call_ (DcReleaseBufferCollection collection_id) ;;;
  call_ (RendererReleaseBufferCollection collection_id usage) ;;;
  modify (set_display_buffer_collection_ptrs_ (delete collection_id)) ;;;
  modify (set_buffer_collection_supports_display_ (delete collection_id)).

(** Dereferencing the end iterator (the [FX_DCHECK] is compiled out of
    release builds) is undefined. *)
Definition TakeDisplayBufferCollectionPtr (collection_id : N) : M N :=
  w <- get ;;
  match display_buffer_collection_ptrs_ w !! collection_id with
  | None => crash
  | Some token =>
      modify (set_display_buffer_collection_ptrs_ (delete collection_id)) ;;;
      ret token
  end.

(** [.at()] throws on a missing key. *)
Definition CreateImageConfig (metadata : ImageMetadata) : M ImageConfig :=
  w <- get ;;
  match buffer_collection_pixel_format_ w !! collection_id metadata with
  | None => crash
  | Some pixel_format =>
      match BufferCollectionPixelFormatToZirconFormat pixel_format with
      | None => crash
      | Some zf =>
          ret {| ic_width := width metadata;
                 ic_height := height metadata;
                 ic_pixel_format := zf;
                 ic_type := BufferCollectionPixelFormatToImageType pixel_format |}
      end
  end.

(** [buffer_collection_supports_display_[id]]: [operator[]] inserts [false]
    for a missing key. *)
Definition supports_display_index (id : N) : M bool :=
  w <- get ;;
  match buffer_collection_supports_display_ w !! id with
  | Some b => ret b
  | None =>
      modify (set_buffer_collection_supports_display_ (<[id := false]>)) ;;;
      ret false
  end.

Definition ImportBufferImage (metadata : ImageMetadata) (usage : BufferCollectionUsage)
  : M bool :=
  if negb (IsValidBufferImage metadata) then ret false else
  ok <- call (RendererImportBufferImage metadata usage) ;;
  if negb ok then ret false else
  let collection_id := collection_id metadata in
  w <- get ;;
  let display_support_already_set :=
    bool_decide (is_Some (buffer_collection_supports_display_ w !! collection_id)) in
  if match import_mode_ w with RendererOnly => true | _ => false end
     && (negb display_support_already_set
         || negb (default false (buffer_collection_supports_display_ w !! collection_id)))
  then
    modify (set_buffer_collection_supports_display_ (<[collection_id := false]>)) ;;;
    ret true
  else
  (if negb display_support_already_set then
     token <- TakeDisplayBufferCollectionPtr collection_id ;;
     pixel_format <- DetermineDisplaySupportFor token ;;
     modify (set_buffer_collection_supports_display_
               (<[collection_id := bool_decide (is_Some pixel_format)]>)) ;;;
     match pixel_format with
     | Some pf => modify (set_buffer_collection_pixel_format_ (<[collection_id := pf]>))
     | None => ret tt
     end
   else ret tt) ;;;
  supported <- supports_display_index collection_id ;;
  if negb supported then
    w <- get ;;
    match import_mode_ w with
    | AttemptDisplayConstraints => ret true
    | EnforceDisplayConstraints => ret false
    | RendererOnly => ret false
    end
  else
  image_config <- CreateImageConfig metadata ;;
  st <- call2 (DcImportImage2 image_config collection_id
                 (identifier metadata) (vmo_index metadata)) ;;
  let '(status, out) := st in
  let import_image_status := if status then out else true in
  if negb import_image_status then ret false else ret true.

Definition ReleaseBufferImage (image_id : N) : M unit :=
  call_ (DcReleaseImage image_id) ;;;
  call_ (RendererReleaseBufferImage image_id) ;;;
  modify (set_image_event_map_ (delete image_id)).

Definition CreateDisplayLayer : M N :=
  st <- call2 DcCreateLayer ;;
  let '(transport_status, create_layer_status) := st in
  layer_id <- new_handle 0 ;;
  if negb create_layer_status || negb transport_status then ret 0 else ret layer_id.

Definition SetDisplayLayers (display_id : N) (layers : list N) : M unit :=
  call_ (DcSetDisplayLayers display_id layers).

(** Modelled from the spec: [scenic_impl::ImportEvent], a helper of another
    file ([import_event(handle) → id]): the event is registered with the
    display controller under an id drawn from a generator, so no two events
    share an id. *)
Definition ImportEvent : M N :=
  w <- get ;;
  let id := next_event_id w in
  modify (set_next_event_id N.succ) ;;;
  call_ (DcImportEvent id) ;;;
  ret id.

Definition NewFrameEventData : M FrameEventData :=
  wait_id <- ImportEvent ;;
  signal_id <- ImportEvent ;;
  ret {| fe_wait_event := Event false;
         fe_signal_event := signal (Event false);
         fe_wait_id := wait_id;
         fe_signal_id := signal_id |}.

Definition NewImageEventData : M ImageEventData :=
  let result_signal_event := signal (Event false) in
  signal_id <- ImportEvent ;;
  ret {| signal_event := result_signal_event; signal_id := signal_id |}.

(** [static_cast<uint8_t>(255 * c)]; [None] marks a component whose
    conversion the language leaves undefined. *)
Definition color_component (c : spec_float) : option Z :=
  Float32.to_uint8 (Float32.mul (Float32.of_Z 255) c).

Definition ApplyLayerColor (layer_id : N) (rectangle : ImageRect) (image : ImageMetadata)
  : M unit :=
  let '(c0, c1, c2, c3) := multiply_color image in
  let col := [color_component c0; color_component c1;
              color_component c2; color_component c3] in
  call_ (DcSetLayerColorConfig layer_id ZX_PIXEL_FORMAT_ARGB_8888 col).

Definition ApplyLayerImage (layer_id : N) (rectangle : ImageRect) (image : ImageMetadata)
    (wait_id signal_id : N) : M unit :=
  let '(src, dst) := DisplaySrcDstFrames_New env rectangle image in
  let transform :=
    GetDisplayTransformFromOrientationAndFlip env (orientation rectangle) (flip image) in
  let alpha_mode := GetAlphaMode (blend_mode image) in
  w <- get ;;
  match buffer_collection_pixel_format_ w !! collection_id image with
  | None => crash
  | Some _ =>
      image_config <- CreateImageConfig image ;;
      call_ (DcSetLayerPrimaryConfig layer_id image_config) ;;;
      call_ (DcSetLayerPrimaryPosition layer_id transform src dst) ;;;
      let '(_, _, _, alpha) := multiply_color image in
      call_ (DcSetLayerPrimaryAlpha layer_id alpha_mode alpha) ;;;
      call_ (DcSetLayerImage layer_id (identifier image) wait_id signal_id)
  end.

Definition uint32 (n : N) : N := n mod 2 ^ 32.

(** [v[i]] on a vector; reading past the end is undefined. *)
Definition index {A} (v : list A) (i : nat) : M A :=
  match v !! i with
  | Some a => ret a
  | None => crash
  end.

(** [image_event_map_[id]]: [operator[]] inserts a value-initialised entry
    for a missing key. *)
Definition image_event_index (id : N) : M ImageEventData :=
  w <- get ;;
  match image_event_map_ w !! id with
  | Some e => ret e
  | None =>
      modify (set_image_event_map_ (<[id := ImageEventData_default]>)) ;;;
      ret ImageEventData_default
  end.

Definition DisplayInfo_default : DisplayInfo := {| dimensions := (0, 0); formats := [] |}.

(** [display_info_map_[id]], with the same insertion. *)
Definition display_info_index (id : N) : M DisplayInfo :=
  w <- get ;;
  match display_info_map_ w !! id with
  | Some d => ret d
  | None =>
      modify (set_display_info_map_ (<[id := DisplayInfo_default]>)) ;;;
      ret DisplayInfo_default
  end.

(** The test of lines 531-533: the rectangle starts at the origin and is as
    large as the display. *)
Definition covers_display (rect : ImageRect) (display_size : N * N) : bool :=
  Float32.eqb (vx (origin rect)) Float32.zero
  && Float32.eqb (vy (origin rect)) Float32.zero
  && Float32.eqb (vx (extent rect)) (Float32.of_Z (Z.of_N (fst display_size)))
  && Float32.eqb (vy (extent rect)) (Float32.of_Z (Z.of_N (snd display_size))).

(** The body of the first loop of [SetRenderDataOnDisplay]. *)
Definition check_image_event (data : RenderData) (i : nat) : M (option bool) :=
  img <- index (images data) i ;;
  let image_id := identifier img in
  w <- get ;;
  match image_event_map_ w !! image_id with
  | None =>
      e <- NewImageEventData ;;
      modify (set_image_event_map_ (<[image_id := e]>)) ;;;
      modify (set_pending_images_in_config_ (fun l => l ++ [image_id])) ;;;
      ret None
  | Some e =>
      if negb (wait_one_signaled (signal_event e)) then ret (Some false)
      else
        modify (set_pending_images_in_config_ (fun l => l ++ [image_id])) ;;;
        ret None
  end.

(** The body of its second loop. *)
Definition assign_layer (data : RenderData) (layers : list N) (i : nat) : M (option bool) :=
  img <- index (images data) i ;;
  let image_id := identifier img in
  if negb (image_id =? kInvalidImageId) then
    supported <- supports_display_index (collection_id img) ;;
    if supported then
      layer <- index layers i ;;
      rect <- index (rectangles data) i ;;
      e <- image_event_index image_id ;;
      ApplyLayerImage layer rect img 0 (signal_id e) ;;;
      ret None
    else ret (Some false)
  else
    rect <- index (rectangles data) i ;;
    info <- display_info_index (display_id data) ;;
    let display_size := dimensions info in
    if (Nat.eqb i 0) && covers_display rect display_size then
      layer <- index layers i ;;
      ApplyLayerColor layer rect img ;;;
      ret None
    else ret (Some false).

Definition SetRenderDataOnDisplay (data : RenderData) : M bool :=
  let num_images := uint32 (N.of_nat (length (images data))) in
  w <- get ;;
  match display_engine_data_map_ w !! display_id data with
  | None => crash
  | Some engine_data =>
      let layers := layers engine_data in
      if N.of_nat (length layers) <? num_images then ret false else
      r <- for_range 0 (N.to_nat num_images) (check_image_event data) ;;
      match r with
      | Some b => ret b
      | None =>
          SetDisplayLayers (display_id data) (take (N.to_nat num_images) layers) ;;;
          r <- for_range 0 (N.to_nat num_images) (assign_layer data layers) ;;
          match r with
          | Some b => ret b
          | None => ret true
          end
      end
  end.

Definition CheckConfig : M bool := call (DcCheckConfig false).

Definition DiscardConfig : M unit :=
  modify (set_pending_images_in_config_ (fun _ => [])) ;;;
  call_ (DcCheckConfig true).

Definition ApplyConfig : M N :=
  call_ DcApplyConfig ;;;
  call_ DcGetLatestAppliedConfigStamp ;;;
  w <- get ;;
  ret (env_stamp env (trace w)).

Definition set_engine_data (display_id : N) (d : DisplayEngineData) : M unit :=
  modify (set_display_engine_data_map_ (<[display_id := d]>)).

(** The body of the loop of [PerformGpuComposition]: [Some false] is its
    [return false]. *)
Definition compose_display (render_data_list : list RenderData) (i : nat) : M (option bool) :=
  let is_final_display := Nat.eqb i (length render_data_list - 1) in
  render_data <- index render_data_list i ;;
  w <- get ;;
  match display_engine_data_map_ w !! display_id render_data with
  | None => crash
  | Some display_engine_data =>
      (if ColorConversionStateMachine.GpuRequiresDisplayClearing (cc_state_machine_ w) then
         ok <- call (DcSetDisplayColorConversion (display_id render_data)
                       ColorConversionStateMachine.kDefaultColorConversionOffsets
                       ColorConversionStateMachine.kDefaultColorConversionCoefficients
                       ColorConversionStateMachine.kDefaultColorConversionOffsets) ;;
         if negb ok then crash
         else modify (set_cc_state_machine_ ColorConversionStateMachine.DisplayCleared)
       else ret tt) ;;;
      if vmo_count display_engine_data =? 0 then ret (Some false) else
      let curr := curr_vmo display_engine_data in
      let next := uint32 (curr + 1) mod vmo_count display_engine_data in
      w <- get ;;
      let targets :=
        if RequiresRenderInProtected env (trace w) (images render_data)
        then protected_render_targets display_engine_data
        else render_targets display_engine_data in
      render_target <- index targets (N.to_nat curr) ;;
      event_data <- index (frame_event_datas display_engine_data) (N.to_nat curr) ;;
      let event_data' :=
        {| fe_wait_event := unsignal (fe_wait_event event_data);
           fe_signal_event := unsignal (fe_signal_event event_data);
           fe_wait_id := fe_wait_id event_data;
           fe_signal_id := fe_signal_id event_data |} in
      set_engine_data (display_id render_data)
        {| layers := layers display_engine_data;
           render_targets := render_targets display_engine_data;
           protected_render_targets := protected_render_targets display_engine_data;
           frame_event_datas :=
             <[N.to_nat curr := event_data']> (frame_event_datas display_engine_data);
           vmo_count := vmo_count display_engine_data;
           curr_vmo := next |} ;;;
      let apply_cc :=
        bool_decide (is_Some (ColorConversionStateMachine.GetDataToApply (cc_state_machine_ w))) in
      call_ (RendererRender render_target (rectangles render_data) (images render_data)
               is_final_display apply_cc) ;;;
      layer <- index (layers display_engine_data) 0 ;;
      SetDisplayLayers (display_id render_data) [layer] ;;;
      ApplyLayerImage layer
        {| origin := {| vx := Float32.zero; vy := Float32.zero |};
           extent := {| vx := Float32.of_Z (Z.of_N (width render_target));
                        vy := Float32.of_Z (Z.of_N (height render_target)) |};
           orientation := CCW_0_DEGREES |}
        render_target (fe_wait_id event_data) (fe_signal_id event_data) ;;;
      ok <- CheckConfig ;;
      if negb ok then ret (Some false) else ret None
  end.

Definition PerformGpuComposition (frame_number : N) (presentation_time : Z)
    (render_data_list : list RenderData) (release_fences : list N) (callback : N) : M bool :=
  r <- for_range 0 (length render_data_list) (compose_display render_data_list) ;;
  match r with
  | Some b => ret b
  | None =>
      call_ (RfmOnGpuCompositedFrame frame_number release_fences callback) ;;;
      ret true
  end.

(** The body of the loop of [SetRenderDatasOnDisplay]. *)
Definition set_render_data_and_cc (data : RenderData) : M (option bool) :=
  ok <- SetRenderDataOnDisplay data ;;
  if negb ok then ret (Some false) else
  w <- get ;;
  match ColorConversionStateMachine.GetDataToApply (cc_state_machine_ w) with
  | Some cc_data =>
      ok <- call (DcSetDisplayColorConversion (display_id data) (preoffsets cc_data)
                    (coefficients cc_data) (postoffsets cc_data)) ;;
      if negb ok then crash else ret None
  | None => ret None
  end.

Definition SetRenderDatasOnDisplay (render_data_list : list RenderData) : M bool :=
  if kDisableDisplayComposition env then ret false else
  r <- for_each render_data_list set_render_data_and_cc ;;
  match r with
  | Some b => ret b
  | None => ret true
  end.

(** The unsignal loop of [RenderFrame] (lines 774-776). *)
Definition unsignal_image_event (id : N) : M (option unit) :=
  e <- image_event_index id ;;
  modify (set_image_event_map_
            (<[id := {| signal_event := unsignal (signal_event e);
                        signal_id := signal_id e |}]>)) ;;;
  ret None.

(** The tail of [RenderFrame] (lines 788-789), reached by both paths. *)
Definition apply_and_enqueue (frame_number : N) : M unit :=
  config_stamp <- ApplyConfig ;;
  modify (set_pending_apply_configs_
            (fun q => q ++ [{| config_stamp := config_stamp; frame_number := frame_number |}])).

(** The [if] branch of [RenderFrame] (lines 764-768). *)
Definition gpu_branch (frame_number : N) (presentation_time : Z)
    (render_data_list : list RenderData) (release_fences : list N) (callback : N) : M unit :=
  DiscardConfig ;;;
  ok <- PerformGpuComposition frame_number presentation_time render_data_list
          release_fences callback ;;
  if negb ok then ret tt
  else apply_and_enqueue frame_number.

(** The [else] branch of [RenderFrame] (lines 770-780). *)
Definition direct_branch (frame_number : N) (release_fences : list N) (callback : N) : M unit :=
  modify (set_cc_state_machine_ ColorConversionStateMachine.SetApplyConfigSucceeded) ;;;
  w <- get ;;
  _ <- for_each (pending_images_in_config_ w) unsignal_image_event ;;
  call_ (RfmOnDirectScanoutFrame frame_number release_fences callback) ;;;
  apply_and_enqueue frame_number.

(** Lines 755-761: the value of [fallback_to_gpu_composition].  The [||]
    short-circuits: [CheckConfig] is called only when planning succeeded and
    the toggle is off. *)
Definition fallback_to_gpu_composition (render_data_list : list RenderData) : M bool :=
  DiscardConfig ;;;
  ok <- SetRenderDatasOnDisplay render_data_list ;;
  let hardware_failure := negb ok in
  if hardware_failure then ret true
  else if kDisableDisplayComposition env then ret true
  else (ok <- CheckConfig ;; ret (negb ok)).

Definition RenderFrame (frame_number : N) (presentation_time : Z)
    (render_data_list : list RenderData) (release_fences : list N) (callback : N) : M unit :=
  fallback <- fallback_to_gpu_composition render_data_list ;;
  if fallback
  then gpu_branch frame_number presentation_time render_data_list release_fences callback
  else direct_branch frame_number release_fences callback.

(** The [while] loop of [OnVsync]: [n] entries are taken off the head of
    the queue. *)
Fixpoint retire (n : nat) (timestamp : Z) : M unit :=
  match n with
  | O => ret tt
  | S n' =>
      w <- get ;;
      match pending_apply_configs_ w with
      | [] => crash
      | it :: rest =>
          call_ (RfmOnVsync (frame_number it) timestamp) ;;;
          modify (set_pending_apply_configs_ (fun _ => rest)) ;;;
          retire n' timestamp
      end
  end.

Definition OnVsync (timestamp : Z) (applied_config_stamp : N) : M unit :=
  w <- get ;;
  if match last_presented_config_stamp_ w with
     | Some s => applied_config_stamp =? s
     | None => false
     end
  then ret tt
  else
    match list_find (fun info => config_stamp info = applied_config_stamp)
            (pending_apply_configs_ w) with
    | None => ret tt
    | Some (k, _) =>
        retire (S k) timestamp ;;;
        modify (set_last_presented_config_stamp_ (Some applied_config_stamp))
    end.

Definition SetColorConversionValues (cc : ColorConversionData) : M unit :=
  modify (set_cc_state_machine_ (ColorConversionStateMachine.SetData cc)) ;;;
  call_ (RendererSetColorConversionValues cc).

Definition SetMinimumRgb (minimum_rgb : N) : M bool :=
  st <- call2 (DcSetMinimumRgb minimum_rgb) ;;
  let '(status, cmd_ok) := st in
  if negb status || negb cmd_ok then ret false else ret true.

Definition render_target_metadata (collection_id identifier i width height : N) : ImageMetadata :=
  {| collection_id := collection_id;
     identifier := identifier;
     vmo_index := i;
     width := width;
     height := height;
     multiply_color := (Float32.one, Float32.one, Float32.one, Float32.one);
     blend_mode := SRC;
     flip := FLIP_NONE |}.

(** The loop at the end of [AllocateDisplayRenderTargets]. *)
Fixpoint import_render_targets (collection_id width height : N) (i n : nat)
  : M (list ImageMetadata) :=
  match n with
  | O => ret []
  | S n' =>
      call_ GenerateUniqueImageId ;;;
      id <- new_handle 0 ;;
      let target := render_target_metadata collection_id id (N.of_nat i) width height in
      _ <- ImportBufferImage target kRenderTarget ;;
      rest <- import_render_targets collection_id width height (S i) n' ;;
      ret (target :: rest)
  end.

(** [AllocateDisplayRenderTargets], as compiled without
    [CPU_ACCESSIBLE_VMO]. *)
Definition AllocateDisplayRenderTargets (use_protected_memory : bool)
    (num_render_targets : N) (size : N * N) (pixel_format : zx_pixel_format_t)
  : M (list ImageMetadata) :=
  call_ AllocatorAllocateSharedCollection ;;;
  compositor_token <- new_handle 0 ;;
  call_ (TokenDuplicateSync compositor_token 2) ;;;
  renderer_token <- new_handle 0 ;;
  display_token <- new_handle 1 ;;
  call_ GenerateUniqueBufferCollectionId ;;;
  collection_id <- new_handle 0 ;;
  call_ (RendererImportBufferCollection collection_id renderer_token kRenderTarget) ;;;
  call_ (DcImportBufferCollection collection_id display_token
           {| ic_width := 0; ic_height := 0; ic_pixel_format := pixel_format; ic_type := 0 |}) ;;;
  call_ (AllocatorBindSharedCollection compositor_token) ;;;
  collection_ptr <- new_handle 0 ;;
  call_ (CollectionSetName collection_ptr use_protected_memory) ;;;
  call_ (CollectionSetConstraints collection_ptr true) ;;;
  call_ (CollectionWaitForBuffersAllocated collection_ptr) ;;;
  w <- get ;;
  let collection_pixel_format := env_pixel_format env (trace w) in
  call_ (CollectionClose collection_ptr) ;;;
  modify (set_buffer_collection_supports_display_ (<[collection_id := true]>)) ;;;
  modify (set_buffer_collection_pixel_format_ (<[collection_id := collection_pixel_format]>)) ;;;
  import_render_targets collection_id (fst size) (snd size) 0 (N.to_nat num_render_targets).

Definition DisplayEngineData_default : DisplayEngineData :=
  {| layers := []; render_targets := []; protected_render_targets := [];
     frame_event_datas := []; vmo_count := 0; curr_vmo := 0 |}.

(** [display_engine_data_map_[id]], a reference into the map. *)
Definition engine_data_index (id : N) : M DisplayEngineData :=
  w <- get ;;
  match display_engine_data_map_ w !! id with
  | Some d => ret d
  | None =>
      set_engine_data id DisplayEngineData_default ;;;
      ret DisplayEngineData_default
  end.

Definition push_layer (display_id : N) : M unit :=
  layer <- CreateDisplayLayer ;;
  d <- engine_data_index display_id ;;
  set_engine_data display_id
    {| layers := layers d ++ [layer];
       render_targets := render_targets d;
       protected_render_targets := protected_render_targets d;
       frame_event_datas := frame_event_datas d;
       vmo_count := vmo_count d;
       curr_vmo := curr_vmo d |}.

Fixpoint push_frame_event_datas (display_id : N) (n : nat) : M unit :=
  match n with
  | O => ret tt
  | S n' =>
      e <- NewFrameEventData ;;
      d <- engine_data_index display_id ;;
      set_engine_data display_id
        {| layers := layers d;
           render_targets := render_targets d;
           protected_render_targets := protected_render_targets d;
           frame_event_datas := frame_event_datas d ++ [e];
           vmo_count := vmo_count d;
           curr_vmo := curr_vmo d |} ;;;
      push_frame_event_datas display_id n'
  end.

Definition AddDisplay (display_id : N) (info : DisplayInfo) (num_render_targets : N) : M unit :=
  let '(width, height) := dimensions info in
  let pixel_format := ChoosePreferredPixelFormat env (formats info) in
  modify (set_display_info_map_ (<[display_id := info]>)) ;;;
  _ <- engine_data_index display_id ;;
  push_layer display_id ;;;
  push_layer display_id ;;;
  call_ (DisplaySetVsyncCallback display_id) ;;;
  if num_render_targets =? 0 then ret tt else
  targets <- AllocateDisplayRenderTargets false num_render_targets (width, height) pixel_format ;;
  d <- engine_data_index display_id ;;
  set_engine_data display_id
    {| layers := layers d;
       render_targets := targets;
       protected_render_targets := protected_render_targets d;
       frame_event_datas := frame_event_datas d;
       vmo_count := vmo_count d;
       curr_vmo := curr_vmo d |} ;;;
  push_frame_event_datas display_id (N.to_nat num_render_targets) ;;;
  d <- engine_data_index display_id ;;
  set_engine_data display_id
    {| layers := layers d;
       render_targets := render_targets d;
       protected_render_targets := protected_render_targets d;
       frame_event_datas := frame_event_datas d;
       vmo_count := num_render_targets;
       curr_vmo := 0 |} ;;;
  if SupportsRenderInProtected env then
    targets <- AllocateDisplayRenderTargets true num_render_targets (width, height) pixel_format ;;
    d <- engine_data_index display_id ;;
    set_engine_data display_id
      {| layers := layers d;
         render_targets := render_targets d;
         protected_render_targets := targets;
         frame_event_datas := frame_event_datas d;
         vmo_count := vmo_count d;
         curr_vmo := curr_vmo d |}
  else ret tt.

End Compositor.

(** ** Reading a run *)

(** The calls a step added to the trace. *)
Definition new_calls (w w' : World) : list Call := drop (length (trace w)) (trace w').

Definition is_apply_config (c : Call) : bool :=
  match c with DcApplyConfig => true | _ => false end.

(** Calls that hand the present callback and the release fences to the
    release-fence manager, the only party that ever fires them. *)
Definition is_frame_handoff (c : Call) : bool :=
  match c with
  | RfmOnGpuCompositedFrame _ _ _ | RfmOnDirectScanoutFrame _ _ _ => true
  | _ => false
  end.

Definition is_release_collection (c : Call) : bool :=
  match c with
  | RendererReleaseBufferCollection _ _ | DcReleaseBufferCollection _ => true
  | _ => false
  end.

Definition is_release_image (c : Call) : bool :=
  match c with
  | RendererReleaseBufferImage _ | DcReleaseImage _ => true
  | _ => false
  end.

(** The calls [OnVsync] makes for the entries it drains. *)
Definition vsync_calls (timestamp : Z) (drained : list ApplyConfigInfo) : list Call :=
  map (fun it => RfmOnVsync (frame_number it) timestamp) drained.

(** Every terminating run of [m] relates its initial and final states by
    [R]. *)
Definition run_rel {A} (R : World -> World -> Prop) (m : M A) : Prop :=
  forall w a w', m w = Some (a, w') -> R w w'.

(** The trace grew, and only by calls that [allowed] admits. *)
Definition extends_by (allowed : Call -> bool) (w w' : World) : Prop :=
  exists cs, trace w' = trace w ++ cs /\ forallb allowed cs = true.

(** Nothing was applied and nothing was handed to the release-fence
    manager. *)
Definition no_apply_no_handoff (c : Call) : bool :=
  negb (is_apply_config c) && negb (is_frame_handoff c).

Definition frame_dropped (w w' : World) : Prop :=
  extends_by no_apply_no_handoff w w'
  /\ pending_apply_configs_ w' = pending_apply_configs_ w.

(** What the renderer was asked to render: the rectangles and the images
    of each [Render] call, oldest first. *)
Definition rendered (t : list Call) : list (list ImageRect * list ImageMetadata) :=
  omap (fun c => match c with
                 | RendererRender _ rects imgs _ _ => Some (rects, imgs)
                 | _ => None
                 end) t.

(** The rectangles and the images of a frame, display by display. *)
Definition frame_contents (datas : list RenderData)
  : list (list ImageRect * list ImageMetadata) :=
  map (fun d => (rectangles d, images d)) datas.

(** The frame went through the GPU path to its end: the renderer was asked
    to render each display of the frame, the frame was then handed to the
    release-fence manager as a GPU-composited frame, and the configuration
    was applied and queued under the frame's number. *)
Definition composited_by_gpu (fn : N) (rf : list N) (cb : N) (datas : list RenderData)
    (w w' : World) : Prop :=
  exists cs stamp,
    new_calls w w'
    = cs ++ [RfmOnGpuCompositedFrame fn rf cb; DcApplyConfig; DcGetLatestAppliedConfigStamp]
    /\ forallb no_apply_no_handoff cs = true
    /\ rendered cs = frame_contents datas
    /\ pending_apply_configs_ w'
       = pending_apply_configs_ w ++ [{| config_stamp := stamp; frame_number := fn |}].

(** The state after the planner has created the event of image [id]:
    [NewImageEventData], the insertion into [image_event_map_] and the
    [push_back] onto [pending_images_in_config_]. *)
Definition with_new_image_event (id : N) (w : World) : World :=
  set_pending_images_in_config_ (fun l => l ++ [id])
    (set_image_event_map_
       (<[id := {| signal_event := Event true; signal_id := next_event_id w |}]>)
       (set_trace (fun t => t ++ [DcImportEvent (next_event_id w)])
          (set_next_event_id N.succ w))).

(** Entries of [image_event_map_] stay as they are (new ones may appear),
    and the displays stay as they are. *)
Definition planner_keeps (w w' : World) : Prop :=
  (forall id e, image_event_map_ w !! id = Some e -> image_event_map_ w' !! id = Some e)
  /\ display_engine_data_map_ w' = display_engine_data_map_ w.

(** Image [id] has an event and the event is not signaled: the display
    still scans the image out. *)
Definition in_use (w : World) (id : N) : Prop :=
  exists e, image_event_map_ w !! id = Some e /\ wait_one_signaled (signal_event e) = false.

(** The image events and the list of recorded images are untouched. *)
Definition events_same (w w' : World) : Prop :=
  image_event_map_ w' = image_event_map_ w
  /\ pending_images_in_config_ w' = pending_images_in_config_ w.

(** What one round of the unsignal loop of [RenderFrame] does to the map. *)
Definition unsignal_entry (m : gmap N ImageEventData) (id : N) : gmap N ImageEventData :=
  let e := default ImageEventData_default (m !! id) in
  <[id := {| signal_event := unsignal (signal_event e); signal_id := signal_id e |}]> m.

Definition unsignal_all (ids : list N) (m : gmap N ImageEventData) : gmap N ImageEventData :=
  foldl unsignal_entry m ids.

Definition no_release (c : Call) : bool :=
  negb (is_release_collection c) && negb (is_release_image c).

(** What rolling back an import of collection [id] would show in the
    trace: a release on the renderer and one on the display controller. *)
Definition collection_released (id : N) (calls : list Call) : Prop :=
  In (RendererReleaseBufferCollection id kClientImage) calls
  /\ In (DcReleaseBufferCollection id) calls.

(** The dimensions [display_info_map_[d].dimensions] reads. *)
Definition display_size (w : World) (d : N) : N * N :=
  dimensions (default DisplayInfo_default (display_info_map_ w !! d)).

(** A collection marked display-supported has a negotiated pixel format,
    one of those [BufferCollectionPixelFormatToZirconFormat] knows.  Both
    places that write [true] into [buffer_collection_supports_display_]
    write the pixel format with it. *)
Definition format_known (w : World) (c : N) (b : bool) : Prop :=
  b = true ->
  is_Some (buffer_collection_pixel_format_ w !! c
             ≫= BufferCollectionPixelFormatToZirconFormat).

Definition formats_known (w : World) : Prop :=
  map_Forall (format_known w) (buffer_collection_supports_display_ w).

#[global] Instance format_known_dec (w : World) (c : N) (b : bool) :
  Decision (format_known w c b).
Proof. unfold format_known. apply _. Defined.

#[global] Instance formats_known_dec (w : World) : Decision (formats_known w).
Proof. unfold formats_known. apply _. Defined.

(** What the planner leaves alone: negotiated formats, display sizes and
    displays stay; no collection becomes display-supported. *)
Definition planner_cfg (w w' : World) : Prop :=
  buffer_collection_pixel_format_ w' = buffer_collection_pixel_format_ w
  /\ (forall c, buffer_collection_supports_display_ w' !! c = Some true ->
                buffer_collection_supports_display_ w !! c = Some true)
  /\ (forall d, display_size w' d = display_size w d)
  /\ display_engine_data_map_ w' = display_engine_data_map_ w.

(** The solid-colour entry [i] of a frame is one the planner accepts. *)
Definition solid_color_ok (w : World) (data : RenderData) (i : nat) : Prop :=
  forall img rect,
    images data !! i = Some img ->
    identifier img = kInvalidImageId ->
    rectangles data !! i = Some rect ->
    i = 0%nat /\ covers_display rect (display_size w (display_id data)) = true.

(** ** The quantisation the spec writes down

    [quantize(f) = floor(255 * clamp(f, 0, 1))], in the same single-precision
    arithmetic as the code. *)

Definition clamp01 (f : spec_float) : spec_float :=
  if SFltb f Float32.zero then Float32.zero
  else if SFltb Float32.one f then Float32.one
  else f.

(** The largest integer not above [f]. *)
Definition floor (f : spec_float) : option Z :=
  match f with
  | S754_zero _ => Some 0%Z
  | S754_finite s m e =>
      let n := if s then Zneg m else Zpos m in
      Some match e with
           | Z0 => n
           | Zpos p => (n * Z.pow_pos 2 p)%Z
           | Zneg p => (n / Z.pow_pos 2 p)%Z
           end
  | _ => None
  end.

Definition spec_quantize (f : spec_float) : option Z :=
  floor (Float32.mul (Float32.of_Z 255) (clamp01 f)).

(** ** The compositor over time

    Between two calls of the compositor the display controller may signal
    an event it was given as the signal fence of a layer image, and the
    renderer may signal the fence it was asked to render into. *)

(** The display controller was given [id] as the signal fence of a layer
    image. *)
Definition attached (w : World) (id : N) : Prop :=
  exists layer image wait_id, In (DcSetLayerImage layer image wait_id id) (trace w).

Definition signal_image_event (id : N) (e : ImageEventData) : ImageEventData :=
  if signal_id e =? id
  then {| signal_event := signal (signal_event e); signal_id := signal_id e |}
  else e.

Definition signal_frame_event (id : N) (fe : FrameEventData) : FrameEventData :=
  {| fe_wait_event := fe_wait_event fe;
     fe_signal_event :=
       if fe_signal_id fe =? id then signal (fe_signal_event fe) else fe_signal_event fe;
     fe_wait_id := fe_wait_id fe;
     fe_signal_id := fe_signal_id fe |}.

Definition signal_wait_event (id : N) (fe : FrameEventData) : FrameEventData :=
  {| fe_wait_event :=
       if fe_wait_id fe =? id then signal (fe_wait_event fe) else fe_wait_event fe;
     fe_signal_event := fe_signal_event fe;
     fe_wait_id := fe_wait_id fe;
     fe_signal_id := fe_signal_id fe |}.

Definition on_frame_events (f : FrameEventData -> FrameEventData) (d : DisplayEngineData)
  : DisplayEngineData :=
  {| layers := layers d;
     render_targets := render_targets d;
     protected_render_targets := protected_render_targets d;
     frame_event_datas := map f (frame_event_datas d);
     vmo_count := vmo_count d;
     curr_vmo := curr_vmo d |}.

(** The display controller signals the event registered under [id]. *)
Definition dc_signal (id : N) (w : World) : World :=
  set_display_engine_data_map_ (fmap (on_frame_events (signal_frame_event id)))
    (set_image_event_map_ (fmap (signal_image_event id)) w).

(** The renderer signals the render fence registered under [id]. *)
Definition renderer_signal (id : N) (w : World) : World :=
  set_display_engine_data_map_ (fmap (on_frame_events (signal_wait_event id))) w.

(** What can happen to a compositor: a call of a method of its interface,
    or a signal from a collaborator. *)
Inductive Action :=
| act_ImportBufferCollection (id token : N) (usage : BufferCollectionUsage)
| act_ReleaseBufferCollection (id : N) (usage : BufferCollectionUsage)
| act_ImportBufferImage (metadata : ImageMetadata) (usage : BufferCollectionUsage)
| act_ReleaseBufferImage (id : N)
| act_AddDisplay (id : N) (info : DisplayInfo) (n : N)
| act_RenderFrame (fn : N) (pt : Z) (datas : list RenderData) (rf : list N) (cb : N)
| act_OnVsync (t : Z) (stamp : N)
| act_SetColorConversionValues (cc : ColorConversionData)
| act_SetMinimumRgb (v : N)
| act_dc_signal (id : N)
| act_renderer_signal (id : N).

(** One step of the system: a call of the compositor's interface that
    returns, with any arguments, or a signal from a collaborator.  The
    display controller signals only events it was given as the signal fence
    of a layer image. *)
Inductive api_step (env : Env) : Action -> World -> World -> Prop :=
| step_ImportBufferCollection id token usage w b w' :
    ImportBufferCollection env id token usage w = Some (b, w') ->
    api_step env (act_ImportBufferCollection id token usage) w w'
| step_ReleaseBufferCollection id usage w w' :
    ReleaseBufferCollection env id usage w = Some (tt, w') ->
    api_step env (act_ReleaseBufferCollection id usage) w w'
| step_ImportBufferImage metadata usage w b w' :
    ImportBufferImage env metadata usage w = Some (b, w') ->
    api_step env (act_ImportBufferImage metadata usage) w w'
| step_ReleaseBufferImage id w w' :
    ReleaseBufferImage env id w = Some (tt, w') ->
    api_step env (act_ReleaseBufferImage id) w w'
| step_AddDisplay id info n w w' :
    AddDisplay env id info n w = Some (tt, w') ->
    api_step env (act_AddDisplay id info n) w w'
| step_RenderFrame fn pt datas rf cb w w' :
    RenderFrame env fn pt datas rf cb w = Some (tt, w') ->
    api_step env (act_RenderFrame fn pt datas rf cb) w w'
| step_OnVsync t stamp w w' :
    OnVsync env t stamp w = Some (tt, w') ->
    api_step env (act_OnVsync t stamp) w w'
| step_SetColorConversionValues cc w w' :
    SetColorConversionValues env cc w = Some (tt, w') ->
    api_step env (act_SetColorConversionValues cc) w w'
| step_SetMinimumRgb v w b w' :
    SetMinimumRgb env v w = Some (b, w') ->
    api_step env (act_SetMinimumRgb v) w w'
| step_dc_signal id w :
    attached w id -> api_step env (act_dc_signal id) w (dc_signal id w)
| step_renderer_signal id w :
    api_step env (act_renderer_signal id) w (renderer_signal id w).

(** A run: the actions taken, in order. *)
Inductive api_steps (env : Env) : list Action -> World -> World -> Prop :=
| steps_refl w : api_steps env [] w w
| steps_step a l w1 w2 w3 :
    api_step env a w1 w2 -> api_steps env l w2 w3 -> api_steps env (a :: l) w1 w3.

(** [id] is the signal id of a back-buffer's frame event. *)
Definition frame_id (w : World) (id : N) : Prop :=
  exists d ded fe,
    display_engine_data_map_ w !! d = Some ded
    /\ In fe (frame_event_datas ded)
    /\ fe_signal_id fe = id.

(** [id] is the signal id of the event of an image other than the
    sentinel. *)
Definition image_id (w : World) (id : N) : Prop :=
  exists k e, k <> kInvalidImageId /\ image_event_map_ w !! k = Some e /\ signal_id e = id.

(** The ids in use were drawn from the generator, and the id of the
    sentinel's event, if there is one, is that of no other event and was
    never attached to a layer. *)
Record sentinel_wf (w : World) : Prop := {
  wf_next : 0 < next_event_id w;
  wf_image_ids :
    forall k e, image_event_map_ w !! k = Some e -> signal_id e < next_event_id w;
  wf_frame_ids : forall id, frame_id w id -> id < next_event_id w;
  wf_attached : forall id, attached w id -> id < next_event_id w;
  wf_private :
    forall e0, image_event_map_ w !! kInvalidImageId = Some e0 ->
      0 < signal_id e0
      /\ ~ image_id w (signal_id e0)
      /\ ~ frame_id w (signal_id e0)
      /\ ~ attached w (signal_id e0) }.

(** The sentinel's event stays, under its id, and stays unsignaled if it
    is. *)
Definition keeps_sentinel (w w' : World) : Prop :=
  forall e0, image_event_map_ w !! kInvalidImageId = Some e0 ->
    exists e0', image_event_map_ w' !! kInvalidImageId = Some e0'
      /\ signal_id e0' = signal_id e0
      /\ (wait_one_signaled (signal_event e0) = false ->
          wait_one_signaled (signal_event e0') = false).

Definition sentinel_step (w w' : World) : Prop :=
  sentinel_wf w -> sentinel_wf w' /\ keeps_sentinel w w'.

(** Every recorded image has an event. *)
Definition pending_have_events (w : World) : Prop :=
  forall id, In id (pending_images_in_config_ w) -> is_Some (image_event_map_ w !! id).

(** [sentinel_step] for the planner, which also keeps
    [pending_have_events]. *)
Definition planner_step (w w' : World) : Prop :=
  sentinel_wf w /\ pending_have_events w ->
  (sentinel_wf w' /\ pending_have_events w') /\ keeps_sentinel w w'.

Definition is_set_layer_image (c : Call) : bool :=
  match c with DcSetLayerImage _ _ _ _ => true | _ => false end.

(** A step that touches no event, draws no id and attaches nothing. *)
Definition inert (w w' : World) : Prop :=
  image_event_map_ w' = image_event_map_ w
  /\ pending_images_in_config_ w' = pending_images_in_config_ w
  /\ display_engine_data_map_ w' = display_engine_data_map_ w
  /\ next_event_id w' = next_event_id w
  /\ extends_by (fun c => negb (is_set_layer_image c)) w w'.

(** A step that touches no event and draws no id, and attaches at most
    [sg]. *)
Definition attaches (sg : N) (w w' : World) : Prop :=
  image_event_map_ w' = image_event_map_ w
  /\ pending_images_in_config_ w' = pending_images_in_config_ w
  /\ display_engine_data_map_ w' = display_engine_data_map_ w
  /\ next_event_id w' = next_event_id w
  /\ forall id, attached w' id -> attached w id \/ id = sg.

(** A frame shows a solid colour. *)
Definition shows_solid_color (data : RenderData) : Prop :=
  exists img, In img (images data) /\ identifier img = kInvalidImageId.

(** No recorded image is dropped. *)
Definition pending_grows (w w' : World) : Prop :=
  forall id, In id (pending_images_in_config_ w) -> In id (pending_images_in_config_ w').

(** The state the constructor leaves: no image event, no display, no call
    made.  The id generator of [ImportEvent] is shared by the process and
    starts above the invalid id. *)
Definition constructed (w : World) : Prop :=
  image_event_map_ w = ∅
  /\ display_engine_data_map_ w = ∅
  /\ trace w = []
  /\ 0 < next_event_id w.

(** ** Further notions, for the properties beyond the claims *)

(** The frames handed to the release-fence manager, oldest first. *)
Definition handed_off (t : list Call) : list N :=
  omap (fun c => match c with
                 | RfmOnGpuCompositedFrame f _ _ | RfmOnDirectScanoutFrame f _ _ => Some f
                 | _ => None
                 end) t.

(** The frames the release-fence manager was told are on screen or
    skipped, oldest first. *)
Definition retired (t : list Call) : list N :=
  omap (fun c => match c with RfmOnVsync f _ => Some f | _ => None end) t.

(** Every frame handed to the release-fence manager has been retired or
    waits in [pending_apply_configs_], in the order of the hand-offs. *)
Definition books_balanced (w : World) : Prop :=
  handed_off (trace w)
  = retired (trace w) ++ map frame_number (pending_apply_configs_ w).

(** A step that hands off nothing, retires nothing and leaves the queue. *)
Definition same_ledger (w w' : World) : Prop :=
  handed_off (trace w') = handed_off (trace w)
  /\ retired (trace w') = retired (trace w)
  /\ pending_apply_configs_ w' = pending_apply_configs_ w.

(** A call of a method of the compositor that returns, or a signal on an
    event.  [AddDisplay] is called for displays not yet registered, as its
    [FX_DCHECK] asks. *)
Inductive method_step (env : Env) : World -> World -> Prop :=
| method_ImportBufferCollection id token usage w b w' :
    ImportBufferCollection env id token usage w = Some (b, w') -> method_step env w w'
| method_ReleaseBufferCollection id usage w w' :
    ReleaseBufferCollection env id usage w = Some (tt, w') -> method_step env w w'
| method_ImportBufferImage metadata usage w b w' :
    ImportBufferImage env metadata usage w = Some (b, w') -> method_step env w w'
| method_ReleaseBufferImage id w w' :
    ReleaseBufferImage env id w = Some (tt, w') -> method_step env w w'
| method_AddDisplay id info n w w' :
    display_engine_data_map_ w !! id = None ->
    AddDisplay env id info n w = Some (tt, w') -> method_step env w w'
| method_RenderFrame fn pt datas rf cb w w' :
    RenderFrame env fn pt datas rf cb w = Some (tt, w') -> method_step env w w'
| method_OnVsync t stamp w w' :
    OnVsync env t stamp w = Some (tt, w') -> method_step env w w'
| method_SetColorConversionValues cc w w' :
    SetColorConversionValues env cc w = Some (tt, w') -> method_step env w w'
| method_SetMinimumRgb v w b w' :
    SetMinimumRgb env v w = Some (b, w') -> method_step env w w'
| method_dc_signal id w : method_step env w (dc_signal id w)
| method_renderer_signal id w : method_step env w (renderer_signal id w).

Inductive method_steps (env : Env) : World -> World -> Prop :=
| method_steps_refl w : method_steps env w w
| method_steps_step w1 w2 w3 :
    method_step env w1 w2 -> method_steps env w2 w3 -> method_steps env w1 w3.

(** Every terminating run of [m] returns a value that satisfies [P]. *)
Definition returns {A} (P : A -> Prop) (m : M A) : Prop :=
  forall w a w', m w = Some (a, w') -> P a.

(** Calls to sysmem: the allocator, tokens and collections. *)
Definition is_sysmem_call (c : Call) : bool :=
  match c with
  | AllocatorAllocateSharedCollection | TokenDuplicateSync _ _ | TokenClose _
  | AllocatorBindSharedCollection _ | CollectionSync _ | CollectionAttachToken _
  | CollectionClose _ | CollectionSetConstraints _ _ | CollectionSetName _ _
  | CollectionCheckBuffersAllocated _ | CollectionWaitForBuffersAllocated _ => true
  | _ => false
  end.

Definition is_import_image (c : Call) : bool :=
  match c with DcImportImage2 _ _ _ _ => true | _ => false end.

(** Only the trace differs, and it grew by calls that [allowed] accepts. *)
Definition only_calls (allowed : Call -> bool) (w w' : World) : Prop :=
  exists cs, w' = set_trace (fun t => t ++ cs) w /\ forallb allowed cs = true.

(** The list of recorded images is untouched. *)
Definition pending_same (w w' : World) : Prop :=
  pending_images_in_config_ w' = pending_images_in_config_ w.

(** The ids of the images of a list of displays, in the order the planner
    visits them. *)
Definition planned_ids (datas : list RenderData) : list N :=
  flat_map (fun d => map identifier (images d)) datas.

Definition is_renderer_call (c : Call) : bool :=
  match c with
  | RendererImportBufferCollection _ _ _ | RendererReleaseBufferCollection _ _
  | RendererImportBufferImage _ _ | RendererReleaseBufferImage _
  | RendererRender _ _ _ _ _ | RendererSetColorConversionValues _ => true
  | _ => false
  end.

(** The displays and what is known of them are untouched. *)
Definition displays_same (w w' : World) : Prop :=
  display_engine_data_map_ w' = display_engine_data_map_ w
  /\ display_info_map_ w' = display_info_map_ w.

(** A frame event as [NewFrameEventData] leaves it: the renderer's fence
    not signaled, the display controller's fence signaled. *)
Definition fresh_frame_event (fe : FrameEventData) : Prop :=
  fe_wait_event fe = Event false /\ fe_signal_event fe = Event true.

(** What [PerformGpuComposition] does to the frame event of the back
    buffer it renders into: both fences are cleared. *)
Definition reset_frame_event (fe : FrameEventData) : FrameEventData :=
  {| fe_wait_event := unsignal (fe_wait_event fe);
     fe_signal_event := unsignal (fe_signal_event fe);
     fe_wait_id := fe_wait_id fe;
     fe_signal_id := fe_signal_id fe |}.

(** ... and to the display's entry: the frame event of the current back
    buffer is reset and the next back buffer becomes current. *)
Definition advance_back_buffer (d : DisplayEngineData) : DisplayEngineData :=
  {| layers := layers d;
     render_targets := render_targets d;
     protected_render_targets := protected_render_targets d;
     frame_event_datas :=
       match frame_event_datas d !! N.to_nat (curr_vmo d) with
       | Some fe => <[N.to_nat (curr_vmo d) := reset_frame_event fe]> (frame_event_datas d)
       | None => frame_event_datas d
       end;
     vmo_count := vmo_count d;
     curr_vmo := uint32 (curr_vmo d + 1) mod vmo_count d |}.

Definition advance_display (m : gmap N DisplayEngineData) (id : N) : gmap N DisplayEngineData :=
  match m !! id with
  | Some d => <[id := advance_back_buffer d]> m
  | None => m
  end.

(** The [Render] calls made so far, each with whether it was given the
    render-finished fence. *)
Definition render_fences (t : list Call) : list bool :=
  omap (fun c => match c with RendererRender _ _ _ fence _ => Some fence | _ => None end) t.

(** No [Render] call was made. *)
Definition same_renders (w w' : World) : Prop :=
  render_fences (trace w') = render_fences (trace w)
  /\ display_engine_data_map_ w' = display_engine_data_map_ w.

(** Every display keeps its number of back buffers. *)
Definition same_counts (w w' : World) : Prop :=
  forall id d,
    display_engine_data_map_ w !! id = Some d ->
    exists d', display_engine_data_map_ w' !! id = Some d' /\ vmo_count d' = vmo_count d.

(** A display has as many frame events and render targets as back
    buffers, and its current back buffer is one of them. *)
Definition buffers_ok (d : DisplayEngineData) : Prop :=
  length (frame_event_datas d) = N.to_nat (vmo_count d)
  /\ length (render_targets d) = N.to_nat (vmo_count d)
  /\ (vmo_count d = 0 \/ curr_vmo d < vmo_count d).

Definition displays_ok (w : World) : Prop :=
  forall id d, display_engine_data_map_ w !! id = Some d -> buffers_ok d.

Definition displays_kept (w w' : World) : Prop := displays_ok w -> displays_ok w'.

(** The trace grew and the image events that exist stay as they are. *)
Definition planner_grows (w w' : World) : Prop :=
  extends_by (fun _ => true) w w' /\ planner_keeps w w'.

(** ** Concrete collaborators and states, used to exercise the theorems *)

Module Sample.

Definition bgra : PixelFormat :=
  {| pf_type := BGRA32; has_format_modifier := false;
     format_modifier := OtherFormatModifier 0 |}.

Definition unit_frame : Frame := {| x_pos := 0; y_pos := 0; f_width := 1; f_height := 1 |}.

(** Collaborators that answer calls by [status]; handles and stamps are
    numbered by the length of the trace. *)
Definition collaborators (status : list Call -> Call -> bool) (disable : bool) : Env :=
  {| env_status := status;
     env_out_status := status;
     env_handle := fun t k => 100 + 10 * N.of_nat (length t) + N.of_nat k;
     env_stamp := fun t => N.of_nat (length t);
     env_pixel_format := fun _ => bgra;
     RequiresRenderInProtected := fun _ _ => false;
     SupportsRenderInProtected := false;
     ChoosePreferredPixelFormat := fun _ => ZX_PIXEL_FORMAT_ARGB_8888;
     kDisableDisplayComposition := disable;
     DisplaySrcDstFrames_New := fun _ _ => (unit_frame, unit_frame);
     GetDisplayTransformFromOrientationAndFlip := fun _ _ => IDENTITY |}.

(** Collaborators that accept every call. *)
Definition agreeable (disable : bool) : Env := collaborators (fun _ _ => true) disable.

(** A freshly constructed compositor. *)
Definition fresh (mode : BufferCollectionImportMode) : World :=
  {| import_mode_ := mode;
     display_buffer_collection_ptrs_ := ∅;
     buffer_collection_supports_display_ := ∅;
     buffer_collection_pixel_format_ := ∅;
     image_event_map_ := ∅;
     pending_images_in_config_ := [];
     pending_apply_configs_ := [];
     last_presented_config_stamp_ := None;
     display_engine_data_map_ := ∅;
     display_info_map_ := ∅;
     cc_state_machine_ := ColorConversionStateMachine.Idle;
     trace := [];
     next_event_id := 1 |}.

(** Three frames applied and not yet presented. *)
Definition three_pending : World :=
  set_pending_apply_configs_
    (fun _ => [ {| config_stamp := 10; frame_number := 1 |};
                {| config_stamp := 11; frame_number := 2 |};
                {| config_stamp := 12; frame_number := 3 |} ])
    (set_last_presented_config_stamp_ (Some 9) (fresh AttemptDisplayConstraints)).

(** A display controller that rejects every configuration it is asked to
    check. *)
Definition check_fails : Env :=
  collaborators (fun _ c => match c with DcCheckConfig false => false | _ => true end) false.


(** A display controller that cannot satisfy the constraints of any client
    collection. *)
Definition display_rejects : Env :=
  collaborators
    (fun _ c => match c with DcImportBufferCollection _ _ _ => false | _ => true end) false.

Definition hd_info : DisplayInfo :=
  {| dimensions := (1920, 1080); formats := [ZX_PIXEL_FORMAT_ARGB_8888] |}.

(** The state after [AddDisplay(7, 1920x1080, 2 render targets)] on a fresh
    compositor. *)
Definition with_display (env : Env) (mode : BufferCollectionImportMode) : World :=
  match AddDisplay env 7 hd_info 2 (fresh mode) with
  | Some (_, w) => w
  | None => fresh mode
  end.

Definition fl (z : Z) : spec_float := Float32.of_Z z.

Definition rect (x y w h : Z) : ImageRect :=
  {| origin := {| vx := fl x; vy := fl y |};
     extent := {| vx := fl w; vy := fl h |};
     orientation := CCW_0_DEGREES |}.

(** A solid-colour entry: the image id is the invalid sentinel. *)
Definition solid (r g b a : spec_float) : ImageMetadata :=
  {| collection_id := kInvalidId; identifier := kInvalidImageId; vmo_index := 0;
     width := 0; height := 0; multiply_color := (r, g, b, a);
     blend_mode := SRC; flip := FLIP_NONE |}.

Definition white : ImageMetadata := solid (fl 1) (fl 1) (fl 1) (fl 1).

Definition fullscreen_white : RenderData :=
  {| rectangles := [rect 0 0 1920 1080]; images := [white]; display_id := 7 |}.

Definition partial_white : RenderData :=
  {| rectangles := [rect 0 0 960 540]; images := [white]; display_id := 7 |}.

Definition client_image : ImageMetadata :=
  {| collection_id := 5; identifier := 9; vmo_index := 0;
     width := 256; height := 256; multiply_color := (fl 1, fl 1, fl 1, fl 1);
     blend_mode := SRC; flip := FLIP_NONE |}.

Definition image_frame : RenderData :=
  {| rectangles := [rect 0 0 1920 1080]; images := [client_image]; display_id := 7 |}.

(** The state a run ends in (the initial state if the run does not end). *)
Definition run {A} (m : M A) (w : World) : World :=
  match m w with
  | Some (_, w') => w'
  | None => w
  end.

(** A display, a client collection and one image of it imported. *)
Definition with_image (env : Env) : World :=
  run (ImportBufferImage env client_image kClientImage)
    (run (ImportBufferCollection env 5 50 kClientImage)
       (with_display env AttemptDisplayConstraints)).

(** ... and one frame showing the image by direct scanout, not yet
    retired. *)
Definition after_direct_frame (env : Env) : World :=
  run (RenderFrame env 1 0 [image_frame] [30] 40) (with_image env).

(** A display and one frame showing a solid colour by direct scanout. *)
Definition after_color_frame (env : Env) : World :=
  run (RenderFrame env 1 0 [fullscreen_white] [30] 40)
    (with_display env AttemptDisplayConstraints).

(** ... and the vsync that presents it. *)
Definition after_color_vsync (env : Env) : World :=
  run (OnVsync env 5 31) (after_color_frame env).

End Sample.

(** ** More states, for the properties of the imports and of composition *)

Module Scene.

Definition env : Env := Sample.agreeable false.

(** A renderer that refuses every image. *)
Definition renderer_rejects : Env :=
  Sample.collaborators
    (fun _ c => match c with RendererImportBufferImage _ _ => false | _ => true end) false.

(** A display and a client collection, none of its images imported yet. *)
Definition with_collection : World :=
  Sample.run (ImportBufferCollection env 5 50 kClientImage)
    (Sample.with_display env AttemptDisplayConstraints).

Definition with_image : World := Sample.with_image env.

(** ... and the collection released again. *)
Definition released : World :=
  Sample.run (ReleaseBufferCollection env 5 kClientImage) with_image.

Definition image (id vmo : N) : ImageMetadata :=
  {| collection_id := 5; identifier := id; vmo_index := vmo;
     width := 256; height := 256;
     multiply_color := (Sample.fl 1, Sample.fl 1, Sample.fl 1, Sample.fl 1);
     blend_mode := SRC; flip := FLIP_NONE |}.

(** Three images for a display that has two layers. *)
Definition three_images : RenderData :=
  {| rectangles := [Sample.rect 0 0 1920 1080; Sample.rect 0 0 960 540;
                    Sample.rect 960 540 960 540];
     images := [image 9 0; image 10 1; image 11 2];
     display_id := 7 |}.

(** A display registered without render targets. *)
Definition no_targets : World :=
  Sample.run (AddDisplay env 7 Sample.hd_info 0) (Sample.fresh AttemptDisplayConstraints).

(** The entry of display 7. *)
Definition entry (w : World) : DisplayEngineData :=
  default DisplayEngineData_default (display_engine_data_map_ w !! 7).

(** The state after planning [datas] for direct scanout. *)
Definition planned (datas : list RenderData) (w : World) : World :=
  Sample.run (DiscardConfig env ;;; SetRenderDatasOnDisplay env datas) w.

(** The image on screen by direct scanout, then presented. *)
Definition presented : World :=
  Sample.run (OnVsync env 5 49) (Sample.after_direct_frame env).

(** A display registered without render targets, showing a client image by
    direct scanout. *)
Definition no_targets_direct : World :=
  Sample.run (RenderFrame env 1 0 [Sample.image_frame] [30] 40)
    (Sample.run (ImportBufferImage env Sample.client_image kClientImage)
       (Sample.run (ImportBufferCollection env 5 50 kClientImage) no_targets)).

(** A solid colour shown by direct scanout and presented, and then
    [ReleaseBufferImage] called with the sentinel id. *)
Definition sentinel_released : World :=
  Sample.run (ReleaseBufferImage env kInvalidImageId) (Sample.after_color_vsync env).

End Scene.

(** * Properties *)

Local Open Scope comp_scope.

Lemma World_eq (w1 w2 : World) :
  import_mode_ w1 = import_mode_ w2 ->
  display_buffer_collection_ptrs_ w1 = display_buffer_collection_ptrs_ w2 ->
  buffer_collection_supports_display_ w1 = buffer_collection_supports_display_ w2 ->
  buffer_collection_pixel_format_ w1 = buffer_collection_pixel_format_ w2 ->
  image_event_map_ w1 = image_event_map_ w2 ->
  pending_images_in_config_ w1 = pending_images_in_config_ w2 ->
  pending_apply_configs_ w1 = pending_apply_configs_ w2 ->
  last_presented_config_stamp_ w1 = last_presented_config_stamp_ w2 ->
  display_engine_data_map_ w1 = display_engine_data_map_ w2 ->
  display_info_map_ w1 = display_info_map_ w2 ->
  cc_state_machine_ w1 = cc_state_machine_ w2 ->
  trace w1 = trace w2 ->
  next_event_id w1 = next_event_id w2 ->
  w1 = w2.
Proof.
  destruct w1, w2; simpl; intros; subst; reflexivity.
Qed.

(** ** Vsync retirement *)

Section Vsync.

Variable env : Env.

Lemma retire_app (timestamp : Z) (drained rest : list ApplyConfigInfo) :
  forall w,
    pending_apply_configs_ w = drained ++ rest ->
    retire env (length drained) timestamp w =
      Some (tt, set_pending_apply_configs_ (fun _ => rest)
                  (set_trace (fun t => t ++ vsync_calls timestamp drained) w)).
Proof.
  induction drained as [|d ds IH]; intros w Hq.
  - simpl in *. unfold ret. do 2 f_equal.
    apply World_eq; simpl; try reflexivity; [assumption | now rewrite app_nil_r].
  - simpl in Hq. cbn [length retire]. unfold bind at 1, get. rewrite Hq.
    unfold bind at 1. unfold call_, call, bind at 1. unfold ret at 1.
    unfold bind at 1, modify.
    rewrite IH by reflexivity.
    do 2 f_equal. apply World_eq; simpl; try reflexivity.
    now rewrite <- app_assoc.
Qed.

End Vsync.

Section VsyncClaim.

Variable env : Env.

(** C2.  [OnVsync timestamp stamp]: a stamp equal to the last presented one
    is ignored; a stamp that no pending entry carries changes nothing and
    calls nobody; otherwise the queue is drained from its head up to and
    including the first entry carrying the stamp, the release-fence manager's
    [OnVsync(frame_number, timestamp)] is called for each drained entry in
    queue order, and the last presented stamp becomes the received one. *)
Theorem OnVsync_retires (timestamp : Z) (stamp : N) (w : World) :
  (last_presented_config_stamp_ w = Some stamp ->
   OnVsync env timestamp stamp w = Some (tt, w))
  /\ ((forall it, In it (pending_apply_configs_ w) -> config_stamp it <> stamp) ->
      OnVsync env timestamp stamp w = Some (tt, w))
  /\ (forall pre it post,
        last_presented_config_stamp_ w <> Some stamp ->
        pending_apply_configs_ w = pre ++ it :: post ->
        config_stamp it = stamp ->
        (forall x, In x pre -> config_stamp x <> stamp) ->
        OnVsync env timestamp stamp w =
          Some (tt, set_last_presented_config_stamp_ (Some stamp)
                      (set_pending_apply_configs_ (fun _ => post)
                         (set_trace (fun t => t ++ vsync_calls timestamp (pre ++ [it])) w)))).
Proof.
  split; [|split].
  - intros Hlast. unfold OnVsync, bind, get. rewrite Hlast.
    now rewrite N.eqb_refl.
  - intros Hnone. unfold OnVsync, bind, get.
    destruct (match last_presented_config_stamp_ w with
              | Some s => stamp =? s | None => false end); [reflexivity|].
    destruct (list_find _ _) as [[k it]|] eqn:Hfind; [|reflexivity].
    apply list_find_Some in Hfind as (Hk & Hit & _).
    exfalso. apply (Hnone it); [|exact Hit].
    apply list_elem_of_In, list_elem_of_lookup. eauto.
  - intros pre it post Hlast Hq Hit Hpre. unfold OnVsync. unfold bind at 1, get.
    replace (match last_presented_config_stamp_ w with
             | Some s => stamp =? s | None => false end) with false.
    2:{ destruct (last_presented_config_stamp_ w) as [s|]; [|reflexivity].
        symmetry. apply N.eqb_neq. congruence. }
    assert (Hfind : list_find (fun info => config_stamp info = stamp)
                      (pending_apply_configs_ w) = Some (length pre, it)).
    { apply list_find_Some. rewrite Hq. split; [|split].
      - now rewrite list_lookup_middle.
      - exact Hit.
      - intros j y Hj Hlt. apply Hpre, list_elem_of_In, list_elem_of_lookup.
        exists j. now rewrite lookup_app_l in Hj. }
    rewrite Hfind. unfold bind at 1.
    replace (S (length pre)) with (length (pre ++ [it])) by (rewrite length_app; simpl; lia).
    rewrite (retire_app env timestamp (pre ++ [it]) post)
      by (now rewrite <- app_assoc).
    reflexivity.
Qed.

End VsyncClaim.

(** On a queue of three frames with stamps 10, 11, 12 and last presented
    stamp 9: a vsync for stamp 11 retires frames 1 and 2, in that order. *)
Lemma OnVsync_retires_witness :
  OnVsync (Sample.agreeable false) 5 9 Sample.three_pending = Some (tt, Sample.three_pending)
  /\ OnVsync (Sample.agreeable false) 5 77 Sample.three_pending = Some (tt, Sample.three_pending)
  /\ OnVsync (Sample.agreeable false) 5 11 Sample.three_pending =
       Some (tt, set_last_presented_config_stamp_ (Some 11)
                   (set_pending_apply_configs_
                      (fun _ => [ {| config_stamp := 12; frame_number := 3 |} ])
                      (set_trace (fun t => t ++ [RfmOnVsync 1 5; RfmOnVsync 2 5])
                         Sample.three_pending))).
Proof.
  split; [|split].
  - apply (proj1 (OnVsync_retires (Sample.agreeable false) 5 9 Sample.three_pending)).
    reflexivity.
  - apply (proj1 (proj2 (OnVsync_retires (Sample.agreeable false) 5 77 Sample.three_pending))).
    simpl. intros it [<-|[<-|[<-|[]]]]; simpl; lia.
  - apply (proj2 (proj2 (OnVsync_retires (Sample.agreeable false) 5 11 Sample.three_pending))
             [ {| config_stamp := 10; frame_number := 1 |} ]
             {| config_stamp := 11; frame_number := 2 |}
             [ {| config_stamp := 12; frame_number := 3 |} ]).
    + simpl. intros H. inversion H.
    + reflexivity.
    + reflexivity.
    + simpl. intros x [<-|[]]. simpl. lia.
Defined.

(** ** Relational reasoning about runs

    [run_rel R m]: every terminating run of [m] relates its initial and
    final states by [R].  For a preorder [R] the property follows the
    structure of the program. *)

Section RunRel.

Variable R : World -> World -> Prop.
Hypothesis R_refl : forall w, R w w.
Hypothesis R_trans : forall w1 w2 w3, R w1 w2 -> R w2 w3 -> R w1 w3.

Lemma run_rel_ret {A} (a : A) : run_rel R (ret a).
Proof. intros w a' w' [= _ <-]. apply R_refl. Qed.

Lemma run_rel_get : run_rel R get.
Proof. intros w a' w' [= _ <-]. apply R_refl. Qed.

Lemma run_rel_crash {A} : run_rel R (@crash A).
Proof. intros w a w' [=]. Qed.

Lemma run_rel_bind {A B} (m : M A) (k : A -> M B) :
  run_rel R m -> (forall a, run_rel R (k a)) -> run_rel R (bind m k).
Proof.
  intros Hm Hk w b w' H. unfold bind in H.
  destruct (m w) as [[a w1]|] eqn:E; [|discriminate].
  eapply R_trans; [eapply Hm, E | eapply Hk, H].
Qed.

Lemma run_rel_modify (f : World -> World) :
  (forall w, R w (f w)) -> run_rel R (modify f).
Proof. intros Hf w a w' [= _ <-]. apply Hf. Qed.

Lemma run_rel_for_range {T} (body : nat -> M (option T)) :
  (forall i, run_rel R (body i)) ->
  forall n i, run_rel R (for_range i n body).
Proof.
  intros Hb. induction n as [|n IH]; intros i; simpl.
  - apply run_rel_ret.
  - apply run_rel_bind; [apply Hb|]. intros [v|]; [apply run_rel_ret | apply IH].
Qed.

Lemma run_rel_for_each {X T} (body : X -> M (option T)) :
  (forall x, run_rel R (body x)) ->
  forall xs, run_rel R (for_each xs body).
Proof.
  intros Hb. induction xs as [|x xs IH]; simpl.
  - apply run_rel_ret.
  - apply run_rel_bind; [apply Hb|]. intros [v|]; [apply run_rel_ret | apply IH].
Qed.

Lemma run_rel_index {X} (v : list X) (i : nat) : run_rel R (index v i).
Proof. unfold index. destruct (v !! i); [apply run_rel_ret | apply run_rel_crash]. Qed.

End RunRel.

(** Descends through the structure of a program, leaving the primitive
    steps ([call], [modify]) to [leaf]. *)
Ltac run_rel_step Hrefl Htrans leaf :=
  lazymatch goal with
  | |- run_rel _ (bind _ _) => apply (run_rel_bind _ Htrans); [|intros ?]
  | |- run_rel _ (ret _) => apply (run_rel_ret _ Hrefl)
  | |- run_rel _ get => apply (run_rel_get _ Hrefl)
  | |- run_rel _ crash => apply run_rel_crash
  | |- run_rel _ (index _ _) => apply (run_rel_index _ Hrefl)
  | |- run_rel _ (for_range _ _ _) => apply (run_rel_for_range _ Hrefl Htrans); intros ?
  | |- run_rel _ (for_each _ _) => apply (run_rel_for_each _ Hrefl Htrans); intros ?
  | |- run_rel _ (modify _) => apply run_rel_modify; leaf
  | |- run_rel _ (if ?b then _ else _) => destruct b
  | |- run_rel _ (match ?x with _ => _ end) => destruct x
  | |- run_rel _ (let '(_, _) := ?p in _) => destruct p
  | |- _ => leaf
  end.

Lemma extends_by_refl (allowed : Call -> bool) (w : World) : extends_by allowed w w.
Proof. exists []. now rewrite app_nil_r. Qed.

Lemma extends_by_trans (allowed : Call -> bool) (w1 w2 w3 : World) :
  extends_by allowed w1 w2 -> extends_by allowed w2 w3 -> extends_by allowed w1 w3.
Proof.
  intros (cs & E1 & H1) (ds & E2 & H2). exists (cs ++ ds). split.
  - now rewrite E2, E1, app_assoc.
  - now rewrite forallb_app, H1, H2.
Qed.

Lemma extends_by_new_calls (allowed : Call -> bool) (w w' : World) :
  extends_by allowed w w' ->
  trace w' = trace w ++ new_calls w w' /\ forallb allowed (new_calls w w') = true.
Proof.
  intros (cs & E & H). unfold new_calls. rewrite E, drop_app_length. auto.
Qed.

Lemma run_rel_call (env : Env) (R : World -> World -> Prop) (c : Call) :
  (forall w, R w (set_trace (fun t => t ++ [c]) w)) -> run_rel R (call env c).
Proof. intros H w a w' [= _ <-]. apply H. Qed.

Lemma run_rel_call2 (env : Env) (R : World -> World -> Prop) (c : Call) :
  (forall w, R w (set_trace (fun t => t ++ [c]) w)) -> run_rel R (call2 env c).
Proof. intros H w a w' [= _ <-]. apply H. Qed.

Lemma run_rel_weaken {A} (R R' : World -> World -> Prop) (m : M A) :
  (forall w w', R w w' -> R' w w') -> run_rel R m -> run_rel R' m.
Proof. intros H Hm w a w' E. eapply H, Hm, E. Qed.

(** ** A frame that is dropped applies nothing *)

Lemma frame_dropped_refl (w : World) : frame_dropped w w.
Proof. split; [apply extends_by_refl | reflexivity]. Qed.

Lemma frame_dropped_trans (w1 w2 w3 : World) :
  frame_dropped w1 w2 -> frame_dropped w2 w3 -> frame_dropped w1 w3.
Proof.
  intros [E1 P1] [E2 P2]. split; [eapply extends_by_trans; eassumption | congruence].
Qed.

Lemma frame_dropped_call (c : Call) (w : World) :
  no_apply_no_handoff c = true -> frame_dropped w (set_trace (fun t => t ++ [c]) w).
Proof.
  intros H. split; [|reflexivity]. exists [c]. simpl. now rewrite H.
Qed.

Ltac frame_dropped_leaf :=
  lazymatch goal with
  | |- run_rel _ (call _ _) =>
      apply run_rel_call; intros ?; apply frame_dropped_call; reflexivity
  | |- run_rel _ (call2 _ _) =>
      apply run_rel_call2; intros ?; apply frame_dropped_call; reflexivity
  | |- forall w, frame_dropped w _ =>
      intros ?; split; [exists []; simpl; now rewrite app_nil_r | reflexivity]
  | |- _ => idtac
  end.

Ltac frame_dropped_auto :=
  repeat (run_rel_step frame_dropped_refl frame_dropped_trans ltac:(frame_dropped_leaf)).

Section FrameDropped.

Variable env : Env.

Lemma DiscardConfig_dropped : run_rel frame_dropped (DiscardConfig env).
Proof. unfold DiscardConfig, call_. frame_dropped_auto. Qed.

Lemma CheckConfig_dropped : run_rel frame_dropped (CheckConfig env).
Proof. unfold CheckConfig. frame_dropped_auto. Qed.

Lemma CreateImageConfig_dropped (m : ImageMetadata) : run_rel frame_dropped (CreateImageConfig m).
Proof. unfold CreateImageConfig. frame_dropped_auto. Qed.

Lemma ApplyLayerImage_dropped (l : N) (r : ImageRect) (m : ImageMetadata) (a b : N) :
  run_rel frame_dropped (ApplyLayerImage env l r m a b).
Proof.
  unfold ApplyLayerImage, call_. frame_dropped_auto. apply CreateImageConfig_dropped.
Qed.

Lemma SetRenderDataOnDisplay_dropped (data : RenderData) :
  run_rel frame_dropped (SetRenderDataOnDisplay env data).
Proof.
  unfold SetRenderDataOnDisplay, check_image_event, assign_layer, SetDisplayLayers,
    NewImageEventData, ImportEvent, supports_display_index, image_event_index,
    display_info_index, ApplyLayerColor, call_.
  frame_dropped_auto; apply ApplyLayerImage_dropped.
Qed.

Lemma SetRenderDatasOnDisplay_dropped (datas : list RenderData) :
  run_rel frame_dropped (SetRenderDatasOnDisplay env datas).
Proof.
  unfold SetRenderDatasOnDisplay, set_render_data_and_cc.
  frame_dropped_auto. apply SetRenderDataOnDisplay_dropped.
Qed.

Lemma compose_display_dropped (datas : list RenderData) (i : nat) :
  run_rel frame_dropped (compose_display env datas i).
Proof.
  unfold compose_display, set_engine_data, SetDisplayLayers, call_.
  frame_dropped_auto; first [apply ApplyLayerImage_dropped | apply CheckConfig_dropped].
Qed.

Lemma fallback_to_gpu_composition_dropped (datas : list RenderData) :
  run_rel frame_dropped (fallback_to_gpu_composition env datas).
Proof.
  unfold fallback_to_gpu_composition.
  frame_dropped_auto;
    first [apply DiscardConfig_dropped | apply SetRenderDatasOnDisplay_dropped
          | apply CheckConfig_dropped].
Qed.

End FrameDropped.

Section FallbackClaim.

Variable env : Env.

Lemma PerformGpuComposition_false_dropped (fn : N) (pt : Z) (datas : list RenderData)
    (rf : list N) (cb : N) (w w' : World) :
  PerformGpuComposition env fn pt datas rf cb w = Some (false, w') ->
  frame_dropped w w'.
Proof.
  unfold PerformGpuComposition. unfold bind at 1.
  destruct (for_range _ _ _ w) as [[r w1]|] eqn:E; [|discriminate].
  destruct r as [b|].
  - intros [= -> <-].
    eapply (run_rel_for_range _ frame_dropped_refl frame_dropped_trans); [|exact E].
    intros i. apply compose_display_dropped.
  - unfold call_, call, bind, ret. discriminate.
Qed.

Lemma bind_Some {A B} (m : M A) (k : A -> M B) (w : World) (b : B) (w' : World) :
  bind m k w = Some (b, w') <->
  exists a w1, m w = Some (a, w1) /\ k a w1 = Some (b, w').
Proof.
  unfold bind. split.
  - destruct (m w) as [[a w1]|]; [eauto | discriminate].
  - intros (a & w1 & -> & H). exact H.
Qed.

(** The value of [fallback_to_gpu_composition], and the state it is computed
    in: the state after planning, plus the [CheckConfig] call if one was
    made. *)
Lemma fallback_value (datas : list RenderData) (w : World) (hardware_ok : bool)
    (w1 : World) :
  (DiscardConfig env ;;; SetRenderDatasOnDisplay env datas) w = Some (hardware_ok, w1) ->
  exists w2,
    fallback_to_gpu_composition env datas w
    = Some (negb hardware_ok || kDisableDisplayComposition env
            || negb (env_status env (trace w1) (DcCheckConfig false)), w2)
    /\ (w2 = w1 \/ w2 = set_trace (fun t => t ++ [DcCheckConfig false]) w1).
Proof.
  intros Hplan. apply bind_Some in Hplan as (u & w0 & Hd & Hs).
  unfold fallback_to_gpu_composition.
  unfold bind at 1. rewrite Hd. unfold bind at 1. rewrite Hs.
  destruct hardware_ok; simpl; [|eexists; split; [reflexivity | now left]].
  destruct (kDisableDisplayComposition env); simpl;
    [eexists; split; [reflexivity | now left]|].
  unfold CheckConfig, call, bind, ret. eexists. split; [reflexivity | now right].
Qed.

(** C1.  [RenderFrame] takes the GPU path exactly when planning for direct
    scanout failed, or [kDisableDisplayComposition] is set, or the
    controller's [CheckConfig] does not answer OK.  When GPU composition
    fails as well, [RenderFrame] returns having applied no configuration
    and having handed neither the release fences nor the present callback
    to the release-fence manager; the queue of applied configurations is
    as it was. *)
Theorem RenderFrame_fallback (fn : N) (pt : Z) (datas : list RenderData) (rf : list N)
    (cb : N) (w : World) (hardware_ok : bool) (w1 : World) :
  (DiscardConfig env ;;; SetRenderDatasOnDisplay env datas) w = Some (hardware_ok, w1) ->
  let check_config_ok := env_status env (trace w1) (DcCheckConfig false) in
  if negb hardware_ok || kDisableDisplayComposition env || negb check_config_ok
  then
    exists w2,
      fallback_to_gpu_composition env datas w = Some (true, w2)
      /\ RenderFrame env fn pt datas rf cb w = gpu_branch env fn pt datas rf cb w2
      /\ forall w3,
           (DiscardConfig env ;;; PerformGpuComposition env fn pt datas rf cb) w2
             = Some (false, w3) ->
           RenderFrame env fn pt datas rf cb w = Some (tt, w3)
           /\ pending_apply_configs_ w3 = pending_apply_configs_ w
           /\ trace w3 = trace w ++ new_calls w w3
           /\ forallb no_apply_no_handoff (new_calls w w3) = true
  else
    exists w2,
      fallback_to_gpu_composition env datas w = Some (false, w2)
      /\ RenderFrame env fn pt datas rf cb w = direct_branch env fn rf cb w2.
Proof.
  intros Hplan check_config_ok.
  destruct (fallback_value datas w hardware_ok w1 Hplan) as (w2 & Hfb & _).
  fold check_config_ok in Hfb.
  destruct (negb hardware_ok || kDisableDisplayComposition env || negb check_config_ok).
  - exists w2. split; [exact Hfb|]. split.
    + unfold RenderFrame, bind at 1. now rewrite Hfb.
    + intros w3 Hgpu.
      assert (Hrun : RenderFrame env fn pt datas rf cb w = Some (tt, w3)).
      { unfold RenderFrame, bind at 1. rewrite Hfb. unfold gpu_branch.
        apply bind_Some in Hgpu as (u & w2' & Hd & Hg).
        unfold bind at 1. rewrite Hd. unfold bind at 1. now rewrite Hg. }
      split; [exact Hrun|].
      assert (Hdrop : frame_dropped w w3).
      { apply bind_Some in Hgpu as (u & w2' & Hd & Hg).
        eapply frame_dropped_trans;
          [eapply fallback_to_gpu_composition_dropped, Hfb|].
        eapply frame_dropped_trans; [eapply DiscardConfig_dropped, Hd|].
        eapply PerformGpuComposition_false_dropped, Hg. }
      destruct Hdrop as [Hext Hq]. split; [exact Hq|].
      apply extends_by_new_calls, Hext.
  - exists w2. split; [exact Hfb|].
    unfold RenderFrame, bind at 1. now rewrite Hfb.
Qed.

End FallbackClaim.

(** A controller that rejects every configuration: planning a full-screen
    solid colour succeeds, [CheckConfig] fails, GPU composition fails on its
    own [CheckConfig], and the frame is dropped. *)
Lemma RenderFrame_fallback_witness :
  exists w3,
    RenderFrame Sample.check_fails 1 0 [Sample.fullscreen_white] [30] 40
      (Sample.with_display Sample.check_fails AttemptDisplayConstraints) = Some (tt, w3)
    /\ pending_apply_configs_ w3 = []
    /\ forallb no_apply_no_handoff
         (new_calls (Sample.with_display Sample.check_fails AttemptDisplayConstraints) w3)
       = true.
Proof.
  set (env := Sample.check_fails).
  set (w := Sample.with_display env AttemptDisplayConstraints).
  destruct ((DiscardConfig env ;;; SetRenderDatasOnDisplay env [Sample.fullscreen_white]) w)
    as [[ok w1]|] eqn:Hplan; [|vm_compute in Hplan; discriminate].
  pose proof (RenderFrame_fallback env 1 0 [Sample.fullscreen_white] [30] 40 w ok w1 Hplan)
    as T.
  cbv zeta in T.
  assert (Hc : negb ok || kDisableDisplayComposition env
               || negb (env_status env (trace w1) (DcCheckConfig false)) = true).
  { simpl. now rewrite orb_true_r. }
  rewrite Hc in T. destruct T as (w2 & Hfb & _ & Hfail).
  destruct ((DiscardConfig env ;;; PerformGpuComposition env 1 0 [Sample.fullscreen_white]
               [30] 40) w2) as [[b w3]|] eqn:Hgpu.
  - destruct b.
    + exfalso. vm_compute in Hfb. injection Hfb as <-. vm_compute in Hgpu. discriminate.
    + exists w3. destruct (Hfail w3 eq_refl) as (Hrun & Hq & _ & Hcalls).
      split; [exact Hrun|]. split; [rewrite Hq; reflexivity | exact Hcalls].
  - exfalso. vm_compute in Hfb. injection Hfb as <-. vm_compute in Hgpu. discriminate.
Defined.

(** ** The planner's in-use check *)

Lemma planner_keeps_refl (w : World) : planner_keeps w w.
Proof. split; auto. Qed.

Lemma planner_keeps_trans (w1 w2 w3 : World) :
  planner_keeps w1 w2 -> planner_keeps w2 w3 -> planner_keeps w1 w3.
Proof. intros [E1 D1] [E2 D2]. split; [auto | congruence]. Qed.

Lemma planner_keeps_in_use (w w' : World) (id : N) :
  planner_keeps w w' -> in_use w id -> in_use w' id.
Proof. intros [E _] (e & He & Hs). exists e. auto. Qed.

Ltac planner_keeps_leaf :=
  lazymatch goal with
  | |- run_rel _ (call _ _) => apply run_rel_call; intros ?; split; auto
  | |- run_rel _ (call2 _ _) => apply run_rel_call2; intros ?; split; auto
  | |- forall w, planner_keeps w _ => intros ?; split; auto
  | |- _ => idtac
  end.

Ltac planner_keeps_auto :=
  repeat (run_rel_step planner_keeps_refl planner_keeps_trans ltac:(planner_keeps_leaf)).

Section InUse.

Variable env : Env.

Lemma check_image_event_eq (data : RenderData) (i : nat) (img : ImageMetadata) (w : World) :
  images data !! i = Some img ->
  check_image_event env data i w =
    match image_event_map_ w !! identifier img with
    | None => Some (None, with_new_image_event (identifier img) w)
    | Some e =>
        if wait_one_signaled (signal_event e)
        then Some (None, set_pending_images_in_config_ (fun l => l ++ [identifier img]) w)
        else Some (Some false, w)
    end.
Proof.
  intros Hi. unfold check_image_event, index. rewrite Hi.
  unfold bind at 1, ret at 1. unfold bind at 1, get.
  destruct (image_event_map_ w !! identifier img) as [e|].
  - destruct (wait_one_signaled (signal_event e)); reflexivity.
  - reflexivity.
Qed.

Lemma check_image_event_keeps (data : RenderData) (i : nat) :
  run_rel planner_keeps (check_image_event env data i).
Proof.
  intros w r w' H.
  destruct (images data !! i) as [img|] eqn:Hi.
  - rewrite (check_image_event_eq _ _ _ _ Hi) in H.
    destruct (image_event_map_ w !! identifier img) as [e|] eqn:He.
    + destruct (wait_one_signaled (signal_event e)); injection H as _ <-; split; auto.
    + injection H as _ <-. split; [|reflexivity].
      intros id e Hid. simpl. rewrite lookup_insert_ne; [exact Hid | congruence].
  - unfold check_image_event, index in H. rewrite Hi in H. discriminate.
Qed.

Lemma image_event_index_keeps (id : N) : run_rel planner_keeps (image_event_index id).
Proof.
  intros w r w'. unfold image_event_index, bind, get.
  destruct (image_event_map_ w !! id) as [e|] eqn:He.
  - intros [= _ <-]. apply planner_keeps_refl.
  - intros [= _ <-]. split; [|reflexivity].
    intros id' e Hid. simpl. rewrite lookup_insert_ne; [exact Hid | congruence].
Qed.

Lemma SetRenderDataOnDisplay_keeps (data : RenderData) :
  run_rel planner_keeps (SetRenderDataOnDisplay env data).
Proof.
  unfold SetRenderDataOnDisplay, assign_layer, SetDisplayLayers,
    supports_display_index, display_info_index, ApplyLayerColor, ApplyLayerImage,
    CreateImageConfig, call_.
  planner_keeps_auto;
    first [apply check_image_event_keeps | apply image_event_index_keeps].
Qed.

Lemma set_render_data_and_cc_keeps (data : RenderData) :
  run_rel planner_keeps (set_render_data_and_cc env data).
Proof.
  unfold set_render_data_and_cc. planner_keeps_auto. apply SetRenderDataOnDisplay_keeps.
Qed.

Lemma DiscardConfig_keeps : run_rel planner_keeps (DiscardConfig env).
Proof. unfold DiscardConfig, call_. planner_keeps_auto. Qed.

(** The first loop of the planner stops with [return false] when one of the
    images it is yet to visit is in use. *)
Lemma check_loop_rejects (data : RenderData) :
  forall n i w j img,
    (i <= j < i + n)%nat ->
    (i + n <= length (images data))%nat ->
    images data !! j = Some img ->
    in_use w (identifier img) ->
    exists w', for_range i n (check_image_event env data) w = Some (Some false, w').
Proof.
  induction n as [|n IH]; intros i w j img Hj Hlen Himg Huse; [lia|].
  cbn [for_range].
  destruct (images data !! i) as [img_i|] eqn:Hi.
  2:{ apply lookup_ge_None in Hi. lia. }
  unfold bind at 1. rewrite (check_image_event_eq _ _ _ _ Hi).
  destruct Huse as (e & He & Hs).
  destruct (decide (j = i)) as [->|Hne].
  - assert (img_i = img) as -> by congruence.
    rewrite He, Hs. eexists. reflexivity.
  - destruct (image_event_map_ w !! identifier img_i) as [e_i|] eqn:Hei.
    + destruct (wait_one_signaled (signal_event e_i)); [|eexists; reflexivity].
      apply (IH (S i) _ j img); [lia | lia | exact Himg |].
      exists e. auto.
    + apply (IH (S i) _ j img); [lia | lia | exact Himg |].
      exists e. split; [|exact Hs]. simpl.
      rewrite lookup_insert_ne; [exact He | congruence].
Qed.

Lemma uint32_small (n : N) : n < 2 ^ 32 -> uint32 n = n.
Proof. intros H. unfold uint32. now apply N.mod_small. Qed.

Lemma SetRenderDataOnDisplay_rejects_in_use (data : RenderData) (img : ImageMetadata)
    (w : World) :
  In img (images data) ->
  in_use w (identifier img) ->
  is_Some (display_engine_data_map_ w !! display_id data) ->
  N.of_nat (length (images data)) < 2 ^ 32 ->
  exists w', SetRenderDataOnDisplay env data w = Some (false, w').
Proof.
  intros Hin Huse [d Hd] Hlen.
  apply list_elem_of_In, list_elem_of_lookup in Hin as [j Hj].
  unfold SetRenderDataOnDisplay. rewrite (uint32_small _ Hlen), Nat2N.id.
  unfold bind at 1, get. rewrite Hd.
  destruct (N.of_nat (length (layers d)) <? N.of_nat (length (images data)));
    [eexists; reflexivity|].
  destruct (check_loop_rejects data (length (images data)) 0 w j img) as [w' Hw'];
    [ apply lookup_lt_Some in Hj; lia | simpl; lia | exact Hj | exact Huse |].
  unfold bind at 1. rewrite Hw'. eexists. reflexivity.
Qed.

Lemma for_each_app {X T} (body : X -> M (option T)) (xs ys : list X) (w : World) :
  for_each (xs ++ ys) body w =
    (r <- for_each xs body ;;
     match r with
     | Some v => ret (Some v)
     | None => for_each ys body
     end) w.
Proof.
  revert w. induction xs as [|x xs IH]; intros w; simpl.
  - reflexivity.
  - unfold bind. destruct (body x w) as [[[v|] w1]|]; simpl; try reflexivity.
    rewrite IH. reflexivity.
Qed.

Lemma set_render_data_and_cc_result (data : RenderData) (w w' : World) (b : bool) :
  set_render_data_and_cc env data w = Some (Some b, w') -> b = false.
Proof.
  unfold set_render_data_and_cc. intros H.
  apply bind_Some in H as (ok & w1 & _ & H). destruct ok; simpl in H.
  - unfold bind, get in H.
    destruct (ColorConversionStateMachine.GetDataToApply _); [|discriminate].
    unfold call in H. destruct (env_status _ _ _); discriminate.
  - now injection H as <- _.
Qed.

Lemma for_each_planner_result (datas : list RenderData) :
  forall w w' b,
    for_each datas (set_render_data_and_cc env) w = Some (Some b, w') -> b = false.
Proof.
  induction datas as [|d ds IH]; intros w w' b H; simpl in H; [discriminate|].
  apply bind_Some in H as ([v|] & w1 & Hd & H).
  - injection H as <- _. eapply set_render_data_and_cc_result, Hd.
  - eapply IH, H.
Qed.

(** Planning stops with [false] at the display that shows an image in use.
    [pre] are the displays planned before it. *)
Lemma planner_rejects_in_use (pre post : list RenderData) (data : RenderData)
    (img : ImageMetadata) (w w1 : World) (r : option bool) :
  In img (images data) ->
  in_use w (identifier img) ->
  is_Some (display_engine_data_map_ w !! display_id data) ->
  N.of_nat (length (images data)) < 2 ^ 32 ->
  (DiscardConfig env ;;; for_each pre (set_render_data_and_cc env)) w = Some (r, w1) ->
  exists w2,
    (DiscardConfig env ;;; SetRenderDatasOnDisplay env (pre ++ data :: post)) w
      = Some (false, w2).
Proof.
  intros Hin Huse Hdisp Hlen Hpre.
  apply bind_Some in Hpre as (u & w0 & Hd & Hpre).
  unfold bind at 1. rewrite Hd. unfold SetRenderDatasOnDisplay.
  destruct (kDisableDisplayComposition env); [eexists; reflexivity|].
  unfold bind at 1. rewrite for_each_app. unfold bind at 1. rewrite Hpre.
  destruct r as [b|].
  - rewrite (for_each_planner_result _ _ _ _ Hpre). eexists. reflexivity.
  - assert (Hk : planner_keeps w w1).
    { eapply planner_keeps_trans; [eapply DiscardConfig_keeps, Hd|].
      eapply (run_rel_for_each _ planner_keeps_refl planner_keeps_trans), Hpre.
      apply set_render_data_and_cc_keeps. }
    destruct (SetRenderDataOnDisplay_rejects_in_use data img w1) as [w2 Hw2];
      [ exact Hin | eapply planner_keeps_in_use; eassumption
      | destruct Hk as [_ ->]; exact Hdisp | exact Hlen |].
    cbn [for_each]. unfold bind at 1. unfold set_render_data_and_cc at 1.
    unfold bind at 1. rewrite Hw2. eexists. reflexivity.
Qed.

(** When planning answers [false], [RenderFrame] goes on with its GPU
    branch. *)
Lemma planning_false_gpu_branch (fn : N) (pt : Z) (datas : list RenderData) (rf : list N)
    (cb : N) (w w2 : World) :
  (DiscardConfig env ;;; SetRenderDatasOnDisplay env datas) w = Some (false, w2) ->
  RenderFrame env fn pt datas rf cb w = gpu_branch env fn pt datas rf cb w2.
Proof.
  intros Hplan. apply bind_Some in Hplan as (u & w0 & Hd & Hs).
  unfold RenderFrame, fallback_to_gpu_composition.
  unfold bind at 1. unfold bind at 1. rewrite Hd. unfold bind at 1. rewrite Hs.
  reflexivity.
Qed.

End InUse.

(** ** Unsignalling the image events *)

Lemma events_same_refl (w : World) : events_same w w.
Proof. split; reflexivity. Qed.

Lemma events_same_trans (w1 w2 w3 : World) :
  events_same w1 w2 -> events_same w2 w3 -> events_same w1 w3.
Proof. intros [E1 P1] [E2 P2]. split; congruence. Qed.

Ltac events_same_leaf :=
  lazymatch goal with
  | |- run_rel _ (call _ _) => apply run_rel_call; intros ?; split; reflexivity
  | |- run_rel _ (call2 _ _) => apply run_rel_call2; intros ?; split; reflexivity
  | |- forall w, events_same w _ => intros ?; split; reflexivity
  | |- _ => idtac
  end.

Ltac events_same_auto :=
  repeat (run_rel_step events_same_refl events_same_trans ltac:(events_same_leaf)).

Lemma unsignal_entry_not_signaled (m : gmap N ImageEventData) (id : N) :
  exists e, unsignal_entry m id !! id = Some e /\ wait_one_signaled (signal_event e) = false.
Proof.
  unfold unsignal_entry. eexists. split; [apply lookup_insert_eq|].
  simpl. now destruct (signal_event _) as [|[]].
Qed.


Lemma unsignal_all_keeps_unsignaled (ids : list N) (id : N) :
  forall m,
    (exists e, m !! id = Some e /\ wait_one_signaled (signal_event e) = false) ->
    exists e, unsignal_all ids m !! id = Some e /\ wait_one_signaled (signal_event e) = false.
Proof.
  unfold unsignal_all. induction ids as [|x xs IH]; intros m Hm; simpl; [exact Hm|].
  apply IH. destruct (decide (x = id)) as [->|Hne].
  - apply unsignal_entry_not_signaled.
  - unfold unsignal_entry. rewrite lookup_insert_ne by exact Hne. exact Hm.
Qed.

Lemma unsignal_all_not_signaled (ids : list N) (id : N) :
  In id ids ->
  forall m, exists e,
    unsignal_all ids m !! id = Some e /\ wait_one_signaled (signal_event e) = false.
Proof.
  induction ids as [|x xs IH]; intros Hin m; [destruct Hin|].
  destruct (decide (x = id)) as [->|Hne].
  - change (unsignal_all (id :: xs) m) with (unsignal_all xs (unsignal_entry m id)).
    apply unsignal_all_keeps_unsignaled, unsignal_entry_not_signaled.
  - destruct Hin as [->|Hin]; [congruence|].
    change (unsignal_all (x :: xs) m) with (unsignal_all xs (unsignal_entry m x)).
    now apply IH.
Qed.

Section Unsignal.

Variable env : Env.

Lemma unsignal_loop (ids : list N) :
  forall w,
    for_each ids unsignal_image_event w =
      Some (None, set_image_event_map_ (unsignal_all ids) w).
Proof.
  induction ids as [|id ids IH]; intros w.
  - simpl. unfold ret. do 2 f_equal. apply World_eq; reflexivity.
  - cbn [for_each]. unfold bind at 1.
    assert (Hstep : unsignal_image_event id w =
                    Some (None, set_image_event_map_ (fun m => unsignal_entry m id) w)).
    { unfold unsignal_image_event, image_event_index, bind, get, modify, ret.
      unfold unsignal_entry.
      destruct (image_event_map_ w !! id) as [e|] eqn:He; simpl;
        do 2 f_equal; apply World_eq; try reflexivity; simpl; rewrite He; simpl;
        try reflexivity.
      apply insert_insert_eq. }
    rewrite Hstep, IH. reflexivity.
Qed.



Lemma apply_and_enqueue_same (fn : N) : run_rel events_same (apply_and_enqueue env fn).
Proof. unfold apply_and_enqueue, ApplyConfig, call_. events_same_auto. Qed.



Lemma direct_branch_events (fn : N) (rf : list N) (cb : N) (w w' : World) :
  direct_branch env fn rf cb w = Some (tt, w') ->
  image_event_map_ w' = unsignal_all (pending_images_in_config_ w) (image_event_map_ w).
Proof.
  unfold direct_branch. intros H.
  apply bind_Some in H as (u & wa & Hm & H). injection Hm as _ Hm. subst wa.
  apply bind_Some in H as (wb & wc & Hg & H). injection Hg as Hg1 Hg2. subst wb wc.
  apply bind_Some in H as (r & wd & Hl & H).
  rewrite unsignal_loop in Hl. injection Hl as _ Hl. subst wd.
  assert (Hrest : events_same
                    (set_image_event_map_
                       (unsignal_all
                          (pending_images_in_config_
                             (set_cc_state_machine_
                                ColorConversionStateMachine.SetApplyConfigSucceeded w)))
                       (set_cc_state_machine_
                          ColorConversionStateMachine.SetApplyConfigSucceeded w)) w').
  { revert H. unfold call_.
    apply (run_rel_bind _ events_same_trans); [events_same_auto|].
    intros _. apply apply_and_enqueue_same. }
  destruct Hrest as [-> _]. reflexivity.
Qed.


End Unsignal.


(** ** Imports *)

Lemma no_release_call (c : Call) (w : World) :
  no_release c = true -> extends_by no_release w (set_trace (fun t => t ++ [c]) w).
Proof. intros H. exists [c]. simpl. now rewrite H. Qed.

Ltac no_release_leaf :=
  lazymatch goal with
  | |- run_rel _ (call _ _) =>
      apply run_rel_call; intros ?; apply no_release_call; reflexivity
  | |- run_rel _ (call2 _ _) =>
      apply run_rel_call2; intros ?; apply no_release_call; reflexivity
  | |- forall w, extends_by _ w _ => intros ?; exists []; simpl; now rewrite app_nil_r
  | |- _ => idtac
  end.

Ltac no_release_auto :=
  repeat (run_rel_step (extends_by_refl no_release) (extends_by_trans no_release)
            ltac:(no_release_leaf)).

Section Imports.

Variable env : Env.

Lemma ImportBufferCollection_no_release (id token : N) (usage : BufferCollectionUsage) :
  run_rel (extends_by no_release) (ImportBufferCollection env id token usage).
Proof.
  unfold ImportBufferCollection, DuplicateToken, ConvertToAttachToken,
    CreateBufferCollectionPtrWithEmptyConstraints, DuplicateToken, new_handle, call_.
  no_release_auto.
Qed.

Lemma ImportBufferImage_no_release (metadata : ImageMetadata) (usage : BufferCollectionUsage) :
  run_rel (extends_by no_release) (ImportBufferImage env metadata usage).
Proof.
  unfold ImportBufferImage, TakeDisplayBufferCollectionPtr, DetermineDisplaySupportFor,
    CheckBuffersAllocated, GetPixelFormat, supports_display_index, CreateImageConfig, call_.
  no_release_auto.
Qed.

Lemma ImportBufferCollection_total (id token : N) (usage : BufferCollectionUsage) (w : World) :
  exists b w', ImportBufferCollection env id token usage w = Some (b, w').
Proof.
  unfold ImportBufferCollection, DuplicateToken, ConvertToAttachToken,
    CreateBufferCollectionPtrWithEmptyConstraints, DuplicateToken, new_handle, call_,
    call, bind, ret, get, modify.
  simpl.
  repeat match goal with
         | |- context [if ?b then _ else _] => destruct b; simpl
         | |- context [match import_mode_ ?w with _ => _ end] =>
             destruct (import_mode_ w); simpl
         end;
    eexists; eexists; reflexivity.
Qed.

(** In [EnforceDisplayConstraints] mode, once the renderer has accepted the
    collection, a display controller that rejects it makes the import
    fail, with the observation pointer of the collection left in
    [display_buffer_collection_ptrs_]. *)
Lemma ImportBufferCollection_enforce_display_fails (id token : N)
    (usage : BufferCollectionUsage) (w : World) :
  import_mode_ w = EnforceDisplayConstraints ->
  (forall t tok cfg, env_status env t (DcImportBufferCollection id tok cfg) = false) ->
  (forall t c, match c with DcImportBufferCollection _ _ _ => True
                       | _ => env_status env t c = true end) ->
  exists w',
    ImportBufferCollection env id token usage w = Some (false, w')
    /\ In (RendererImportBufferCollection id token usage) (new_calls w w')
    /\ is_Some (display_buffer_collection_ptrs_ w' !! id).
Proof.
  intros Hmode Hdc Hok.
  unfold ImportBufferCollection, DuplicateToken, ConvertToAttachToken,
    CreateBufferCollectionPtrWithEmptyConstraints, DuplicateToken, new_handle, call_,
    call, bind, ret, get, modify.
  simpl.
  rewrite (Hok _ (TokenDuplicateSync token 1)). simpl.
  rewrite (Hok _ (RendererImportBufferCollection id token usage)). simpl.
  rewrite Hmode. simpl.
  rewrite (Hok _ (TokenDuplicateSync _ 1)). simpl.
  rewrite (Hok _ (CollectionSetConstraints _ false)). simpl.
  rewrite Hdc.
  eexists. split; [reflexivity|]. split.
  - unfold new_calls. simpl. rewrite <- !app_assoc.
    rewrite drop_app_length. simpl. auto.
  - simpl. rewrite lookup_insert_eq. eauto.
Qed.

End Imports.

(** C5, as the code has it.  An import that fails partway returns the
    failure and rolls nothing back itself: no run of [ImportBufferCollection]
    or of [ImportBufferImage] issues a release call to the renderer or to the
    display controller.  In [EnforceDisplayConstraints] mode, when the
    renderer accepted the collection and the display controller rejects it,
    [ImportBufferCollection] returns [false] with the renderer's import made
    and the collection's observation pointer still cached. *)
Theorem import_failure_not_rolled_back (env : Env) (w : World) :
  (forall id token usage,
      exists b w',
        ImportBufferCollection env id token usage w = Some (b, w')
        /\ trace w' = trace w ++ new_calls w w'
        /\ forallb no_release (new_calls w w') = true)
  /\ (forall metadata usage b w',
        ImportBufferImage env metadata usage w = Some (b, w') ->
        trace w' = trace w ++ new_calls w w'
        /\ forallb no_release (new_calls w w') = true)
  /\ (forall id token usage,
        import_mode_ w = EnforceDisplayConstraints ->
        (forall t tok cfg, env_status env t (DcImportBufferCollection id tok cfg) = false) ->
        (forall t c, match c with
                     | DcImportBufferCollection _ _ _ => True
                     | _ => env_status env t c = true
                     end) ->
        exists w',
          ImportBufferCollection env id token usage w = Some (false, w')
          /\ In (RendererImportBufferCollection id token usage) (new_calls w w')
          /\ is_Some (display_buffer_collection_ptrs_ w' !! id)).
Proof.
  split; [|split].
  - intros id token usage.
    destruct (ImportBufferCollection_total env id token usage w) as (b & w' & H).
    exists b, w'. split; [exact H|].
    eapply extends_by_new_calls, ImportBufferCollection_no_release, H.
  - intros metadata usage b w' H.
    eapply extends_by_new_calls, ImportBufferImage_no_release, H.
  - intros id token usage. apply ImportBufferCollection_enforce_display_fails.
Qed.

(** The display controller rejects collection 5 after the renderer took
    it. *)
Lemma import_failure_not_rolled_back_witness :
  exists w',
    ImportBufferCollection Sample.display_rejects 5 50 kClientImage
      (Sample.fresh EnforceDisplayConstraints) = Some (false, w')
    /\ In (RendererImportBufferCollection 5 50 kClientImage)
         (new_calls (Sample.fresh EnforceDisplayConstraints) w')
    /\ is_Some (display_buffer_collection_ptrs_ w' !! 5).
Proof.
  apply (proj2 (proj2 (import_failure_not_rolled_back Sample.display_rejects
                         (Sample.fresh EnforceDisplayConstraints))) 5 50 kClientImage).
  - reflexivity.
  - intros t tok cfg. reflexivity.
  - intros t c. destruct c; simpl; auto.
Defined.

(** C5 as stated fails: in [EnforceDisplayConstraints] mode the renderer
    accepts collection 5, the display controller rejects it, the import
    returns [false], and the collection has been released on neither
    side. *)
Lemma import_rollback_counterexample :
  import_mode_ (Sample.fresh EnforceDisplayConstraints) = EnforceDisplayConstraints
  /\ ImportBufferCollection Sample.display_rejects 5 50 kClientImage
       (Sample.fresh EnforceDisplayConstraints)
     = Some (false,
             Sample.run (ImportBufferCollection Sample.display_rejects 5 50 kClientImage)
               (Sample.fresh EnforceDisplayConstraints))
  /\ In (RendererImportBufferCollection 5 50 kClientImage)
       (trace (Sample.run (ImportBufferCollection Sample.display_rejects 5 50 kClientImage)
                 (Sample.fresh EnforceDisplayConstraints)))
  /\ ~ collection_released 5
        (trace (Sample.run (ImportBufferCollection Sample.display_rejects 5 50 kClientImage)
                  (Sample.fresh EnforceDisplayConstraints))).
Proof.
  split; [reflexivity|]. split; [vm_compute; reflexivity|]. split.
  - vm_compute. auto.
  - intros [H _]. vm_compute in H.
    repeat (destruct H as [H|H]; [discriminate|]). exact H.
Qed.

(** ** Releasing a collection *)

Lemma ReleaseBufferCollection_eq (env : Env) (id : N) (usage : BufferCollectionUsage)
    (w : World) :
  ReleaseBufferCollection env id usage w =
    Some (tt,
          set_buffer_collection_supports_display_ (delete id)
            (set_display_buffer_collection_ptrs_ (delete id)
               (set_trace (fun t => t ++ [DcReleaseBufferCollection id;
                                          RendererReleaseBufferCollection id usage]) w))).
Proof.
  unfold ReleaseBufferCollection, call_, call, modify, bind, ret.
  do 2 f_equal. apply World_eq; try reflexivity. simpl. now rewrite <- app_assoc.
Qed.

(** What [ReleaseBufferCollection] drops and what it keeps, in any state:
    the display-support flag and the observation pointer of the collection
    are erased, both collaborators are told to release, and
    [buffer_collection_pixel_format_] is left as it was. *)
Lemma ReleaseBufferCollection_effect (env : Env) (id : N) (usage : BufferCollectionUsage)
    (w : World) :
  exists w',
    ReleaseBufferCollection env id usage w = Some (tt, w')
    /\ new_calls w w' = [DcReleaseBufferCollection id; RendererReleaseBufferCollection id usage]
    /\ display_buffer_collection_ptrs_ w' !! id = None
    /\ buffer_collection_supports_display_ w' !! id = None
    /\ buffer_collection_pixel_format_ w' = buffer_collection_pixel_format_ w.
Proof.
  eexists. split; [apply ReleaseBufferCollection_eq|].
  split; [|split; [|split]]; simpl.
  - unfold new_calls. simpl. now rewrite drop_app_length.
  - apply lookup_delete_eq.
  - apply lookup_delete_eq.
  - reflexivity.
Qed.

(** C6, at the failing input.  Collection 5 is imported, one of its images
    is imported (which negotiates the pixel format), and the collection is
    released: the display-support flag and the observation pointer are
    gone, the negotiated pixel format is still cached. *)
Lemma ReleaseBufferCollection_keeps_pixel_format :
  ReleaseBufferCollection (Sample.agreeable false) 5 kClientImage
    (Sample.with_image (Sample.agreeable false))
  = Some (tt, Sample.run (ReleaseBufferCollection (Sample.agreeable false) 5 kClientImage)
                (Sample.with_image (Sample.agreeable false)))
  /\ buffer_collection_supports_display_
       (Sample.run (ReleaseBufferCollection (Sample.agreeable false) 5 kClientImage)
          (Sample.with_image (Sample.agreeable false))) !! 5 = None
  /\ display_buffer_collection_ptrs_
       (Sample.run (ReleaseBufferCollection (Sample.agreeable false) 5 kClientImage)
          (Sample.with_image (Sample.agreeable false))) !! 5 = None
  /\ buffer_collection_pixel_format_
       (Sample.run (ReleaseBufferCollection (Sample.agreeable false) 5 kClientImage)
          (Sample.with_image (Sample.agreeable false))) !! 5 = Some Sample.bgra.
Proof.
  repeat split; vm_compute; reflexivity.
Qed.

(** ** [RendererOnly] mode *)

Section RendererOnlyMode.

Variable env : Env.

Lemma ImportBufferCollection_renderer_only (id token : N) (usage : BufferCollectionUsage)
    (w : World) :
  import_mode_ w = RendererOnly ->
  env_status env (trace w) (TokenDuplicateSync token 1) = true ->
  env_status env (trace w ++ [TokenDuplicateSync token 1])
    (RendererImportBufferCollection id token usage) = true ->
  let display_token := env_handle env (trace w ++ [TokenDuplicateSync token 1]) 0 in
  ImportBufferCollection env id token usage w =
    Some (true,
          set_trace (fun t => t ++ [TokenDuplicateSync token 1;
                                    RendererImportBufferCollection id token usage;
                                    TokenClose display_token]) w).
Proof.
  intros Hmode Hdup Hren display_token.
  unfold ImportBufferCollection, DuplicateToken, new_handle, call_, call, bind, ret, get,
    modify.
  simpl. rewrite Hdup. simpl. rewrite Hren. simpl. rewrite Hmode. simpl.
  do 2 f_equal. apply World_eq; try reflexivity. simpl. now rewrite <- !app_assoc.
Qed.

Lemma ImportBufferImage_renderer_only (metadata : ImageMetadata)
    (usage : BufferCollectionUsage) (w : World) :
  import_mode_ w = RendererOnly ->
  IsValidBufferImage metadata = true ->
  env_status env (trace w) (RendererImportBufferImage metadata usage) = true ->
  buffer_collection_supports_display_ w !! collection_id metadata <> Some true ->
  ImportBufferImage env metadata usage w =
    Some (true,
          set_buffer_collection_supports_display_ (<[collection_id metadata := false]>)
            (set_trace (fun t => t ++ [RendererImportBufferImage metadata usage]) w)).
Proof.
  intros Hmode Hvalid Hren Hsup.
  unfold ImportBufferImage. rewrite Hvalid. simpl.
  unfold bind at 1. unfold call at 1. rewrite Hren. simpl.
  unfold bind at 1, get. simpl. rewrite Hmode.
  destruct (buffer_collection_supports_display_ w !! collection_id metadata) as [[]|] eqn:E;
    [congruence| |]; simpl.
  - reflexivity.
  - reflexivity.
Qed.

End RendererOnlyMode.

(** C7, as the code has it.  In [RendererOnly] mode a successful
    [ImportBufferCollection] closes the display copy of the token and
    records nothing: [buffer_collection_supports_display_] and
    [display_buffer_collection_ptrs_] are as before, so a collection not
    seen before has no display-support entry yet.  The entry is written,
    as [false], by the first [ImportBufferImage] of the collection. *)
Theorem renderer_only_marks_at_image_import (env : Env) (w : World) (id token : N)
    (metadata : ImageMetadata) (usage : BufferCollectionUsage) :
  import_mode_ w = RendererOnly ->
  env_status env (trace w) (TokenDuplicateSync token 1) = true ->
  env_status env (trace w ++ [TokenDuplicateSync token 1])
    (RendererImportBufferCollection id token usage) = true ->
  collection_id metadata = id ->
  IsValidBufferImage metadata = true ->
  buffer_collection_supports_display_ w !! id = None ->
  exists w1,
    ImportBufferCollection env id token usage w = Some (true, w1)
    /\ In (TokenClose (env_handle env (trace w ++ [TokenDuplicateSync token 1]) 0))
         (new_calls w w1)
    /\ buffer_collection_supports_display_ w1 = buffer_collection_supports_display_ w
    /\ buffer_collection_supports_display_ w1 !! id = None
    /\ display_buffer_collection_ptrs_ w1 = display_buffer_collection_ptrs_ w
    /\ (env_status env (trace w1) (RendererImportBufferImage metadata usage) = true ->
        exists w2,
          ImportBufferImage env metadata usage w1 = Some (true, w2)
          /\ buffer_collection_supports_display_ w2 !! id = Some false).
Proof.
  intros Hmode Hdup Hren Hid Hvalid Hnone.
  eexists. split; [now apply ImportBufferCollection_renderer_only|].
  split; [|split; [reflexivity|split; [exact Hnone|split; [reflexivity|]]]].
  - unfold new_calls. simpl. rewrite drop_app_length. simpl. auto.
  - intros Himg. eexists. split.
    + apply ImportBufferImage_renderer_only; try assumption.
      simpl. rewrite Hid, Hnone. discriminate.
    + simpl. rewrite Hid. apply lookup_insert_eq.
Qed.

Lemma renderer_only_marks_at_image_import_witness :
  exists w1,
    ImportBufferCollection (Sample.agreeable false) 5 50 kClientImage
      (Sample.fresh RendererOnly) = Some (true, w1)
    /\ buffer_collection_supports_display_ w1 !! 5 = None
    /\ exists w2,
         ImportBufferImage (Sample.agreeable false) Sample.client_image kClientImage w1
           = Some (true, w2)
         /\ buffer_collection_supports_display_ w2 !! 5 = Some false.
Proof.
  destruct (renderer_only_marks_at_image_import (Sample.agreeable false)
              (Sample.fresh RendererOnly) 5 50 Sample.client_image kClientImage)
    as (w1 & H1 & _ & _ & Hnone & _ & H2);
    [reflexivity | reflexivity | reflexivity | reflexivity | reflexivity | reflexivity |].
  exists w1. split; [exact H1|]. split; [exact Hnone|]. apply H2. reflexivity.
Defined.

(** C7 as stated fails: right after a successful [ImportBufferCollection] in
    [RendererOnly] mode the collection has no display-support entry; it is
    not marked unsupported. *)
Lemma renderer_only_import_counterexample :
  ImportBufferCollection (Sample.agreeable false) 5 50 kClientImage
    (Sample.fresh RendererOnly)
  = Some (true, Sample.run (ImportBufferCollection (Sample.agreeable false) 5 50 kClientImage)
                  (Sample.fresh RendererOnly))
  /\ buffer_collection_supports_display_
       (Sample.run (ImportBufferCollection (Sample.agreeable false) 5 50 kClientImage)
          (Sample.fresh RendererOnly)) !! 5 <> Some false.
Proof.
  split; [vm_compute; reflexivity|]. vm_compute. discriminate.
Qed.

(** ** Solid-colour rectangles *)

Lemma planner_cfg_refl (w : World) : planner_cfg w w.
Proof. repeat split; auto. Qed.

Lemma planner_cfg_trans (w1 w2 w3 : World) :
  planner_cfg w1 w2 -> planner_cfg w2 w3 -> planner_cfg w1 w3.
Proof.
  intros (P1 & S1 & D1 & E1) (P2 & S2 & D2 & E2).
  repeat split; [congruence | auto | intros d; now rewrite D2, D1 | congruence].
Qed.

Lemma formats_known_cfg (w w' : World) :
  planner_cfg w w' -> formats_known w -> formats_known w'.
Proof.
  intros (P & S & _ & _) Hk c b Hc Hb. subst b.
  unfold format_known in *. rewrite P. apply (Hk c true); auto.
Qed.

Ltac planner_cfg_leaf :=
  lazymatch goal with
  | |- run_rel _ (call _ _) => apply run_rel_call; intros ?; repeat split; auto
  | |- run_rel _ (call2 _ _) => apply run_rel_call2; intros ?; repeat split; auto
  | |- forall w, planner_cfg w (set_buffer_collection_supports_display_ _ w) =>
      intros ?; repeat split; auto; intros c; simpl;
      rewrite lookup_insert; case_decide; [discriminate | auto]
  | |- forall w, planner_cfg w _ => intros ?; repeat split; auto
  | |- _ => idtac
  end.

Ltac planner_cfg_auto :=
  repeat (run_rel_step planner_cfg_refl planner_cfg_trans ltac:(planner_cfg_leaf)).

Lemma for_range_total {T} (Inv : World -> Prop) (body : nat -> M (option T)) :
  forall n i w,
    Inv w ->
    (forall j w, (i <= j < i + n)%nat -> Inv w ->
                 exists r w', body j w = Some (r, w') /\ Inv w') ->
    exists r w', for_range i n body w = Some (r, w') /\ Inv w'.
Proof.
  induction n as [|n IH]; intros i w Hw Hbody; simpl.
  - exists None, w. auto.
  - destruct (Hbody i w) as (r & w1 & Hr & Hw1); [lia | exact Hw|].
    unfold bind at 1. rewrite Hr. destruct r as [v|].
    + exists (Some v), w1. auto.
    + apply IH; [exact Hw1|]. intros j wj Hj. apply Hbody. lia.
Qed.

Lemma for_range_none {T} (R : World -> World -> Prop) (body : nat -> M (option T))
    (P : nat -> Prop) (w0 : World) :
  (forall w1 w2 w3, R w1 w2 -> R w2 w3 -> R w1 w3) ->
  (forall j, run_rel R (body j)) ->
  (forall j wj wj', R w0 wj -> body j wj = Some (None, wj') -> P j) ->
  forall n i w w',
    R w0 w ->
    for_range i n body w = Some (None, w') ->
    forall j, (i <= j < i + n)%nat -> P j.
Proof.
  intros Htrans Hrel HP. induction n as [|n IH]; intros i w w' Hw H j Hj; [lia|].
  simpl in H. apply bind_Some in H as (r & w1 & Hb & H).
  destruct r as [v|]; [discriminate|].
  destruct (decide (j = i)) as [->|Hne].
  - eapply HP; eassumption.
  - eapply (IH (S i) w1 w'); [|exact H|lia].
    eapply Htrans; [exact Hw | eapply Hrel, Hb].
Qed.

Section SolidColor.

Variable env : Env.

Lemma display_info_index_cfg (d : N) : run_rel planner_cfg (display_info_index d).
Proof.
  intros w r w'. unfold display_info_index, bind, get.
  destruct (display_info_map_ w !! d) as [i|] eqn:E; intros [= _ <-].
  - apply planner_cfg_refl.
  - repeat split; auto. intros d'. unfold display_size. simpl.
    rewrite lookup_insert. case_decide; [subst d'; now rewrite E | reflexivity].
Qed.

Lemma display_info_index_value (d : N) (w : World) (info : DisplayInfo) (w' : World) :
  display_info_index d w = Some (info, w') -> dimensions info = display_size w d.
Proof.
  unfold display_info_index, bind, get, display_size.
  destruct (display_info_map_ w !! d) as [i|]; intros [= <- _]; reflexivity.
Qed.

Lemma check_image_event_cfg (data : RenderData) (i : nat) :
  run_rel planner_cfg (check_image_event env data i).
Proof.
  unfold check_image_event, NewImageEventData, ImportEvent, call_. planner_cfg_auto.
Qed.

Lemma assign_layer_cfg (data : RenderData) (ls : list N) (i : nat) :
  run_rel planner_cfg (assign_layer env data ls i).
Proof.
  unfold assign_layer, supports_display_index, image_event_index, ApplyLayerImage,
    ApplyLayerColor, CreateImageConfig, call_.
  planner_cfg_auto. apply display_info_index_cfg.
Qed.

(** An entry the second loop passes is, if a solid colour, the backmost one
    and as large as the display. *)
Lemma assign_layer_none (data : RenderData) (ls : list N) (i : nat) (w0 w w' : World) :
  planner_cfg w0 w ->
  assign_layer env data ls i w = Some (None, w') ->
  solid_color_ok w0 data i.
Proof.
  intros (_ & _ & Hd & _) H img rect Himg Hid Hrect.
  unfold assign_layer, index in H. rewrite Himg in H.
  unfold bind at 1, ret at 1 in H. rewrite Hid in H. simpl in H.
  rewrite Hrect in H. unfold bind at 1, ret at 1 in H.
  apply bind_Some in H as (info & w1 & Hinfo & H).
  apply display_info_index_value in Hinfo. rewrite Hinfo, Hd in H.
  destruct i as [|i]; simpl in H; [|discriminate].
  destruct (covers_display rect (display_size w0 (display_id data))); [auto | discriminate].
Qed.

Lemma check_image_event_total (data : RenderData) (i : nat) (w : World) :
  (i < length (images data))%nat ->
  exists r w', check_image_event env data i w = Some (r, w').
Proof.
  intros Hi. destruct (images data !! i) as [img|] eqn:E.
  - rewrite (check_image_event_eq env _ _ _ _ E).
    destruct (image_event_map_ w !! identifier img) as [e|]; [|eauto].
    destruct (wait_one_signaled (signal_event e)); eauto.
  - apply lookup_ge_None in E. lia.
Qed.

Lemma ApplyLayerImage_total (l : N) (r : ImageRect) (img : ImageMetadata) (a b : N)
    (w : World) :
  is_Some (buffer_collection_pixel_format_ w !! collection_id img
             ≫= BufferCollectionPixelFormatToZirconFormat) ->
  exists w', ApplyLayerImage env l r img a b w = Some (tt, w').
Proof.
  intros [zf Hzf].
  destruct (buffer_collection_pixel_format_ w !! collection_id img) as [pf|] eqn:Hpf;
    [|discriminate].
  simpl in Hzf.
  unfold ApplyLayerImage, CreateImageConfig, call_, call, bind, ret, get.
  destruct (DisplaySrcDstFrames_New env r img) as [src dst].
  rewrite Hpf. cbn beta iota. rewrite Hpf. cbn beta iota. rewrite Hzf.
  destruct (multiply_color img) as [[[c0 c1] c2] c3].
  eexists. reflexivity.
Qed.

Lemma assign_layer_total (data : RenderData) (ls : list N) (i : nat) (w : World) :
  formats_known w ->
  (i < length (images data))%nat ->
  (i < length (rectangles data))%nat ->
  (i < length ls)%nat ->
  exists r w', assign_layer env data ls i w = Some (r, w').
Proof.
  intros Hk Hi Hr Hl.
  destruct (lookup_lt_is_Some_2 _ _ Hi) as [img Himg].
  destruct (lookup_lt_is_Some_2 _ _ Hr) as [rect Hrect].
  destruct (lookup_lt_is_Some_2 _ _ Hl) as [layer Hlayer].
  unfold assign_layer, index. rewrite Himg, Hrect, Hlayer.
  unfold bind at 1, ret at 1.
  destruct (negb (identifier img =? kInvalidImageId)).
  - unfold bind at 1. unfold supports_display_index, bind at 1, get.
    destruct (buffer_collection_supports_display_ w !! collection_id img) as [[]|] eqn:Hs;
      simpl; [|eauto|eauto].
    unfold bind at 1, ret at 1. unfold bind at 1, ret at 1.
    unfold bind at 1. unfold image_event_index, bind at 1, get.
    pose proof (Hk _ _ Hs eq_refl) as Hfmt.
    destruct (image_event_map_ w !! identifier img) as [e|]; simpl.
    + destruct (ApplyLayerImage_total layer rect img 0 (signal_id e) w Hfmt) as [w' Hw'].
      unfold bind at 1. rewrite Hw'. eauto.
    + destruct (ApplyLayerImage_total layer rect img 0
                  (signal_id ImageEventData_default)
                  (set_image_event_map_ (<[identifier img := ImageEventData_default]>) w)
                  Hfmt) as [w' Hw'].
      simpl in Hw'. unfold bind at 1. rewrite Hw'. eauto.
  - unfold bind at 1, ret at 1. unfold bind at 1.
    unfold display_info_index, bind at 1, get.
    destruct (display_info_map_ w !! display_id data) as [info|]; simpl;
      destruct (Nat.eqb i 0 && covers_display rect _); simpl;
      unfold ApplyLayerColor, call_, call, bind, ret;
      try destruct (multiply_color img) as [[[c0 c1] c2] c3]; eauto.
Qed.

(** C8.  [SetRenderDataOnDisplay] returns, and when it returns [true] every
    entry of the frame whose image id is the invalid sentinel is entry [0]
    and has a rectangle that starts at the origin and is as large as the
    display.  A solid-colour entry at another index, or of another
    geometry, therefore makes the planner return [false]. *)
Theorem solid_color_geometry (data : RenderData) (w : World) :
  is_Some (display_engine_data_map_ w !! display_id data) ->
  length (rectangles data) = length (images data) ->
  N.of_nat (length (images data)) < 2 ^ 32 ->
  formats_known w ->
  exists b w',
    SetRenderDataOnDisplay env data w = Some (b, w')
    /\ (b = true -> forall i, solid_color_ok w data i)
    /\ ((exists i, ~ solid_color_ok w data i) -> b = false).
Proof.
  intros [d Hd] Hrects Hlen Hk.
  assert (Hmain : exists b w',
             SetRenderDataOnDisplay env data w = Some (b, w')
             /\ (b = true -> forall i, solid_color_ok w data i)).
  { unfold SetRenderDataOnDisplay. rewrite (uint32_small _ Hlen), Nat2N.id.
    unfold bind at 1, get. rewrite Hd.
    destruct (N.of_nat (length (layers d)) <? N.of_nat (length (images data))) eqn:Hlay.
    { exists false, w. split; [reflexivity | discriminate]. }
    apply N.ltb_ge in Hlay.
    destruct (for_range_total (fun w1 => planner_cfg w w1)
                (check_image_event env data) (length (images data)) 0 w)
      as (r1 & w1 & Hr1 & Hw1).
    { apply planner_cfg_refl. }
    { intros j wj Hj Hwj.
      destruct (check_image_event_total data j wj) as (r & w' & Hr); [lia|].
      exists r, w'. split; [exact Hr|].
      eapply planner_cfg_trans; [exact Hwj | eapply check_image_event_cfg, Hr]. }
    unfold bind at 1. rewrite Hr1. destruct r1 as [b|].
    { exists b, w1. split; [reflexivity|]. intros ->.
      exfalso. clear - Hr1.
      assert (Hf : forall n i w w' b,
                 for_range i n (check_image_event env data) w = Some (Some b, w') ->
                 b = false).
      { induction n as [|n IH]; intros i w0 w' b H; simpl in H; [discriminate|].
        apply bind_Some in H as ([v|] & w2 & Hb & H).
        - injection H as <- _. unfold check_image_event in Hb.
          apply bind_Some in Hb as (img & w3 & _ & Hb).
          unfold bind, get in Hb.
          destruct (image_event_map_ w3 !! identifier img) as [e|].
          + destruct (negb (wait_one_signaled (signal_event e))); [now injection Hb|
              discriminate].
          + discriminate.
        - eapply IH, H. }
      specialize (Hf _ _ _ _ _ Hr1). discriminate. }
    unfold SetDisplayLayers, call_ at 1. unfold bind at 1. unfold bind at 1, call at 1.
    unfold ret at 1.
    set (w2 := set_trace _ w1).
    assert (Hw2 : planner_cfg w w2).
    { eapply planner_cfg_trans; [exact Hw1 | repeat split; auto]. }
    destruct (for_range_total (fun w3 => planner_cfg w w3)
                (assign_layer env data (layers d)) (length (images data)) 0 w2)
      as (r2 & w3 & Hr2 & Hw3).
    { exact Hw2. }
    { intros j wj Hj Hwj.
      destruct (assign_layer_total data (layers d) j wj) as (r & w' & Hr);
        [eapply formats_known_cfg; eassumption | lia | lia | lia |].
      exists r, w'. split; [exact Hr|].
      eapply planner_cfg_trans; [exact Hwj | eapply assign_layer_cfg, Hr]. }
    unfold bind at 1. rewrite Hr2. destruct r2 as [b|].
    { exists b, w3. split; [reflexivity|]. intros ->. exfalso. clear - Hr2.
      assert (Hf : forall n i w w' b,
                 for_range i n (assign_layer env data (layers d)) w = Some (Some b, w') ->
                 b = false).
      { induction n as [|n IH]; intros i w0 w' b H; simpl in H; [discriminate|].
        apply bind_Some in H as ([v|] & w4 & Hb & H).
        - injection H as <- _. unfold assign_layer in Hb.
          apply bind_Some in Hb as (img & w5 & _ & Hb).
          destruct (negb (identifier img =? kInvalidImageId)).
          + apply bind_Some in Hb as ([] & w6 & _ & Hb); [|now injection Hb].
            apply bind_Some in Hb as (? & ? & _ & Hb).
            apply bind_Some in Hb as (? & ? & _ & Hb).
            apply bind_Some in Hb as (? & ? & _ & Hb).
            apply bind_Some in Hb as (? & ? & _ & Hb). discriminate.
          + apply bind_Some in Hb as (? & ? & _ & Hb).
            apply bind_Some in Hb as (? & ? & _ & Hb).
            destruct (_ && _); [|now injection Hb].
            apply bind_Some in Hb as (? & ? & _ & Hb).
            apply bind_Some in Hb as (? & ? & _ & Hb). discriminate.
        - eapply IH, H. }
      specialize (Hf _ _ _ _ _ Hr2). discriminate. }
    exists true, w3. split; [reflexivity|]. intros _ i.
    destruct (decide (i < length (images data))%nat) as [Hi|Hi].
    - eapply (for_range_none planner_cfg (assign_layer env data (layers d))
                (solid_color_ok w data) w planner_cfg_trans);
        [ intros j; apply assign_layer_cfg
        | intros j wj wj' Hwj Hj; eapply assign_layer_none; eassumption
        | exact Hw2 | exact Hr2 | lia ].
    - intros img rect Himg. apply lookup_lt_Some in Himg. lia. }
  destruct Hmain as (b & w' & Hrun & Hok). exists b, w'.
  split; [exact Hrun|]. split; [exact Hok|].
  intros [i Hi]. destruct b; [|reflexivity]. exfalso. apply Hi, Hok. reflexivity.
Qed.

End SolidColor.

(** On a 1920x1080 display a white rectangle covering the upper left
    quarter is rejected; the same colour over the whole display is
    accepted. *)
Lemma solid_color_geometry_witness :
  (exists w',
      SetRenderDataOnDisplay (Sample.agreeable false) Sample.partial_white
        (Sample.with_display (Sample.agreeable false) AttemptDisplayConstraints)
      = Some (false, w'))
  /\ SetRenderDataOnDisplay (Sample.agreeable false) Sample.fullscreen_white
       (Sample.with_display (Sample.agreeable false) AttemptDisplayConstraints)
     = Some (true,
             Sample.run (SetRenderDataOnDisplay (Sample.agreeable false)
                           Sample.fullscreen_white)
               (Sample.with_display (Sample.agreeable false) AttemptDisplayConstraints)).
Proof.
  split; [|vm_compute; reflexivity].
  destruct (solid_color_geometry (Sample.agreeable false) Sample.partial_white
              (Sample.with_display (Sample.agreeable false) AttemptDisplayConstraints))
    as (b & w' & Hrun & _ & Hrej).
  - apply (@bool_decide_unpack _ (is_Some_dec _)). vm_compute. exact I.
  - reflexivity.
  - vm_compute. reflexivity.
  - apply (@bool_decide_unpack _ (formats_known_dec _)). vm_compute. exact I.
  - exists w'. rewrite Hrun, Hrej; [reflexivity|].
    exists 0%nat. intros H.
    destruct (H Sample.white (Sample.rect 0 0 960 540) eq_refl eq_refl eq_refl) as [_ Hc].
    vm_compute in Hc. discriminate.
Defined.

(** ** Single-precision rounding *)

Section Quantization.

Local Open Scope Z_scope.

Lemma digits2_pos_size (p : positive) : digits2_pos p = Pos.size p.
Proof. induction p; simpl; congruence. Qed.

Lemma digits2_pos_gt (p : positive) : Zpos p < 2 ^ Zpos (digits2_pos p).
Proof.
  rewrite digits2_pos_size. pose proof (Pos.size_gt p) as H.
  apply Pos2Z.pos_lt_pos in H. now rewrite Pos2Z.inj_pow in H.
Qed.

Lemma digits2_pos_le (p : positive) : 2 ^ (Zpos (digits2_pos p) - 1) <= Zpos p.
Proof.
  rewrite digits2_pos_size. pose proof (Pos.size_le p) as H.
  apply Pos2Z.pos_le_pos in H. rewrite Pos2Z.inj_pow in H.
  assert (E : 2 ^ Zpos (Pos.size p) = 2 * 2 ^ (Zpos (Pos.size p) - 1)).
  { rewrite <- Z.pow_succ_r by lia. f_equal. lia. }
  rewrite E in H. pose proof (Pos2Z.inj_xO p). lia.
Qed.

(** A number below [2 ^ k] has at most [k] digits. *)
Lemma Zdigits2_bound (m k : Z) : 0 <= m -> 0 <= k -> m < 2 ^ k -> Zdigits2 m <= k.
Proof.
  intros Hm Hk Hlt. destruct m as [|p|p]; simpl; [lia| |lia].
  pose proof (digits2_pos_le p) as Hle.
  destruct (Z_le_gt_dec (Zpos (digits2_pos p)) k) as [|Hgt]; [assumption|].
  exfalso. assert (2 ^ k <= 2 ^ (Zpos (digits2_pos p) - 1)) by (apply Z.pow_le_mono_r; lia).
  lia.
Qed.

Lemma shr_1_m (mrs : shr_record) :
  0 <= shr_m mrs -> shr_m (shr_1 mrs) = shr_m mrs / 2.
Proof.
  destruct mrs as [m r s]. simpl. intros Hm.
  rewrite <- Z.div2_div. destruct m as [|[p|p|]|p]; simpl; try reflexivity; lia.
Qed.

Lemma pow2_xO (p : positive) : 2 ^ Zpos p~0 = 2 ^ Zpos p * 2 ^ Zpos p.
Proof. rewrite <- Z.pow_add_r by lia. f_equal. lia. Qed.

Lemma pow2_xI (p : positive) : 2 ^ Zpos p~1 = 2 * (2 ^ Zpos p * 2 ^ Zpos p).
Proof.
  rewrite <- Z.pow_add_r, <- Z.pow_succ_r by lia. f_equal. lia.
Qed.

Lemma iter_shr_1_m (p : positive) :
  forall mrs, 0 <= shr_m mrs ->
              shr_m (SpecFloat.iter_pos shr_1 p mrs) = shr_m mrs / 2 ^ Zpos p.
Proof.
  induction p as [p IH|p IH|]; intros mrs Hm; simpl SpecFloat.iter_pos.
  - assert (H1 : 0 <= shr_m (shr_1 mrs)) by (rewrite shr_1_m by lia; apply Z.div_pos; lia).
    assert (H2 : 0 <= shr_m (SpecFloat.iter_pos shr_1 p (shr_1 mrs)))
      by (rewrite IH by lia; apply Z.div_pos; lia).
    rewrite IH, IH, shr_1_m by lia.
    rewrite !Z.div_div by lia. now rewrite pow2_xI.
  - assert (H2 : 0 <= shr_m (SpecFloat.iter_pos shr_1 p mrs))
      by (rewrite IH by lia; apply Z.div_pos; lia).
    rewrite IH, IH by lia.
    rewrite !Z.div_div by lia. now rewrite pow2_xO.
  - now apply shr_1_m.
Qed.

Lemma shr_record_of_loc_m (m : Z) (l : location) : shr_m (shr_record_of_loc m l) = m.
Proof. destruct l as [|[]]; reflexivity. Qed.

Lemma loc_of_shr_record_of_loc (m : Z) (l : location) :
  loc_of_shr_record (shr_record_of_loc m l) = l.
Proof. destruct l as [|[]]; reflexivity. Qed.

(** [shr_fexp] on a non-negative mantissa: either nothing is shifted, or
    the mantissa is divided by the power of two that brings the exponent
    up to [fexp]. *)
Lemma shr_fexp_m (m e : Z) (l : location) :
  0 <= m ->
  let n := fexp 24 128 (Zdigits2 m + e) - e in
  let '(mrs, e') := shr_fexp 24 128 m e l in
  if 0 <? n
  then shr_m mrs = m / 2 ^ n /\ e' = e + n
  else shr_m mrs = m /\ e' = e /\ loc_of_shr_record mrs = l.
Proof.
  intros Hm n. unfold shr_fexp, shr. fold n.
  destruct n as [|p|p] eqn:Hn; simpl.
  - auto using shr_record_of_loc_m, loc_of_shr_record_of_loc.
  - split; [|reflexivity].
    rewrite iter_shr_1_m; rewrite shr_record_of_loc_m; auto.
  - auto using shr_record_of_loc_m, loc_of_shr_record_of_loc.
Qed.

Lemma round_nearest_even_bounds (m : Z) (l : location) :
  m <= round_nearest_even m l <= m + 1.
Proof.
  unfold round_nearest_even. destruct l as [|[]]; try lia.
  destruct (Z.even m); lia.
Qed.

Lemma trunc_finite_neg (p q : positive) :
  Float32.trunc (S754_finite false p (Zneg q)) = Some (Zpos p / 2 ^ Zpos q).
Proof. reflexivity. Qed.

(** The value of [binary_round_aux] on a positive number below [255]
    truncates into [0 .. 255]. *)
Lemma round_below_255 (M E : Z) :
  0 < M -> E < 0 -> M < 255 * 2 ^ (- E) ->
  exists z, Float32.trunc (binary_round_aux 24 128 false M E loc_Exact) = Some z
            /\ 0 <= z <= 255.
Proof.
  intros HM HE Hlt. unfold binary_round_aux.
  pose proof (shr_fexp_m M E loc_Exact ltac:(lia)) as H1. cbv zeta in H1.
  destruct (shr_fexp 24 128 M E loc_Exact) as [mrs' e'].
  set (m1 := round_nearest_even (shr_m mrs') (loc_of_shr_record mrs')).
  assert (Hpow : 0 < 2 ^ (- E)) by (apply Z.pow_pos_nonneg; lia).
  assert (HdM : Zdigits2 M + E <= 8).
  { assert (Zdigits2 M <= 8 - E); [|lia].
    apply Zdigits2_bound; [lia | lia |].
    replace (8 - E) with (8 + - E) by lia. rewrite Z.pow_add_r by lia.
    change (2 ^ 8) with 256. lia. }
  assert (Hm1 : 0 <= m1 < 256 * 2 ^ (- e') /\ e' < 0).
  { pose proof (round_nearest_even_bounds (shr_m mrs') (loc_of_shr_record mrs')) as Hr.
    fold m1 in Hr.
    destruct (0 <? fexp 24 128 (Zdigits2 M + E) - E) eqn:Hn.
    - apply Z.ltb_lt in Hn. destruct H1 as [Hs ->]. rewrite Hs in Hr.
      set (n := fexp 24 128 (Zdigits2 M + E) - E) in *.
      assert (He' : E + n < 0).
      { unfold n, fexp, emin. lia. }
      split; [|exact He'].
      assert (Hn2 : 0 < 2 ^ n) by (apply Z.pow_pos_nonneg; lia).
      assert (Hp' : 0 < 2 ^ (- (E + n))) by (apply Z.pow_pos_nonneg; lia).
      assert (Hsplit : 2 ^ (- E) = 2 ^ (- (E + n)) * 2 ^ n).
      { rewrite <- Z.pow_add_r by lia. f_equal. lia. }
      assert (0 <= M / 2 ^ n) by (apply Z.div_pos; lia).
      assert (M / 2 ^ n < 255 * 2 ^ (- (E + n))).
      { apply Z.div_lt_upper_bound; [lia|]. rewrite Hsplit in Hlt. lia. }
      lia.
    - destruct H1 as (Hs & -> & Hl).
      unfold m1. rewrite Hs, Hl. simpl. split; [lia | exact HE]. }
  destruct Hm1 as [Hm1 He'].
  pose proof (shr_fexp_m m1 e' loc_Exact ltac:(lia)) as H2. cbv zeta in H2.
  destruct (shr_fexp 24 128 m1 e' loc_Exact) as [mrs'' e''].
  assert (Hp1 : 0 < 2 ^ (- e')) by (apply Z.pow_pos_nonneg; lia).
  assert (Hd1 : Zdigits2 m1 + e' <= 9).
  { assert (Zdigits2 m1 <= 9 - e'); [|lia].
    apply Zdigits2_bound; [lia | lia |].
    replace (9 - e') with (9 + - e') by lia. rewrite Z.pow_add_r by lia.
    change (2 ^ 9) with 512. lia. }
  assert (Hfin : 0 <= shr_m mrs'' < 256 * 2 ^ (- e'') /\ e'' < 0).
  { destruct (0 <? fexp 24 128 (Zdigits2 m1 + e') - e') eqn:Hn.
    - apply Z.ltb_lt in Hn. destruct H2 as [Hs ->]. rewrite Hs.
      set (n := fexp 24 128 (Zdigits2 m1 + e') - e') in *.
      assert (He'' : e' + n < 0).
      { unfold n, fexp, emin. lia. }
      split; [|exact He''].
      assert (Hn2 : 0 < 2 ^ n) by (apply Z.pow_pos_nonneg; lia).
      assert (Hp' : 0 < 2 ^ (- (e' + n))) by (apply Z.pow_pos_nonneg; lia).
      assert (Hsplit : 2 ^ (- e') = 2 ^ (- (e' + n)) * 2 ^ n).
      { rewrite <- Z.pow_add_r by lia. f_equal. lia. }
      split; [apply Z.div_pos; lia|].
      apply Z.div_lt_upper_bound; [lia|]. rewrite Hsplit in Hm1. lia.
    - destruct H2 as (Hs & -> & _). rewrite Hs. split; [exact Hm1 | exact He']. }
  destruct Hfin as [Hfin He''].
  destruct (shr_m mrs'') as [|p|p]; [exists 0; simpl; split; [reflexivity | lia] | | lia].
  replace (e'' <=? 128 - 24) with true by (symmetry; apply Z.leb_le; lia).
  destruct e'' as [|q|q]; try lia.
  rewrite trunc_finite_neg. eexists. split; [reflexivity|].
  assert (Hq : 0 < 2 ^ Zpos q) by (apply Z.pow_pos_nonneg; lia).
  change (- Zneg q) with (Zpos q) in Hfin.
  split; [apply Z.div_pos; lia|].
  assert (Zpos p / 2 ^ Zpos q < 256); [|lia].
  apply Z.div_lt_upper_bound; lia.
Qed.

Lemma binary_round_aux_sign (M E : Z) (l : location) :
  match binary_round_aux 24 128 false M E l with
  | S754_finite s _ _ => s = false
  | _ => True
  end.
Proof.
  unfold binary_round_aux.
  destruct (shr_fexp 24 128 M E l) as [mrs' e'].
  destruct (shr_fexp 24 128 _ e' loc_Exact) as [mrs'' e''].
  destruct (shr_m mrs''); auto. destruct (e'' <=? 128 - 24); auto.
Qed.

Lemma floor_trunc_nonneg (f : spec_float) :
  match f with S754_finite s _ _ => s = false | _ => True end ->
  floor f = Float32.trunc f.
Proof. destruct f as [s|s| |s m e]; try reflexivity. intros ->. reflexivity. Qed.

Lemma not_below_zero (f : spec_float) :
  SFleb Float32.zero f = true -> SFltb f Float32.zero = false.
Proof.
  unfold SFleb, SFltb, Float32.zero.
  destruct f as [s|[]| |[] m e]; cbn [SFcompare]; congruence.
Qed.

Lemma not_above_one (f : spec_float) :
  SFleb f Float32.one = true -> SFltb Float32.one f = false.
Proof.
  unfold SFleb, SFltb, Float32.one.
  destruct f as [s|[]| |[] m e]; cbn [SFcompare]; try congruence.
  rewrite (Z.compare_antisym e (-23)).
  destruct (e ?= -23); cbn [CompOpp]; try congruence.
  replace (Pos.compare_cont Eq 8388608 m)
    with (CompOpp (Pos.compare_cont Eq m 8388608))
    by apply (Pos.compare_cont_antisym m 8388608 Eq).
  destruct (Pos.compare_cont Eq m 8388608); cbn [CompOpp]; congruence.
Qed.

Lemma clamp01_normalized (f : spec_float) :
  SFleb Float32.zero f = true -> SFleb f Float32.one = true -> clamp01 f = f.
Proof.
  intros H0 H1. unfold clamp01.
  now rewrite (not_below_zero f H0), (not_above_one f H1).
Qed.

(** A valid single-precision number in [[0, 1]] is a zero, one, or has a
    24-bit mantissa and an exponent of at most [-24]. *)
Lemma normalized_shape (s : bool) (m : positive) (e : Z) :
  Float32.valid (S754_finite s m e) = true ->
  SFleb Float32.zero (S754_finite s m e) = true ->
  SFleb (S754_finite s m e) Float32.one = true ->
  s = false
  /\ ((m = 8388608%positive /\ e = -23)
      \/ (Zpos m < 2 ^ 24 /\ -149 <= e <= -24)).
Proof.
  intros Hv H0 H1.
  assert (Hs : s = false).
  { destruct s; [|reflexivity]. unfold SFleb, Float32.zero in H0.
    cbn [SFcompare] in H0. congruence. }
  subst s. clear H0. split; [reflexivity|].
  unfold Float32.valid, valid_binary, bounded, canonical_mantissa in Hv.
  apply andb_prop in Hv as [Hc _]. apply Z.eqb_eq in Hc.
  unfold fexp, emin, Float32.prec, Float32.emax in Hc.
  pose proof (digits2_pos_gt m) as Hgt. pose proof (digits2_pos_le m) as Hle.
  assert (Hd : Zpos (digits2_pos m) <= 24) by lia.
  assert (Hm : Zpos m < 2 ^ 24).
  { eapply Z.lt_le_trans; [exact Hgt|]. apply Z.pow_le_mono_r; lia. }
  unfold SFleb, Float32.one in H1. cbn [SFcompare] in H1.
  destruct (e ?= -23) eqn:He; try discriminate.
  - apply Z.compare_eq in He. subst e. left. split; [|reflexivity].
    assert (Hd24 : Zpos (digits2_pos m) = 24) by lia.
    rewrite Hd24 in Hle. change (2 ^ (24 - 1)) with 8388608 in Hle.
    destruct (Pos.compare_cont Eq m 8388608) eqn:Hcmp; try discriminate.
    + exact (Pos.compare_eq _ _ Hcmp).
    + pose proof (proj1 (Pos.compare_lt_iff _ _) Hcmp) as Hlt.
      apply Pos2Z.pos_lt_pos in Hlt. clear - Hlt Hle. lia.
  - right. pose proof (proj1 (Z.compare_lt_iff _ _) He). split; [exact Hm | lia].
Qed.

(** C9, as the code has it.  For a single-precision component [f] with
    [0 <= f <= 1] the value [ApplyLayerColor] sends is defined, lies in
    [0 .. 255], and is [floor(255 * clamp(f, 0, 1))], which there is
    [floor(255 * f)]: the code multiplies and converts, it does not
    clamp. *)
Theorem color_component_normalized (f : spec_float) :
  Float32.valid f = true ->
  SFleb Float32.zero f = true ->
  SFleb f Float32.one = true ->
  exists z, color_component f = Some z /\ 0 <= z <= 255 /\ spec_quantize f = Some z.
Proof.
  intros Hv H0 H1. unfold spec_quantize. rewrite (clamp01_normalized f H0 H1).
  unfold color_component, Float32.to_uint8.
  assert (Hmain : exists z,
             Float32.trunc (Float32.mul (Float32.of_Z 255) f) = Some z
             /\ 0 <= z <= 255
             /\ floor (Float32.mul (Float32.of_Z 255) f) = Some z).
  { destruct f as [s|[]| |s m e];
      try (unfold SFleb, Float32.zero, Float32.one in H0, H1;
           cbn [SFcompare] in H0, H1; congruence).
    - exists 0. repeat split; lia.
    - destruct (normalized_shape s m e Hv H0 H1) as [-> [[-> ->]|[Hm He]]].
      + exists 255. repeat split; try lia; vm_compute; reflexivity.
      + change (Float32.mul (Float32.of_Z 255) (S754_finite false m e))
          with (binary_round_aux 24 128 false (Zpos (16711680 * m)) (-16 + e) loc_Exact).
        destruct (round_below_255 (Zpos (16711680 * m)) (-16 + e)) as (z & Hz & Hr);
          [lia | lia | |].
        * replace (- (-16 + e)) with (16 + - e) by lia.
          rewrite Z.pow_add_r by lia. change (2 ^ 16) with 65536.
          assert (2 ^ 24 <= 2 ^ (- e)) by (apply Z.pow_le_mono_r; lia).
          rewrite Pos2Z.inj_mul. lia.
        * exists z. split; [exact Hz|]. split; [exact Hr|].
          rewrite floor_trunc_nonneg; [exact Hz | apply binary_round_aux_sign]. }
  destruct Hmain as (z & Hz & Hr & Hf). exists z. rewrite Hz, Hf.
  replace ((0 <=? z) && (z <=? 255)) with true; [auto|].
  symmetry. apply andb_true_intro. split; apply Z.leb_le; lia.
Qed.

End Quantization.

(** One half is sent as 127. *)
Lemma color_component_normalized_witness :
  color_component (S754_finite false 8388608 (-24)) = Some 127%Z
  /\ spec_quantize (S754_finite false 8388608 (-24)) = Some 127%Z.
Proof.
  destruct (color_component_normalized (S754_finite false 8388608 (-24))
              eq_refl eq_refl eq_refl) as (z & Hc & _ & Hs).
  assert (Hz : z = 127%Z) by (vm_compute in Hc; now injection Hc).
  subst z. split; assumption.
Defined.

(** C9 as stated fails: the component 2.0 is not clamped to 1.0.  The
    product 510 does not fit in eight bits, so its conversion is undefined,
    where the formula of the claim gives 255. *)
Lemma color_component_not_clamped_counterexample :
  color_component (Float32.of_Z 2) = None
  /\ spec_quantize (Float32.of_Z 2) = Some 255%Z
  /\ Float32.mul (Float32.of_Z 255) (Float32.of_Z 2) = Float32.of_Z 510.
Proof. repeat split; vm_compute; reflexivity. Qed.

(** ** The sentinel's event over time *)

Lemma inert_refl (w : World) : inert w w.
Proof. repeat split; auto. apply extends_by_refl. Qed.

Lemma inert_trans (w1 w2 w3 : World) : inert w1 w2 -> inert w2 w3 -> inert w1 w3.
Proof.
  intros (M1 & P1 & D1 & N1 & E1) (M2 & P2 & D2 & N2 & E2).
  repeat split; try congruence. eapply extends_by_trans; eassumption.
Qed.

Lemma inert_attached (w w' : World) (id : N) :
  inert w w' -> attached w' id -> attached w id.
Proof.
  intros (_ & _ & _ & _ & cs & Ht & Hcs) (l & i & wt & Hin).
  exists l, i, wt. rewrite Ht in Hin. apply in_app_or in Hin as [Hin|Hin]; [exact Hin|].
  exfalso. rewrite forallb_forall in Hcs. specialize (Hcs _ Hin). discriminate.
Qed.

Lemma sentinel_step_refl (w : World) : sentinel_step w w.
Proof. intros H. split; [exact H|]. intros e0 He0. eauto. Qed.

Lemma keeps_sentinel_trans (w1 w2 w3 : World) :
  keeps_sentinel w1 w2 -> keeps_sentinel w2 w3 -> keeps_sentinel w1 w3.
Proof.
  intros H1 H2 e0 He0. destruct (H1 e0 He0) as (e1 & He1 & Hid1 & Hs1).
  destruct (H2 e1 He1) as (e2 & He2 & Hid2 & Hs2).
  exists e2. split; [exact He2|]. split; [congruence | auto].
Qed.

Lemma sentinel_step_trans (w1 w2 w3 : World) :
  sentinel_step w1 w2 -> sentinel_step w2 w3 -> sentinel_step w1 w3.
Proof.
  intros H1 H2 Hwf. destruct (H1 Hwf) as [Hwf2 K1]. destruct (H2 Hwf2) as [Hwf3 K2].
  split; [exact Hwf3 | eapply keeps_sentinel_trans; eassumption].
Qed.

Lemma planner_step_refl (w : World) : planner_step w w.
Proof. intros H. split; [exact H|]. intros e0 He0. eauto. Qed.

Lemma planner_step_trans (w1 w2 w3 : World) :
  planner_step w1 w2 -> planner_step w2 w3 -> planner_step w1 w3.
Proof.
  intros H1 H2 Hwf. destruct (H1 Hwf) as [Hwf2 K1]. destruct (H2 Hwf2) as [Hwf3 K2].
  split; [exact Hwf3 | eapply keeps_sentinel_trans; eassumption].
Qed.

(** What [sentinel_wf] reads of a state. *)
Lemma sentinel_wf_ext (w w' : World) :
  image_event_map_ w' = image_event_map_ w ->
  display_engine_data_map_ w' = display_engine_data_map_ w ->
  next_event_id w' = next_event_id w ->
  (forall id, attached w' id -> attached w id) ->
  sentinel_wf w -> sentinel_wf w'.
Proof.
  intros Hm Hd Hn Ha [W1 W2 W3 W4 W5].
  assert (Hf : forall id, frame_id w' id -> frame_id w id).
  { intros id (d & ded & fe & H). rewrite Hd in H. exists d, ded, fe. exact H. }
  assert (Hi : forall id, image_id w' id -> image_id w id).
  { intros id (k & e & H). rewrite Hm in H. exists k, e. exact H. }
  constructor; rewrite ?Hm, ?Hn; auto.
  intros e0 He0. destruct (W5 e0 He0) as (P1 & P2 & P3 & P4).
  repeat split; auto.
Qed.

Lemma inert_sentinel_step (w w' : World) : inert w w' -> sentinel_step w w'.
Proof.
  intros Hi Hwf. pose proof Hi as (M & P & D & N & E). split.
  - apply (sentinel_wf_ext w); auto. intros id. now apply inert_attached.
  - intros e0 He0. exists e0. rewrite M. auto.
Qed.

Lemma inert_planner_step (w w' : World) : inert w w' -> planner_step w w'.
Proof.
  intros Hi [Hwf Hp]. destruct (inert_sentinel_step w w' Hi Hwf) as [Hwf' K].
  split; [split; [exact Hwf'|] | exact K].
  destruct Hi as (M & P & _). intros id. rewrite P, M. apply Hp.
Qed.

Lemma inert_call (c : Call) (w : World) :
  is_set_layer_image c = false -> inert w (set_trace (fun t => t ++ [c]) w).
Proof.
  intros H. repeat split; auto. exists [c]. simpl. now rewrite H.
Qed.

Ltac inert_leaf :=
  lazymatch goal with
  | |- run_rel _ (call _ _) => apply run_rel_call; intros ?; apply inert_call; reflexivity
  | |- run_rel _ (call2 _ _) => apply run_rel_call2; intros ?; apply inert_call; reflexivity
  | |- forall w, inert w _ =>
      intros ?; repeat split; auto; exists []; simpl; now rewrite app_nil_r
  | |- _ => idtac
  end.

Ltac inert_auto :=
  repeat (run_rel_step inert_refl inert_trans ltac:(inert_leaf)).

Section Inert.

Variable env : Env.

Lemma CheckConfig_inert : run_rel inert (CheckConfig env).
Proof. unfold CheckConfig. inert_auto. Qed.

Lemma apply_and_enqueue_inert (fn : N) : run_rel inert (apply_and_enqueue env fn).
Proof. unfold apply_and_enqueue, ApplyConfig, call_. inert_auto. Qed.

Lemma SetDisplayLayers_inert (d : N) (ls : list N) : run_rel inert (SetDisplayLayers env d ls).
Proof. unfold SetDisplayLayers, call_. inert_auto. Qed.

Lemma supports_display_index_inert (c : N) : run_rel inert (supports_display_index c).
Proof. unfold supports_display_index. inert_auto. Qed.

Lemma display_info_index_inert (d : N) : run_rel inert (display_info_index d).
Proof. unfold display_info_index. inert_auto. Qed.

Lemma ApplyLayerColor_inert (l : N) (r : ImageRect) (img : ImageMetadata) :
  run_rel inert (ApplyLayerColor env l r img).
Proof. unfold ApplyLayerColor, call_. inert_auto. Qed.

Lemma ImportBufferCollection_inert (id token : N) (usage : BufferCollectionUsage) :
  run_rel inert (ImportBufferCollection env id token usage).
Proof.
  unfold ImportBufferCollection, DuplicateToken, ConvertToAttachToken,
    CreateBufferCollectionPtrWithEmptyConstraints, DuplicateToken, new_handle, call_.
  inert_auto.
Qed.

Lemma ReleaseBufferCollection_inert (id : N) (usage : BufferCollectionUsage) :
  run_rel inert (ReleaseBufferCollection env id usage).
Proof. unfold ReleaseBufferCollection, call_. inert_auto. Qed.

Lemma ImportBufferImage_inert (metadata : ImageMetadata) (usage : BufferCollectionUsage) :
  run_rel inert (ImportBufferImage env metadata usage).
Proof.
  unfold ImportBufferImage, TakeDisplayBufferCollectionPtr, DetermineDisplaySupportFor,
    CheckBuffersAllocated, GetPixelFormat, supports_display_index, CreateImageConfig, call_.
  inert_auto.
Qed.

Lemma SetColorConversionValues_inert (cc : ColorConversionData) :
  run_rel inert (SetColorConversionValues env cc).
Proof. unfold SetColorConversionValues, call_. inert_auto. Qed.

Lemma SetMinimumRgb_inert (v : N) : run_rel inert (SetMinimumRgb env v).
Proof. unfold SetMinimumRgb. inert_auto. Qed.

Lemma retire_inert (t : Z) : forall n, run_rel inert (retire env n t).
Proof.
  induction n as [|n IH]; simpl; [apply (run_rel_ret _ inert_refl)|].
  unfold call_. inert_auto. apply IH.
Qed.

Lemma OnVsync_inert (t : Z) (stamp : N) : run_rel inert (OnVsync env t stamp).
Proof.
  unfold OnVsync. inert_auto. apply retire_inert.
Qed.

Lemma CreateDisplayLayer_inert : run_rel inert (CreateDisplayLayer env).
Proof. unfold CreateDisplayLayer, new_handle. inert_auto. Qed.

Lemma import_render_targets_inert (c width height : N) :
  forall n i, run_rel inert (import_render_targets env c width height i n).
Proof.
  induction n as [|n IH]; intros i; simpl; [apply (run_rel_ret _ inert_refl)|].
  unfold call_, new_handle. inert_auto; [apply ImportBufferImage_inert | apply IH].
Qed.

Lemma AllocateDisplayRenderTargets_inert (p : bool) (n : N) (size : N * N)
    (pf : zx_pixel_format_t) :
  run_rel inert (AllocateDisplayRenderTargets env p n size pf).
Proof.
  unfold AllocateDisplayRenderTargets, call_, new_handle. inert_auto.
  apply import_render_targets_inert.
Qed.

End Inert.

Lemma attached_app (w w' : World) (cs : list Call) (id : N) :
  trace w' = trace w ++ cs ->
  attached w' id ->
  attached w id \/ exists l i wt, In (DcSetLayerImage l i wt id) cs.
Proof.
  intros Ht (l & i & wt & Hin). rewrite Ht in Hin.
  apply in_app_or in Hin as [Hin|Hin]; [left | right]; exists l, i, wt; exact Hin.
Qed.

Lemma attaches_sentinel (sg : N) (w w' : World) :
  attaches sg w w' ->
  sg < next_event_id w ->
  (forall e0, image_event_map_ w !! kInvalidImageId = Some e0 -> sg <> signal_id e0) ->
  planner_step w w'.
Proof.
  intros (M & P & D & N & A) Hlt Hne [[W1 W2 W3 W4 W5] Hp].
  assert (Hf : forall id, frame_id w' id -> frame_id w id).
  { intros id (d & ded & fe & H). rewrite D in H. exists d, ded, fe. exact H. }
  assert (Hi : forall id, image_id w' id -> image_id w id).
  { intros id (k & e & H). rewrite M in H. exists k, e. exact H. }
  split; [split|].
  - constructor; rewrite ?M, ?N; auto.
    + intros id Hid. destruct (A id Hid) as [H| ->]; auto.
    + intros e0 He0. destruct (W5 e0 He0) as (P1 & P2 & P3 & P4).
      repeat split; auto.
      intros Hatt. destruct (A _ Hatt) as [H|H]; [auto|].
      apply (Hne e0 He0). now symmetry.
  - intros id. rewrite P, M. apply Hp.
  - intros e0 He0. exists e0. rewrite M. auto.
Qed.

Section SentinelPlanner.

Variable env : Env.

Lemma ApplyLayerImage_attaches (l : N) (r : ImageRect) (img : ImageMetadata) (wt sg : N)
    (w w' : World) (u : unit) :
  ApplyLayerImage env l r img wt sg w = Some (u, w') -> attaches sg w w'.
Proof.
  unfold ApplyLayerImage, CreateImageConfig.
  destruct (DisplaySrcDstFrames_New env r img) as [src dst].
  unfold bind at 1, get.
  destruct (buffer_collection_pixel_format_ w !! collection_id img) as [pf|] eqn:Hpf;
    [|discriminate].
  unfold bind at 1. unfold bind at 1, get. rewrite Hpf.
  destruct (BufferCollectionPixelFormatToZirconFormat pf) as [zf|]; [|discriminate].
  unfold ret at 1. destruct (multiply_color img) as [[[c0 c1] c2] c3].
  unfold call_, call, bind, ret. intros [= _ <-].
  repeat split; auto. intros id Hatt.
  eapply attached_app in Hatt; [|simpl; rewrite <- !app_assoc; reflexivity].
  destruct Hatt as [H|(l' & i & wt' & H)]; [now left | right].
  simpl in H. destruct H as [H|[H|[H|[H|[]]]]]; try discriminate. now injection H.
Qed.

Lemma with_new_image_event_planner (id : N) (w : World) :
  image_event_map_ w !! id = None ->
  planner_step w (with_new_image_event id w).
Proof.
  intros Hnone [[W1 W2 W3 W4 W5] Hp].
  assert (Hatt : forall x, attached (with_new_image_event id w) x -> attached w x).
  { intros x Hx. eapply attached_app in Hx; [|reflexivity].
    destruct Hx as [H|(l & i & wt & [H|[]])]; [exact H | discriminate]. }
  split; [split|].
  - constructor; simpl.
    + lia.
    + intros k e. rewrite lookup_insert. destruct (decide (id = k)) as [Hk|Hk].
      * intros [= <-]. simpl. lia.
      * intros Hl. specialize (W2 _ _ Hl). lia.
    + intros x (d & ded & fe & Hfe).
      assert (Hf : frame_id w x) by (exists d, ded, fe; exact Hfe).
      specialize (W3 _ Hf). lia.
    + intros x Hx. specialize (W4 _ (Hatt _ Hx)). lia.
    + intros e0. rewrite lookup_insert. destruct (decide (id = kInvalidImageId)) as [Hk|Hk].
      * intros [= <-]. simpl. split; [lia|]. split; [|split].
        -- intros (k & e & Hk0 & He & Hs). simpl in He.
           rewrite lookup_insert_ne in He by congruence.
           specialize (W2 _ _ He). lia.
        -- intros (d & ded & fe & H).
           assert (Hf : frame_id w (next_event_id w)) by (exists d, ded, fe; exact H).
           specialize (W3 _ Hf). lia.
        -- intros Hx. specialize (W4 _ (Hatt _ Hx)). lia.
      * intros He0. destruct (W5 e0 He0) as (P1 & P2 & P3 & P4).
        split; [exact P1|]. split; [|split].
        -- intros (k & e & Hk0 & He & Hs). simpl in He.
           rewrite lookup_insert in He. destruct (decide (id = k)) as [Hik|Hik].
           ++ injection He as <-. simpl in Hs. specialize (W2 _ _ He0). lia.
           ++ apply P2. exists k, e. auto.
        -- intros (d & ded & fe & Hfe). apply P3. exists d, ded, fe. exact Hfe.
        -- intros Hx. apply P4, Hatt, Hx.
  - intros k. simpl. intros Hin. apply in_app_or in Hin as [Hin|[<-|[]]].
    + rewrite lookup_insert. destruct (decide (id = k)); [eauto | apply Hp, Hin].
    + rewrite lookup_insert_eq. eauto.
  - intros e0 He0. exists e0. simpl.
    rewrite lookup_insert_ne by congruence. auto.
Qed.

Lemma check_image_event_planner (data : RenderData) (i : nat) :
  run_rel planner_step (check_image_event env data i).
Proof.
  intros w r w' H.
  destruct (images data !! i) as [img|] eqn:Hi.
  2:{ unfold check_image_event, index in H. rewrite Hi in H. discriminate. }
  rewrite (check_image_event_eq env _ _ _ _ Hi) in H.
  destruct (image_event_map_ w !! identifier img) as [e|] eqn:He.
  - destruct (wait_one_signaled (signal_event e)); injection H as _ <-.
    + intros [Hwf Hp]. split; [split|].
      * apply (sentinel_wf_ext w); auto.
      * intros k. simpl. intros Hin. apply in_app_or in Hin as [Hin|[<-|[]]];
          [apply Hp, Hin | eauto].
      * intros e0 He0. eauto.
    + apply planner_step_refl.
  - injection H as _ <-. now apply with_new_image_event_planner.
Qed.

(** Reading the event of an image other than the sentinel and attaching
    its id to a layer. *)
Lemma attach_image_event_planner (l : N) (r : ImageRect) (img : ImageMetadata) :
  identifier img <> kInvalidImageId ->
  run_rel planner_step
    (e <- image_event_index (identifier img) ;;
     ApplyLayerImage env l r img 0 (signal_id e)).
Proof.
  intros Hid w u w' H. apply bind_Some in H as (e & w1 & He & H).
  apply ApplyLayerImage_attaches in H.
  unfold image_event_index, bind, get in He.
  destruct (image_event_map_ w !! identifier img) as [e1|] eqn:Hl.
  - injection He as <- <-.
    intros [Hwf Hp]. apply (attaches_sentinel _ _ _ H); [| |auto].
    + eapply wf_image_ids; eassumption.
    + intros e0 He0 Heq. destruct (wf_private _ Hwf e0 He0) as (_ & P2 & _).
      apply P2. exists (identifier img), e1. auto.
  - injection He as <- <-. eapply planner_step_trans.
    2:{ intros [Hwf Hp]. apply (attaches_sentinel _ _ _ H); [| |auto].
        - simpl. apply (wf_next _ Hwf).
        - intros e0 He0 Heq. destruct (wf_private _ Hwf e0 He0) as (P1 & _).
          simpl in Heq. lia. }
    intros [[W1 W2 W3 W4 W5] Hp]. split; [split|].
    + constructor; simpl; auto.
      * intros k e. rewrite lookup_insert.
        destruct (decide (identifier img = k)); [|apply W2].
        intros [= <-]. exact W1.
      * intros e0. rewrite lookup_insert_ne by congruence. intros He0.
        destruct (W5 e0 He0) as (P1 & P2 & P3 & P4).
        repeat split; auto.
        intros (k & e & Hk0 & He & Hs). simpl in He.
        rewrite lookup_insert in He. destruct (decide (identifier img = k)).
        -- injection He as <-. simpl in Hs. lia.
        -- apply P2. exists k, e. auto.
    + intros k Hin. simpl. rewrite lookup_insert.
      destruct (decide (identifier img = k)); [eauto | apply Hp, Hin].
    + intros e0 He0. exists e0. simpl. rewrite lookup_insert_ne by congruence. auto.
Qed.

End SentinelPlanner.

Lemma sentinel_wf_mono (w w' : World) :
  (forall k, signal_id <$> image_event_map_ w' !! k = signal_id <$> image_event_map_ w !! k) ->
  (forall id, frame_id w' id -> frame_id w id) ->
  next_event_id w' = next_event_id w ->
  (forall id, attached w' id -> attached w id) ->
  sentinel_wf w -> sentinel_wf w'.
Proof.
  intros Hm Hf Hn Ha [W1 W2 W3 W4 W5].
  assert (Hl : forall k e', image_event_map_ w' !! k = Some e' ->
                 exists e, image_event_map_ w !! k = Some e /\ signal_id e = signal_id e').
  { intros k e' He'. specialize (Hm k). rewrite He' in Hm. simpl in Hm.
    destruct (image_event_map_ w !! k) as [e|]; [|discriminate].
    exists e. split; [reflexivity|]. simpl in Hm. congruence. }
  constructor; rewrite ?Hn; auto.
  - intros k e' He'. destruct (Hl k e' He') as (e & He & <-). eauto.
  - intros e0' He0'. destruct (Hl _ e0' He0') as (e0 & He0 & <-).
    destruct (W5 e0 He0) as (P1 & P2 & P3 & P4).
    repeat split; auto.
    intros (k & e' & Hk & He' & Hs). destruct (Hl k e' He') as (e & He & Hid).
    apply P2. exists k, e. split; [exact Hk|]. split; [exact He | congruence].
Qed.

Lemma index_Some {X} (v : list X) (i : nat) (w : World) (x : X) (w' : World) :
  index v i w = Some (x, w') -> v !! i = Some x /\ w' = w.
Proof.
  unfold index. destruct (v !! i) as [y|]; [|discriminate]. now intros [= -> ->].
Qed.

Lemma unsignal_all_ids (ids : list N) :
  forall m : gmap N ImageEventData,
    (forall id, In id ids -> is_Some (m !! id)) ->
    forall k, signal_id <$> unsignal_all ids m !! k = signal_id <$> m !! k.
Proof.
  unfold unsignal_all. induction ids as [|x xs IH]; intros m Hin k; simpl; [reflexivity|].
  assert (Hstep : forall j, signal_id <$> unsignal_entry m x !! j = signal_id <$> m !! j).
  { intros j. unfold unsignal_entry. rewrite lookup_insert.
    destruct (decide (x = j)) as [->|Hne]; [|reflexivity].
    destruct (Hin j (or_introl eq_refl)) as [e He]. rewrite He. reflexivity. }
  rewrite IH; [apply Hstep|].
  intros id Hid. specialize (Hstep id).
  destruct (Hin id (or_intror Hid)) as [e He]. rewrite He in Hstep. simpl in Hstep.
  destruct (unsignal_entry m x !! id); [eauto | discriminate].
Qed.

Ltac planner_leaf env :=
  lazymatch goal with
  | |- run_rel _ (call _ _) =>
      apply run_rel_call; intros ?; apply inert_planner_step, inert_call; reflexivity
  | |- run_rel _ (call2 _ _) =>
      apply run_rel_call2; intros ?; apply inert_planner_step, inert_call; reflexivity
  | |- run_rel _ (supports_display_index _) =>
      apply (run_rel_weaken inert planner_step);
      [apply inert_planner_step | apply supports_display_index_inert]
  | |- run_rel _ (display_info_index _) =>
      apply (run_rel_weaken inert planner_step);
      [apply inert_planner_step | apply display_info_index_inert]
  | |- run_rel _ (ApplyLayerColor _ _ _ _) =>
      apply (run_rel_weaken inert planner_step);
      [apply inert_planner_step | apply ApplyLayerColor_inert]
  | |- run_rel _ (SetDisplayLayers _ _ _) =>
      apply (run_rel_weaken inert planner_step);
      [apply inert_planner_step | apply SetDisplayLayers_inert]
  | |- run_rel _ (CheckConfig _) =>
      apply (run_rel_weaken inert planner_step);
      [apply inert_planner_step | apply CheckConfig_inert]
  | |- forall w, planner_step w _ =>
      intros ?; apply inert_planner_step; repeat split; auto;
      exists []; simpl; now rewrite app_nil_r
  | |- _ => idtac
  end.

Ltac planner_auto env :=
  repeat (run_rel_step planner_step_refl planner_step_trans ltac:(planner_leaf env)).

Section SentinelFrame.

Variable env : Env.

Lemma assign_layer_planner (data : RenderData) (ls : list N) (i : nat) :
  run_rel planner_step (assign_layer env data ls i).
Proof.
  unfold assign_layer.
  apply (run_rel_bind _ planner_step_trans); [apply (run_rel_index _ planner_step_refl)|].
  intros img. destruct (negb (identifier img =? kInvalidImageId)) eqn:Hid.
  - assert (Hne : identifier img <> kInvalidImageId).
    { intros Heq. rewrite Heq, N.eqb_refl in Hid. discriminate. }
    apply (run_rel_bind _ planner_step_trans); [planner_auto env|].
    intros [|]; [|apply (run_rel_ret _ planner_step_refl)].
    apply (run_rel_bind _ planner_step_trans); [apply (run_rel_index _ planner_step_refl)|].
    intros layer.
    apply (run_rel_bind _ planner_step_trans); [apply (run_rel_index _ planner_step_refl)|].
    intros rect w r w' H.
    apply bind_Some in H as (e & w1 & He & H).
    apply bind_Some in H as (u & w2 & Ha & H). injection H as _ <-.
    apply (attach_image_event_planner env layer rect img Hne w tt w2).
    unfold bind at 1. rewrite He. destruct u. exact Ha.
  - planner_auto env.
Qed.

Lemma SetRenderDataOnDisplay_planner (data : RenderData) :
  run_rel planner_step (SetRenderDataOnDisplay env data).
Proof.
  unfold SetRenderDataOnDisplay.
  planner_auto env; first [apply check_image_event_planner | apply assign_layer_planner].
Qed.

Lemma SetRenderDatasOnDisplay_planner (datas : list RenderData) :
  run_rel planner_step (SetRenderDatasOnDisplay env datas).
Proof.
  unfold SetRenderDatasOnDisplay, set_render_data_and_cc.
  planner_auto env. apply SetRenderDataOnDisplay_planner.
Qed.

Lemma DiscardConfig_establishes (w w0 : World) (u : unit) :
  DiscardConfig env w = Some (u, w0) ->
  sentinel_wf w ->
  (sentinel_wf w0 /\ pending_have_events w0) /\ keeps_sentinel w w0.
Proof.
  unfold DiscardConfig, call_, call, modify, bind, ret. intros [= _ <-] Hwf.
  split; [split|].
  - apply (sentinel_wf_ext w); auto.
    intros id Hid. eapply attached_app in Hid; [|reflexivity].
    destruct Hid as [H|(l & i & wt & [H|[]])]; [exact H | discriminate].
  - intros id [].
  - intros e0 He0. eauto.
Qed.

Lemma fallback_to_gpu_composition_planner (datas : list RenderData) (w w2 : World)
    (b : bool) :
  fallback_to_gpu_composition env datas w = Some (b, w2) ->
  sentinel_wf w ->
  (sentinel_wf w2 /\ pending_have_events w2) /\ keeps_sentinel w w2.
Proof.
  unfold fallback_to_gpu_composition. intros H Hwf.
  apply bind_Some in H as (u & w0 & Hd & H).
  destruct (DiscardConfig_establishes _ _ _ Hd Hwf) as [Hwf0 K0].
  assert (Hrest : planner_step w0 w2).
  { revert H. apply (run_rel_bind _ planner_step_trans);
      [apply SetRenderDatasOnDisplay_planner|].
    intros ok. planner_auto env. }
  destruct (Hrest Hwf0) as [Hwf2 K2].
  split; [exact Hwf2 | eapply keeps_sentinel_trans; eassumption].
Qed.

Lemma direct_branch_sentinel (fn : N) (rf : list N) (cb : N) (w w' : World) (u : unit) :
  direct_branch env fn rf cb w = Some (u, w') ->
  sentinel_wf w -> pending_have_events w ->
  sentinel_wf w' /\ keeps_sentinel w w'.
Proof.
  unfold direct_branch. intros H Hwf Hp.
  apply bind_Some in H as (u1 & wa & Hm & H). injection Hm as _ Hm. subst wa.
  apply bind_Some in H as (wb & wc & Hg & H). injection Hg as Hg1 Hg2. subst wb wc.
  apply bind_Some in H as (r & wd & Hl & H).
  rewrite unsignal_loop in Hl. injection Hl as _ Hl. subst wd.
  assert (Hrest : inert
                    (set_image_event_map_
                       (unsignal_all
                          (pending_images_in_config_
                             (set_cc_state_machine_
                                ColorConversionStateMachine.SetApplyConfigSucceeded w)))
                       (set_cc_state_machine_
                          ColorConversionStateMachine.SetApplyConfigSucceeded w)) w').
  { revert H. unfold call_.
    apply (run_rel_bind _ inert_trans); [inert_auto|].
    intros _. apply apply_and_enqueue_inert. }
  apply inert_sentinel_step in Hrest. simpl in Hrest.
  pose proof (unsignal_all_ids (pending_images_in_config_ w) (image_event_map_ w) Hp) as Hids.
  destruct Hrest as [Hwf' K'].
  { apply (sentinel_wf_mono w); auto. }
  split; [exact Hwf'|]. eapply keeps_sentinel_trans; [|exact K'].
  intros e0 He0. simpl.
  specialize (Hids kInvalidImageId). rewrite He0 in Hids. simpl in Hids.
  destruct (unsignal_all _ _ !! kInvalidImageId) as [e0'|] eqn:He0'; [|discriminate].
  exists e0'. split; [reflexivity|]. split; [simpl in Hids; congruence|].
  intros Hs.
  destruct (unsignal_all_keeps_unsignaled (pending_images_in_config_ w) kInvalidImageId
              (image_event_map_ w)) as (e1 & He1 & Hs1); [eauto|].
  congruence.
Qed.

End SentinelFrame.

Lemma attaches_sentinel_step (sg : N) (w w' : World) :
  attaches sg w w' ->
  (sentinel_wf w -> sg < next_event_id w) ->
  (sentinel_wf w -> forall e0, image_event_map_ w !! kInvalidImageId = Some e0 ->
                               sg <> signal_id e0) ->
  sentinel_step w w'.
Proof.
  intros (M & P & D & N & A) Hlt Hne Hwf.
  specialize (Hlt Hwf). specialize (Hne Hwf). destruct Hwf as [W1 W2 W3 W4 W5].
  assert (Hf : forall id, frame_id w' id -> frame_id w id).
  { intros id (d & ded & fe & H). rewrite D in H. exists d, ded, fe. exact H. }
  assert (Hi : forall id, image_id w' id -> image_id w id).
  { intros id (k & e & H). rewrite M in H. exists k, e. exact H. }
  split.
  - constructor; rewrite ?M, ?N; auto.
    + intros id Hid. destruct (A id Hid) as [H| ->]; auto.
    + intros e0 He0. destruct (W5 e0 He0) as (P1 & P2 & P3 & P4).
      repeat split; auto.
      intros Hatt. destruct (A _ Hatt) as [H|H]; [auto|].
      apply (Hne e0 He0). now symmetry.
  - intros e0 He0. exists e0. rewrite M. auto.
Qed.

Lemma In_list_insert {X} (l : list X) (i : nat) (x y : X) :
  In y (<[i := x]> l) -> y = x \/ In y l.
Proof.
  revert i. induction l as [|a l IH]; intros i; simpl; [tauto|].
  destruct i as [|i]; simpl.
  - intros [<-|H]; auto.
  - intros [<-|H]; [auto|]. destruct (IH _ H); auto.
Qed.

Lemma run_rel_elim {A} (R : World -> World -> Prop) (m : M A) (w : World) (a : A)
    (w' : World) :
  m w = Some (a, w') -> run_rel R m -> R w w'.
Proof. intros H Hr. eapply Hr, H. Qed.

Section SentinelGpu.

Variable env : Env.

Lemma compose_display_sentinel (datas : list RenderData) (i : nat) :
  run_rel sentinel_step (compose_display env datas i).
Proof.
  intros w r w' H. unfold compose_display in H.
  apply bind_Some in H as (rd & wa & Hrd & H). apply index_Some in Hrd as [Hrd ->].
  apply bind_Some in H as (wb & wc & Hg & H). injection Hg as Hg1 Hg2. subst wb wc.
  destruct (display_engine_data_map_ w !! display_id rd) as [ded|] eqn:Hded;
    [|discriminate].
  apply bind_Some in H as (u & w1 & Hcc & H).
  assert (Hi1 : inert w w1).
  { apply (run_rel_elim _ _ _ _ _ Hcc). inert_auto. }
  destruct (vmo_count ded =? 0).
  { injection H as _ <-. now apply inert_sentinel_step. }
  apply bind_Some in H as (wb & wc & Hg & H). injection Hg as Hg1 Hg2. subst wb wc.
  apply bind_Some in H as (target & wa & Ht & H). apply index_Some in Ht as [Ht ->].
  apply bind_Some in H as (fe & wa & Hfe & H). apply index_Some in Hfe as [Hfe ->].
  apply bind_Some in H as (u1 & w2 & Hset & H).
  unfold set_engine_data, modify in Hset. injection Hset as _ Hset.
  apply bind_Some in H as (u2 & w3 & Hrender & H).
  apply bind_Some in H as (layer & wa & Hl & H). apply index_Some in Hl as [Hl ->].
  apply bind_Some in H as (u3 & w4 & Hsl & H).
  apply bind_Some in H as (u4 & w5 & Hali & H).
  apply bind_Some in H as (ok & w6 & Hchk & H).
  assert (Hw' : w' = w6) by (destruct (negb ok); now injection H). subst w'.
  pose proof Hi1 as (M1 & _ & D1 & N1 & _).
  (* the slot of the ring is reset: the ids of its events stay *)
  assert (S2 : sentinel_step w1 w2).
  { intros Hwf. subst w2. split; [|intros e0 He0; eauto].
    apply (sentinel_wf_mono w1); auto.
    intros id (d & ded' & fe' & Hd' & Hin & Hid). simpl in Hd'.
    rewrite lookup_insert in Hd'. destruct (decide (display_id rd = d)) as [<-|Hne].
    - injection Hd' as <-. simpl in Hin. apply In_list_insert in Hin as [->|Hin].
      + exists (display_id rd), ded, fe. rewrite D1. split; [exact Hded|].
        split; [|exact Hid].
        apply list_elem_of_In, list_elem_of_lookup. eauto.
      + exists (display_id rd), ded, fe'. rewrite D1. auto.
    - exists d, ded', fe'. auto. }
  assert (I3 : inert w2 w4).
  { eapply inert_trans.
    - apply (run_rel_elim _ _ _ _ _ Hrender). unfold call_. inert_auto.
    - eapply SetDisplayLayers_inert, Hsl. }
  assert (F4 : frame_id w4 (fe_signal_id fe)).
  { destruct I3 as (_ & _ & D3 & _). exists (display_id rd).
    eexists. exists {| fe_wait_event := unsignal (fe_wait_event fe);
                       fe_signal_event := unsignal (fe_signal_event fe);
                       fe_wait_id := fe_wait_id fe;
                       fe_signal_id := fe_signal_id fe |}.
    rewrite D3. subst w2. simpl. rewrite lookup_insert_eq. split; [reflexivity|].
    simpl. split; [|reflexivity].
    apply list_elem_of_In, list_elem_of_lookup. exists (N.to_nat (curr_vmo ded)).
    apply list_lookup_insert_eq. now apply lookup_lt_Some in Hfe. }
  assert (S5 : sentinel_step w4 w5).
  { apply ApplyLayerImage_attaches in Hali.
    apply (attaches_sentinel_step _ _ _ Hali).
    - intros Hwf. now apply (wf_frame_ids _ Hwf).
    - intros Hwf e0 He0 Heq. destruct (wf_private _ Hwf e0 He0) as (_ & _ & P3 & _).
      apply P3. now rewrite <- Heq. }
  eapply sentinel_step_trans; [apply inert_sentinel_step, Hi1|].
  eapply sentinel_step_trans; [exact S2|].
  eapply sentinel_step_trans; [apply inert_sentinel_step, I3|].
  eapply sentinel_step_trans; [exact S5|].
  eapply inert_sentinel_step, CheckConfig_inert, Hchk.
Qed.

Lemma PerformGpuComposition_sentinel (fn : N) (pt : Z) (datas : list RenderData)
    (rf : list N) (cb : N) :
  run_rel sentinel_step (PerformGpuComposition env fn pt datas rf cb).
Proof.
  unfold PerformGpuComposition.
  apply (run_rel_bind _ sentinel_step_trans).
  - apply (run_rel_for_range _ sentinel_step_refl sentinel_step_trans).
    apply compose_display_sentinel.
  - intros [b|]; [apply (run_rel_ret _ sentinel_step_refl)|].
    apply (run_rel_weaken inert sentinel_step); [apply inert_sentinel_step|].
    unfold call_. inert_auto.
Qed.

Lemma gpu_branch_sentinel (fn : N) (pt : Z) (datas : list RenderData) (rf : list N)
    (cb : N) :
  run_rel sentinel_step (gpu_branch env fn pt datas rf cb).
Proof.
  unfold gpu_branch.
  apply (run_rel_bind _ sentinel_step_trans).
  - intros w u w' H Hwf. destruct (DiscardConfig_establishes env _ _ _ H Hwf) as [[? _] ?].
    auto.
  - intros _. apply (run_rel_bind _ sentinel_step_trans);
      [apply PerformGpuComposition_sentinel|].
    intros ok. destruct (negb ok); [apply (run_rel_ret _ sentinel_step_refl)|].
    apply (run_rel_weaken inert sentinel_step);
      [apply inert_sentinel_step | apply apply_and_enqueue_inert].
Qed.

Lemma RenderFrame_sentinel (fn : N) (pt : Z) (datas : list RenderData) (rf : list N)
    (cb : N) :
  run_rel sentinel_step (RenderFrame env fn pt datas rf cb).
Proof.
  intros w u w' H Hwf. unfold RenderFrame in H.
  apply bind_Some in H as (fallback & w2 & Hfb & H).
  destruct (fallback_to_gpu_composition_planner env _ _ _ _ Hfb Hwf) as [[Hwf2 Hp2] K2].
  destruct fallback.
  - destruct (gpu_branch_sentinel _ _ _ _ _ _ _ _ H Hwf2) as [Hwf' K'].
    split; [exact Hwf' | eapply keeps_sentinel_trans; eassumption].
  - destruct (direct_branch_sentinel env _ _ _ _ _ _ H Hwf2 Hp2) as [Hwf' K'].
    split; [exact Hwf' | eapply keeps_sentinel_trans; eassumption].
Qed.

Lemma ReleaseBufferImage_sentinel (id : N) :
  id <> kInvalidImageId -> run_rel sentinel_step (ReleaseBufferImage env id).
Proof.
  intros Hid w u w'. unfold ReleaseBufferImage, call_, call, modify, bind, ret.
  intros [= _ <-] [W1 W2 W3 W4 W5].
  assert (Hatt : forall x,
             attached (set_image_event_map_ (delete id)
                         (set_trace (fun t => t ++ [RendererReleaseBufferImage id])
                            (set_trace (fun t => t ++ [DcReleaseImage id]) w))) x ->
             attached w x).
  { intros x Hx. eapply attached_app in Hx; [|simpl; rewrite <- app_assoc; reflexivity].
    destruct Hx as [H|(l & i & wt & [H|[H|[]]])]; [exact H | discriminate | discriminate]. }
  split.
  - constructor; simpl; auto.
    + intros k e He. apply lookup_delete_Some in He as [_ He]. eauto.
    + intros e0 He0. apply lookup_delete_Some in He0 as [_ He0].
      destruct (W5 e0 He0) as (P1 & P2 & P3 & P4). repeat split; auto.
      intros (k & e & Hk & He & Hs). simpl in He.
      apply lookup_delete_Some in He as [_ He]. apply P2. exists k, e. auto.
  - intros e0 He0. exists e0. simpl. rewrite lookup_delete_ne by exact Hid. auto.
Qed.

End SentinelGpu.

Lemma sentinel_wf_grow (w w' : World) :
  image_event_map_ w' = image_event_map_ w ->
  next_event_id w <= next_event_id w' ->
  (forall id, attached w' id -> attached w id) ->
  (forall id, frame_id w' id ->
              frame_id w id \/ next_event_id w <= id < next_event_id w') ->
  sentinel_wf w -> sentinel_wf w'.
Proof.
  intros M N A F [W1 W2 W3 W4 W5]. constructor; rewrite ?M.
  - lia.
  - intros k e He. specialize (W2 _ _ He). lia.
  - intros id Hid. destruct (F id Hid) as [H|H]; [specialize (W3 _ H)|]; lia.
  - intros id Hid. specialize (W4 _ (A _ Hid)). lia.
  - intros e0 He0. destruct (W5 e0 He0) as (P1 & P2 & P3 & P4).
    split; [exact P1|]. split; [|split].
    + intros (k & e & Hk & He & Hs). rewrite M in He. apply P2. exists k, e. auto.
    + intros Hf. destruct (F _ Hf) as [H|H]; [auto|]. specialize (W2 _ _ He0). lia.
    + auto.
Qed.

Section SentinelDisplay.

Variable env : Env.

Lemma ImportEvent_eq (w : World) :
  ImportEvent env w =
    Some (next_event_id w,
          set_trace (fun t => t ++ [DcImportEvent (next_event_id w)])
            (set_next_event_id N.succ w)).
Proof. reflexivity. Qed.

Lemma NewFrameEventData_eq (w : World) :
  NewFrameEventData env w =
    Some ({| fe_wait_event := Event false;
             fe_signal_event := Event true;
             fe_wait_id := next_event_id w;
             fe_signal_id := N.succ (next_event_id w) |},
          set_trace (fun t => t ++ [DcImportEvent (next_event_id w);
                                    DcImportEvent (N.succ (next_event_id w))])
            (set_next_event_id (fun n => N.succ (N.succ n)) w)).
Proof.
  unfold NewFrameEventData. unfold bind at 1. rewrite ImportEvent_eq.
  unfold bind at 1. rewrite ImportEvent_eq. unfold ret. simpl.
  do 2 f_equal. apply World_eq; try reflexivity. simpl. now rewrite <- app_assoc.
Qed.

(** Rewriting a display's entry without touching its frame events. *)
Lemma update_engine_data_sentinel {A} (id : N)
    (f : DisplayEngineData -> DisplayEngineData) (k : M A) :
  (forall d, frame_event_datas (f d) = frame_event_datas d) ->
  run_rel sentinel_step k ->
  run_rel sentinel_step (d <- engine_data_index id ;; set_engine_data id (f d) ;;; k).
Proof.
  intros Hf Hk w a w' H.
  apply bind_Some in H as (d & w1 & Hd & H).
  apply bind_Some in H as (u & w2 & Hs & H).
  eapply sentinel_step_trans; [|eapply Hk, H].
  unfold set_engine_data, modify in Hs. injection Hs as _ <-.
  intros Hwf. split; [|intros e0 He0; exists e0;
                        unfold engine_data_index, set_engine_data, bind, get, modify, ret in Hd;
                        destruct (display_engine_data_map_ w !! id);
                        injection Hd as _ <-; auto].
  unfold engine_data_index, set_engine_data, bind, get, modify, ret in Hd.
  destruct (display_engine_data_map_ w !! id) as [d0|] eqn:Hd0; injection Hd as <- <-.
  - apply (sentinel_wf_mono w); auto.
    intros x (d' & ded & fe & Hl & Hin & Hx). simpl in Hl.
    rewrite lookup_insert in Hl. destruct (decide (id = d')) as [<-|Hne].
    + injection Hl as <-. rewrite Hf in Hin. exists id, d0, fe. auto.
    + exists d', ded, fe. auto.
  - apply (sentinel_wf_mono w); auto.
    intros x (d' & ded & fe & Hl & Hin & Hx). simpl in Hl.
    rewrite lookup_insert in Hl. destruct (decide (id = d')) as [<-|Hne].
    + injection Hl as <-. rewrite Hf in Hin. destruct Hin.
    + rewrite lookup_insert_ne in Hl by exact Hne. exists d', ded, fe. auto.
Qed.

Lemma engine_data_index_sentinel (id : N) : run_rel sentinel_step (engine_data_index id).
Proof.
  intros w d w' H Hwf.
  unfold engine_data_index, set_engine_data, bind, get, modify, ret in H.
  destruct (display_engine_data_map_ w !! id) as [d0|] eqn:Hd0; injection H as _ <-.
  - split; [exact Hwf | intros e0 He0; eauto].
  - split; [|intros e0 He0; eauto].
    apply (sentinel_wf_mono w); auto.
    intros x (d' & ded & fe & Hl & Hin & Hx). simpl in Hl.
    rewrite lookup_insert in Hl. destruct (decide (id = d')) as [<-|Hne].
    + injection Hl as <-. destruct Hin.
    + exists d', ded, fe. auto.
Qed.

Lemma push_layer_sentinel (id : N) : run_rel sentinel_step (push_layer env id).
Proof.
  unfold push_layer.
  apply (run_rel_bind _ sentinel_step_trans).
  - apply (run_rel_weaken inert sentinel_step);
      [apply inert_sentinel_step | apply CreateDisplayLayer_inert].
  - intros layer w a w' H.
    apply (update_engine_data_sentinel id
             (fun d => {| layers := layers d ++ [layer];
                          render_targets := render_targets d;
                          protected_render_targets := protected_render_targets d;
                          frame_event_datas := frame_event_datas d;
                          vmo_count := vmo_count d;
                          curr_vmo := curr_vmo d |}) (ret tt)
             ltac:(reflexivity) (run_rel_ret _ sentinel_step_refl tt) w tt w').
    unfold bind in *. destruct (engine_data_index id w) as [[d w1]|]; [|discriminate].
    unfold set_engine_data, modify, ret in *. destruct a. exact H.
Qed.

Lemma push_frame_event_datas_sentinel (id : N) :
  forall n, run_rel sentinel_step (push_frame_event_datas env id n).
Proof.
  induction n as [|n IH]; simpl; [apply (run_rel_ret _ sentinel_step_refl)|].
  intros w a w' H.
  apply bind_Some in H as (e & w1 & He & H). rewrite NewFrameEventData_eq in He.
  injection He as <- <-.
  apply bind_Some in H as (d & w2 & Hd & H).
  apply bind_Some in H as (u & w3 & Hs & H).
  eapply sentinel_step_trans; [|eapply IH, H].
  unfold set_engine_data, modify in Hs. injection Hs as _ <-.
  unfold engine_data_index, set_engine_data, bind, get, modify, ret in Hd.
  intros Hwf. split.
  2:{ intros e0 He0. exists e0. simpl in Hd.
      destruct (display_engine_data_map_ w !! id); injection Hd as _ <-; auto. }
  assert (Hatt : forall w0 x,
             trace w0 = trace w ++ [DcImportEvent (next_event_id w);
                                    DcImportEvent (N.succ (next_event_id w))] ->
             attached w0 x -> attached w x).
  { intros w0 x Ht Hx. eapply attached_app in Hx; [|exact Ht].
    destruct Hx as [Hx|(l & i & wt & [Hx|[Hx|[]]])]; [exact Hx | discriminate | discriminate]. }
  simpl in Hd.
  destruct (display_engine_data_map_ w !! id) as [d0|] eqn:Hd0; injection Hd as <- <-.
  - apply (sentinel_wf_grow w); simpl; auto; [lia | intros x; now apply Hatt |].
    intros x (d' & ded & fe & Hl & Hin & Hx). simpl in Hl.
    rewrite lookup_insert in Hl. destruct (decide (id = d')) as [<-|Hne].
    + injection Hl as <-. simpl in Hin. apply in_app_or in Hin as [Hin|[<-|[]]].
      * left. exists id, d0, fe. auto.
      * right. simpl in Hx. lia.
    + left. exists d', ded, fe. auto.
  - apply (sentinel_wf_grow w); simpl; auto; [lia | intros x; now apply Hatt |].
    intros x (d' & ded & fe & Hl & Hin & Hx). simpl in Hl.
    rewrite lookup_insert in Hl. destruct (decide (id = d')) as [<-|Hne].
    + injection Hl as <-. simpl in Hin. destruct Hin as [<-|[]].
      right. simpl in Hx. lia.
    + rewrite lookup_insert_ne in Hl by exact Hne. left. exists d', ded, fe. auto.
Qed.

Lemma AddDisplay_sentinel (id : N) (info : DisplayInfo) (n : N) :
  run_rel sentinel_step (AddDisplay env id info n).
Proof.
  unfold AddDisplay. destruct (dimensions info) as [width height].
  apply (run_rel_bind _ sentinel_step_trans).
  { apply run_rel_modify. intros w. apply inert_sentinel_step.
    repeat split; auto. exists []. simpl. now rewrite app_nil_r. }
  intros _. apply (run_rel_bind _ sentinel_step_trans); [apply engine_data_index_sentinel|].
  intros _. apply (run_rel_bind _ sentinel_step_trans); [apply push_layer_sentinel|].
  intros _. apply (run_rel_bind _ sentinel_step_trans); [apply push_layer_sentinel|].
  intros _. apply (run_rel_bind _ sentinel_step_trans).
  { apply (run_rel_weaken inert sentinel_step); [apply inert_sentinel_step|].
    unfold call_. inert_auto. }
  intros _. destruct (n =? 0); [apply (run_rel_ret _ sentinel_step_refl)|].
  apply (run_rel_bind _ sentinel_step_trans).
  { apply (run_rel_weaken inert sentinel_step);
      [apply inert_sentinel_step | apply AllocateDisplayRenderTargets_inert]. }
  intros targets.
  apply (update_engine_data_sentinel id
           (fun d => {| layers := layers d;
                        render_targets := targets;
                        protected_render_targets := protected_render_targets d;
                        frame_event_datas := frame_event_datas d;
                        vmo_count := vmo_count d;
                        curr_vmo := curr_vmo d |})); [reflexivity|].
  apply (run_rel_bind _ sentinel_step_trans); [apply push_frame_event_datas_sentinel|].
  intros _.
  apply (update_engine_data_sentinel id
           (fun d => {| layers := layers d;
                        render_targets := render_targets d;
                        protected_render_targets := protected_render_targets d;
                        frame_event_datas := frame_event_datas d;
                        vmo_count := n;
                        curr_vmo := 0 |})); [reflexivity|].
  destruct (SupportsRenderInProtected env); [|apply (run_rel_ret _ sentinel_step_refl)].
  apply (run_rel_bind _ sentinel_step_trans).
  { apply (run_rel_weaken inert sentinel_step);
      [apply inert_sentinel_step | apply AllocateDisplayRenderTargets_inert]. }
  intros ptargets w a w' H.
  apply (update_engine_data_sentinel id
           (fun d => {| layers := layers d;
                        render_targets := render_targets d;
                        protected_render_targets := ptargets;
                        frame_event_datas := frame_event_datas d;
                        vmo_count := vmo_count d;
                        curr_vmo := curr_vmo d |}) (ret tt)
           ltac:(reflexivity) (run_rel_ret _ sentinel_step_refl tt) w tt w').
  unfold bind in *. destruct (engine_data_index id w) as [[d w1]|]; [|discriminate].
  unfold set_engine_data, modify, ret in *. destruct a. exact H.
Qed.

Lemma dc_signal_sentinel (id : N) (w : World) :
  attached w id -> sentinel_step w (dc_signal id w).
Proof.
  intros Hatt Hwf. split.
  - apply (sentinel_wf_mono w); auto.
    + intros k. simpl. rewrite lookup_fmap.
      destruct (image_event_map_ w !! k) as [e|]; [|reflexivity]. simpl.
      unfold signal_image_event. now destruct (signal_id e =? id).
    + intros x (d & ded' & fe' & Hl & Hin & Hx). simpl in Hl.
      rewrite lookup_fmap in Hl.
      destruct (display_engine_data_map_ w !! d) as [ded|] eqn:Hd; [|discriminate].
      injection Hl as <-. simpl in Hin. apply in_map_iff in Hin as (fe & <- & Hin).
      exists d, ded, fe. auto.
  - intros e0 He0. simpl. rewrite lookup_fmap, He0. simpl.
    destruct (wf_private _ Hwf e0 He0) as (_ & _ & _ & P4).
    unfold signal_image_event. destruct (signal_id e0 =? id) eqn:E.
    + apply N.eqb_eq in E. subst id. contradiction.
    + eauto.
Qed.

Lemma renderer_signal_sentinel (id : N) (w : World) :
  sentinel_step w (renderer_signal id w).
Proof.
  intros Hwf. split; [|intros e0 He0; eauto].
  apply (sentinel_wf_mono w); auto.
  intros x (d & ded' & fe' & Hl & Hin & Hx). simpl in Hl.
  rewrite lookup_fmap in Hl.
  destruct (display_engine_data_map_ w !! d) as [ded|] eqn:Hd; [|discriminate].
  injection Hl as <-. simpl in Hin. apply in_map_iff in Hin as (fe & <- & Hin).
  exists d, ded, fe. auto.
Qed.

(** [ReleaseBufferImage] keeps the ids well formed, whatever id it is
    given; called with the sentinel id it erases the sentinel's event. *)
Lemma ReleaseBufferImage_wf (id : N) (w : World) (u : unit) (w' : World) :
  ReleaseBufferImage env id w = Some (u, w') -> sentinel_wf w -> sentinel_wf w'.
Proof.
  unfold ReleaseBufferImage, call_, call, modify, bind, ret.
  intros [= _ <-] [W1 W2 W3 W4 W5].
  assert (Hatt : forall x,
             attached (set_image_event_map_ (delete id)
                         (set_trace (fun t => t ++ [RendererReleaseBufferImage id])
                            (set_trace (fun t => t ++ [DcReleaseImage id]) w))) x ->
             attached w x).
  { intros x Hx. eapply attached_app in Hx; [|simpl; rewrite <- app_assoc; reflexivity].
    destruct Hx as [H|(l & i & wt & [H|[H|[]]])]; [exact H | discriminate | discriminate]. }
  constructor; simpl; auto.
  - intros k e He. apply lookup_delete_Some in He as [_ He]. eauto.
  - intros e0 He0. apply lookup_delete_Some in He0 as [_ He0].
    destruct (W5 e0 He0) as (P1 & P2 & P3 & P4). repeat split; auto.
    intros (k & e & Hk & He & Hs). simpl in He.
    apply lookup_delete_Some in He as [_ He]. apply P2. exists k, e. auto.
Qed.

(** Every step but a release of the sentinel id keeps the sentinel's
    event. *)
Lemma api_step_cases (a : Action) (w w' : World) :
  api_step env a w w' ->
  sentinel_step w w'
  \/ (a = act_ReleaseBufferImage kInvalidImageId /\ (sentinel_wf w -> sentinel_wf w')).
Proof.
  intros [id token usage w0 b w0' H
         |id usage w0 w0' H
         |metadata usage w0 b w0' H
         |id w0 w0' H
         |id info n w0 w0' H
         |fn pt datas rf cb w0 w0' H
         |t stamp w0 w0' H
         |cc w0 w0' H
         |v w0 b w0' H
         |id w0 Hatt
         |id w0].
  - left. eapply inert_sentinel_step, ImportBufferCollection_inert, H.
  - left. eapply inert_sentinel_step, ReleaseBufferCollection_inert, H.
  - left. eapply inert_sentinel_step, ImportBufferImage_inert, H.
  - destruct (N.eq_dec id kInvalidImageId) as [-> | Hid].
    + right. split; [reflexivity|]. eapply ReleaseBufferImage_wf, H.
    + left. eapply ReleaseBufferImage_sentinel; eassumption.
  - left. eapply AddDisplay_sentinel, H.
  - left. eapply RenderFrame_sentinel, H.
  - left. eapply inert_sentinel_step, OnVsync_inert, H.
  - left. eapply inert_sentinel_step, SetColorConversionValues_inert, H.
  - left. eapply inert_sentinel_step, SetMinimumRgb_inert, H.
  - left. now apply dc_signal_sentinel.
  - left. apply renderer_signal_sentinel.
Qed.

Lemma api_steps_wf (l : list Action) (w w' : World) :
  api_steps env l w w' -> sentinel_wf w -> sentinel_wf w'.
Proof.
  induction 1 as [w0|a l w1 w2 w3 Hs _ IH]; [auto|]. intros Hwf. apply IH.
  destruct (api_step_cases _ _ _ Hs) as [Hstep | [_ Hstep]]; apply Hstep, Hwf.
Qed.

Lemma api_steps_sentinel (l : list Action) (w w' : World) :
  api_steps env l w w' ->
  ~ In (act_ReleaseBufferImage kInvalidImageId) l ->
  sentinel_step w w'.
Proof.
  induction 1 as [w0|a l w1 w2 w3 Hs _ IH]; intros Hl; [apply sentinel_step_refl|].
  eapply sentinel_step_trans.
  - destruct (api_step_cases _ _ _ Hs) as [Hstep | [-> _]]; [exact Hstep|].
    exfalso. apply Hl. now left.
  - apply IH. intros Hin. apply Hl. now right.
Qed.

End SentinelDisplay.

(** ** Planning records the images it visits *)

Lemma pending_grows_refl (w : World) : pending_grows w w.
Proof. intros id H. exact H. Qed.

Lemma pending_grows_trans (w1 w2 w3 : World) :
  pending_grows w1 w2 -> pending_grows w2 w3 -> pending_grows w1 w3.
Proof. intros H1 H2 id H. auto. Qed.

Ltac pending_grows_leaf :=
  lazymatch goal with
  | |- run_rel _ (call _ _) =>
      let Hin := fresh in apply run_rel_call; intros ? ? Hin; exact Hin
  | |- run_rel _ (call2 _ _) =>
      let Hin := fresh in apply run_rel_call2; intros ? ? Hin; exact Hin
  | |- forall w, pending_grows w _ =>
      let Hin := fresh in
      intros ? ? Hin; first [exact Hin | apply in_or_app; left; exact Hin]
  | |- _ => idtac
  end.

Ltac pending_grows_auto :=
  repeat (run_rel_step pending_grows_refl pending_grows_trans ltac:(pending_grows_leaf)).

Section Records.

Variable env : Env.

Lemma assign_layer_grows (data : RenderData) (ls : list N) (i : nat) :
  run_rel pending_grows (assign_layer env data ls i).
Proof.
  unfold assign_layer, supports_display_index, display_info_index, image_event_index,
    ApplyLayerColor, ApplyLayerImage, CreateImageConfig, call_.
  pending_grows_auto.
Qed.

Lemma SetDisplayLayers_grows (d : N) (ls : list N) :
  run_rel pending_grows (SetDisplayLayers env d ls).
Proof. unfold SetDisplayLayers, call_. pending_grows_auto. Qed.

(** The first loop of the planner, when it runs to its end, has recorded
    every image it visited. *)
Lemma check_loop_records (data : RenderData) :
  forall n i w r w',
    for_range i n (check_image_event env data) w = Some (r, w') ->
    r <> Some false ->
    pending_grows w w'
    /\ forall j img, (i <= j < i + n)%nat -> images data !! j = Some img ->
                     In (identifier img) (pending_images_in_config_ w').
Proof.
  induction n as [|n IH]; intros i w r w' H Hr; cbn [for_range] in H.
  - injection H as _ <-. split; [apply pending_grows_refl | intros; lia].
  - apply bind_Some in H as (r1 & w1 & H1 & H).
    destruct (images data !! i) as [img_i|] eqn:Hi.
    2:{ unfold check_image_event, index in H1. rewrite Hi in H1. discriminate. }
    rewrite (check_image_event_eq _ _ _ _ _ Hi) in H1.
    assert (Hstep : r1 = None /\ pending_grows w w1
                    /\ In (identifier img_i) (pending_images_in_config_ w1)).
    { destruct (image_event_map_ w !! identifier img_i) as [e|].
      - destruct (wait_one_signaled (signal_event e)).
        + injection H1 as <- <-. split; [reflexivity|]. simpl. split.
          * intros id Hid. simpl. apply in_or_app. now left.
          * apply in_or_app. right. now left.
        + injection H1 as <- <-. injection H as <- _. congruence.
      - injection H1 as <- <-. split; [reflexivity|]. simpl. split.
        + intros id Hid. simpl. apply in_or_app. now left.
        + apply in_or_app. right. now left. }
    destruct Hstep as (-> & Hg & Hrec).
    destruct (IH _ _ _ _ H Hr) as [Hg' Hrec']. split.
    + eapply pending_grows_trans; eassumption.
    + intros j img Hj Himg. destruct (decide (j = i)) as [->|Hne].
      * assert (img = img_i) as -> by congruence. auto.
      * apply (Hrec' j img); [lia | exact Himg].
Qed.

Lemma SetRenderDataOnDisplay_records (data : RenderData) (w w' : World) :
  SetRenderDataOnDisplay env data w = Some (true, w') ->
  N.of_nat (length (images data)) < 2 ^ 32 ->
  pending_grows w w'
  /\ forall img, In img (images data) ->
                 In (identifier img) (pending_images_in_config_ w').
Proof.
  intros H Hlen. unfold SetRenderDataOnDisplay in H.
  rewrite (uint32_small _ Hlen), Nat2N.id in H.
  unfold bind at 1, get in H.
  destruct (display_engine_data_map_ w !! display_id data) as [d|]; [|discriminate].
  destruct (N.of_nat (length (layers d)) <? N.of_nat (length (images data)));
    [discriminate|].
  apply bind_Some in H as (r & w1 & Hloop & H).
  assert (Hr : r <> Some false).
  { intros ->. discriminate. }
  destruct (check_loop_records data _ _ _ _ _ Hloop Hr) as [Hg Hrec].
  assert (Hrest : pending_grows w1 w').
  { destruct r as [b|]; [injection H as _ <-; apply pending_grows_refl|].
    revert H. apply (run_rel_bind _ pending_grows_trans); [apply SetDisplayLayers_grows|].
    intros _. apply (run_rel_bind _ pending_grows_trans).
    - apply (run_rel_for_range _ pending_grows_refl pending_grows_trans).
      intros i. apply assign_layer_grows.
    - intros [b|]; apply (run_rel_ret _ pending_grows_refl). }
  split; [eapply pending_grows_trans; eassumption|].
  intros img Hin. apply list_elem_of_In, list_elem_of_lookup in Hin as [j Hj].
  apply Hrest, (Hrec j img); [|exact Hj].
  apply lookup_lt_Some in Hj. lia.
Qed.

Lemma set_render_data_and_cc_records (data : RenderData) (w w' : World) :
  set_render_data_and_cc env data w = Some (None, w') ->
  N.of_nat (length (images data)) < 2 ^ 32 ->
  pending_grows w w'
  /\ forall img, In img (images data) ->
                 In (identifier img) (pending_images_in_config_ w').
Proof.
  intros H Hlen. unfold set_render_data_and_cc in H.
  apply bind_Some in H as (ok & w1 & Hset & H).
  destruct ok; simpl in H; [|discriminate].
  destruct (SetRenderDataOnDisplay_records _ _ _ Hset Hlen) as [Hg Hrec].
  assert (Hrest : pending_grows w1 w').
  { apply (run_rel_elim _ _ _ _ _ H). pending_grows_auto. }
  split; [eapply pending_grows_trans; eassumption | auto].
Qed.

Lemma set_render_data_and_cc_grows (data : RenderData) (w : World) (r : option bool)
    (w' : World) :
  set_render_data_and_cc env data w = Some (r, w') -> pending_grows w w'.
Proof.
  revert w r w'. change (run_rel pending_grows (set_render_data_and_cc env data)).
  unfold set_render_data_and_cc, SetRenderDataOnDisplay, check_image_event,
    NewImageEventData, ImportEvent, call_.
  pending_grows_auto;
    first [apply SetDisplayLayers_grows | apply assign_layer_grows].
Qed.

Lemma for_each_records (datas : list RenderData) :
  forall w w',
    for_each datas (set_render_data_and_cc env) w = Some (None, w') ->
    forall data img,
      In data datas -> N.of_nat (length (images data)) < 2 ^ 32 -> In img (images data) ->
      In (identifier img) (pending_images_in_config_ w').
Proof.
  induction datas as [|d ds IH]; intros w w' H data img Hd Hlen Himg; [destruct Hd|].
  cbn [for_each] in H. apply bind_Some in H as ([b|] & w1 & H1 & H); [discriminate|].
  destruct Hd as [->|Hd].
  - destruct (set_render_data_and_cc_records _ _ _ H1 Hlen) as [_ Hrec].
    assert (Hg : pending_grows w1 w').
    { eapply (run_rel_for_each _ pending_grows_refl pending_grows_trans), H.
      intros x w2 r2 w2'. apply set_render_data_and_cc_grows. }
    auto.
  - eapply IH; eassumption.
Qed.

(** A plan that succeeds has recorded the sentinel when a display shows a
    solid colour. *)
Lemma planning_records_sentinel (datas : list RenderData) (d : RenderData) (w w1 : World) :
  (DiscardConfig env ;;; SetRenderDatasOnDisplay env datas) w = Some (true, w1) ->
  In d datas ->
  shows_solid_color d ->
  N.of_nat (length (images d)) < 2 ^ 32 ->
  In kInvalidImageId (pending_images_in_config_ w1).
Proof.
  intros H Hd (img & Himg & Hid) Hlen.
  apply bind_Some in H as (u & w0 & _ & H).
  unfold SetRenderDatasOnDisplay in H.
  destruct (kDisableDisplayComposition env); [discriminate|].
  apply bind_Some in H as ([b|] & w2 & Hloop & H).
  - rewrite (for_each_planner_result _ _ _ _ _ Hloop) in H. discriminate.
  - injection H as <-. rewrite <- Hid.
    eapply for_each_records; eassumption.
Qed.

(** The images recorded by a plan that is committed are in use
    afterwards. *)
Lemma committed_in_use (fn : N) (pt : Z) (datas : list RenderData) (rf : list N) (cb : N)
    (w w1 w3 : World) :
  (DiscardConfig env ;;; SetRenderDatasOnDisplay env datas) w = Some (true, w1) ->
  kDisableDisplayComposition env = false ->
  env_status env (trace w1) (DcCheckConfig false) = true ->
  RenderFrame env fn pt datas rf cb w = Some (tt, w3) ->
  forall id, In id (pending_images_in_config_ w1) -> in_use w3 id.
Proof.
  intros Hplan Hk Hc Hrun id Hin.
  destruct (fallback_value env datas w true w1 Hplan) as (w2 & Hfb & Hw2).
  rewrite Hk, Hc in Hfb. simpl in Hfb.
  unfold RenderFrame in Hrun. unfold bind at 1 in Hrun. rewrite Hfb in Hrun.
  apply direct_branch_events in Hrun.
  assert (Hsame : events_same w1 w2).
  { destruct Hw2 as [->| ->]; split; reflexivity. }
  destruct Hsame as [Hm Hp]. rewrite Hm, Hp in Hrun.
  unfold in_use. rewrite Hrun. apply unsignal_all_not_signaled, Hin.
Qed.

End Records.

Lemma constructed_sentinel_wf (w : World) : constructed w -> sentinel_wf w.
Proof.
  intros (Hm & Hd & Ht & Hn). constructor.
  - exact Hn.
  - intros k e He. rewrite Hm, lookup_empty in He. discriminate.
  - intros id (d & ded & fe & Hl & _). rewrite Hd, lookup_empty in Hl. discriminate.
  - intros id (l & i & wt & Hin). rewrite Ht in Hin. destruct Hin.
  - intros e0 He0. rewrite Hm, lookup_empty in He0. discriminate.
Qed.

Lemma sentinel_step_in_use (w w' : World) :
  sentinel_wf w -> sentinel_step w w' -> in_use w kInvalidImageId ->
  sentinel_wf w' /\ in_use w' kInvalidImageId.
Proof.
  intros Hwf Hstep (e0 & He0 & Hs). destruct (Hstep Hwf) as [Hwf' Hk].
  split; [exact Hwf'|]. destruct (Hk e0 He0) as (e0' & He0' & _ & Hs').
  exists e0'. auto.
Qed.

(** * Further properties of the compositor *)

(** ** Pixel formats and the validation of images *)
(** ** Pixel formats *)

(** X1.  A sysmem pixel format that
    [BufferCollectionPixelFormatToZirconFormat] converts comes back from
    [ConvertZirconFormatToSysmemFormat] with the type it had, and is never
    converted to [ZX_PIXEL_FORMAT_NONE]. *)
Theorem pixel_format_round_trip (pixel_format : PixelFormat) (z : zx_pixel_format_t) :
  BufferCollectionPixelFormatToZirconFormat pixel_format = Some z ->
  ConvertZirconFormatToSysmemFormat z = Some (pf_type pixel_format)
  /\ z <> ZX_PIXEL_FORMAT_NONE.
Proof.
  unfold BufferCollectionPixelFormatToZirconFormat.
  destruct (pf_type pixel_format); intros [= <-]; split; try reflexivity; discriminate.
Qed.

Section Validation.
Variable env : Env.

Lemma IsValidBufferImage_false (metadata : ImageMetadata) :
  IsValidBufferImage metadata = false <->
  identifier metadata = kInvalidImageId \/ collection_id metadata = kInvalidId
  \/ width metadata = 0 \/ height metadata = 0.
Proof.
  unfold IsValidBufferImage, kInvalidImageId, kInvalidId. rewrite <- !N.eqb_eq.
  destruct (identifier metadata =? 0), (collection_id metadata =? 0),
    (width metadata =? 0), (height metadata =? 0); simpl; intuition congruence.
Qed.

(** X2.  [ImportBufferImage] returns [false] with no call made and
    nothing changed for an image whose identifier or collection id is the
    invalid one or one of whose dimensions is zero.  For a valid image that
    the renderer refuses it returns [false] after that one call: the display
    controller and sysmem are not asked, and nothing else changes. *)
Theorem ImportBufferImage_rejected (metadata : ImageMetadata) (usage : BufferCollectionUsage)
    (w : World) :
  (identifier metadata = kInvalidImageId \/ collection_id metadata = kInvalidId
   \/ width metadata = 0 \/ height metadata = 0 ->
   ImportBufferImage env metadata usage w = Some (false, w))
  /\ (IsValidBufferImage metadata = true ->
      env_status env (trace w) (RendererImportBufferImage metadata usage) = false ->
      ImportBufferImage env metadata usage w
      = Some (false, set_trace (fun t => t ++ [RendererImportBufferImage metadata usage]) w)).
Proof.
  split.
  - intros H. apply IsValidBufferImage_false in H. unfold ImportBufferImage. now rewrite H.
  - intros Hv Hr. unfold ImportBufferImage. rewrite Hv. simpl.
    unfold bind at 1, call. rewrite Hr. reflexivity.
Qed.

End Validation.


(** ** Missing entries *)
Section MissingEntries.
Variable env : Env.

Lemma ImportBufferImage_missing_pointer (metadata : ImageMetadata)
    (usage : BufferCollectionUsage) (w : World) :
  import_mode_ w <> RendererOnly ->
  IsValidBufferImage metadata = true ->
  env_status env (trace w) (RendererImportBufferImage metadata usage) = true ->
  buffer_collection_supports_display_ w !! collection_id metadata = None ->
  display_buffer_collection_ptrs_ w !! collection_id metadata = None ->
  ImportBufferImage env metadata usage w = None.
Proof.
  intros Hmode Hv Hr Hs Hp. unfold ImportBufferImage. rewrite Hv. cbn [negb].
  unfold bind at 1, call. rewrite Hr. cbn [negb].
  unfold bind at 1, get. cbn [import_mode_ buffer_collection_supports_display_ set_trace].
  rewrite Hs.
  replace (match import_mode_ w with RendererOnly => true | _ => false end) with false
    by (destruct (import_mode_ w); congruence).
  simpl. unfold bind at 1. unfold bind at 1.
  unfold TakeDisplayBufferCollectionPtr. unfold bind at 1, get.
  cbn [display_buffer_collection_ptrs_ set_trace].
  rewrite Hp. reflexivity.
Qed.

(** X3.  In a display mode (any but [RendererOnly]), after
    [ReleaseBufferCollection] of a collection, [ImportBufferImage] of a valid
    image of that collection does not return once the renderer has accepted
    the image: the collection has no display-support flag and no observation
    pointer left, and [TakeDisplayBufferCollectionPtr] dereferences the end
    iterator. *)
Theorem import_after_release_crashes (metadata : ImageMetadata)
    (usage usage' : BufferCollectionUsage) (w w1 : World) :
  import_mode_ w <> RendererOnly ->
  IsValidBufferImage metadata = true ->
  ReleaseBufferCollection env (collection_id metadata) usage' w = Some (tt, w1) ->
  env_status env (trace w1) (RendererImportBufferImage metadata usage) = true ->
  ImportBufferImage env metadata usage w1 = None.
Proof.
  intros Hmode Hv Hrel Hr. rewrite ReleaseBufferCollection_eq in Hrel.
  injection Hrel as Hw1.
  apply ImportBufferImage_missing_pointer; auto; subst w1; simpl; auto;
    apply lookup_delete_eq.
Qed.

Lemma DiscardConfig_eq (w : World) :
  DiscardConfig env w =
    Some (tt, set_trace (fun t => t ++ [DcCheckConfig true])
                (set_pending_images_in_config_ (fun _ => []) w)).
Proof. reflexivity. Qed.

(** X4.  [RenderFrame] does not return when the first display of
    the frame was never added: with direct composition enabled
    [SetRenderDataOnDisplay] reads [display_engine_data_map_.at(id)], with it
    disabled [PerformGpuComposition] dereferences the end iterator. *)
Theorem RenderFrame_unregistered_display (fn : N) (pt : Z) (data : RenderData)
    (rest : list RenderData) (rf : list N) (cb : N) (w : World) :
  display_engine_data_map_ w !! display_id data = None ->
  RenderFrame env fn pt (data :: rest) rf cb w = None.
Proof.
  intros Hd. unfold RenderFrame, fallback_to_gpu_composition.
  unfold bind at 1. unfold bind at 1. rewrite DiscardConfig_eq.
  unfold SetRenderDatasOnDisplay.
  destruct (kDisableDisplayComposition env) eqn:Hk.
  - unfold bind at 1, ret at 1. cbn [negb]. unfold ret at 1.
    unfold gpu_branch. unfold bind at 1. rewrite DiscardConfig_eq.
    unfold bind at 1. unfold PerformGpuComposition. unfold bind at 1.
    cbn [length for_range]. unfold bind at 1. unfold compose_display at 1.
    unfold bind at 1, index. cbn [lookup list_lookup]. unfold ret at 1.
    unfold bind at 1, get.
    cbn [display_engine_data_map_ set_trace set_pending_images_in_config_].
    rewrite Hd. reflexivity.
  - unfold bind at 1. unfold bind at 1. cbn [for_each]. unfold bind at 1.
    unfold set_render_data_and_cc at 1. unfold bind at 1.
    unfold SetRenderDataOnDisplay at 1. unfold bind at 1, get.
    cbn [display_engine_data_map_ set_trace set_pending_images_in_config_].
    rewrite Hd. reflexivity.
Qed.

End MissingEntries.


(** ** Frames without displays, and repeated vsyncs *)
Section EdgeFrames.
Variable env : Env.

(** X5.  [RenderFrame] with an empty list of displays always
    returns and always applies a configuration: the queue of applied
    configurations grows by one entry carrying the frame number, the frame is
    handed to the release-fence manager (as a direct-scanout or as a
    GPU-composited frame), no image event is touched and no image is left
    recorded. *)
Theorem RenderFrame_no_displays (fn : N) (pt : Z) (rf : list N) (cb : N) (w : World) :
  exists w' stamp,
    RenderFrame env fn pt [] rf cb w = Some (tt, w')
    /\ pending_apply_configs_ w'
       = pending_apply_configs_ w ++ [{| config_stamp := stamp; frame_number := fn |}]
    /\ image_event_map_ w' = image_event_map_ w
    /\ pending_images_in_config_ w' = []
    /\ In DcApplyConfig (new_calls w w')
    /\ (In (RfmOnDirectScanoutFrame fn rf cb) (new_calls w w')
        \/ In (RfmOnGpuCompositedFrame fn rf cb) (new_calls w w')).
Proof.
  unfold RenderFrame, fallback_to_gpu_composition, SetRenderDatasOnDisplay, gpu_branch,
    direct_branch, PerformGpuComposition, apply_and_enqueue, ApplyConfig, CheckConfig,
    DiscardConfig, call_, call, bind, ret, get, modify, new_calls.
  simpl.
  destruct (kDisableDisplayComposition env); simpl.
  - eexists. eexists. split; [reflexivity|]. simpl. rewrite <- !app_assoc.
    rewrite drop_app_length. simpl. auto 10.
  - destruct (env_status env _ (DcCheckConfig false)); simpl.
    + eexists. eexists. split; [reflexivity|]. simpl. rewrite <- !app_assoc.
      rewrite drop_app_length. simpl. auto 10.
    + eexists. eexists. split; [reflexivity|]. simpl. rewrite <- !app_assoc.
      rewrite drop_app_length. simpl. auto 10.
Qed.

Lemma OnVsync_eq (timestamp : Z) (stamp : N) (w : World) :
  OnVsync env timestamp stamp w =
    Some (tt,
          if match last_presented_config_stamp_ w with
             | Some s => stamp =? s
             | None => false
             end
          then w
          else match list_find (fun info => config_stamp info = stamp)
                       (pending_apply_configs_ w) with
               | None => w
               | Some (k, _) =>
                   set_last_presented_config_stamp_ (Some stamp)
                     (set_pending_apply_configs_
                        (fun _ => drop (S k) (pending_apply_configs_ w))
                        (set_trace
                           (fun t => t ++ vsync_calls timestamp
                                            (take (S k) (pending_apply_configs_ w)))
                           w))
               end).
Proof.
  unfold OnVsync. unfold bind at 1, get.
  destruct (match last_presented_config_stamp_ w with
            | Some s => stamp =? s | None => false end); [reflexivity|].
  destruct (list_find _ _) as [[k it]|] eqn:Hfind; [|reflexivity].
  apply list_find_Some in Hfind as (Hk & _ & _). apply lookup_lt_Some in Hk.
  unfold bind at 1.
  replace (S k) with (length (take (S k) (pending_apply_configs_ w))) at 1
    by (rewrite length_take; lia).
  rewrite (retire_app env timestamp _ (drop (S k) (pending_apply_configs_ w)))
    by (now rewrite take_drop).
  reflexivity.
Qed.

(** X6.  [OnVsync] always returns and leaves a suffix of the queue
    of applied configurations; a second vsync with the same stamp, at any
    timestamp, changes nothing. *)
Theorem OnVsync_idempotent (timestamp timestamp' : Z) (stamp : N) (w : World) :
  exists w1 k,
    OnVsync env timestamp stamp w = Some (tt, w1)
    /\ pending_apply_configs_ w1 = drop k (pending_apply_configs_ w)
    /\ OnVsync env timestamp' stamp w1 = Some (tt, w1).
Proof.
  rewrite OnVsync_eq.
  destruct (match last_presented_config_stamp_ w with
            | Some s => stamp =? s | None => false end) eqn:Hlast.
  - exists w, 0%nat. split; [reflexivity|]. split; [reflexivity|].
    rewrite OnVsync_eq. now rewrite Hlast.
  - destruct (list_find _ (pending_apply_configs_ w)) as [[k it]|] eqn:Hfind.
    + eexists. exists (S k). split; [reflexivity|]. split; [reflexivity|].
      rewrite OnVsync_eq. simpl. now rewrite N.eqb_refl.
    + exists w, 0%nat. split; [reflexivity|]. split; [reflexivity|].
      rewrite OnVsync_eq. now rewrite Hlast, Hfind.
Qed.

End EdgeFrames.


(** ** The frames handed to the release-fence manager *)
Lemma returns_ret {A} (P : A -> Prop) (a : A) : P a -> returns P (ret a).
Proof. intros H w a' w' [= <- _]. exact H. Qed.

Lemma returns_crash {A} (P : A -> Prop) : returns P (@crash A).
Proof. intros w a w' H. discriminate. Qed.

Lemma returns_bind {A B} (P : B -> Prop) (m : M A) (k : A -> M B) :
  (forall a, returns P (k a)) -> returns P (bind m k).
Proof.
  intros H w b w' Hb. apply bind_Some in Hb as (a & w1 & _ & Hk). eapply H, Hk.
Qed.

Lemma returns_for_range {T} (P : option T -> Prop) (body : nat -> M (option T)) :
  P None -> (forall i, returns P (body i)) ->
  forall n i, returns P (for_range i n body).
Proof.
  intros HN Hb. induction n as [|n IH]; intros i; simpl.
  - now apply returns_ret.
  - intros w a w' H. apply bind_Some in H as (r & w1 & Hr & H). destruct r as [v|].
    + injection H as <- _. eapply Hb, Hr.
    + eapply IH, H.
Qed.

Ltac returns_step :=
  lazymatch goal with
  | |- returns _ (bind _ _) => apply returns_bind; intros ?
  | |- returns _ (ret _) => apply returns_ret
  | |- returns _ crash => apply returns_crash
  | |- returns _ (if ?b then _ else _) => destruct b
  | |- returns _ (match ?x with _ => _ end) => destruct x
  | |- returns _ (let '(_, _) := ?p in _) => destruct p
  end.

Create HintDb compositor.
#[global] Hint Unfold ImportBufferCollection DuplicateToken ConvertToAttachToken
  CreateBufferCollectionPtrWithEmptyConstraints new_handle call_ ReleaseBufferCollection
  TakeDisplayBufferCollectionPtr CreateImageConfig supports_display_index ImportBufferImage
  DetermineDisplaySupportFor CheckBuffersAllocated GetPixelFormat ReleaseBufferImage
  CreateDisplayLayer SetDisplayLayers ImportEvent NewFrameEventData NewImageEventData
  ApplyLayerColor ApplyLayerImage image_event_index display_info_index check_image_event
  assign_layer SetRenderDataOnDisplay CheckConfig DiscardConfig ApplyConfig set_engine_data
  compose_display set_render_data_and_cc SetRenderDatasOnDisplay unsignal_image_event
  apply_and_enqueue fallback_to_gpu_composition SetColorConversionValues SetMinimumRgb
  AllocateDisplayRenderTargets engine_data_index push_layer AddDisplay : compositor.

Lemma same_ledger_refl (w : World) : same_ledger w w.
Proof. repeat split. Qed.

Lemma same_ledger_trans (w1 w2 w3 : World) :
  same_ledger w1 w2 -> same_ledger w2 w3 -> same_ledger w1 w3.
Proof. intros (A1 & B1 & C1) (A2 & B2 & C2). repeat split; congruence. Qed.

Lemma same_ledger_call (c : Call) (w : World) :
  handed_off [c] = [] -> retired [c] = [] ->
  same_ledger w (set_trace (fun t => t ++ [c]) w).
Proof.
  intros H R. unfold same_ledger, handed_off, retired in *. simpl trace.
  rewrite !omap_app, H, R, !app_nil_r. auto.
Qed.

Lemma same_ledger_balanced (w w' : World) :
  same_ledger w w' -> books_balanced w -> books_balanced w'.
Proof. intros (A & B & C) H. unfold books_balanced in *. now rewrite A, B, C. Qed.

Ltac same_ledger_leaf :=
  lazymatch goal with
  | |- run_rel _ (call _ _) =>
      apply run_rel_call; intros ?; apply same_ledger_call; reflexivity
  | |- run_rel _ (call2 _ _) =>
      apply run_rel_call2; intros ?; apply same_ledger_call; reflexivity
  | |- forall w, same_ledger w _ => intros ?; repeat split
  | |- _ => idtac
  end.

Ltac same_ledger_auto :=
  repeat (run_rel_step same_ledger_refl same_ledger_trans ltac:(same_ledger_leaf)).

Section Ledger.

Variable env : Env.

Lemma ImportBufferCollection_ledger (id token : N) (usage : BufferCollectionUsage) :
  run_rel same_ledger (ImportBufferCollection env id token usage).
Proof. autounfold with compositor. same_ledger_auto. Qed.

Lemma ReleaseBufferCollection_ledger (id : N) (usage : BufferCollectionUsage) :
  run_rel same_ledger (ReleaseBufferCollection env id usage).
Proof. autounfold with compositor. same_ledger_auto. Qed.

Lemma ImportBufferImage_ledger (metadata : ImageMetadata) (usage : BufferCollectionUsage) :
  run_rel same_ledger (ImportBufferImage env metadata usage).
Proof. autounfold with compositor. same_ledger_auto. Qed.

Lemma ReleaseBufferImage_ledger (id : N) : run_rel same_ledger (ReleaseBufferImage env id).
Proof. autounfold with compositor. same_ledger_auto. Qed.

Lemma SetColorConversionValues_ledger (cc : ColorConversionData) :
  run_rel same_ledger (SetColorConversionValues env cc).
Proof. autounfold with compositor. same_ledger_auto. Qed.

Lemma SetMinimumRgb_ledger (v : N) : run_rel same_ledger (SetMinimumRgb env v).
Proof. autounfold with compositor. same_ledger_auto. Qed.

Lemma import_render_targets_ledger (c width height : N) :
  forall n i, run_rel same_ledger (import_render_targets env c width height i n).
Proof.
  induction n as [|n IH]; intros i; simpl; [apply (run_rel_ret _ same_ledger_refl)|].
  unfold call_, new_handle. same_ledger_auto; [apply ImportBufferImage_ledger | apply IH].
Qed.

Lemma push_frame_event_datas_ledger (id : N) :
  forall n, run_rel same_ledger (push_frame_event_datas env id n).
Proof.
  induction n as [|n IH]; simpl; [apply (run_rel_ret _ same_ledger_refl)|].
  autounfold with compositor. same_ledger_auto. apply IH.
Qed.

Lemma AddDisplay_ledger (id : N) (info : DisplayInfo) (n : N) :
  run_rel same_ledger (AddDisplay env id info n).
Proof.
  autounfold with compositor. same_ledger_auto;
    first [apply import_render_targets_ledger | apply push_frame_event_datas_ledger].
Qed.

Lemma fallback_to_gpu_composition_ledger (datas : list RenderData) :
  run_rel same_ledger (fallback_to_gpu_composition env datas).
Proof. autounfold with compositor. same_ledger_auto. Qed.

Lemma compose_display_ledger (datas : list RenderData) (i : nat) :
  run_rel same_ledger (compose_display env datas i).
Proof. autounfold with compositor. same_ledger_auto. Qed.

Lemma compose_display_returns (datas : list RenderData) (i : nat) :
  returns (fun r => r <> Some true) (compose_display env datas i).
Proof.
  unfold compose_display. repeat returns_step; discriminate.
Qed.

Lemma handed_off_app (t cs : list Call) : handed_off (t ++ cs) = handed_off t ++ handed_off cs.
Proof. apply omap_app. Qed.

Lemma retired_app (t cs : list Call) : retired (t ++ cs) = retired t ++ retired cs.
Proof. apply omap_app. Qed.

(** Handing a frame off and queueing its configuration, the tail of both
    branches of [RenderFrame]. *)
Lemma handoff_and_enqueue_balanced (c : Call) (fn : N) (w : World) (u : unit) (w' : World) :
  handed_off [c] = [fn] -> retired [c] = [] ->
  (call_ env c ;;; apply_and_enqueue env fn) w = Some (u, w') ->
  books_balanced w -> books_balanced w'.
Proof.
  intros Hc Hr H Hb.
  unfold apply_and_enqueue, ApplyConfig, call_, call, bind, ret, get, modify in H.
  injection H as _ <-. unfold books_balanced in *. simpl.
  rewrite !handed_off_app, !retired_app, Hc, Hr, map_app, Hb. simpl.
  rewrite !app_nil_r. now rewrite <- app_assoc.
Qed.

Lemma RenderFrame_balanced (fn : N) (pt : Z) (datas : list RenderData) (rf : list N) (cb : N)
    (w w' : World) (u : unit) :
  RenderFrame env fn pt datas rf cb w = Some (u, w') ->
  books_balanced w -> books_balanced w'.
Proof.
  unfold RenderFrame. intros H Hb.
  apply bind_Some in H as (fb & w1 & Hfb & H).
  apply fallback_to_gpu_composition_ledger in Hfb.
  pose proof (same_ledger_balanced _ _ Hfb Hb) as Hb1. clear Hfb Hb.
  destruct fb.
  - unfold gpu_branch in H. apply bind_Some in H as (u1 & w2 & Hd & H).
    assert (Hb2 : books_balanced w2).
    { eapply same_ledger_balanced; [|exact Hb1].
      apply (run_rel_elim _ _ _ _ _ Hd). autounfold with compositor. same_ledger_auto. }
    unfold PerformGpuComposition in H.
    apply bind_Some in H as (ok & w3 & Hp & H).
    apply bind_Some in Hp as (r & w4 & Hloop & Hp).
    assert (Hb4 : books_balanced w4).
    { eapply same_ledger_balanced; [|exact Hb2].
      eapply (run_rel_for_range _ same_ledger_refl same_ledger_trans), Hloop.
      intros i. apply compose_display_ledger. }
    destruct r as [b|].
    + injection Hp as <- <-. destruct b; simpl in H.
      * exfalso.
        apply (returns_for_range (fun r => r <> Some true) _ ltac:(discriminate)
                 (compose_display_returns datas) _ _ _ _ _ Hloop).
        reflexivity.
      * injection H as _ <-. exact Hb4.
    + apply (handoff_and_enqueue_balanced (RfmOnGpuCompositedFrame fn rf cb) fn w4 u w');
        [reflexivity | reflexivity | | exact Hb4].
      unfold bind in *. unfold call_, call, bind, ret in *.
      injection Hp as <- <-. simpl in H. exact H.
  - unfold direct_branch in H.
    apply bind_Some in H as (u1 & w2 & Hm & H). injection Hm as _ <-.
    apply bind_Some in H as (w3 & w4 & Hg & H). injection Hg as <- <-.
    apply bind_Some in H as (r & w5 & Hloop & H).
    assert (Hb5 : books_balanced w5).
    { eapply same_ledger_balanced.
      - eapply (run_rel_for_each _ same_ledger_refl same_ledger_trans), Hloop.
        intros id. autounfold with compositor. same_ledger_auto.
      - exact Hb1. }
    apply (handoff_and_enqueue_balanced (RfmOnDirectScanoutFrame fn rf cb) fn w5 u w');
      [reflexivity | reflexivity | exact H | exact Hb5].
Qed.

Lemma retired_vsync_calls (t : Z) (l : list ApplyConfigInfo) :
  retired (vsync_calls t l) = map frame_number l /\ handed_off (vsync_calls t l) = [].
Proof. induction l as [|x l [IH1 IH2]]; simpl; [auto|]. now rewrite IH1, IH2. Qed.

Lemma OnVsync_balanced (t : Z) (stamp : N) (w w' : World) (u : unit) :
  OnVsync env t stamp w = Some (u, w') -> books_balanced w -> books_balanced w'.
Proof.
  rewrite OnVsync_eq. intros [= _ <-] Hb.
  destruct (match last_presented_config_stamp_ w with
            | Some s => stamp =? s | None => false end); [exact Hb|].
  destruct (list_find _ _) as [[k it]|]; [|exact Hb].
  unfold books_balanced in *. simpl.
  rewrite handed_off_app, retired_app.
  destruct (retired_vsync_calls t (take (S k) (pending_apply_configs_ w))) as [-> ->].
  rewrite app_nil_r, Hb, <- app_assoc, <- map_app, take_drop. reflexivity.
Qed.

Lemma method_step_balanced (w w' : World) :
  method_step env w w' -> books_balanced w -> books_balanced w'.
Proof.
  intros [id token usage w0 b w0' H
         |id usage w0 w0' H
         |metadata usage w0 b w0' H
         |id w0 w0' H
         |id info n w0 w0' Hfresh H
         |fn pt datas rf cb w0 w0' H
         |t stamp w0 w0' H
         |cc w0 w0' H
         |v w0 b w0' H
         |id w0
         |id w0].
  - eapply same_ledger_balanced, ImportBufferCollection_ledger, H.
  - eapply same_ledger_balanced, ReleaseBufferCollection_ledger, H.
  - eapply same_ledger_balanced, ImportBufferImage_ledger, H.
  - eapply same_ledger_balanced, ReleaseBufferImage_ledger, H.
  - eapply same_ledger_balanced, AddDisplay_ledger, H.
  - eapply RenderFrame_balanced, H.
  - eapply OnVsync_balanced, H.
  - eapply same_ledger_balanced, SetColorConversionValues_ledger, H.
  - eapply same_ledger_balanced, SetMinimumRgb_ledger, H.
  - intros Hb. exact Hb.
  - intros Hb. exact Hb.
Qed.

(** X7.  In every state reached from a compositor that has made no
    call and applied nothing, by calls of its methods and signals on its
    events, the frames handed to the release-fence manager are, in order, the
    frames already retired by [OnVsync] followed by the frames waiting in
    [pending_apply_configs_].  So a frame is retired at most once, frames
    are retired in the order they were submitted, and a frame is queued
    exactly when it was handed off and not yet retired. *)
Theorem frames_retired_in_order (w0 w : World) :
  trace w0 = [] -> pending_apply_configs_ w0 = [] ->
  method_steps env w0 w ->
  handed_off (trace w)
  = retired (trace w) ++ map frame_number (pending_apply_configs_ w).
Proof.
  intros Ht Hp Hsteps.
  assert (Hb : books_balanced w0) by (unfold books_balanced; now rewrite Ht, Hp).
  clear Ht Hp. induction Hsteps as [w1|w1 w2 w3 Hs _ IH]; [exact Hb|].
  apply IH. eapply method_step_balanced; eassumption.
Qed.

End Ledger.


(** ** Display support is settled once per collection *)
Lemma extends_by_call (allowed : Call -> bool) (c : Call) (w : World) :
  allowed c = true -> extends_by allowed w (set_trace (fun t => t ++ [c]) w).
Proof. intros H. exists [c]. simpl. now rewrite H. Qed.

Lemma extends_by_same (allowed : Call -> bool) (w w' : World) :
  trace w' = trace w -> extends_by allowed w w'.
Proof. intros H. exists []. now rewrite H, app_nil_r. Qed.

Section SupportOnce.
Variable env : Env.

(** X8.  Once a collection has a display-support flag, importing
    another of its images asks nothing of sysmem and leaves the observation
    pointers, the display-support flags and the negotiated pixel formats as
    they are; when the flag is [false] the display controller is not asked
    to import the image either. *)
Theorem display_support_determined_once (metadata : ImageMetadata)
    (usage : BufferCollectionUsage) (w w' : World) (s b : bool) :
  buffer_collection_supports_display_ w !! collection_id metadata = Some s ->
  ImportBufferImage env metadata usage w = Some (b, w') ->
  extends_by (fun c => negb (is_sysmem_call c)) w w'
  /\ display_buffer_collection_ptrs_ w' = display_buffer_collection_ptrs_ w
  /\ buffer_collection_supports_display_ w' = buffer_collection_supports_display_ w
  /\ buffer_collection_pixel_format_ w' = buffer_collection_pixel_format_ w
  /\ (s = false -> forall c, In c (new_calls w w') -> is_import_image c = false).
Proof.
  intros Hs H. unfold ImportBufferImage in H.
  destruct (IsValidBufferImage metadata); cbn [negb] in H.
  2:{ injection H as _ <-. repeat split; auto; [now apply extends_by_same|].
      intros _ c. unfold new_calls. rewrite drop_all. intros []. }
  apply bind_Some in H as (ok & w1 & Hc & H). injection Hc as <- <-.
  set (w1 := set_trace (fun t => t ++ [RendererImportBufferImage metadata usage]) w) in *.
  assert (E1 : extends_by (fun c => negb (is_sysmem_call c)) w w1)
    by (now apply extends_by_call).
  assert (N1 : new_calls w w1 = [RendererImportBufferImage metadata usage]).
  { unfold new_calls, w1. simpl. now rewrite drop_app_length. }
  destruct (env_status env (trace w) (RendererImportBufferImage metadata usage));
    cbn [negb] in H.
  2:{ injection H as _ <-. repeat split; auto.
      intros _ c. rewrite N1. intros [<-|[]]. reflexivity. }
  apply bind_Some in H as (w2 & w3 & Hg & H). injection Hg as <- <-.
  change (buffer_collection_supports_display_ w1) with (buffer_collection_supports_display_ w)
    in H.
  change (import_mode_ w1) with (import_mode_ w) in H.
  rewrite Hs in H. change (default false (Some s)) with s in H.
  replace (bool_decide (is_Some (Some s))) with true in H
    by (symmetry; apply bool_decide_eq_true; eauto).
  cbn [negb orb] in H.
  destruct (match import_mode_ w with RendererOnly => true | _ => false end && negb s)
    eqn:Hearly.
  - apply andb_true_iff in Hearly as [_ Hns]. apply negb_true_iff in Hns. subst s.
    unfold modify, bind, ret in H. injection H as _ <-.
    repeat split; auto.
    + simpl. now apply insert_id.
    + intros _ c. unfold new_calls. simpl. rewrite drop_app_length. intros [<-|[]].
      reflexivity.
  - unfold bind at 1, ret at 1 in H.
    unfold bind at 1, supports_display_index at 1, bind at 1, get in H.
    change (buffer_collection_supports_display_ w1)
      with (buffer_collection_supports_display_ w) in H.
    rewrite Hs in H. unfold ret at 1 in H.
    destruct s; cbn [negb] in H.
    + apply bind_Some in H as (cfg & w4 & Hcfg & H).
      assert (w4 = w1) as ->.
      { unfold CreateImageConfig, bind, get in Hcfg.
        destruct (buffer_collection_pixel_format_ w1 !! _) as [pf|]; [|discriminate].
        destruct (BufferCollectionPixelFormatToZirconFormat pf); [|discriminate].
        now injection Hcfg as _ <-. }
      apply bind_Some in H as (st & w5 & Hcall & H). injection Hcall as <- <-.
      assert (Hw' : w' = set_trace
                           (fun t => t ++ [DcImportImage2 cfg (collection_id metadata)
                                             (identifier metadata) (vmo_index metadata)]) w1).
      { destruct (env_status env _ _); [destruct (env_out_status env _ _)|];
          simpl in H; now injection H as _ <-. }
      subst w'. repeat split; auto; [|discriminate].
      eapply extends_by_trans; [exact E1|]. now apply extends_by_call.
    + assert (w' = w1) as ->.
      { unfold bind, get, ret in H. destruct (import_mode_ w1); now injection H as _ <-. }
      repeat split; auto. intros _ c. rewrite N1. intros [<-|[]]. reflexivity.
Qed.

End SupportOnce.


(** ** The first image of a collection *)
Lemma set_trace_nil (w : World) : set_trace (fun t => t ++ []) w = w.
Proof. apply World_eq; try reflexivity. simpl. apply app_nil_r. Qed.

Lemma set_trace_app (cs1 cs2 : list Call) (w : World) :
  set_trace (fun t => t ++ cs2) (set_trace (fun t => t ++ cs1) w)
  = set_trace (fun t => t ++ (cs1 ++ cs2)) w.
Proof. apply World_eq; try reflexivity. simpl. now rewrite app_assoc. Qed.

Lemma only_calls_refl (allowed : Call -> bool) (w : World) : only_calls allowed w w.
Proof. exists []. now rewrite set_trace_nil. Qed.

Lemma only_calls_trans (allowed : Call -> bool) (w1 w2 w3 : World) :
  only_calls allowed w1 w2 -> only_calls allowed w2 w3 -> only_calls allowed w1 w3.
Proof.
  intros (c1 & -> & H1) (c2 & -> & H2). exists (c1 ++ c2).
  split; [apply set_trace_app|]. rewrite forallb_app. now rewrite H1, H2.
Qed.

Lemma only_calls_call (allowed : Call -> bool) (c : Call) (w : World) :
  allowed c = true -> only_calls allowed w (set_trace (fun t => t ++ [c]) w).
Proof. intros H. exists [c]. simpl. now rewrite H. Qed.

Lemma only_calls_extends (allowed : Call -> bool) (w w' : World) :
  only_calls allowed w w' -> extends_by allowed w w'.
Proof. intros (cs & -> & H). exists cs. auto. Qed.

Ltac only_calls_leaf :=
  lazymatch goal with
  | |- run_rel _ (call _ _) =>
      apply run_rel_call; intros ?; apply only_calls_call; reflexivity
  | |- run_rel _ (call2 _ _) =>
      apply run_rel_call2; intros ?; apply only_calls_call; reflexivity
  | |- _ => idtac
  end.

Ltac only_calls_auto allowed :=
  repeat (run_rel_step (only_calls_refl allowed) (only_calls_trans allowed)
            ltac:(only_calls_leaf)).

Section FirstImport.
Variable env : Env.

Lemma DetermineDisplaySupportFor_only_calls (token : N) :
  run_rel (only_calls is_sysmem_call) (DetermineDisplaySupportFor env token).
Proof. autounfold with compositor. only_calls_auto is_sysmem_call. Qed.

Lemma DetermineDisplaySupportFor_returns (token : N) :
  returns (fun r => forall pf, r = Some pf -> IsYUV pf = false)
    (DetermineDisplaySupportFor env token).
Proof.
  unfold DetermineDisplaySupportFor. apply returns_bind. intros ok.
  destruct (negb ok); [apply returns_ret; discriminate|].
  apply returns_bind. intros pf. apply returns_bind. intros _.
  destruct (IsYUV pf) eqn:E; apply returns_ret; [discriminate|].
  now intros pf' [= <-].
Qed.

Lemma CreateImageConfig_Some (metadata : ImageMetadata) (w : World) (cfg : ImageConfig)
    (w' : World) :
  CreateImageConfig metadata w = Some (cfg, w') ->
  w' = w
  /\ exists pf,
       buffer_collection_pixel_format_ w !! collection_id metadata = Some pf
       /\ BufferCollectionPixelFormatToZirconFormat pf = Some (ic_pixel_format cfg)
       /\ ic_type cfg = BufferCollectionPixelFormatToImageType pf
       /\ ic_width cfg = width metadata
       /\ ic_height cfg = height metadata.
Proof.
  unfold CreateImageConfig, bind, get. 
  destruct (buffer_collection_pixel_format_ w !! _) as [pf|]; [|discriminate].
  destruct (BufferCollectionPixelFormatToZirconFormat pf) as [zf|] eqn:E; [|discriminate].
  intros [= <- <-]. split; [reflexivity|]. exists pf. simpl. auto.
Qed.

(** The last part of [ImportBufferImage], from the reading of the
    display-support flag on. *)
Lemma import_image_tail (metadata : ImageMetadata) (w : World) (b : bool)
    (w' : World) (s : bool) :
  buffer_collection_supports_display_ w !! collection_id metadata = Some s ->
  (supported <- supports_display_index (collection_id metadata) ;;
   if negb supported then
     w0 <- get ;;
     match import_mode_ w0 with
     | AttemptDisplayConstraints => ret true
     | EnforceDisplayConstraints => ret false
     | RendererOnly => ret false
     end
   else
   image_config <- CreateImageConfig metadata ;;
   st <- call2 env (DcImportImage2 image_config (collection_id metadata)
                  (identifier metadata) (vmo_index metadata)) ;;
   let '(status, out) := st in
   let import_image_status := if status then out else true in
   if negb import_image_status then ret false else ret true) w = Some (b, w') ->
  if s then
    exists cfg pf,
      w' = set_trace (fun t => t ++ [DcImportImage2 cfg (collection_id metadata)
                                       (identifier metadata) (vmo_index metadata)]) w
      /\ buffer_collection_pixel_format_ w !! collection_id metadata = Some pf
      /\ BufferCollectionPixelFormatToZirconFormat pf = Some (ic_pixel_format cfg)
      /\ ic_type cfg = BufferCollectionPixelFormatToImageType pf
      /\ ic_width cfg = width metadata
      /\ ic_height cfg = height metadata
  else
    w' = w
    /\ b = match import_mode_ w with AttemptDisplayConstraints => true | _ => false end.
Proof.
  intros Hs H. unfold bind at 1, supports_display_index at 1, bind at 1, get in H.
  rewrite Hs in H. unfold ret at 1 in H. destruct s; cbn [negb] in H.
  - apply bind_Some in H as (cfg & w4 & Hcfg & H).
    apply CreateImageConfig_Some in Hcfg as (-> & pf & Hpf & Hz & Ht & Hw & Hh).
    apply bind_Some in H as (st & w5 & Hcall & H). injection Hcall as <- <-.
    exists cfg, pf. repeat split; auto.
    destruct (env_status env _ _); [destruct (env_out_status env _ _)|];
      simpl in H; now injection H as _ <-.
  - unfold bind, get, ret in H. destruct (import_mode_ w); injection H as <- <-; auto.
Qed.

(** The first import of an image of a collection asks sysmem, through the
    pointer kept by [ImportBufferCollection], whether the display can show
    the collection. *)
Lemma determine_display_support (cid : N) (w1 : World) (u : unit) (w2 : World) :
  (token <- TakeDisplayBufferCollectionPtr cid ;;
   pixel_format <- DetermineDisplaySupportFor env token ;;
   modify (set_buffer_collection_supports_display_
             (<[cid := bool_decide (is_Some pixel_format)]>)) ;;;
   match pixel_format with
   | Some pf => modify (set_buffer_collection_pixel_format_ (<[cid := pf]>))
   | None => ret tt
   end) w1 = Some (u, w2) ->
  exists (s : bool) (cs : list Call),
    is_Some (display_buffer_collection_ptrs_ w1 !! cid)
    /\ forallb is_sysmem_call cs = true
    /\ trace w2 = trace w1 ++ cs
    /\ import_mode_ w2 = import_mode_ w1
    /\ display_buffer_collection_ptrs_ w2 = delete cid (display_buffer_collection_ptrs_ w1)
    /\ buffer_collection_supports_display_ w2
       = <[cid := s]> (buffer_collection_supports_display_ w1)
    /\ if s
       then exists pf,
              IsYUV pf = false
              /\ buffer_collection_pixel_format_ w2
                 = <[cid := pf]> (buffer_collection_pixel_format_ w1)
       else buffer_collection_pixel_format_ w2 = buffer_collection_pixel_format_ w1.
Proof.
  intros H. apply bind_Some in H as (token & w3 & Htake & H).
  unfold TakeDisplayBufferCollectionPtr, bind at 1, get in Htake.
  destruct (display_buffer_collection_ptrs_ w1 !! cid) as [tok|] eqn:Hptr; [|discriminate].
  unfold modify, bind, ret in Htake. injection Htake as <- <-.
  apply bind_Some in H as (pf & w4 & Hpf & H).
  pose proof (DetermineDisplaySupportFor_returns _ _ _ _ Hpf) as Hyuv.
  apply DetermineDisplaySupportFor_only_calls in Hpf as (cs & -> & Hcs).
  unfold modify, bind, ret in H. destruct pf as [pf|]; injection H as _ <-.
  - exists true, cs. repeat split; eauto.
  - exists false, cs. repeat split; eauto.
Qed.

(** What a run of [ImportBufferImage] that gets past the renderer does:
    [w1] is the state before the display-support flag is read. *)
Lemma ImportBufferImage_phases (metadata : ImageMetadata) (usage : BufferCollectionUsage)
    (w : World) (b : bool) (w' : World) :
  ImportBufferImage env metadata usage w = Some (b, w') ->
  (b = false /\ w' = w /\ IsValidBufferImage metadata = false)
  \/ (b = false /\ IsValidBufferImage metadata = true
      /\ env_status env (trace w) (RendererImportBufferImage metadata usage) = false
      /\ w' = set_trace (fun t => t ++ [RendererImportBufferImage metadata usage]) w)
  \/ (b = true /\ IsValidBufferImage metadata = true /\ import_mode_ w = RendererOnly
      /\ buffer_collection_supports_display_ w !! collection_id metadata <> Some true
      /\ w' = set_buffer_collection_supports_display_ (<[collection_id metadata := false]>)
                (set_trace (fun t => t ++ [RendererImportBufferImage metadata usage]) w))
  \/ (IsValidBufferImage metadata = true
      /\ exists (w1 : World) (s : bool),
           buffer_collection_supports_display_ w1 !! collection_id metadata = Some s
           /\ import_mode_ w1 = import_mode_ w
           /\ extends_by (fun c => negb (is_import_image c)) w w1
           /\ (match buffer_collection_supports_display_ w !! collection_id metadata with
               | Some s0 =>
                   s = s0
                   /\ w1 = set_trace (fun t => t ++ [RendererImportBufferImage metadata usage]) w
               | None =>
                   import_mode_ w <> RendererOnly
                   /\ is_Some (display_buffer_collection_ptrs_ w !! collection_id metadata)
                   /\ display_buffer_collection_ptrs_ w1
                      = delete (collection_id metadata) (display_buffer_collection_ptrs_ w)
                   /\ buffer_collection_supports_display_ w1
                      = <[collection_id metadata := s]> (buffer_collection_supports_display_ w)
                   /\ (if s
                       then exists pf,
                              IsYUV pf = false
                              /\ buffer_collection_pixel_format_ w1
                                 = <[collection_id metadata := pf]>
                                     (buffer_collection_pixel_format_ w)
                       else buffer_collection_pixel_format_ w1
                            = buffer_collection_pixel_format_ w)
               end)
           /\ if s then
                exists cfg pf,
                  w' = set_trace
                         (fun t => t ++ [DcImportImage2 cfg (collection_id metadata)
                                           (identifier metadata) (vmo_index metadata)]) w1
                  /\ buffer_collection_pixel_format_ w1 !! collection_id metadata = Some pf
                  /\ BufferCollectionPixelFormatToZirconFormat pf = Some (ic_pixel_format cfg)
                  /\ ic_type cfg = BufferCollectionPixelFormatToImageType pf
                  /\ ic_width cfg = width metadata
                  /\ ic_height cfg = height metadata
              else
                w' = w1
                /\ b = match import_mode_ w with
                       | AttemptDisplayConstraints => true
                       | _ => false
                       end).
Proof.
  intros H. unfold ImportBufferImage in H.
  destruct (IsValidBufferImage metadata) eqn:Hv; cbn [negb] in H.
  2:{ injection H as <- <-. now left. }
  apply bind_Some in H as (ok & w1 & Hc & H). injection Hc as <- <-.
  set (w1 := set_trace (fun t => t ++ [RendererImportBufferImage metadata usage]) w) in *.
  assert (E1 : extends_by (fun c => negb (is_import_image c)) w w1)
    by (now apply extends_by_call).
  destruct (env_status env (trace w) (RendererImportBufferImage metadata usage)) eqn:Hr;
    cbn [negb] in H.
  2:{ injection H as <- <-. right. left. auto. }
  apply bind_Some in H as (w2 & w3 & Hg & H). injection Hg as <- <-.
  change (buffer_collection_supports_display_ w1) with (buffer_collection_supports_display_ w)
    in H.
  change (import_mode_ w1) with (import_mode_ w) in H.
  destruct (buffer_collection_supports_display_ w !! collection_id metadata) as [s0|] eqn:Hs.
  - change (default false (Some s0)) with s0 in H.
    replace (bool_decide (is_Some (Some s0))) with true in H
      by (symmetry; apply bool_decide_eq_true; eauto).
    cbn [negb orb] in H.
    destruct (match import_mode_ w with RendererOnly => true | _ => false end && negb s0)
      eqn:Hearly.
    + apply andb_true_iff in Hearly as [Hm Hns]. apply negb_true_iff in Hns. subst s0.
      unfold modify, bind, ret in H. injection H as <- <-.
      right. right. left. split; [reflexivity|]. split; [reflexivity|].
      split; [destruct (import_mode_ w); congruence|]. split; [congruence | reflexivity].
    + unfold bind at 1, ret at 1 in H.
      right. right. right. split; [reflexivity|]. exists w1, s0.
      split; [exact Hs|]. split; [reflexivity|]. split; [exact E1|].
      split; [auto|].
      apply (import_image_tail metadata w1 b w' s0 Hs H).
  - change (default false None) with false in H.
    replace (bool_decide (is_Some (@None bool))) with false in H.
    2:{ symmetry. apply bool_decide_eq_false. intros [x Hx]. discriminate. }
    cbn [negb orb] in H. rewrite andb_true_r in H.
    destruct (import_mode_ w) eqn:Hmode.
    3:{ unfold modify, bind, ret in H. injection H as <- <-.
        right. right. left. split; [reflexivity|]. split; [reflexivity|].
        split; [reflexivity|]. split; [congruence | reflexivity]. }
    all: cbv iota in H.
    all: apply bind_Some in H as (u & w2 & Hdet & H).
    all: apply determine_display_support in Hdet
           as (s & cs & Hptr & Hcs & Ht & Hm & Hp & Hsup & Hfmt).
    all: right; right; right; split; [reflexivity|]; exists w2, s.
    all: assert (Hs2 : buffer_collection_supports_display_ w2 !! collection_id metadata
                       = Some s) by (rewrite Hsup; apply lookup_insert_eq).
    all: split; [exact Hs2|]; split; [rewrite Hm; exact Hmode|].
    all: split;
           [ exists ([RendererImportBufferImage metadata usage] ++ cs); split;
             [ rewrite Ht; simpl; now rewrite <- app_assoc
             | rewrite forallb_app; simpl; apply forallb_forall; intros c Hc;
               apply (proj1 (forallb_forall _ _) Hcs) in Hc; now destruct c ] |].
    all: split; [split; [discriminate|]; split; [exact Hptr|]; auto|].
    all: pose proof (import_image_tail metadata w2 b w' s Hs2 H) as Htail.
    all: destruct s; [exact Htail|].
    all: destruct Htail as [-> ->]; split; [reflexivity|].
    all: rewrite Hm; change (import_mode_ w1) with (import_mode_ w); now rewrite Hmode.
Qed.



Lemma new_calls_set_trace (cs : list Call) (w : World) :
  new_calls w (set_trace (fun t => t ++ cs) w) = cs.
Proof. unfold new_calls. simpl. apply drop_app_length. Qed.

Lemma new_calls_extends (allowed : Call -> bool) (w w' : World) :
  extends_by allowed w w' -> forallb allowed (new_calls w w') = true.
Proof. intros (cs & Ht & Hcs). unfold new_calls. now rewrite Ht, drop_app_length. Qed.

Lemma new_calls_snoc (w w1 : World) (c : Call) :
  (exists cs, trace w1 = trace w ++ cs) ->
  new_calls w (set_trace (fun t => t ++ [c]) w1) = new_calls w w1 ++ [c].
Proof.
  intros [cs Ht]. unfold new_calls. simpl. rewrite Ht, <- app_assoc, !drop_app_length.
  reflexivity.
Qed.

(** X9.  Whenever [ImportBufferImage] asks the display controller to
    import an image, the image is the one being imported and is valid, its
    collection is marked display-supported, and the image config sent has the
    width and height of the image and the format and type that the
    collection's negotiated pixel format gives. *)
Theorem display_imports_supported_only (metadata : ImageMetadata)
    (usage : BufferCollectionUsage) (w : World) (b : bool) (w' : World)
    (cfg : ImageConfig) (cid iid vmo : N) :
  ImportBufferImage env metadata usage w = Some (b, w') ->
  In (DcImportImage2 cfg cid iid vmo) (new_calls w w') ->
  IsValidBufferImage metadata = true
  /\ cid = collection_id metadata
  /\ iid = identifier metadata
  /\ vmo = vmo_index metadata
  /\ ic_width cfg = width metadata
  /\ ic_height cfg = height metadata
  /\ buffer_collection_supports_display_ w' !! cid = Some true
  /\ exists pf,
       buffer_collection_pixel_format_ w' !! cid = Some pf
       /\ BufferCollectionPixelFormatToZirconFormat pf = Some (ic_pixel_format cfg)
       /\ ic_type cfg = BufferCollectionPixelFormatToImageType pf.
Proof.
  intros H Hin.
  destruct (ImportBufferImage_phases _ _ _ _ _ H)
    as [(_ & -> & _)|[(_ & _ & _ & ->)|[(_ & _ & _ & _ & ->)|(Hv & w1 & s & Hs & _ & E & _ & Ht)]]].
  - unfold new_calls in Hin. rewrite drop_all in Hin. destruct Hin.
  - rewrite new_calls_set_trace in Hin. destruct Hin as [Hin|[]]. discriminate.
  - unfold new_calls in Hin. simpl in Hin. rewrite drop_app_length in Hin.
    destruct Hin as [Hin|[]]. discriminate.
  - destruct s.
    + destruct Ht as (cfg' & pf & -> & Hpf & Hz & Hty & Hw & Hh).
      assert (Hext : exists cs, trace w1 = trace w ++ cs)
        by (destruct E as [cs [Hcs _]]; exists cs; exact Hcs).
      rewrite (new_calls_snoc _ _ _ Hext) in Hin.
      apply in_app_or in Hin as [Hin|[Hin|[]]].
      * apply new_calls_extends in E.
        apply (proj1 (forallb_forall _ _) E) in Hin. discriminate.
      * injection Hin as E1 E2 E3 E4. subst cfg' cid iid vmo.
        split; [exact Hv|]. do 5 (split; [auto|]). split; [exact Hs|].
        exists pf. auto.
    + destruct Ht as [-> _]. apply new_calls_extends in E.
      apply (proj1 (forallb_forall _ _) E) in Hin. discriminate.
Qed.

(** X10.  In a display mode, the first import of an image of a
    collection (a valid image that the renderer accepts) needs the
    observation pointer that [ImportBufferCollection] cached, consumes it,
    and records the display-support flag of the collection.  The flag is
    [true] only together with a negotiated pixel format that is not YUV.
    When it is [false] no pixel format is recorded, the display controller
    is not asked to import the image, and the import returns [true] in
    [AttemptDisplayConstraints] mode and [false] in
    [EnforceDisplayConstraints] mode. *)
Theorem first_image_import_settles_support (metadata : ImageMetadata)
    (usage : BufferCollectionUsage) (w : World) (b : bool) (w' : World) :
  import_mode_ w <> RendererOnly ->
  buffer_collection_supports_display_ w !! collection_id metadata = None ->
  IsValidBufferImage metadata = true ->
  env_status env (trace w) (RendererImportBufferImage metadata usage) = true ->
  ImportBufferImage env metadata usage w = Some (b, w') ->
  is_Some (display_buffer_collection_ptrs_ w !! collection_id metadata)
  /\ display_buffer_collection_ptrs_ w' !! collection_id metadata = None
  /\ exists s : bool,
       buffer_collection_supports_display_ w' !! collection_id metadata = Some s
       /\ if s
          then exists pf,
                 buffer_collection_pixel_format_ w' !! collection_id metadata = Some pf
                 /\ IsYUV pf = false
          else buffer_collection_pixel_format_ w' = buffer_collection_pixel_format_ w
               /\ b = match import_mode_ w with
                      | AttemptDisplayConstraints => true
                      | _ => false
                      end
               /\ forall c, In c (new_calls w w') -> is_import_image c = false.
Proof.
  intros Hmode Hs Hv Hr H.
  destruct (ImportBufferImage_phases _ _ _ _ _ H)
    as [(_ & _ & Hv')|[(_ & _ & Hr' & _)|[(_ & _ & Hm & _)
       |(_ & w1 & s & Hs1 & _ & E & Hfirst & Ht)]]]; try congruence.
  rewrite Hs in Hfirst. destruct Hfirst as (_ & Hptr & Hp & Hsup & Hfmt).
  split; [exact Hptr|]. destruct s.
  - destruct Ht as (cfg & pf & -> & Hpf & _). destruct Hfmt as (pf' & Hyuv & Hfmt).
    simpl. split; [rewrite Hp; apply lookup_delete_eq|].
    exists true. split; [exact Hs1|]. exists pf. split; [exact Hpf|].
    rewrite Hfmt, lookup_insert_eq in Hpf. now injection Hpf as <-.
  - destruct Ht as [-> ->]. split; [rewrite Hp; apply lookup_delete_eq|].
    exists false. split; [exact Hs1|]. split; [exact Hfmt|]. split; [reflexivity|].
    intros c Hc. apply new_calls_extends in E.
    apply (proj1 (forallb_forall _ _) E) in Hc. now apply negb_true_iff in Hc.
Qed.

End FirstImport.


(** ** The images a plan records *)
Lemma pending_same_refl (w : World) : pending_same w w.
Proof. reflexivity. Qed.

Lemma pending_same_trans (w1 w2 w3 : World) :
  pending_same w1 w2 -> pending_same w2 w3 -> pending_same w1 w3.
Proof. unfold pending_same. congruence. Qed.

Ltac pending_same_leaf :=
  lazymatch goal with
  | |- run_rel _ (call _ _) => apply run_rel_call; intros ?; reflexivity
  | |- run_rel _ (call2 _ _) => apply run_rel_call2; intros ?; reflexivity
  | |- forall w, pending_same w _ => intros ?; reflexivity
  | |- _ => idtac
  end.

Ltac pending_same_auto :=
  repeat (run_rel_step pending_same_refl pending_same_trans ltac:(pending_same_leaf)).

Section Recording.
Variable env : Env.

Lemma check_image_event_returns (data : RenderData) (i : nat) :
  returns (fun r => r <> Some true) (check_image_event env data i).
Proof. unfold check_image_event. repeat returns_step; discriminate. Qed.

Lemma assign_layer_returns (data : RenderData) (ls : list N) (i : nat) :
  returns (fun r => r <> Some true) (assign_layer env data ls i).
Proof. unfold assign_layer. repeat returns_step; discriminate. Qed.

Lemma assign_layer_pending (data : RenderData) (ls : list N) (i : nat) :
  run_rel pending_same (assign_layer env data ls i).
Proof. autounfold with compositor. pending_same_auto. Qed.

(** The first loop of the planner, run to its end, has recorded the
    images it visited, in order. *)
Lemma check_loop_pending (data : RenderData) :
  forall n i w w',
    for_range i n (check_image_event env data) w = Some (None, w') ->
    pending_images_in_config_ w'
    = pending_images_in_config_ w ++ map identifier (take n (drop i (images data))).
Proof.
  induction n as [|n IH]; intros i w w' H; cbn [for_range] in H.
  - injection H as <-. simpl. now rewrite app_nil_r.
  - apply bind_Some in H as (r1 & w1 & H1 & H).
    destruct (images data !! i) as [img_i|] eqn:Hi.
    2:{ unfold check_image_event, index in H1. rewrite Hi in H1. discriminate. }
    rewrite (check_image_event_eq _ _ _ _ _ Hi) in H1.
    rewrite (drop_S _ _ _ Hi). cbn [take map].
    assert (Hstep : r1 = None
                    /\ pending_images_in_config_ w1
                       = pending_images_in_config_ w ++ [identifier img_i]).
    { destruct (image_event_map_ w !! identifier img_i) as [e|].
      - destruct (wait_one_signaled (signal_event e)).
        + injection H1 as <- <-. auto.
        + injection H1 as <- <-. discriminate.
      - injection H1 as <- <-. auto. }
    destruct Hstep as (-> & Hp). rewrite (IH _ _ _ H), Hp, <- app_assoc. reflexivity.
Qed.

Lemma SetRenderDataOnDisplay_pending (data : RenderData) (w w' : World) :
  SetRenderDataOnDisplay env data w = Some (true, w') ->
  N.of_nat (length (images data)) < 2 ^ 32 ->
  pending_images_in_config_ w'
  = pending_images_in_config_ w ++ map identifier (images data).
Proof.
  intros H Hlen. unfold SetRenderDataOnDisplay in H.
  rewrite (uint32_small _ Hlen), Nat2N.id in H.
  unfold bind at 1, get in H.
  destruct (display_engine_data_map_ w !! display_id data) as [d|]; [|discriminate].
  destruct (N.of_nat (length (layers d)) <? N.of_nat (length (images data)));
    [discriminate|].
  apply bind_Some in H as (r & w1 & Hloop & H).
  destruct r as [b|].
  { injection H as -> _. exfalso.
    apply (returns_for_range (fun r => r <> Some true) _ ltac:(discriminate)
             (check_image_event_returns data) _ _ _ _ _ Hloop).
    reflexivity. }
  apply check_loop_pending in Hloop. rewrite drop_0, firstn_all in Hloop.
  rewrite <- Hloop. change (pending_same w1 w'). apply (run_rel_elim _ _ _ _ _ H).
  autounfold with compositor. pending_same_auto.
Qed.

Lemma set_render_data_and_cc_pending (data : RenderData) (w w' : World) :
  set_render_data_and_cc env data w = Some (None, w') ->
  N.of_nat (length (images data)) < 2 ^ 32 ->
  pending_images_in_config_ w'
  = pending_images_in_config_ w ++ map identifier (images data).
Proof.
  intros H Hlen. unfold set_render_data_and_cc in H.
  apply bind_Some in H as (ok & w1 & Hset & H).
  destruct ok; cbn [negb] in H; [|discriminate].
  rewrite <- (SetRenderDataOnDisplay_pending _ _ _ Hset Hlen).
  change (pending_same w1 w'). apply (run_rel_elim _ _ _ _ _ H). pending_same_auto.
Qed.

Lemma for_each_pending (datas : list RenderData) :
  forall w w',
    for_each datas (set_render_data_and_cc env) w = Some (None, w') ->
    Forall (fun d => N.of_nat (length (images d)) < 2 ^ 32) datas ->
    pending_images_in_config_ w' = pending_images_in_config_ w ++ planned_ids datas.
Proof.
  induction datas as [|d ds IH]; intros w w' H Hall; cbn [for_each] in H.
  - injection H as <-. simpl. now rewrite app_nil_r.
  - apply bind_Some in H as ([b|] & w1 & H1 & H); [discriminate|].
    inversion Hall as [|? ? Hd Hds]; subst.
    rewrite (IH _ _ H Hds), (set_render_data_and_cc_pending _ _ _ H1 Hd).
    unfold planned_ids. simpl. now rewrite <- app_assoc.
Qed.

(** X11.  When planning for direct scanout succeeds,
    [pending_images_in_config_] holds exactly the image ids of the frame,
    display by display and image by image in the order given, the sentinel
    id standing for a solid colour and an id repeated as often as its image
    is shown. *)
Theorem planner_records_in_order (datas : list RenderData) (w w1 : World) :
  Forall (fun d => N.of_nat (length (images d)) < 2 ^ 32) datas ->
  (DiscardConfig env ;;; SetRenderDatasOnDisplay env datas) w = Some (true, w1) ->
  pending_images_in_config_ w1 = planned_ids datas.
Proof.
  intros Hall H. apply bind_Some in H as (u & w0 & Hd & H).
  unfold SetRenderDatasOnDisplay in H.
  destruct (kDisableDisplayComposition env); [discriminate|].
  apply bind_Some in H as ([b|] & w2 & Hloop & H).
  - rewrite (for_each_planner_result _ _ _ _ _ Hloop) in H. discriminate.
  - injection H as <-. rewrite (for_each_pending _ _ _ Hloop Hall).
    rewrite DiscardConfig_eq in Hd. injection Hd as _ <-. reflexivity.
Qed.

End Recording.


(** ** What a plan needs *)
Section Support.
Variable env : Env.

Lemma SetRenderDataOnDisplay_cfg (data : RenderData) :
  run_rel planner_cfg (SetRenderDataOnDisplay env data).
Proof.
  unfold SetRenderDataOnDisplay, SetDisplayLayers, call_. planner_cfg_auto;
    first [apply check_image_event_cfg | apply assign_layer_cfg].
Qed.

Lemma set_render_data_and_cc_cfg (data : RenderData) :
  run_rel planner_cfg (set_render_data_and_cc env data).
Proof.
  unfold set_render_data_and_cc. planner_cfg_auto. apply SetRenderDataOnDisplay_cfg.
Qed.

Lemma assign_layer_supported (data : RenderData) (ls : list N) (i : nat) (w0 w w' : World) :
  planner_cfg w0 w ->
  assign_layer env data ls i w = Some (None, w') ->
  forall img, images data !! i = Some img -> identifier img <> kInvalidImageId ->
              buffer_collection_supports_display_ w0 !! collection_id img = Some true.
Proof.
  intros (_ & Hs & _ & _) H img Himg Hid.
  unfold assign_layer, index in H. rewrite Himg in H.
  unfold bind at 1, ret at 1 in H.
  apply N.eqb_neq in Hid. rewrite Hid in H. cbn [negb] in H.
  apply bind_Some in H as (s & w1 & Hsup & H).
  destruct s; [|discriminate].
  apply Hs. unfold supports_display_index, bind, get in Hsup.
  destruct (buffer_collection_supports_display_ w !! collection_id img) as [b|];
    [|discriminate].
  now injection Hsup as -> _.
Qed.

Lemma SetRenderDataOnDisplay_supported (data : RenderData) (w w' : World) :
  SetRenderDataOnDisplay env data w = Some (true, w') ->
  N.of_nat (length (images data)) < 2 ^ 32 ->
  forall img, In img (images data) -> identifier img <> kInvalidImageId ->
              buffer_collection_supports_display_ w !! collection_id img = Some true.
Proof.
  intros H Hlen img Hin Hid. unfold SetRenderDataOnDisplay in H.
  rewrite (uint32_small _ Hlen), Nat2N.id in H.
  unfold bind at 1, get in H.
  destruct (display_engine_data_map_ w !! display_id data) as [d|]; [|discriminate].
  destruct (N.of_nat (length (layers d)) <? N.of_nat (length (images data)));
    [discriminate|].
  apply bind_Some in H as (r & w1 & Hloop & H).
  assert (Hc1 : planner_cfg w w1).
  { eapply (run_rel_for_range _ planner_cfg_refl planner_cfg_trans), Hloop.
    intros i. apply check_image_event_cfg. }
  destruct r as [b|].
  { injection H as -> _. exfalso.
    apply (returns_for_range (fun r => r <> Some true) _ ltac:(discriminate)
             (check_image_event_returns env data) _ _ _ _ _ Hloop).
    reflexivity. }
  apply bind_Some in H as (u & w2 & Hl & H).
  assert (Hc2 : planner_cfg w w2).
  { eapply planner_cfg_trans; [exact Hc1|]. apply (run_rel_elim _ _ _ _ _ Hl).
    unfold SetDisplayLayers, call_. planner_cfg_auto. }
  apply bind_Some in H as (r2 & w3 & Hloop2 & H).
  destruct r2 as [b|].
  { injection H as -> _. exfalso.
    apply (returns_for_range (fun r => r <> Some true) _ ltac:(discriminate)
             (assign_layer_returns env data (layers d)) _ _ _ _ _ Hloop2).
    reflexivity. }
  apply list_elem_of_In, list_elem_of_lookup in Hin as [j Hj].
  apply (for_range_none planner_cfg (assign_layer env data (layers d))
           (fun j => forall img, images data !! j = Some img ->
                                 identifier img <> kInvalidImageId ->
                                 buffer_collection_supports_display_ w !! collection_id img
                                 = Some true)
           w planner_cfg_trans
           (fun j => assign_layer_cfg env data (layers d) j)
           (fun j wj wj' Hwj Hb => assign_layer_supported data (layers d) j w wj wj' Hwj Hb)
           _ _ _ _ Hc2 Hloop2 j); auto.
  apply lookup_lt_Some in Hj. lia.
Qed.

Lemma for_each_supported (datas : list RenderData) :
  forall w0 w w',
    planner_cfg w0 w ->
    for_each datas (set_render_data_and_cc env) w = Some (None, w') ->
    Forall (fun d => N.of_nat (length (images d)) < 2 ^ 32) datas ->
    forall d img, In d datas -> In img (images d) -> identifier img <> kInvalidImageId ->
                  buffer_collection_supports_display_ w0 !! collection_id img = Some true.
Proof.
  induction datas as [|d ds IH]; intros w0 w w' Hc H Hall d' img Hd Himg Hid;
    [destruct Hd|].
  cbn [for_each] in H. apply bind_Some in H as ([b|] & w1 & H1 & H); [discriminate|].
  inversion Hall as [|? ? Hlen Hds]; subst.
  destruct Hd as [->|Hd].
  - unfold set_render_data_and_cc in H1.
    apply bind_Some in H1 as (ok & w2 & Hset & H1).
    destruct ok; cbn [negb] in H1; [|discriminate].
    destruct Hc as (_ & Hs & _ & _). apply Hs.
    eapply SetRenderDataOnDisplay_supported; eassumption.
  - eapply (IH w0 w1 w'); try eassumption.
    eapply planner_cfg_trans; [exact Hc | eapply set_render_data_and_cc_cfg, H1].
Qed.

(** X12.  Planning for direct scanout succeeds only if every
    image of the frame, solid colours apart, belongs to a collection that was
    marked display-supported before planning began. *)
Theorem direct_scanout_needs_display_support (datas : list RenderData) (w w1 : World)
    (d : RenderData) (img : ImageMetadata) :
  Forall (fun d => N.of_nat (length (images d)) < 2 ^ 32) datas ->
  (DiscardConfig env ;;; SetRenderDatasOnDisplay env datas) w = Some (true, w1) ->
  In d datas -> In img (images d) -> identifier img <> kInvalidImageId ->
  buffer_collection_supports_display_ w !! collection_id img = Some true.
Proof.
  intros Hall H Hd Himg Hid. apply bind_Some in H as (u & w0 & Hdc & H).
  unfold SetRenderDatasOnDisplay in H.
  destruct (kDisableDisplayComposition env); [discriminate|].
  apply bind_Some in H as ([b|] & w2 & Hloop & H).
  - rewrite (for_each_planner_result _ _ _ _ _ Hloop) in H. discriminate.
  - eapply (for_each_supported datas w w0 w2); try eassumption.
    rewrite DiscardConfig_eq in Hdc. injection Hdc as _ <-. repeat split; auto.
Qed.

(** Planning stops with [false] at a display whose own plan fails. *)
Lemma planner_rejects_at (pre post : list RenderData) (data : RenderData) (w w1 w2 : World)
    (r : option bool) :
  (DiscardConfig env ;;; for_each pre (set_render_data_and_cc env)) w = Some (r, w1) ->
  SetRenderDataOnDisplay env data w1 = Some (false, w2) ->
  exists w3,
    (DiscardConfig env ;;; SetRenderDatasOnDisplay env (pre ++ data :: post)) w
      = Some (false, w3).
Proof.
  intros Hpre Hset. apply bind_Some in Hpre as (u & w0 & Hd & Hpre).
  unfold bind at 1. rewrite Hd. unfold SetRenderDatasOnDisplay.
  destruct (kDisableDisplayComposition env); [eexists; reflexivity|].
  unfold bind at 1. rewrite for_each_app. unfold bind at 1. rewrite Hpre.
  destruct r as [b|].
  - rewrite (for_each_planner_result _ _ _ _ _ Hpre). eexists. reflexivity.
  - cbn [for_each]. unfold bind at 1. unfold set_render_data_and_cc at 1.
    unfold bind at 1. rewrite Hset. eexists. reflexivity.
Qed.

(** X13.  A display with fewer layers than the frame has images for
    it makes [SetRenderDataOnDisplay] return [false] with nothing changed and
    no call made; planning answers [false] and [RenderFrame] runs its GPU
    branch.  [pre] are the displays planned before it. *)
Theorem too_many_images_fall_back (fn : N) (pt : Z) (pre post : list RenderData)
    (data : RenderData) (rf : list N) (cb : N) (d : DisplayEngineData) (w w1 : World)
    (r : option bool) :
  display_engine_data_map_ w !! display_id data = Some d ->
  (length (layers d) < length (images data))%nat ->
  N.of_nat (length (images data)) < 2 ^ 32 ->
  (DiscardConfig env ;;; for_each pre (set_render_data_and_cc env)) w = Some (r, w1) ->
  SetRenderDataOnDisplay env data w1 = Some (false, w1)
  /\ exists w2,
       (DiscardConfig env ;;; SetRenderDatasOnDisplay env (pre ++ data :: post)) w
         = Some (false, w2)
       /\ RenderFrame env fn pt (pre ++ data :: post) rf cb w
          = gpu_branch env fn pt (pre ++ data :: post) rf cb w2.
Proof.
  intros Hd Hlay Hlen Hpre.
  assert (Hk : planner_keeps w w1).
  { apply bind_Some in Hpre as (u & w0 & Hdc & Hpre).
    eapply planner_keeps_trans; [eapply DiscardConfig_keeps, Hdc|].
    eapply (run_rel_for_each _ planner_keeps_refl planner_keeps_trans), Hpre.
    apply set_render_data_and_cc_keeps. }
  assert (Hset : SetRenderDataOnDisplay env data w1 = Some (false, w1)).
  { unfold SetRenderDataOnDisplay. rewrite (uint32_small _ Hlen).
    unfold bind at 1, get. destruct Hk as [_ ->]. rewrite Hd.
    replace (N.of_nat (length (layers d)) <? N.of_nat (length (images data))) with true
      by (symmetry; apply N.ltb_lt; lia).
    reflexivity. }
  split; [exact Hset|].
  destruct (planner_rejects_at pre post data w w1 w1 r Hpre Hset) as [w2 Hplan].
  exists w2. split; [exact Hplan | now apply planning_false_gpu_branch].
Qed.

End Support.


(** ** A collection import that succeeds *)
Section CollectionImport.
Variable env : Env.

(** X14.  When [ImportBufferCollection] returns [true], the renderer
    was asked to import the collection, the observation pointers of the other
    collections, the display-support flags and the pixel formats are
    untouched, and: in [RendererOnly] mode no pointer is recorded and the
    display controller is not asked to import the collection; in the other
    modes the collection's observation pointer is cached and the last call
    made is the display controller's import of the collection. *)
Theorem ImportBufferCollection_success (id token : N) (usage : BufferCollectionUsage)
    (w w' : World) :
  ImportBufferCollection env id token usage w = Some (true, w') ->
  In (RendererImportBufferCollection id token usage) (new_calls w w')
  /\ (forall k, k <> id ->
        display_buffer_collection_ptrs_ w' !! k = display_buffer_collection_ptrs_ w !! k)
  /\ buffer_collection_supports_display_ w' = buffer_collection_supports_display_ w
  /\ buffer_collection_pixel_format_ w' = buffer_collection_pixel_format_ w
  /\ match import_mode_ w with
     | RendererOnly =>
         display_buffer_collection_ptrs_ w' = display_buffer_collection_ptrs_ w
         /\ forall tok cfg, ~ In (DcImportBufferCollection id tok cfg) (new_calls w w')
     | _ =>
         is_Some (display_buffer_collection_ptrs_ w' !! id)
         /\ exists tok, last (trace w') = Some (DcImportBufferCollection id tok ImageConfig_none)
     end.
Proof.
  unfold ImportBufferCollection, DuplicateToken, ConvertToAttachToken,
    CreateBufferCollectionPtrWithEmptyConstraints, DuplicateToken, new_handle, call_,
    call, bind, ret, get, modify, new_calls.
  simpl.
  repeat match goal with
         | |- context [if ?b then _ else _] => destruct b; simpl
         | |- context [match import_mode_ ?w with _ => _ end] =>
             destruct (import_mode_ w); simpl
         end;
    intros H; try discriminate H;
    first [injection H as _ <- | injection H as <-]; simpl;
    rewrite <- ?app_assoc, ?drop_app_length; simpl;
    (split; [auto 10|]);
    (split; [intros k Hk; rewrite ?lookup_insert_ne by congruence; reflexivity|]);
    (split; [reflexivity|]); (split; [reflexivity|]).
  all: try (split; [rewrite lookup_insert_eq; eauto|]; eexists; rewrite last_app;
            reflexivity).
  split; [reflexivity|]. intros tok cfg Hin. simpl in Hin.
  repeat (destruct Hin as [Hin|Hin]; [discriminate|]). destruct Hin.
Qed.

End CollectionImport.


(** ** Registering a display *)
Lemma displays_same_refl (w : World) : displays_same w w.
Proof. split; reflexivity. Qed.

Lemma displays_same_trans (w1 w2 w3 : World) :
  displays_same w1 w2 -> displays_same w2 w3 -> displays_same w1 w3.
Proof. intros [A1 B1] [A2 B2]. split; congruence. Qed.

Ltac displays_same_leaf :=
  lazymatch goal with
  | |- run_rel _ (call _ _) => apply run_rel_call; intros ?; split; reflexivity
  | |- run_rel _ (call2 _ _) => apply run_rel_call2; intros ?; split; reflexivity
  | |- forall w, displays_same w _ => intros ?; split; reflexivity
  | |- _ => idtac
  end.

Ltac displays_same_auto :=
  repeat (run_rel_step displays_same_refl displays_same_trans ltac:(displays_same_leaf)).

Section Registration.
Variable env : Env.

Lemma ImportBufferImage_displays (metadata : ImageMetadata) (usage : BufferCollectionUsage) :
  run_rel displays_same (ImportBufferImage env metadata usage).
Proof. autounfold with compositor. displays_same_auto. Qed.

Lemma import_render_targets_displays (c width height : N) :
  forall n i, run_rel displays_same (import_render_targets env c width height i n).
Proof.
  induction n as [|n IH]; intros i; simpl; [apply (run_rel_ret _ displays_same_refl)|].
  unfold call_, new_handle. displays_same_auto;
    [apply ImportBufferImage_displays | apply IH].
Qed.

Lemma AllocateDisplayRenderTargets_displays (p : bool) (n : N) (size : N * N)
    (pf : zx_pixel_format_t) :
  run_rel displays_same (AllocateDisplayRenderTargets env p n size pf).
Proof.
  unfold AllocateDisplayRenderTargets, call_, new_handle. displays_same_auto.
  apply import_render_targets_displays.
Qed.

(** The render targets are [n] images of one collection, numbered from
    [i], of the size asked for. *)
Lemma import_render_targets_returns (c wd ht : N) :
  forall n i,
    returns (fun l => length l = n
                      /\ forall j t, l !! j = Some t ->
                           collection_id t = c /\ vmo_index t = N.of_nat (i + j)
                           /\ width t = wd /\ height t = ht)
      (import_render_targets env c wd ht i n).
Proof.
  induction n as [|n IH]; intros i; simpl.
  - apply returns_ret. split; [reflexivity|]. intros j t Hj. discriminate.
  - apply returns_bind. intros _. apply returns_bind. intros id.
    apply returns_bind. intros _.
    intros w l w' H. apply bind_Some in H as (rest & w1 & Hrest & H).
    injection H as <- _. destruct (IH (S i) _ _ _ Hrest) as [Hlen Hall].
    split; [simpl; now rewrite Hlen|].
    intros [|j] t Hj; simpl in Hj.
    + injection Hj as <-. simpl. rewrite Nat.add_0_r. auto.
    + destruct (Hall j t Hj) as (A & B & C & D). repeat split; auto.
      rewrite B. f_equal. lia.
Qed.

Lemma AllocateDisplayRenderTargets_returns (p : bool) (n : N) (size : N * N)
    (pf : zx_pixel_format_t) :
  returns (fun l => length l = N.to_nat n
                    /\ forall j t, l !! j = Some t ->
                         vmo_index t = N.of_nat j
                         /\ width t = fst size /\ height t = snd size)
    (AllocateDisplayRenderTargets env p n size pf).
Proof.
  unfold AllocateDisplayRenderTargets. repeat (apply returns_bind; intros ?).
  intros w l w' H. destruct (import_render_targets_returns _ _ _ _ _ _ _ _ H) as [Hlen Hall].
  split; [exact Hlen|]. intros j t Hj. destruct (Hall j t Hj) as (_ & B & C & D). auto.
Qed.

Lemma engine_data_index_Some (id : N) (w : World) (d : DisplayEngineData) (w' : World) :
  engine_data_index id w = Some (d, w') ->
  d = default DisplayEngineData_default (display_engine_data_map_ w !! id)
  /\ display_engine_data_map_ w' = <[id := d]> (display_engine_data_map_ w)
  /\ display_info_map_ w' = display_info_map_ w.
Proof.
  unfold engine_data_index, set_engine_data, bind, get, modify, ret.
  destruct (display_engine_data_map_ w !! id) as [d0|] eqn:E; intros [= <- <-]; simpl.
  - split; [reflexivity|]. split; [|reflexivity]. symmetry. now apply insert_id.
  - auto.
Qed.

(** Rewriting the entry of display [id], a reference into the map in the
    source. *)
Lemma update_engine_data_Some {A} (id : N) (f : DisplayEngineData -> DisplayEngineData)
    (k : M A) (w : World) (a : A) (w' : World) (d0 : DisplayEngineData) :
  display_engine_data_map_ w !! id = Some d0 ->
  (d <- engine_data_index id ;; set_engine_data id (f d) ;;; k) w = Some (a, w') ->
  exists w1,
    display_engine_data_map_ w1 = <[id := f d0]> (display_engine_data_map_ w)
    /\ display_info_map_ w1 = display_info_map_ w
    /\ k w1 = Some (a, w').
Proof.
  intros Hd H. apply bind_Some in H as (d & w1 & Hidx & H).
  apply engine_data_index_Some in Hidx as (-> & Hm & Hi). rewrite Hd in *. simpl in *.
  apply bind_Some in H as (u & w2 & Hset & H).
  unfold set_engine_data, modify in Hset. injection Hset as _ <-.
  eexists. split; [|split; [|exact H]]; simpl.
  - rewrite Hm. apply insert_insert_eq.
  - exact Hi.
Qed.

Lemma update_engine_data_last (id : N) (f : DisplayEngineData -> DisplayEngineData)
    (w : World) (u : unit) (w' : World) (d0 : DisplayEngineData) :
  display_engine_data_map_ w !! id = Some d0 ->
  (d <- engine_data_index id ;; set_engine_data id (f d)) w = Some (u, w') ->
  display_engine_data_map_ w' = <[id := f d0]> (display_engine_data_map_ w)
  /\ display_info_map_ w' = display_info_map_ w.
Proof.
  intros Hd H.
  destruct (update_engine_data_Some id f (ret tt) w tt w' d0 Hd) as (w1 & A & B & C).
  - unfold bind in *. destruct (engine_data_index id w) as [[d w1]|]; [|discriminate].
    unfold set_engine_data, modify, ret in *. destruct u. exact H.
  - injection C as <-. auto.
Qed.

Lemma push_layer_Some (id : N) (w : World) (u : unit) (w' : World) (d0 : DisplayEngineData) :
  display_engine_data_map_ w !! id = Some d0 ->
  push_layer env id w = Some (u, w') ->
  exists layer,
    display_engine_data_map_ w'
    = <[id := {| layers := layers d0 ++ [layer];
                 render_targets := render_targets d0;
                 protected_render_targets := protected_render_targets d0;
                 frame_event_datas := frame_event_datas d0;
                 vmo_count := vmo_count d0;
                 curr_vmo := curr_vmo d0 |}]> (display_engine_data_map_ w)
    /\ display_info_map_ w' = display_info_map_ w.
Proof.
  intros Hd H. unfold push_layer in H.
  apply bind_Some in H as (layer & w1 & Hl & H).
  assert (Hs : displays_same w w1).
  { apply (run_rel_elim _ _ _ _ _ Hl). autounfold with compositor. displays_same_auto. }
  destruct Hs as [Hm Hi]. rewrite <- Hm in Hd.
  apply (update_engine_data_last id
           (fun d => {| layers := layers d ++ [layer];
                        render_targets := render_targets d;
                        protected_render_targets := protected_render_targets d;
                        frame_event_datas := frame_event_datas d;
                        vmo_count := vmo_count d;
                        curr_vmo := curr_vmo d |}) w1 u w' d0 Hd) in H.
  destruct H as [A B]. exists layer. rewrite A, B, Hm, Hi. auto.
Qed.

Lemma push_frame_event_datas_Some (id : N) :
  forall n w u w' d0,
    display_engine_data_map_ w !! id = Some d0 ->
    push_frame_event_datas env id n w = Some (u, w') ->
    exists es,
      length es = n
      /\ Forall fresh_frame_event es
      /\ display_engine_data_map_ w'
         = <[id := {| layers := layers d0;
                      render_targets := render_targets d0;
                      protected_render_targets := protected_render_targets d0;
                      frame_event_datas := frame_event_datas d0 ++ es;
                      vmo_count := vmo_count d0;
                      curr_vmo := curr_vmo d0 |}]> (display_engine_data_map_ w)
      /\ display_info_map_ w' = display_info_map_ w.
Proof.
  induction n as [|n IH]; intros w u w' d0 Hd H; simpl in H.
  - injection H as _ <-. exists []. rewrite app_nil_r.
    split; [reflexivity|]. split; [constructor|]. split; [|reflexivity].
    symmetry. destruct d0. now apply insert_id.
  - apply bind_Some in H as (e & w1 & He & H).
    assert (Hfresh : fresh_frame_event e)
      by (rewrite NewFrameEventData_eq in He; injection He as <- _; split; reflexivity).
    assert (Hs : displays_same w w1).
    { apply (run_rel_elim _ _ _ _ _ He). autounfold with compositor. displays_same_auto. }
    destruct Hs as [Hm1 Hi1]. rewrite <- Hm1 in Hd.
    apply (update_engine_data_Some id
             (fun d => {| layers := layers d;
                          render_targets := render_targets d;
                          protected_render_targets := protected_render_targets d;
                          frame_event_datas := frame_event_datas d ++ [e];
                          vmo_count := vmo_count d;
                          curr_vmo := curr_vmo d |}) _ _ _ _ d0 Hd) in H.
    destruct H as (w2 & Hm & Hi & H).
    eapply IH in H; [|rewrite Hm; apply lookup_insert_eq].
    destruct H as (es & Hlen & Hall & Hm' & Hi'). simpl in *.
    exists (e :: es). split; [simpl; now rewrite Hlen|].
    split; [constructor; assumption|].
    split; [|congruence].
    rewrite Hm', Hm, Hm1, insert_insert_eq, <- app_assoc. reflexivity.
Qed.

Lemma AddDisplay_Some (id : N) (info : DisplayInfo) (n : N) (w w' : World) :
  display_engine_data_map_ w !! id = None ->
  AddDisplay env id info n w = Some (tt, w') ->
  display_info_map_ w' = <[id := info]> (display_info_map_ w)
  /\ exists d,
       display_engine_data_map_ w' = <[id := d]> (display_engine_data_map_ w)
       /\ length (layers d) = 2%nat
       /\ vmo_count d = n
       /\ curr_vmo d = 0
       /\ length (frame_event_datas d) = N.to_nat n
       /\ Forall fresh_frame_event (frame_event_datas d)
       /\ length (render_targets d) = N.to_nat n
       /\ (forall j t, render_targets d !! j = Some t ->
             vmo_index t = N.of_nat j
             /\ width t = fst (dimensions info) /\ height t = snd (dimensions info))
       /\ length (protected_render_targets d)
          = if SupportsRenderInProtected env then N.to_nat n else 0%nat.
Proof.
  intros Hnone H. unfold AddDisplay in H.
  destruct (dimensions info) as [wd ht] eqn:Hdim.
  apply bind_Some in H as (u0 & w1 & Hmod & H). injection Hmod as _ <-.
  apply bind_Some in H as (d0 & w2 & Hidx & H).
  apply engine_data_index_Some in Hidx as (-> & Hm2 & Hi2). simpl in Hm2, Hi2.
  rewrite Hnone in Hm2. simpl in Hm2.
  apply bind_Some in H as (u1 & w3 & Hp1 & H).
  eapply push_layer_Some in Hp1 as (l1 & Hm3 & Hi3); [|rewrite Hm2; apply lookup_insert_eq].
  rewrite Hm2, insert_insert_eq in Hm3. simpl in Hm3.
  apply bind_Some in H as (u2 & w4 & Hp2 & H).
  eapply push_layer_Some in Hp2 as (l2 & Hm4 & Hi4); [|rewrite Hm3; apply lookup_insert_eq].
  rewrite Hm3, insert_insert_eq in Hm4. simpl in Hm4.
  apply bind_Some in H as (u3 & w5 & Hcb & H).
  assert (Hs5 : displays_same w4 w5).
  { apply (run_rel_elim _ _ _ _ _ Hcb). unfold call_. displays_same_auto. }
  destruct Hs5 as [Hm5 Hi5]. rewrite Hm4 in Hm5. rewrite Hi4, Hi3, Hi2 in Hi5.
  destruct (n =? 0) eqn:Hn.
  { injection H as <-. apply N.eqb_eq in Hn. subst n.
    split; [exact Hi5|]. eexists. split; [exact Hm5|]. simpl.
    destruct (SupportsRenderInProtected env); repeat split; auto.
    all: match goal with Hj : _ !! _ = Some _ |- _ => discriminate Hj end. }
  apply bind_Some in H as (targets & w6 & Hal & H).
  destruct (AllocateDisplayRenderTargets_returns _ _ _ _ _ _ _ Hal) as [Hlen Htg].
  apply AllocateDisplayRenderTargets_displays in Hal as [Hm6 Hi6].
  rewrite Hm5 in Hm6. rewrite Hi5 in Hi6.
  apply (update_engine_data_Some id
           (fun d => {| layers := layers d;
                        render_targets := targets;
                        protected_render_targets := protected_render_targets d;
                        frame_event_datas := frame_event_datas d;
                        vmo_count := vmo_count d;
                        curr_vmo := curr_vmo d |}) _ _ _ _ _
           ltac:(rewrite Hm6; apply lookup_insert_eq)) in H.
  destruct H as (w7 & Hm7 & Hi7 & H).
  rewrite Hm6, insert_insert_eq in Hm7. simpl in Hm7. rewrite Hi6 in Hi7.
  apply bind_Some in H as (u4 & w8 & Hpf & H).
  eapply push_frame_event_datas_Some in Hpf
      as (es & Hes & Hfresh & Hm8 & Hi8); [|rewrite Hm7; apply lookup_insert_eq].
  rewrite Hm7, insert_insert_eq in Hm8. simpl in Hm8. rewrite Hi7 in Hi8.
  apply (update_engine_data_Some id
           (fun d => {| layers := layers d;
                        render_targets := render_targets d;
                        protected_render_targets := protected_render_targets d;
                        frame_event_datas := frame_event_datas d;
                        vmo_count := n;
                        curr_vmo := 0 |}) _ _ _ _ _
           ltac:(rewrite Hm8; apply lookup_insert_eq)) in H.
  destruct H as (w9 & Hm9 & Hi9 & H).
  rewrite Hm8, insert_insert_eq in Hm9. simpl in Hm9. rewrite Hi8 in Hi9.
  destruct (SupportsRenderInProtected env).
  - apply bind_Some in H as (ptargets & w10 & Hal2 & H).
    destruct (AllocateDisplayRenderTargets_returns _ _ _ _ _ _ _ Hal2) as [Hlen2 _].
    apply AllocateDisplayRenderTargets_displays in Hal2 as [Hm10 Hi10].
    rewrite Hm9 in Hm10. rewrite Hi9 in Hi10.
    eapply (update_engine_data_last id
             (fun d => {| layers := layers d;
                          render_targets := render_targets d;
                          protected_render_targets := ptargets;
                          frame_event_datas := frame_event_datas d;
                          vmo_count := vmo_count d;
                          curr_vmo := curr_vmo d |})) in H;
      [|rewrite Hm10; apply lookup_insert_eq].
    destruct H as [Hm' Hi']. rewrite Hm10, insert_insert_eq in Hm'. simpl in Hm'.
    rewrite Hi10 in Hi'.
    split; [exact Hi'|]. eexists. split; [exact Hm'|]. simpl.
    repeat split; auto.
    all: match goal with Hj : _ !! ?j = Some ?t |- _ => apply (Htg j t Hj) end.
  - injection H as <-.
    split; [exact Hi9|]. eexists. split; [exact Hm9|]. simpl.
    repeat split; auto.
    all: match goal with Hj : _ !! ?j = Some ?t |- _ => apply (Htg j t Hj) end.
Qed.

(** X15.  [AddDisplay] for a display not yet registered records its
    [DisplayInfo] and an entry with two layers, [n] render targets numbered
    from 0 and as large as the display, [n] frame events whose wait fence is
    not signaled and whose signal fence is, [vmo_count = n], [curr_vmo = 0],
    and [n] protected render targets if the renderer supports protected
    memory (none otherwise); the other displays are untouched. *)
Theorem AddDisplay_registers (id : N) (info : DisplayInfo) (n : N) (w w' : World) :
  display_engine_data_map_ w !! id = None ->
  AddDisplay env id info n w = Some (tt, w') ->
  display_info_map_ w' = <[id := info]> (display_info_map_ w)
  /\ exists d,
       display_engine_data_map_ w' = <[id := d]> (display_engine_data_map_ w)
       /\ length (layers d) = 2%nat
       /\ vmo_count d = n
       /\ curr_vmo d = 0
       /\ length (frame_event_datas d) = N.to_nat n
       /\ Forall fresh_frame_event (frame_event_datas d)
       /\ length (render_targets d) = N.to_nat n
       /\ (forall j t, render_targets d !! j = Some t ->
             vmo_index t = N.of_nat j
             /\ width t = fst (dimensions info) /\ height t = snd (dimensions info))
       /\ length (protected_render_targets d)
          = if SupportsRenderInProtected env then N.to_nat n else 0%nat.
Proof. apply AddDisplay_Some. Qed.

End Registration.


(** ** GPU composition and the back buffers *)
Lemma same_renders_refl (w : World) : same_renders w w.
Proof. split; reflexivity. Qed.

Lemma same_renders_trans (w1 w2 w3 : World) :
  same_renders w1 w2 -> same_renders w2 w3 -> same_renders w1 w3.
Proof. intros [A1 B1] [A2 B2]. split; congruence. Qed.

Lemma same_renders_call (c : Call) (w : World) :
  render_fences [c] = [] -> same_renders w (set_trace (fun t => t ++ [c]) w).
Proof.
  intros H. split; [|reflexivity]. unfold render_fences in *. simpl trace.
  now rewrite omap_app, H, app_nil_r.
Qed.

Ltac same_renders_leaf :=
  lazymatch goal with
  | |- run_rel _ (call _ _) =>
      apply run_rel_call; intros ?; apply same_renders_call; reflexivity
  | |- run_rel _ (call2 _ _) =>
      apply run_rel_call2; intros ?; apply same_renders_call; reflexivity
  | |- forall w, same_renders w _ => intros ?; split; reflexivity
  | |- _ => idtac
  end.

Ltac same_renders_auto :=
  repeat (run_rel_step same_renders_refl same_renders_trans ltac:(same_renders_leaf)).

Section GpuComposition.
Variable env : Env.

Lemma ApplyLayerImage_renders (l : N) (r : ImageRect) (img : ImageMetadata) (a b : N) :
  run_rel same_renders (ApplyLayerImage env l r img a b).
Proof. autounfold with compositor. same_renders_auto. Qed.

(** One round of the loop of [PerformGpuComposition]. *)
Lemma compose_display_Some (datas : list RenderData) (i : nat) (w : World)
    (r : option bool) (w' : World) :
  compose_display env datas i w = Some (r, w') ->
  exists data d,
    datas !! i = Some data
    /\ display_engine_data_map_ w !! display_id data = Some d
    /\ ((vmo_count d = 0 /\ r = Some false /\ same_renders w w')
        \/ (vmo_count d <> 0
            /\ r <> Some true
            /\ display_engine_data_map_ w'
               = <[display_id data := advance_back_buffer d]> (display_engine_data_map_ w)
            /\ render_fences (trace w')
               = render_fences (trace w) ++ [Nat.eqb i (length datas - 1)])).
Proof.
  intros H. unfold compose_display in H.
  apply bind_Some in H as (rd & wa & Hrd & H). apply index_Some in Hrd as [Hrd ->].
  apply bind_Some in H as (wb & wc & Hg & H). injection Hg as Hg1 Hg2. subst wb wc.
  destruct (display_engine_data_map_ w !! display_id rd) as [ded|] eqn:Hded;
    [|discriminate].
  exists rd, ded. split; [exact Hrd|]. split; [exact Hded|].
  apply bind_Some in H as (u & w1 & Hcc & H).
  assert (S1 : same_renders w w1).
  { apply (run_rel_elim _ _ _ _ _ Hcc). same_renders_auto. }
  destruct (vmo_count ded =? 0) eqn:Hcount.
  { injection H as <- <-. left. apply N.eqb_eq in Hcount. auto. }
  right. apply N.eqb_neq in Hcount. split; [exact Hcount|].
  apply bind_Some in H as (wb & wc & Hg & H). injection Hg as Hg1 Hg2. subst wb wc.
  apply bind_Some in H as (target & wa & Ht & H). apply index_Some in Ht as [Ht ->].
  apply bind_Some in H as (fe & wa & Hfe & H). apply index_Some in Hfe as [Hfe ->].
  apply bind_Some in H as (u1 & w2 & Hset & H).
  unfold set_engine_data, modify in Hset. injection Hset as _ Hset.
  apply bind_Some in H as (u2 & w3 & Hrender & H).
  unfold call_, call, bind, ret in Hrender. injection Hrender as _ Hrender.
  apply bind_Some in H as (layer & wa & Hl & H). apply index_Some in Hl as [Hl ->].
  apply bind_Some in H as (u3 & w4 & Hsl & H).
  apply bind_Some in H as (u4 & w5 & Hali & H).
  apply bind_Some in H as (ok & w6 & Hchk & H).
  assert (S6 : same_renders w3 w6).
  { eapply same_renders_trans;
      [apply (run_rel_elim _ _ _ _ _ Hsl); autounfold with compositor; same_renders_auto|].
    eapply same_renders_trans; [eapply ApplyLayerImage_renders, Hali|].
    apply (run_rel_elim _ _ _ _ _ Hchk). autounfold with compositor. same_renders_auto. }
  assert (Hw' : w' = w6 /\ r <> Some true).
  { destruct (negb ok); injection H as <- <-; split; auto; discriminate. }
  destruct Hw' as [-> Hr]. split; [exact Hr|].
  destruct S1 as [R1 M1]. destruct S6 as [R6 M6]. split.
  - rewrite M6, <- Hrender, <- Hset. simpl. rewrite M1.
    unfold advance_back_buffer. rewrite Hfe. reflexivity.
  - rewrite R6, <- Hrender. simpl. unfold render_fences at 1. rewrite omap_app.
    simpl. rewrite <- Hset. simpl. fold (render_fences (trace w1)). now rewrite R1.
Qed.

Lemma same_counts_refl (w : World) : same_counts w w.
Proof. intros id d H. eauto. Qed.

Lemma same_counts_trans (w1 w2 w3 : World) :
  same_counts w1 w2 -> same_counts w2 w3 -> same_counts w1 w3.
Proof.
  intros H1 H2 id d Hd. destruct (H1 id d Hd) as (d' & Hd' & E1).
  destruct (H2 id d' Hd') as (d'' & Hd'' & E2). exists d''. split; [exact Hd''|congruence].
Qed.

Lemma compose_display_counts (datas : list RenderData) (i : nat) :
  run_rel same_counts (compose_display env datas i).
Proof.
  intros w r w' H id d Hd.
  destruct (compose_display_Some _ _ _ _ _ H)
    as (data & d0 & _ & Hd0 & [(_ & _ & _ & Hm)|(_ & _ & Hm & _)]).
  - rewrite Hm. eauto.
  - rewrite Hm, lookup_insert. destruct (decide (display_id data = id)) as [<-|Hne].
    + exists (advance_back_buffer d0). split; [reflexivity|]. simpl. congruence.
    + eauto.
Qed.

Lemma compose_loop (datas : list RenderData) :
  forall n i w w',
    for_range i n (compose_display env datas) w = Some (None, w') ->
    display_engine_data_map_ w'
    = foldl advance_display (display_engine_data_map_ w)
        (map display_id (take n (drop i datas)))
    /\ render_fences (trace w')
       = render_fences (trace w) ++ map (fun j => Nat.eqb j (length datas - 1)) (seq i n).
Proof.
  induction n as [|n IH]; intros i w w' H; cbn [for_range] in H.
  - injection H as <-. simpl. now rewrite app_nil_r.
  - apply bind_Some in H as (r1 & w1 & H1 & H).
    destruct r1 as [b|]; [discriminate|].
    destruct (compose_display_Some _ _ _ _ _ H1)
      as (data & d & Hdata & Hd & [(_ & Hr & _)|(_ & Hr & Hm & Hf)]); [discriminate|].
    destruct (IH _ _ _ H) as [Hm' Hf'].
    rewrite (drop_S _ _ _ Hdata). cbn [take map foldl seq].
    split.
    + assert (Hadv : advance_display (display_engine_data_map_ w) (display_id data)
                     = <[display_id data := advance_back_buffer d]>
                         (display_engine_data_map_ w))
        by (unfold advance_display; now rewrite Hd).
      now rewrite Hm', Hm, Hadv.
    + rewrite Hf', Hf, <- app_assoc. reflexivity.
Qed.

Lemma last_only (n : nat) :
  map (fun j => Nat.eqb j (n - 1)) (seq 0 n)
  = match n with O => [] | S m => replicate m false ++ [true] end.
Proof.
  destruct n as [|m]; [reflexivity|].
  replace (S m - 1)%nat with m by lia. rewrite seq_S, map_app. simpl.
  rewrite Nat.eqb_refl. f_equal.
  assert (H : forall k, (k <= m)%nat ->
                        map (fun j => Nat.eqb j m) (seq 0 k) = replicate k false).
  { induction k as [|k IHk]; intros Hk; [reflexivity|].
    rewrite seq_S, map_app, IHk by lia. cbn [map Nat.add].
    replace (Nat.eqb k m) with false by (symmetry; apply Nat.eqb_neq; lia).
    symmetry. apply replicate_S_end. }
  apply H. lia.
Qed.

(** X16.  When [PerformGpuComposition] returns [true], every
    display of the frame has moved on to its next back buffer (once for each
    time it occurs in the frame), the frame event of the buffer rendered
    into having been cleared; the renderer was asked to render once per
    display, with the render-finished fence for the last display only; and
    the last call made hands the frame to the release-fence manager. *)
Theorem gpu_composition_rotates_back_buffers (fn : N) (pt : Z) (datas : list RenderData)
    (rf : list N) (cb : N) (w w' : World) :
  PerformGpuComposition env fn pt datas rf cb w = Some (true, w') ->
  display_engine_data_map_ w'
  = foldl advance_display (display_engine_data_map_ w) (map display_id datas)
  /\ render_fences (trace w')
     = render_fences (trace w)
       ++ match datas with
          | [] => []
          | _ :: rest => replicate (length rest) false ++ [true]
          end
  /\ last (trace w') = Some (RfmOnGpuCompositedFrame fn rf cb).
Proof.
  intros H. unfold PerformGpuComposition in H.
  apply bind_Some in H as (r & w1 & Hloop & H). destruct r as [b|].
  { injection H as -> _. exfalso.
    apply (returns_for_range (fun r => r <> Some true) _ ltac:(discriminate)
             (compose_display_returns env datas) _ _ _ _ _ Hloop).
    reflexivity. }
  apply compose_loop in Hloop as [Hm Hf]. rewrite drop_0, firstn_all in Hm.
  rewrite last_only in Hf.
  unfold call_, call, bind, ret in H. injection H as <-. simpl.
  split; [exact Hm|]. split.
  - unfold render_fences at 1. rewrite omap_app. simpl. rewrite app_nil_r.
    fold (render_fences (trace w1)). rewrite Hf. now destruct datas.
  - apply last_snoc.
Qed.

(** X17.  GPU composition fails for a frame that shows a display
    without back buffers ([vmo_count = 0], as [AddDisplay] leaves it when
    asked for no render targets): [PerformGpuComposition] returns [false],
    hands nothing to the release-fence manager and leaves the queue of
    applied configurations alone. *)
Theorem gpu_composition_needs_render_targets (fn : N) (pt : Z) (datas : list RenderData)
    (rf : list N) (cb : N) (w : World) (b : bool) (w' : World) (data : RenderData)
    (d : DisplayEngineData) :
  In data datas ->
  display_engine_data_map_ w !! display_id data = Some d ->
  vmo_count d = 0 ->
  PerformGpuComposition env fn pt datas rf cb w = Some (b, w') ->
  b = false
  /\ handed_off (trace w') = handed_off (trace w)
  /\ pending_apply_configs_ w' = pending_apply_configs_ w.
Proof.
  intros Hin Hd Hcount H. unfold PerformGpuComposition in H.
  apply bind_Some in H as (r & w1 & Hloop & H).
  assert (Hl : same_ledger w w1).
  { eapply (run_rel_for_range _ same_ledger_refl same_ledger_trans), Hloop.
    intros i. apply compose_display_ledger. }
  destruct r as [b0|].
  - injection H as <- <-. destruct Hl as (A & _ & C). split; [|auto].
    destruct b0; [exfalso|reflexivity].
    apply (returns_for_range (fun r => r <> Some true) _ ltac:(discriminate)
             (compose_display_returns env datas) _ _ _ _ _ Hloop).
    reflexivity.
  - exfalso. apply list_elem_of_In, list_elem_of_lookup in Hin as [j Hj].
    apply (for_range_none same_counts (compose_display env datas)
             (fun j => forall data d, datas !! j = Some data ->
                         display_engine_data_map_ w !! display_id data = Some d ->
                         vmo_count d <> 0)
             w same_counts_trans (compose_display_counts datas)) with
      (n := length datas) (i := 0%nat) (w := w) (w' := w1) (j := j) (data := data) (d := d);
      auto using same_counts_refl.
    + intros k wk wk' Hk Hb data' d' Hdata' Hd'.
      destruct (compose_display_Some _ _ _ _ _ Hb)
        as (data'' & d'' & Hdata'' & Hd'' & [(_ & Hr & _)|(Hc & _)]); [discriminate|].
      assert (data'' = data') as -> by congruence.
      destruct (Hk _ _ Hd') as (d3 & Hd3 & <-). congruence.
    + apply lookup_lt_Some in Hj. lia.
Qed.

End GpuComposition.


(** ** The committed direct-scanout frame *)
Ltac extends_leaf :=
  lazymatch goal with
  | |- run_rel _ (call _ _) =>
      apply run_rel_call; intros ?; apply extends_by_call; reflexivity
  | |- run_rel _ (call2 _ _) =>
      apply run_rel_call2; intros ?; apply extends_by_call; reflexivity
  | |- forall w, extends_by _ w _ => intros ?; exists []; simpl; now rewrite app_nil_r
  | |- _ => idtac
  end.

Ltac extends_auto allowed :=
  repeat (run_rel_step (extends_by_refl allowed) (extends_by_trans allowed)
            ltac:(extends_leaf)).

Section DirectScanout.
Variable env : Env.

Lemma fallback_to_gpu_composition_no_renderer (datas : list RenderData) :
  run_rel (extends_by (fun c => negb (is_renderer_call c)))
    (fallback_to_gpu_composition env datas).
Proof.
  autounfold with compositor. extends_auto (fun c => negb (is_renderer_call c)).
Qed.

Lemma planning_displays (datas : list RenderData) :
  run_rel planner_keeps (fallback_to_gpu_composition env datas).
Proof.
  unfold fallback_to_gpu_composition, SetRenderDatasOnDisplay, CheckConfig.
  planner_keeps_auto;
    first [apply DiscardConfig_keeps | apply set_render_data_and_cc_keeps].
Qed.

(** The [else] branch of [RenderFrame] ends with the hand-off to the
    release-fence manager and the two calls of [ApplyConfig]. *)
Lemma direct_branch_calls (fn : N) (rf : list N) (cb : N) (w w' : World) :
  direct_branch env fn rf cb w = Some (tt, w') ->
  trace w' = trace w ++ [RfmOnDirectScanoutFrame fn rf cb; DcApplyConfig;
                         DcGetLatestAppliedConfigStamp]
  /\ display_engine_data_map_ w' = display_engine_data_map_ w
  /\ exists stamp,
       pending_apply_configs_ w'
       = pending_apply_configs_ w ++ [{| config_stamp := stamp; frame_number := fn |}].
Proof.
  unfold direct_branch. intros H.
  apply bind_Some in H as (u & wa & Hm & H). injection Hm as _ <-.
  apply bind_Some in H as (wb & wc & Hg & H). injection Hg as <- <-.
  apply bind_Some in H as (r & wd & Hl & H).
  rewrite unsignal_loop in Hl. injection Hl as _ <-.
  unfold apply_and_enqueue, ApplyConfig, call_, call, bind, ret, get, modify in H.
  injection H as <-. simpl. rewrite <- !app_assoc. simpl. eauto.
Qed.

(** X18.  On a committed direct-scanout frame (planning succeeded,
    the toggle is off and [CheckConfig] answered OK) [RenderFrame] makes no
    call to the renderer; its calls end with [CheckConfig], the hand-off
    [OnDirectScanoutFrame] and the two calls of [ApplyConfig]; the back
    buffers are untouched and the queue of applied configurations grows by
    one entry carrying the frame number. *)
Theorem direct_scanout_skips_renderer (fn : N) (pt : Z) (datas : list RenderData)
    (rf : list N) (cb : N) (w w1 w3 : World) :
  (DiscardConfig env ;;; SetRenderDatasOnDisplay env datas) w = Some (true, w1) ->
  kDisableDisplayComposition env = false ->
  env_status env (trace w1) (DcCheckConfig false) = true ->
  RenderFrame env fn pt datas rf cb w = Some (tt, w3) ->
  (exists cs,
     new_calls w w3 = cs ++ [DcCheckConfig false; RfmOnDirectScanoutFrame fn rf cb;
                             DcApplyConfig; DcGetLatestAppliedConfigStamp]
     /\ forallb (fun c => negb (is_renderer_call c)) cs = true)
  /\ display_engine_data_map_ w3 = display_engine_data_map_ w
  /\ exists stamp,
       pending_apply_configs_ w3
       = pending_apply_configs_ w ++ [{| config_stamp := stamp; frame_number := fn |}].
Proof.
  intros Hplan Hk Hc Hrun.
  destruct (fallback_value env datas w true w1 Hplan) as (w2 & Hfb & Hw2).
  rewrite Hk, Hc in Hfb. simpl in Hfb.
  assert (Hw2' : w2 = set_trace (fun t => t ++ [DcCheckConfig false]) w1).
  { destruct Hw2 as [-> | ->]; [|reflexivity]. exfalso.
    apply bind_Some in Hplan as (u & w0 & Hd & Hs).
    unfold fallback_to_gpu_composition in Hfb. unfold bind at 1 in Hfb.
    rewrite Hd in Hfb. unfold bind at 1 in Hfb. rewrite Hs, Hk in Hfb. simpl in Hfb.
    unfold CheckConfig, call, bind, ret in Hfb. injection Hfb as _ Hfb.
    apply (f_equal trace) in Hfb. simpl in Hfb.
    apply (f_equal (@length Call)) in Hfb. rewrite length_app in Hfb. simpl in Hfb. lia. }
  subst w2.
  unfold RenderFrame in Hrun. unfold bind at 1 in Hrun. rewrite Hfb in Hrun.
  apply direct_branch_calls in Hrun as (Ht & Hm & stamp & Hp).
  assert (Hplan' : extends_by (fun c => negb (is_renderer_call c)) w w1).
  { apply (run_rel_elim _ _ _ _ _ Hplan).
    autounfold with compositor. extends_auto (fun c => negb (is_renderer_call c)). }
  assert (Hkeep : planner_keeps w w1).
  { apply (run_rel_elim _ _ _ _ _ Hplan). unfold SetRenderDatasOnDisplay.
    planner_keeps_auto;
      first [apply DiscardConfig_keeps | apply set_render_data_and_cc_keeps]. }
  assert (Hdrop : frame_dropped w w1).
  { apply (run_rel_elim _ _ _ _ _ Hplan).
    apply (run_rel_bind _ frame_dropped_trans); [apply DiscardConfig_dropped|].
    intros _. apply SetRenderDatasOnDisplay_dropped. }
  destruct Hplan' as (cs & Hcs & Hall). simpl in Ht, Hm, Hp. split; [|split].
  - exists cs. split; [|exact Hall]. unfold new_calls.
    rewrite Ht, Hcs, <- !app_assoc, drop_app_length. reflexivity.
  - rewrite Hm. apply Hkeep.
  - exists stamp. rewrite Hp. destruct Hdrop as [_ ->]. reflexivity.
Qed.

End DirectScanout.


(** ** The current back buffer *)
Lemma displays_kept_refl (w : World) : displays_kept w w.
Proof. intros H. exact H. Qed.

Lemma displays_kept_trans (w1 w2 w3 : World) :
  displays_kept w1 w2 -> displays_kept w2 w3 -> displays_kept w1 w3.
Proof. unfold displays_kept. auto. Qed.

Lemma displays_kept_same (w w' : World) :
  display_engine_data_map_ w' = display_engine_data_map_ w -> displays_kept w w'.
Proof. intros E H id d Hd. rewrite E in Hd. eauto. Qed.

Lemma inert_displays_kept (w w' : World) : inert w w' -> displays_kept w w'.
Proof. intros (_ & _ & D & _). now apply displays_kept_same. Qed.

Lemma advance_back_buffer_ok (d : DisplayEngineData) :
  vmo_count d <> 0 -> buffers_ok d -> buffers_ok (advance_back_buffer d).
Proof.
  intros Hc (F & T & C). unfold buffers_ok, advance_back_buffer. simpl.
  split; [|split; [exact T|]].
  - destruct (frame_event_datas d !! N.to_nat (curr_vmo d)); [|exact F].
    now rewrite length_insert.
  - right. now apply N.mod_lt.
Qed.

Section BackBuffers.
Variable env : Env.

Lemma compose_display_kept (datas : list RenderData) (i : nat) :
  run_rel displays_kept (compose_display env datas i).
Proof.
  intros w r w' H Hok id d Hd.
  destruct (compose_display_Some env _ _ _ _ _ H)
    as (data & d0 & _ & Hd0 & [(_ & _ & _ & Hm)|(Hc & _ & Hm & _)]).
  - rewrite Hm in Hd. eauto.
  - rewrite Hm, lookup_insert in Hd.
    destruct (decide (display_id data = id)) as [<-|Hne]; [|eauto].
    injection Hd as <-. apply advance_back_buffer_ok; eauto.
Qed.

Lemma RenderFrame_kept (fn : N) (pt : Z) (datas : list RenderData) (rf : list N) (cb : N) :
  run_rel displays_kept (RenderFrame env fn pt datas rf cb).
Proof.
  intros w u w' H. unfold RenderFrame in H.
  apply bind_Some in H as (fb & w1 & Hfb & H).
  eapply displays_kept_trans.
  { apply displays_kept_same. eapply (planning_displays env), Hfb. }
  destruct fb.
  - revert H. unfold gpu_branch, PerformGpuComposition.
    apply (run_rel_bind _ displays_kept_trans).
    { intros wa ua wb Ha. apply displays_kept_same. eapply DiscardConfig_keeps, Ha. }
    intros _. apply (run_rel_bind _ displays_kept_trans).
    + apply (run_rel_bind _ displays_kept_trans).
      * apply (run_rel_for_range _ displays_kept_refl displays_kept_trans).
        intros i. apply compose_display_kept.
      * intros [b|]; [apply (run_rel_ret _ displays_kept_refl)|].
        apply (run_rel_bind _ displays_kept_trans);
          [|intros _; apply (run_rel_ret _ displays_kept_refl)].
        intros wa ua wb Ha. apply inert_displays_kept.
        apply (run_rel_elim _ _ _ _ _ Ha). unfold call_. inert_auto.
    + intros ok. destruct (negb ok); [apply (run_rel_ret _ displays_kept_refl)|].
      intros wa ua wb Ha. eapply inert_displays_kept, apply_and_enqueue_inert, Ha.
  - destruct u. apply (direct_branch_calls env) in H as (_ & Hm & _).
    now apply displays_kept_same.
Qed.

Lemma AddDisplay_kept (id : N) (info : DisplayInfo) (n : N) (w w' : World) :
  display_engine_data_map_ w !! id = None ->
  AddDisplay env id info n w = Some (tt, w') ->
  displays_kept w w'.
Proof.
  intros Hfresh H Hok id' d' Hd'.
  destruct (AddDisplay_Some env id info n w w' Hfresh H)
    as (_ & d & Hm & _ & Hc & Hcur & Hf & _ & Ht & _).
  rewrite Hm, lookup_insert in Hd'.
  destruct (decide (id = id')) as [<-|Hne]; [|eauto].
  injection Hd' as <-. unfold buffers_ok. rewrite Hf, Ht, Hc, Hcur.
  split; [reflexivity|]. split; [reflexivity|]. lia.
Qed.

Lemma signal_kept (f : FrameEventData -> FrameEventData) (w w' : World) :
  display_engine_data_map_ w' = on_frame_events f <$> display_engine_data_map_ w ->
  displays_kept w w'.
Proof.
  intros E Hok id d' Hd'. rewrite E, lookup_fmap in Hd'.
  destruct (display_engine_data_map_ w !! id) as [d|] eqn:Hd; [|discriminate].
  injection Hd' as <-. destruct (Hok id d Hd) as (F & T & C).
  unfold buffers_ok. simpl. rewrite length_map. auto.
Qed.

Lemma method_step_kept (w w' : World) : method_step env w w' -> displays_kept w w'.
Proof.
  intros [id token usage w0 b w0' H
         |id usage w0 w0' H
         |metadata usage w0 b w0' H
         |id w0 w0' H
         |id info n w0 w0' Hfresh H
         |fn pt datas rf cb w0 w0' H
         |t stamp w0 w0' H
         |cc w0 w0' H
         |v w0 b w0' H
         |id w0
         |id w0].
  - eapply inert_displays_kept, ImportBufferCollection_inert, H.
  - eapply inert_displays_kept, ReleaseBufferCollection_inert, H.
  - eapply inert_displays_kept, ImportBufferImage_inert, H.
  - apply displays_kept_same.
    unfold ReleaseBufferImage, call_, call, bind, ret, modify in H. now injection H as <-.
  - eapply AddDisplay_kept; eassumption.
  - eapply RenderFrame_kept, H.
  - eapply inert_displays_kept, OnVsync_inert, H.
  - eapply inert_displays_kept, SetColorConversionValues_inert, H.
  - eapply inert_displays_kept, SetMinimumRgb_inert, H.
  - apply (signal_kept (signal_frame_event id)). reflexivity.
  - apply (signal_kept (signal_wait_event id)). reflexivity.
Qed.

(** X19.  In every state reached from a compositor without
    displays, by calls of its methods and signals on its events, the current
    back buffer of a display that has back buffers is one of them:
    [curr_vmo < vmo_count], and both the frame event and the (unprotected)
    render target that [PerformGpuComposition] reads at [curr_vmo] exist. *)
Theorem back_buffer_in_range (w0 w : World) (id : N) (d : DisplayEngineData) :
  display_engine_data_map_ w0 = ∅ ->
  method_steps env w0 w ->
  display_engine_data_map_ w !! id = Some d ->
  vmo_count d <> 0 ->
  curr_vmo d < vmo_count d
  /\ is_Some (frame_event_datas d !! N.to_nat (curr_vmo d))
  /\ is_Some (render_targets d !! N.to_nat (curr_vmo d)).
Proof.
  intros Hempty Hsteps Hd Hc.
  assert (Hok : displays_ok w).
  { assert (H0 : displays_ok w0).
    { intros id' d' Hd'. rewrite Hempty, lookup_empty in Hd'. discriminate. }
    clear Hempty Hd. induction Hsteps as [w1|w1 w2 w3 Hs _ IH]; [exact H0|].
    apply IH. eapply method_step_kept; eassumption. }
  destruct (Hok id d Hd) as (F & T & [C|C]); [contradiction|].
  split; [exact C|]. split; apply lookup_lt_is_Some; lia.
Qed.

End BackBuffers.


(** ** Images and layers *)
Lemma planner_grows_refl (w : World) : planner_grows w w.
Proof. split; [apply extends_by_refl | apply planner_keeps_refl]. Qed.

Lemma planner_grows_trans (w1 w2 w3 : World) :
  planner_grows w1 w2 -> planner_grows w2 w3 -> planner_grows w1 w3.
Proof.
  intros [A1 B1] [A2 B2].
  split; [eapply extends_by_trans | eapply planner_keeps_trans]; eassumption.
Qed.

Lemma In_new_calls_grows (w w1 w2 : World) (c : Call) :
  extends_by (fun _ => true) w w1 -> extends_by (fun _ => true) w1 w2 ->
  In c (new_calls w w1) -> In c (new_calls w w2).
Proof.
  intros (c1 & H1 & _) (c2 & H2 & _). unfold new_calls.
  rewrite H2, H1, <- app_assoc, !drop_app_length. intros H. apply in_or_app. now left.
Qed.

Lemma In_new_calls_later (w w1 w2 : World) (c : Call) :
  extends_by (fun _ => true) w w1 -> extends_by (fun _ => true) w1 w2 ->
  In c (new_calls w1 w2) -> In c (new_calls w w2).
Proof.
  intros (c1 & H1 & _) (c2 & H2 & _). unfold new_calls.
  rewrite H2, H1, <- app_assoc, !drop_app_length. rewrite app_assoc, drop_app_length.
  intros H. apply in_or_app. now right.
Qed.

Section Layers.
Variable env : Env.

Lemma extends_any_planner (data : RenderData) :
  run_rel (extends_by (fun _ => true)) (SetRenderDataOnDisplay env data).
Proof. autounfold with compositor. extends_auto (fun _ : Call => true). Qed.

Lemma check_image_event_grows (data : RenderData) (i : nat) :
  run_rel planner_grows (check_image_event env data i).
Proof.
  intros w r w' H. split; [|eapply check_image_event_keeps, H].
  apply (run_rel_elim _ _ _ _ _ H). autounfold with compositor.
  extends_auto (fun _ : Call => true).
Qed.

Lemma assign_layer_grows_trace (data : RenderData) (ls : list N) (i : nat) :
  run_rel planner_grows (assign_layer env data ls i).
Proof.
  intros w r w' H. split.
  - apply (run_rel_elim _ _ _ _ _ H). autounfold with compositor.
    extends_auto (fun _ : Call => true).
  - apply (run_rel_elim _ _ _ _ _ H).
    unfold assign_layer, supports_display_index, display_info_index, ApplyLayerColor,
      ApplyLayerImage, CreateImageConfig, call_.
    planner_keeps_auto. apply image_event_index_keeps.
Qed.

(** The first loop leaves an event for every image it visited. *)
Lemma check_loop_events (data : RenderData) :
  forall n i w w',
    for_range i n (check_image_event env data) w = Some (None, w') ->
    forall j img, (i <= j < i + n)%nat -> images data !! j = Some img ->
                  is_Some (image_event_map_ w' !! identifier img).
Proof.
  induction n as [|n IH]; intros i w w' H j img Hj Himg; [lia|].
  cbn [for_range] in H. apply bind_Some in H as (r1 & w1 & H1 & H).
  destruct r1 as [b|]; [discriminate|].
  destruct (decide (j = i)) as [->|Hne]; [|eapply (IH (S i)); eauto; lia].
  assert (Hrest : planner_keeps w1 w').
  { eapply (run_rel_for_range _ planner_keeps_refl planner_keeps_trans), H.
    intros k. apply check_image_event_keeps. }
  rewrite (check_image_event_eq _ _ _ _ _ Himg) in H1.
  assert (Hnow : is_Some (image_event_map_ w1 !! identifier img)).
  { destruct (image_event_map_ w !! identifier img) as [e|] eqn:He.
    - destruct (wait_one_signaled (signal_event e)); [|discriminate].
      injection H1 as <-. simpl. rewrite He. eauto.
    - injection H1 as <-. simpl. rewrite lookup_insert_eq. eauto. }
  destruct Hnow as [e He]. exists e. now apply Hrest.
Qed.

Lemma ApplyLayerImage_calls (l : N) (r : ImageRect) (img : ImageMetadata) (a b : N)
    (w : World) (u : unit) (w' : World) :
  ApplyLayerImage env l r img a b w = Some (u, w') ->
  exists cs, trace w' = trace w ++ cs /\ In (DcSetLayerImage l (identifier img) a b) cs.
Proof.
  unfold ApplyLayerImage. destruct (DisplaySrcDstFrames_New env r img) as [src dst].
  unfold bind at 1, get.
  destruct (buffer_collection_pixel_format_ w !! collection_id img); [|discriminate].
  intros H. apply bind_Some in H as (cfg & w1 & Hc & H).
  apply CreateImageConfig_Some in Hc as [-> _].
  destruct (multiply_color img) as [[[c0 c1] c2] c3].
  unfold call_, call, bind, ret in H. injection H as _ <-.
  eexists. simpl. rewrite <- ?app_assoc. split; [reflexivity|]. simpl. auto.
Qed.

(** The second loop puts image [j] on layer [j], with no fence to wait on
    and with the image's own event as the fence to signal. *)
Lemma assign_loop_layers (data : RenderData) (ls : list N) (w0 : World) :
  forall n i w w',
    planner_grows w0 w ->
    for_range i n (assign_layer env data ls) w = Some (None, w') ->
    forall j img e,
      (i <= j < i + n)%nat -> images data !! j = Some img ->
      identifier img <> kInvalidImageId ->
      image_event_map_ w0 !! identifier img = Some e ->
      exists l, ls !! j = Some l
                /\ In (DcSetLayerImage l (identifier img) 0 (signal_id e)) (new_calls w0 w').
Proof.
  induction n as [|n IH]; intros i w w' Hw H j img e Hj Himg Hid He; [lia|].
  cbn [for_range] in H. apply bind_Some in H as (r1 & w1 & H1 & H).
  destruct r1 as [b|]; [discriminate|].
  pose proof (assign_layer_grows_trace _ _ _ _ _ _ H1) as Hstep.
  destruct (decide (j = i)) as [->|Hne].
  2:{ eapply (IH (S i) w1 w'); eauto; [|lia].
      eapply planner_grows_trans; eassumption. }
  assert (Hrest : planner_grows w1 w').
  { eapply (run_rel_for_range _ planner_grows_refl planner_grows_trans), H.
    intros k. apply assign_layer_grows_trace. }
  unfold assign_layer, index in H1. rewrite Himg in H1.
  unfold bind at 1, ret at 1 in H1.
  apply N.eqb_neq in Hid. rewrite Hid in H1. cbn [negb] in H1.
  apply bind_Some in H1 as (s & wa & Hsup & H1).
  assert (Hka : planner_keeps w wa /\ extends_by (fun _ => true) w wa).
  { unfold supports_display_index, bind, get, modify, ret in Hsup.
    destruct (buffer_collection_supports_display_ w !! collection_id img);
      injection Hsup as _ <-; (split; [apply planner_keeps_refl || (split; auto)|]);
      exists []; simpl; now rewrite app_nil_r. }
  destruct Hka as [Hka Hea].
  destruct s; [|discriminate].
  destruct (ls !! i) as [l|] eqn:Hl; [|discriminate].
  unfold bind at 1, ret at 1 in H1.
  destruct (rectangles data !! i) as [rect|]; [|discriminate].
  unfold bind at 1, ret at 1 in H1.
  apply bind_Some in H1 as (e' & wb & Hidx & H1).
  assert (e' = e /\ wb = wa) as [-> ->].
  { unfold image_event_index, bind, get in Hidx.
    destruct Hw as [_ Hkw]. apply Hkw, Hka in He. rewrite He in Hidx.
    now injection Hidx as <- <-. }
  apply bind_Some in H1 as (u & wc & Hali & H1). injection H1 as Hwc. subst w1.
  exists l. split; [reflexivity|].
  apply ApplyLayerImage_calls in Hali as (cs & Hcs & Hin).
  destruct Hw as [Hew _]. destruct Hrest as [Her _].
  assert (Hwa : extends_by (fun _ => true) w0 wa)
    by (eapply extends_by_trans; eassumption).
  apply (In_new_calls_grows w0 wc w'); [|exact Her|].
  - destruct Hwa as (c1 & Hc1 & _). exists (c1 ++ cs).
    split; [now rewrite Hcs, Hc1, app_assoc | apply forallb_forall; auto].
  - destruct Hwa as (c1 & Hc1 & _). unfold new_calls.
    rewrite Hcs, Hc1, <- app_assoc, drop_app_length. apply in_or_app. now right.
Qed.

(** X20.  When [SetRenderDataOnDisplay] succeeds, the display
    controller was given the first layers of the display, as many as the
    frame has images, and each image that is not a solid colour was set on
    the layer of its index, with no fence to wait on and with the image's
    own event as the fence to signal. *)
Theorem direct_scanout_layers (data : RenderData) (w w' : World) (d : DisplayEngineData) :
  SetRenderDataOnDisplay env data w = Some (true, w') ->
  N.of_nat (length (images data)) < 2 ^ 32 ->
  display_engine_data_map_ w !! display_id data = Some d ->
  In (DcSetDisplayLayers (display_id data) (take (length (images data)) (layers d)))
    (new_calls w w')
  /\ forall i img,
       images data !! i = Some img -> identifier img <> kInvalidImageId ->
       exists l e,
         layers d !! i = Some l
         /\ image_event_map_ w' !! identifier img = Some e
         /\ In (DcSetLayerImage l (identifier img) 0 (signal_id e)) (new_calls w w').
Proof.
  intros H Hlen Hd. unfold SetRenderDataOnDisplay in H.
  rewrite (uint32_small _ Hlen), Nat2N.id in H.
  unfold bind at 1, get in H. rewrite Hd in H.
  destruct (N.of_nat (length (layers d)) <? N.of_nat (length (images data)));
    [discriminate|].
  apply bind_Some in H as (r & w1 & Hloop & H).
  assert (G1 : planner_grows w w1).
  { eapply (run_rel_for_range _ planner_grows_refl planner_grows_trans), Hloop.
    intros i. apply check_image_event_grows. }
  destruct r as [b|].
  { injection H as -> _. exfalso.
    apply (returns_for_range (fun r => r <> Some true) _ ltac:(discriminate)
             (check_image_event_returns env data) _ _ _ _ _ Hloop).
    reflexivity. }
  apply bind_Some in H as (u & w2 & Hl & H).
  unfold SetDisplayLayers, call_, call, bind, ret in Hl. injection Hl as _ Hw2.
  apply bind_Some in H as (r2 & w3 & Hloop2 & H).
  destruct r2 as [b|].
  { injection H as -> _. exfalso.
    apply (returns_for_range (fun r => r <> Some true) _ ltac:(discriminate)
             (assign_layer_returns env data (layers d)) _ _ _ _ _ Hloop2).
    reflexivity. }
  injection H as <-.
  assert (G2 : planner_grows w1 w2).
  { subst w2. split; [now apply extends_by_call | split; auto]. }
  assert (G3 : planner_grows w2 w3).
  { eapply (run_rel_for_range _ planner_grows_refl planner_grows_trans), Hloop2.
    intros i. apply assign_layer_grows_trace. }
  split.
  - apply (In_new_calls_grows w w2 w3); [|apply G3|].
    + eapply extends_by_trans; [apply G1 | apply G2].
    + destruct G1 as [(c1 & Hc1 & _) _]. unfold new_calls. subst w2. simpl.
      rewrite Hc1, <- app_assoc, drop_app_length. apply in_or_app. right. now left.
  - intros i img Himg Hid.
    destruct (check_loop_events data _ _ _ _ Hloop i img) as [e He];
      [apply lookup_lt_Some in Himg; lia | exact Himg|].
    destruct (assign_loop_layers data (layers d) w1 _ _ _ _ G2 Hloop2 i img e)
      as (l & Hl & Hin); auto.
    { apply lookup_lt_Some in Himg. lia. }
    exists l, e. split; [exact Hl|]. split.
    + destruct G2 as [_ K2]. destruct G3 as [_ K3]. now apply K3, K2.
    + apply (In_new_calls_later w w1 w3); [apply G1 | | exact Hin].
      eapply extends_by_trans; [apply G2 | apply G3].
Qed.

End Layers.

(** ** The GPU path, from planning to the applied configuration *)

Lemma rendered_app (t cs : list Call) : rendered (t ++ cs) = rendered t ++ rendered cs.
Proof. apply omap_app. Qed.

Lemma rendered_no_renderer (cs : list Call) :
  forallb (fun c => negb (is_renderer_call c)) cs = true -> rendered cs = [].
Proof.
  induction cs as [|c cs IH]; [reflexivity|]. simpl. intros H.
  apply andb_prop in H as [Hc H]. unfold rendered in *. simpl. rewrite (IH H).
  now destruct c.
Qed.

(** Two accounts of the calls of one step are accounts of the same
    calls. *)
Lemma extends_by_both (p q : Call -> bool) (w w' : World) :
  extends_by p w w' -> extends_by q w w' ->
  exists cs, trace w' = trace w ++ cs /\ forallb p cs = true /\ forallb q cs = true.
Proof.
  intros (cs & E & Hp) (cs' & E' & Hq). exists cs. split; [exact E|]. split; [exact Hp|].
  rewrite E in E'. apply app_inv_head in E'. now subst cs'.
Qed.

Section GpuPath.
Variable env : Env.

(** A round of the loop of [PerformGpuComposition] that goes on to the
    next display has asked the renderer once, for the display's rectangles
    and images. *)
Lemma compose_display_rendered (datas : list RenderData) (i : nat) (w w' : World) :
  compose_display env datas i w = Some (None, w') ->
  exists data cs,
    datas !! i = Some data
    /\ trace w' = trace w ++ cs
    /\ forallb no_apply_no_handoff cs = true
    /\ rendered cs = [(rectangles data, images data)].
Proof.
  intros H.
  destruct (compose_display_dropped env datas i _ _ _ H) as [(cs & Hcs & Hall) _].
  unfold compose_display in H.
  apply bind_Some in H as (rd & wa & Hrd & H). apply index_Some in Hrd as [Hrd ->].
  apply bind_Some in H as (wb & wc & Hg & H). injection Hg as Hg1 Hg2. subst wb wc.
  destruct (display_engine_data_map_ w !! display_id rd) as [ded|]; [|discriminate].
  exists rd, cs. split; [exact Hrd|]. split; [exact Hcs|]. split; [exact Hall|].
  apply bind_Some in H as (u & w1 & Hcc & H).
  assert (S1 : extends_by (fun c => negb (is_renderer_call c)) w w1).
  { apply (run_rel_elim _ _ _ _ _ Hcc).
    extends_auto (fun c => negb (is_renderer_call c)). }
  destruct (vmo_count ded =? 0); [discriminate|].
  apply bind_Some in H as (wb & wc & Hg & H). injection Hg as Hg1 Hg2. subst wb wc.
  apply bind_Some in H as (target & wa & Ht & H). apply index_Some in Ht as [Ht ->].
  apply bind_Some in H as (fe & wa & Hfe & H). apply index_Some in Hfe as [Hfe ->].
  apply bind_Some in H as (u1 & w2 & Hset & H).
  unfold set_engine_data, modify in Hset. injection Hset as _ Hset.
  apply bind_Some in H as (u2 & w3 & Hrender & H).
  unfold call_, call, bind, ret in Hrender. injection Hrender as _ Hrender.
  apply bind_Some in H as (layer & wa & Hl & H). apply index_Some in Hl as [Hl ->].
  assert (S3 : extends_by (fun c => negb (is_renderer_call c)) w3 w').
  { change (extends_by (fun c => negb (is_renderer_call c)) w3 w').
    apply (run_rel_elim _ _ _ _ _ H). autounfold with compositor.
    extends_auto (fun c => negb (is_renderer_call c)). }
  destruct S1 as (c1 & E1 & A1). destruct S3 as (c3 & E3 & A3).
  rewrite <- Hrender in E3. simpl in E3. rewrite <- Hset in E3. simpl in E3.
  rewrite E1, <- !app_assoc in E3. rewrite Hcs in E3. apply app_inv_head in E3.
  subst cs. rewrite !rendered_app, (rendered_no_renderer _ A1), (rendered_no_renderer _ A3).
  reflexivity.
Qed.

Lemma compose_loop_rendered (datas : list RenderData) :
  forall n i w w',
    for_range i n (compose_display env datas) w = Some (None, w') ->
    exists cs,
      trace w' = trace w ++ cs
      /\ forallb no_apply_no_handoff cs = true
      /\ rendered cs = frame_contents (take n (drop i datas)).
Proof.
  induction n as [|n IH]; intros i w w' H; cbn [for_range] in H.
  - injection H as <-. exists []. now rewrite app_nil_r.
  - apply bind_Some in H as (r1 & w1 & H1 & H).
    destruct r1 as [b|]; [discriminate|].
    destruct (compose_display_rendered _ _ _ _ H1) as (data & c1 & Hdata & E1 & A1 & R1).
    destruct (IH _ _ _ H) as (c2 & E2 & A2 & R2).
    exists (c1 ++ c2). split; [now rewrite E2, E1, app_assoc|]. split.
    + rewrite forallb_app, A1, A2. reflexivity.
    + rewrite rendered_app, R1, R2, (drop_S _ _ _ Hdata). reflexivity.
Qed.

(** [PerformGpuComposition] that returns [true] has asked the renderer to
    render every display of the frame, and its last call hands the frame to
    the release-fence manager. *)
Lemma PerformGpuComposition_true (fn : N) (pt : Z) (datas : list RenderData)
    (rf : list N) (cb : N) (w w' : World) :
  PerformGpuComposition env fn pt datas rf cb w = Some (true, w') ->
  exists cs,
    trace w' = trace w ++ cs ++ [RfmOnGpuCompositedFrame fn rf cb]
    /\ forallb no_apply_no_handoff cs = true
    /\ rendered cs = frame_contents datas
    /\ pending_apply_configs_ w' = pending_apply_configs_ w.
Proof.
  intros H. unfold PerformGpuComposition in H.
  apply bind_Some in H as (r & w1 & Hloop & H). destruct r as [b|].
  { injection H as -> _. exfalso.
    apply (returns_for_range (fun r => r <> Some true) _ ltac:(discriminate)
             (compose_display_returns env datas) _ _ _ _ _ Hloop).
    reflexivity. }
  assert (Hq : frame_dropped w w1).
  { eapply (run_rel_for_range _ frame_dropped_refl frame_dropped_trans), Hloop.
    intros i. apply compose_display_dropped. }
  destruct (compose_loop_rendered _ _ _ _ _ Hloop) as (cs & E & A & R).
  rewrite drop_0, firstn_all in R.
  unfold call_, call, bind, ret in H. injection H as <-. simpl.
  exists cs. rewrite E, <- app_assoc. destruct Hq as [_ Hq]. auto.
Qed.

(** What becomes of a frame whose planning for direct scanout answered
    [false], once GPU composition has returned: composited and applied
    when it answered [true], dropped when it answered [false]. *)
Lemma planning_false_outcome (fn : N) (pt : Z) (datas : list RenderData) (rf : list N)
    (cb : N) (w w2 : World) (ok : bool) (wg : World) :
  (DiscardConfig env ;;; SetRenderDatasOnDisplay env datas) w = Some (false, w2) ->
  (DiscardConfig env ;;; PerformGpuComposition env fn pt datas rf cb) w2 = Some (ok, wg) ->
  if ok
  then exists w',
         RenderFrame env fn pt datas rf cb w = Some (tt, w')
         /\ composited_by_gpu fn rf cb datas w w'
  else RenderFrame env fn pt datas rf cb w = Some (tt, wg) /\ frame_dropped w wg.
Proof.
  intros Hplan Hgpu.
  rewrite (planning_false_gpu_branch env fn pt datas rf cb w w2 Hplan).
  assert (Hp : frame_dropped w w2).
  { apply (run_rel_elim _ _ _ _ _ Hplan).
    apply (run_rel_bind _ frame_dropped_trans); [apply DiscardConfig_dropped|].
    intros _. apply SetRenderDatasOnDisplay_dropped. }
  assert (Hr : extends_by (fun c => negb (is_renderer_call c)) w w2).
  { apply (run_rel_elim _ _ _ _ _ Hplan).
    autounfold with compositor. extends_auto (fun c => negb (is_renderer_call c)). }
  unfold gpu_branch. apply bind_Some in Hgpu as (u & wd & Hd & Hg).
  assert (Hdd : frame_dropped w2 wd) by (eapply DiscardConfig_dropped, Hd).
  assert (Hdr : extends_by (fun c => negb (is_renderer_call c)) w2 wd).
  { apply (run_rel_elim _ _ _ _ _ Hd).
    autounfold with compositor. extends_auto (fun c => negb (is_renderer_call c)). }
  destruct ok; unfold bind at 1; rewrite Hd; unfold bind at 1; rewrite Hg; simpl.
  - destruct (PerformGpuComposition_true _ _ _ _ _ _ _ Hg) as (cs & E & A & R & Q).
    eexists. split; [unfold apply_and_enqueue, ApplyConfig, call_, call, bind, ret, get,
                       modify; reflexivity|].
    destruct Hp as [Hp Hpq]. destruct Hdd as [Hdd Hdq].
    destruct (extends_by_both _ _ _ _ Hp Hr) as (c1 & E1 & A1 & R1).
    destruct (extends_by_both _ _ _ _ Hdd Hdr) as (c2 & E2 & A2 & R2).
    exists (c1 ++ c2 ++ cs), (env_stamp env (trace wg ++ [DcApplyConfig;
                                                         DcGetLatestAppliedConfigStamp])).
    split; [|split; [|split]].
    + unfold new_calls. simpl. rewrite E, E2, E1, <- !app_assoc. simpl.
      now rewrite drop_app_length.
    + now rewrite !forallb_app, A1, A2, A.
    + now rewrite !rendered_app, (rendered_no_renderer _ R1), (rendered_no_renderer _ R2).
    + simpl. rewrite Q, Hdq, Hpq, <- !app_assoc. reflexivity.
  - split; [reflexivity|].
    eapply frame_dropped_trans; [exact Hp|]. eapply frame_dropped_trans; [exact Hdd|].
    eapply PerformGpuComposition_false_dropped, Hg.
Qed.

End GpuPath.

(** ** An image in use sends the frame to the GPU path *)

Section FallsBack.
Variable env : Env.

(** C3.  When some image of the frame already has an [ImageEventData] whose
    signal event is not signaled, [SetRenderDatasOnDisplay] returns [false]
    and [RenderFrame] runs its GPU branch.  What becomes of the frame is
    then up to [PerformGpuComposition]: when it returns [true],
    [RenderFrame] returns with the frame composited (the renderer asked to
    render the rectangles and images of every display of the frame, the
    frame handed over by [OnGpuCompositedFrame], the configuration applied
    and queued); when it returns [false], [RenderFrame] returns with the
    frame dropped (nothing applied, nothing handed over, the queue as it
    was).  [pre] are the displays planned before the one that shows the
    image. *)
Theorem in_use_image_falls_back (fn : N) (pt : Z) (pre post : list RenderData)
    (data : RenderData) (rf : list N) (cb : N) (img : ImageMetadata) (w w1 : World)
    (r : option bool) :
  In img (images data) ->
  in_use w (identifier img) ->
  is_Some (display_engine_data_map_ w !! display_id data) ->
  N.of_nat (length (images data)) < 2 ^ 32 ->
  (DiscardConfig env ;;; for_each pre (set_render_data_and_cc env)) w = Some (r, w1) ->
  exists w2,
    (DiscardConfig env ;;; SetRenderDatasOnDisplay env (pre ++ data :: post)) w
      = Some (false, w2)
    /\ RenderFrame env fn pt (pre ++ data :: post) rf cb w
       = gpu_branch env fn pt (pre ++ data :: post) rf cb w2
    /\ forall (ok : bool) (wg : World),
         (DiscardConfig env ;;;
          PerformGpuComposition env fn pt (pre ++ data :: post) rf cb) w2 = Some (ok, wg) ->
         if ok
         then exists w',
                RenderFrame env fn pt (pre ++ data :: post) rf cb w = Some (tt, w')
                /\ composited_by_gpu fn rf cb (pre ++ data :: post) w w'
         else RenderFrame env fn pt (pre ++ data :: post) rf cb w = Some (tt, wg)
              /\ frame_dropped w wg.
Proof.
  intros Hin Huse Hdisp Hlen Hpre.
  destruct (planner_rejects_in_use env pre post data img w w1 r Hin Huse Hdisp Hlen Hpre)
    as [w2 Hplan].
  exists w2. split; [exact Hplan|]. split; [now apply planning_false_gpu_branch|].
  intros ok wg Hgpu. exact (planning_false_outcome env _ _ _ _ _ _ _ _ _ Hplan Hgpu).
Qed.

End FallsBack.

(** A client image is on screen by direct scanout and its event has not been
    signaled; the next frame that shows it is planned in vain, and the
    display having render targets, it is composited by the GPU. *)
Lemma in_use_image_falls_back_witness :
  exists w',
    RenderFrame Scene.env 2 0 [Sample.image_frame] [31] 41
      (Sample.after_direct_frame Scene.env) = Some (tt, w')
    /\ composited_by_gpu 2 [31] 41 [Sample.image_frame]
         (Sample.after_direct_frame Scene.env) w'.
Proof.
  destruct (in_use_image_falls_back Scene.env 2 0 [] [] Sample.image_frame
              [31] 41 Sample.client_image
              (Sample.after_direct_frame Scene.env)
              (Sample.run (DiscardConfig Scene.env) (Sample.after_direct_frame Scene.env))
              None) as (w2 & Hplan & _ & Hout).
  - simpl. auto.
  - exists {| signal_event := Event false; signal_id := 5 |}.
    split; vm_compute; reflexivity.
  - apply (@bool_decide_unpack _ (is_Some_dec _)). vm_compute. exact I.
  - vm_compute. reflexivity.
  - vm_compute. reflexivity.
  - assert (Hw2 : w2 = Scene.planned [Sample.image_frame]
                         (Sample.after_direct_frame Scene.env)).
    { unfold Scene.planned, Sample.run. simpl app in Hplan. now rewrite Hplan. }
    subst w2.
    apply (Hout true
             (Sample.run (DiscardConfig Scene.env ;;;
                          PerformGpuComposition Scene.env 2 0 [Sample.image_frame] [31] 41)
                (Scene.planned [Sample.image_frame]
                   (Sample.after_direct_frame Scene.env)))).
    vm_compute. reflexivity.
Defined.

(** The same on a display that was registered without render targets: the
    planner rejects the frame, GPU composition fails, and [RenderFrame]
    returns with the frame neither rendered nor handed over nor applied. *)
Lemma in_use_frame_dropped_counterexample :
  in_use Scene.no_targets_direct (identifier Sample.client_image)
  /\ (DiscardConfig Scene.env ;;; SetRenderDatasOnDisplay Scene.env [Sample.image_frame])
       Scene.no_targets_direct
     = Some (false, Scene.planned [Sample.image_frame] Scene.no_targets_direct)
  /\ RenderFrame Scene.env 2 0 [Sample.image_frame] [31] 41 Scene.no_targets_direct
     = Some (tt, Sample.run (RenderFrame Scene.env 2 0 [Sample.image_frame] [31] 41)
                   Scene.no_targets_direct)
  /\ rendered (new_calls Scene.no_targets_direct
                 (Sample.run (RenderFrame Scene.env 2 0 [Sample.image_frame] [31] 41)
                    Scene.no_targets_direct)) = []
  /\ handed_off (new_calls Scene.no_targets_direct
                   (Sample.run (RenderFrame Scene.env 2 0 [Sample.image_frame] [31] 41)
                      Scene.no_targets_direct)) = []
  /\ pending_apply_configs_
       (Sample.run (RenderFrame Scene.env 2 0 [Sample.image_frame] [31] 41)
          Scene.no_targets_direct)
     = pending_apply_configs_ Scene.no_targets_direct
  /\ ~ composited_by_gpu 2 [31] 41 [Sample.image_frame] Scene.no_targets_direct
         (Sample.run (RenderFrame Scene.env 2 0 [Sample.image_frame] [31] 41)
            Scene.no_targets_direct).
Proof.
  assert (Hr : rendered (new_calls Scene.no_targets_direct
                           (Sample.run (RenderFrame Scene.env 2 0 [Sample.image_frame]
                                          [31] 41) Scene.no_targets_direct)) = [])
    by (vm_compute; reflexivity).
  split.
  { exists {| signal_event := Event false; signal_id := 1 |}.
    split; vm_compute; reflexivity. }
  split; [vm_compute; reflexivity|]. split; [vm_compute; reflexivity|].
  split; [exact Hr|]. split; [vm_compute; reflexivity|].
  split; [vm_compute; reflexivity|].
  intros (cs & stamp & Hcalls & _ & Hcs & _).
  rewrite Hcalls, rendered_app, Hcs in Hr. discriminate.
Qed.

(** ** A solid colour shown by direct scanout *)

Section SolidColorSticks.
Variable env : Env.

(** C10.  The planner records the sentinel id [kInvalidImageId] for a
    solid-colour entry as it records the id of an image, and a committed
    direct-scanout frame leaves the sentinel's event not signaled.  No step
    of the system signals it again: the display controller signals only
    events that were attached to a layer by [SetLayerImage], and a colour
    layer attaches none.  So, starting from a newly constructed compositor
    and after any run [before], once a direct-scanout frame that shows a
    solid colour has been committed ([w3]), then after any further run
    [later] in which [ReleaseBufferImage] is not called with the sentinel
    id ([w4]) the sentinel's event is still not signaled, and a frame with
    a solid colour on a registered display makes the planner answer [false]
    and [RenderFrame] run its GPU branch, where the frame is composited
    when [PerformGpuComposition] returns [true] and dropped when it returns
    [false].  [pre] are the displays planned before the one that shows the
    colour. *)
Theorem solid_color_forced_to_gpu (w00 w0 w1 w3 w4 w5 : World) (before later : list Action)
    (fn : N) (pt : Z) (datas : list RenderData) (d : RenderData) (rf : list N) (cb : N)
    (fn' : N) (pt' : Z) (pre post : list RenderData) (data : RenderData) (rf' : list N)
    (cb' : N) (r : option bool) :
  constructed w00 ->
  api_steps env before w00 w0 ->
  In d datas ->
  shows_solid_color d ->
  N.of_nat (length (images d)) < 2 ^ 32 ->
  (DiscardConfig env ;;; SetRenderDatasOnDisplay env datas) w0 = Some (true, w1) ->
  kDisableDisplayComposition env = false ->
  env_status env (trace w1) (DcCheckConfig false) = true ->
  RenderFrame env fn pt datas rf cb w0 = Some (tt, w3) ->
  api_steps env later w3 w4 ->
  ~ In (act_ReleaseBufferImage kInvalidImageId) later ->
  shows_solid_color data ->
  is_Some (display_engine_data_map_ w4 !! display_id data) ->
  N.of_nat (length (images data)) < 2 ^ 32 ->
  (DiscardConfig env ;;; for_each pre (set_render_data_and_cc env)) w4 = Some (r, w5) ->
  In kInvalidImageId (pending_images_in_config_ w1)
  /\ in_use w3 kInvalidImageId
  /\ in_use w4 kInvalidImageId
  /\ exists w6,
       (DiscardConfig env ;;; SetRenderDatasOnDisplay env (pre ++ data :: post)) w4
         = Some (false, w6)
       /\ RenderFrame env fn' pt' (pre ++ data :: post) rf' cb' w4
          = gpu_branch env fn' pt' (pre ++ data :: post) rf' cb' w6
       /\ forall (ok : bool) (wg : World),
            (DiscardConfig env ;;;
             PerformGpuComposition env fn' pt' (pre ++ data :: post) rf' cb') w6
              = Some (ok, wg) ->
            if ok
            then exists w',
                   RenderFrame env fn' pt' (pre ++ data :: post) rf' cb' w4 = Some (tt, w')
                   /\ composited_by_gpu fn' rf' cb' (pre ++ data :: post) w4 w'
            else RenderFrame env fn' pt' (pre ++ data :: post) rf' cb' w4 = Some (tt, wg)
                 /\ frame_dropped w4 wg.
Proof.
  intros Hnew Hreach Hd Hsolid Hlen Hplan Hk Hcheck Hrun Hlater Hkeep Hsolid' Hdisp Hlen'
    Hpre.
  assert (Hrec : In kInvalidImageId (pending_images_in_config_ w1)).
  { eapply planning_records_sentinel; eassumption. }
  assert (Huse3 : in_use w3 kInvalidImageId).
  { eapply committed_in_use; eassumption. }
  assert (Hwf0 : sentinel_wf w0).
  { apply (api_steps_wf env before w00 w0 Hreach), constructed_sentinel_wf, Hnew. }
  assert (Hwf3 : sentinel_wf w3).
  { eapply RenderFrame_sentinel; eassumption. }
  destruct (sentinel_step_in_use w3 w4 Hwf3 (api_steps_sentinel env _ _ _ Hlater Hkeep)
              Huse3) as [_ Huse4].
  split; [exact Hrec|]. split; [exact Huse3|]. split; [exact Huse4|].
  destruct Hsolid' as (img & Himg & Hid). rewrite <- Hid in Huse4.
  destruct (planner_rejects_in_use env pre post data img w4 w5 r Himg Huse4 Hdisp Hlen' Hpre)
    as [w6 Hplan'].
  exists w6. split; [exact Hplan'|]. split; [now apply planning_false_gpu_branch|].
  intros ok wg Hgpu. exact (planning_false_outcome env _ _ _ _ _ _ _ _ _ Hplan' Hgpu).
Qed.

End SolidColorSticks.

(** A white rectangle that covers the display is shown by direct scanout;
    after the vsync that presents it, the same frame is planned in vain and
    composited by the GPU. *)
Lemma solid_color_forced_to_gpu_witness :
  In kInvalidImageId
    (pending_images_in_config_
       (Scene.planned [Sample.fullscreen_white]
          (Sample.with_display Scene.env AttemptDisplayConstraints)))
  /\ in_use (Sample.after_color_frame Scene.env) kInvalidImageId
  /\ in_use (Sample.after_color_vsync Scene.env) kInvalidImageId
  /\ exists w',
       RenderFrame Scene.env 2 0 [Sample.fullscreen_white] [31] 41
         (Sample.after_color_vsync Scene.env) = Some (tt, w')
       /\ composited_by_gpu 2 [31] 41 [Sample.fullscreen_white]
            (Sample.after_color_vsync Scene.env) w'.
Proof.
  destruct (solid_color_forced_to_gpu Scene.env
              (Sample.fresh AttemptDisplayConstraints)
              (Sample.with_display Scene.env AttemptDisplayConstraints)
              (Scene.planned [Sample.fullscreen_white]
                 (Sample.with_display Scene.env AttemptDisplayConstraints))
              (Sample.after_color_frame Scene.env)
              (Sample.after_color_vsync Scene.env)
              (Sample.run (DiscardConfig Scene.env) (Sample.after_color_vsync Scene.env))
              [act_AddDisplay 7 Sample.hd_info 2] [act_OnVsync 5 31]
              1 0 [Sample.fullscreen_white] Sample.fullscreen_white [30] 40
              2 0 [] [] Sample.fullscreen_white [31] 41 None)
    as (Hrec & Huse3 & Huse4 & w6 & Hplan & _ & Hout).
  - repeat split; reflexivity.
  - apply (steps_step _ _ _ _ (Sample.with_display Scene.env AttemptDisplayConstraints));
      [|apply steps_refl].
    apply step_AddDisplay. vm_compute. reflexivity.
  - simpl. auto.
  - exists Sample.white. split; [simpl; auto | reflexivity].
  - vm_compute. reflexivity.
  - vm_compute. reflexivity.
  - reflexivity.
  - reflexivity.
  - vm_compute. reflexivity.
  - apply (steps_step _ _ _ _ (Sample.after_color_vsync Scene.env)); [|apply steps_refl].
    apply step_OnVsync. vm_compute. reflexivity.
  - simpl. intros [H|[]]. discriminate H.
  - exists Sample.white. split; [simpl; auto | reflexivity].
  - apply (@bool_decide_unpack _ (is_Some_dec _)). vm_compute. exact I.
  - vm_compute. reflexivity.
  - vm_compute. reflexivity.
  - split; [exact Hrec|]. split; [exact Huse3|]. split; [exact Huse4|].
    assert (Hw6 : w6 = Scene.planned [Sample.fullscreen_white]
                         (Sample.after_color_vsync Scene.env)).
    { unfold Scene.planned, Sample.run. simpl app in Hplan. now rewrite Hplan. }
    subst w6.
    apply (Hout true
             (Sample.run (DiscardConfig Scene.env ;;;
                          PerformGpuComposition Scene.env 2 0 [Sample.fullscreen_white]
                            [31] 41)
                (Scene.planned [Sample.fullscreen_white]
                   (Sample.after_color_vsync Scene.env)))).
    vm_compute. reflexivity.
Defined.

(** [ReleaseBufferImage] does not look at the id it is given.  Called with
    the sentinel id after the solid colour was shown by direct scanout, it
    erases the sentinel's event: the planner then accepts the next frame
    with a solid colour, and [RenderFrame] shows it by direct scanout, the
    renderer not being asked. *)
Lemma solid_color_release_counterexample :
  api_steps Scene.env
    [act_AddDisplay 7 Sample.hd_info 2;
     act_RenderFrame 1 0 [Sample.fullscreen_white] [30] 40;
     act_OnVsync 5 31;
     act_ReleaseBufferImage kInvalidImageId]
    (Sample.fresh AttemptDisplayConstraints) Scene.sentinel_released
  /\ in_use (Sample.after_color_frame Scene.env) kInvalidImageId
  /\ ~ in_use Scene.sentinel_released kInvalidImageId
  /\ (DiscardConfig Scene.env ;;;
      SetRenderDatasOnDisplay Scene.env [Sample.fullscreen_white]) Scene.sentinel_released
     = Some (true, Scene.planned [Sample.fullscreen_white] Scene.sentinel_released)
  /\ RenderFrame Scene.env 2 0 [Sample.fullscreen_white] [31] 41 Scene.sentinel_released
     = Some (tt, Sample.run (RenderFrame Scene.env 2 0 [Sample.fullscreen_white] [31] 41)
                   Scene.sentinel_released)
  /\ In (RfmOnDirectScanoutFrame 2 [31] 41)
       (new_calls Scene.sentinel_released
          (Sample.run (RenderFrame Scene.env 2 0 [Sample.fullscreen_white] [31] 41)
             Scene.sentinel_released))
  /\ rendered (new_calls Scene.sentinel_released
                 (Sample.run (RenderFrame Scene.env 2 0 [Sample.fullscreen_white] [31] 41)
                    Scene.sentinel_released)) = [].
Proof.
  split.
  { apply (steps_step _ _ _ _ (Sample.with_display Scene.env AttemptDisplayConstraints));
      [apply step_AddDisplay; vm_compute; reflexivity|].
    apply (steps_step _ _ _ _ (Sample.after_color_frame Scene.env));
      [apply step_RenderFrame; vm_compute; reflexivity|].
    apply (steps_step _ _ _ _ (Sample.after_color_vsync Scene.env));
      [apply step_OnVsync; vm_compute; reflexivity|].
    apply (steps_step _ _ _ _ Scene.sentinel_released); [|apply steps_refl].
    apply step_ReleaseBufferImage. vm_compute. reflexivity. }
  split.
  { eexists. split; vm_compute; reflexivity. }
  split.
  { intros (e & He & _). vm_compute in He. discriminate He. }
  split; [vm_compute; reflexivity|]. split; [vm_compute; reflexivity|].
  split; [vm_compute; auto 10|]. vm_compute. reflexivity.
Qed.

(** ** The properties above on concrete runs *)

Lemma pixel_format_round_trip_witness :
  ConvertZirconFormatToSysmemFormat ZX_PIXEL_FORMAT_ARGB_8888 = Some BGRA32
  /\ ZX_PIXEL_FORMAT_ARGB_8888 <> ZX_PIXEL_FORMAT_NONE.
Proof.
  exact (pixel_format_round_trip Sample.bgra ZX_PIXEL_FORMAT_ARGB_8888 eq_refl).
Defined.

Lemma ImportBufferImage_rejected_witness :
  ImportBufferImage Scene.env Sample.white kClientImage Scene.with_collection
  = Some (false, Scene.with_collection)
  /\ ImportBufferImage Scene.renderer_rejects Sample.client_image kClientImage
       Scene.with_collection
     = Some (false,
             set_trace (fun t => t ++ [RendererImportBufferImage Sample.client_image
                                         kClientImage]) Scene.with_collection).
Proof.
  split.
  - apply (proj1 (ImportBufferImage_rejected Scene.env Sample.white kClientImage
                    Scene.with_collection)).
    left. reflexivity.
  - apply (proj2 (ImportBufferImage_rejected Scene.renderer_rejects Sample.client_image
                    kClientImage Scene.with_collection)); reflexivity.
Defined.

Lemma display_imports_supported_only_witness :
  buffer_collection_supports_display_ Scene.with_image !! 5 = Some true
  /\ exists pf,
       buffer_collection_pixel_format_ Scene.with_image !! 5 = Some pf
       /\ BufferCollectionPixelFormatToZirconFormat pf = Some ZX_PIXEL_FORMAT_ARGB_8888
       /\ 0 = BufferCollectionPixelFormatToImageType pf.
Proof.
  apply (display_imports_supported_only Scene.env Sample.client_image kClientImage
           Scene.with_collection true Scene.with_image
           {| ic_width := 256; ic_height := 256;
              ic_pixel_format := ZX_PIXEL_FORMAT_ARGB_8888; ic_type := 0 |} 5 9 0).
  - vm_compute. reflexivity.
  - vm_compute. auto 10.
Defined.

Lemma first_image_import_settles_support_witness :
  is_Some (display_buffer_collection_ptrs_ Scene.with_collection !! 5)
  /\ display_buffer_collection_ptrs_ Scene.with_image !! 5 = None
  /\ exists s : bool,
       buffer_collection_supports_display_ Scene.with_image !! 5 = Some s
       /\ if s
          then exists pf,
                 buffer_collection_pixel_format_ Scene.with_image !! 5 = Some pf
                 /\ IsYUV pf = false
          else buffer_collection_pixel_format_ Scene.with_image
               = buffer_collection_pixel_format_ Scene.with_collection
               /\ true = true
               /\ forall c, In c (new_calls Scene.with_collection Scene.with_image) ->
                            is_import_image c = false.
Proof.
  apply (first_image_import_settles_support Scene.env Sample.client_image kClientImage
           Scene.with_collection true Scene.with_image).
  - vm_compute. discriminate.
  - vm_compute. reflexivity.
  - reflexivity.
  - reflexivity.
  - vm_compute. reflexivity.
Defined.

Lemma display_support_determined_once_witness :
  forallb (fun c => negb (is_sysmem_call c))
    (new_calls Scene.with_image
       (Sample.run (ImportBufferImage Scene.env (Scene.image 10 1) kClientImage)
          Scene.with_image)) = true
  /\ buffer_collection_supports_display_
       (Sample.run (ImportBufferImage Scene.env (Scene.image 10 1) kClientImage)
          Scene.with_image)
     = buffer_collection_supports_display_ Scene.with_image.
Proof.
  destruct (display_support_determined_once Scene.env (Scene.image 10 1) kClientImage
              Scene.with_image
              (Sample.run (ImportBufferImage Scene.env (Scene.image 10 1) kClientImage)
                 Scene.with_image) true true) as (E & _ & S & _).
  - vm_compute. reflexivity.
  - vm_compute. reflexivity.
  - split; [apply (new_calls_extends _ _ _ E) | exact S].
Defined.

Lemma import_after_release_crashes_witness :
  ImportBufferImage Scene.env (Scene.image 10 1) kClientImage Scene.released = None.
Proof.
  apply (import_after_release_crashes Scene.env (Scene.image 10 1) kClientImage kClientImage
           Scene.with_image Scene.released).
  - vm_compute. discriminate.
  - reflexivity.
  - vm_compute. reflexivity.
  - reflexivity.
Defined.

Lemma ImportBufferCollection_success_witness :
  is_Some (display_buffer_collection_ptrs_ Scene.with_collection !! 5)
  /\ exists tok,
       last (trace Scene.with_collection)
       = Some (DcImportBufferCollection 5 tok ImageConfig_none).
Proof.
  destruct (ImportBufferCollection_success Scene.env 5 50 kClientImage
              (Sample.with_display Scene.env AttemptDisplayConstraints)
              Scene.with_collection) as (_ & _ & _ & _ & H).
  - vm_compute. reflexivity.
  - exact H.
Defined.

Lemma AddDisplay_registers_witness :
  exists d,
    display_engine_data_map_ (Sample.with_display Scene.env AttemptDisplayConstraints)
    = <[7 := d]> ∅
    /\ length (layers d) = 2%nat
    /\ vmo_count d = 2
    /\ curr_vmo d = 0
    /\ length (frame_event_datas d) = 2%nat
    /\ Forall fresh_frame_event (frame_event_datas d)
    /\ length (render_targets d) = 2%nat.
Proof.
  destruct (AddDisplay_registers Scene.env 7 Sample.hd_info 2
              (Sample.fresh AttemptDisplayConstraints)
              (Sample.with_display Scene.env AttemptDisplayConstraints))
    as (_ & d & A & B & C & D & E & F & G & _).
  - reflexivity.
  - vm_compute. reflexivity.
  - exists d. auto 10.
Defined.

Lemma too_many_images_fall_back_witness :
  exists w2,
    (DiscardConfig Scene.env ;;; SetRenderDatasOnDisplay Scene.env [Scene.three_images])
      Scene.with_image = Some (false, w2)
    /\ RenderFrame Scene.env 1 0 [Scene.three_images] [30] 40 Scene.with_image
       = gpu_branch Scene.env 1 0 [Scene.three_images] [30] 40 w2.
Proof.
  apply (too_many_images_fall_back Scene.env 1 0 [] [] Scene.three_images [30] 40
           (Scene.entry Scene.with_image) Scene.with_image
           (Sample.run (DiscardConfig Scene.env) Scene.with_image) None).
  - vm_compute. reflexivity.
  - vm_compute. lia.
  - vm_compute. reflexivity.
  - vm_compute. reflexivity.
Defined.

Lemma RenderFrame_unregistered_display_witness :
  RenderFrame Scene.env 1 0 [Sample.image_frame] [30] 40
    (Sample.fresh AttemptDisplayConstraints) = None.
Proof.
  apply (RenderFrame_unregistered_display Scene.env 1 0 Sample.image_frame [] [30] 40
           (Sample.fresh AttemptDisplayConstraints)).
  reflexivity.
Defined.

Lemma planner_records_in_order_witness :
  pending_images_in_config_ (Scene.planned [Sample.image_frame] Scene.with_image) = [9].
Proof.
  apply (planner_records_in_order Scene.env [Sample.image_frame] Scene.with_image
           (Scene.planned [Sample.image_frame] Scene.with_image)).
  - repeat constructor.
  - vm_compute. reflexivity.
Defined.

Lemma direct_scanout_needs_display_support_witness :
  buffer_collection_supports_display_ Scene.with_image !! 5 = Some true.
Proof.
  apply (direct_scanout_needs_display_support Scene.env [Sample.image_frame]
           Scene.with_image (Scene.planned [Sample.image_frame] Scene.with_image)
           Sample.image_frame Sample.client_image).
  - repeat constructor.
  - vm_compute. reflexivity.
  - simpl. auto.
  - simpl. auto.
  - vm_compute. discriminate.
Defined.

Lemma direct_scanout_layers_witness :
  In (DcSetDisplayLayers 7 [110])
    (new_calls Scene.with_image
       (Sample.run (SetRenderDataOnDisplay Scene.env Sample.image_frame) Scene.with_image))
  /\ exists e,
       image_event_map_
         (Sample.run (SetRenderDataOnDisplay Scene.env Sample.image_frame) Scene.with_image)
       !! 9 = Some e
       /\ In (DcSetLayerImage 110 9 0 (signal_id e))
            (new_calls Scene.with_image
               (Sample.run (SetRenderDataOnDisplay Scene.env Sample.image_frame)
                  Scene.with_image)).
Proof.
  destruct (direct_scanout_layers Scene.env Sample.image_frame Scene.with_image
              (Sample.run (SetRenderDataOnDisplay Scene.env Sample.image_frame)
                 Scene.with_image)
              (Scene.entry Scene.with_image)) as [A B].
  - vm_compute. reflexivity.
  - vm_compute. reflexivity.
  - vm_compute. reflexivity.
  - split; [exact A|].
    destruct (B 0%nat Sample.client_image eq_refl) as (l & e & Hl & He & Hin).
    + vm_compute. discriminate.
    + exists e. split; [exact He|]. vm_compute in Hl. injection Hl as <-. exact Hin.
Defined.

Lemma direct_scanout_skips_renderer_witness :
  display_engine_data_map_ (Sample.after_direct_frame Scene.env)
  = display_engine_data_map_ Scene.with_image
  /\ exists stamp,
       pending_apply_configs_ (Sample.after_direct_frame Scene.env)
       = pending_apply_configs_ Scene.with_image
         ++ [{| config_stamp := stamp; frame_number := 1 |}].
Proof.
  apply (direct_scanout_skips_renderer Scene.env 1 0 [Sample.image_frame] [30] 40
           Scene.with_image (Scene.planned [Sample.image_frame] Scene.with_image)
           (Sample.after_direct_frame Scene.env)).
  - vm_compute. reflexivity.
  - reflexivity.
  - reflexivity.
  - vm_compute. reflexivity.
Defined.

Lemma gpu_composition_rotates_back_buffers_witness :
  curr_vmo
    (Scene.entry
       (Sample.run (PerformGpuComposition Scene.env 1 0 [Sample.image_frame] [30] 40)
          Scene.with_image)) = 1
  /\ render_fences
       (trace (Sample.run (PerformGpuComposition Scene.env 1 0 [Sample.image_frame] [30] 40)
                 Scene.with_image))
     = [true].
Proof.
  destruct (gpu_composition_rotates_back_buffers Scene.env 1 0 [Sample.image_frame] [30] 40
              Scene.with_image
              (Sample.run (PerformGpuComposition Scene.env 1 0 [Sample.image_frame] [30] 40)
                 Scene.with_image)) as (A & B & _).
  - vm_compute. reflexivity.
  - split.
    + unfold Scene.entry. rewrite A. vm_compute. reflexivity.
    + rewrite B. vm_compute. reflexivity.
Defined.

Lemma gpu_composition_needs_render_targets_witness :
  handed_off
    (trace (Sample.run (PerformGpuComposition Scene.env 1 0 [Sample.fullscreen_white] [30] 40)
              Scene.no_targets))
  = handed_off (trace Scene.no_targets)
  /\ pending_apply_configs_
       (Sample.run (PerformGpuComposition Scene.env 1 0 [Sample.fullscreen_white] [30] 40)
          Scene.no_targets)
     = pending_apply_configs_ Scene.no_targets.
Proof.
  apply (gpu_composition_needs_render_targets Scene.env 1 0 [Sample.fullscreen_white]
           [30] 40 Scene.no_targets false
           (Sample.run (PerformGpuComposition Scene.env 1 0 [Sample.fullscreen_white] [30] 40)
              Scene.no_targets)
           Sample.fullscreen_white (Scene.entry Scene.no_targets)).
  - simpl. auto.
  - vm_compute. reflexivity.
  - reflexivity.
  - vm_compute. reflexivity.
Defined.

Lemma back_buffer_in_range_witness :
  curr_vmo (Scene.entry Scene.with_image) < vmo_count (Scene.entry Scene.with_image)
  /\ is_Some (frame_event_datas (Scene.entry Scene.with_image)
              !! N.to_nat (curr_vmo (Scene.entry Scene.with_image)))
  /\ is_Some (render_targets (Scene.entry Scene.with_image)
              !! N.to_nat (curr_vmo (Scene.entry Scene.with_image))).
Proof.
  apply (back_buffer_in_range Scene.env (Sample.fresh AttemptDisplayConstraints)
           Scene.with_image 7).
  - reflexivity.
  - apply (method_steps_step _ _ (Sample.with_display Scene.env AttemptDisplayConstraints)).
    { apply (method_AddDisplay _ 7 Sample.hd_info 2); [reflexivity|].
      vm_compute. reflexivity. }
    apply (method_steps_step _ _ Scene.with_collection).
    { apply (method_ImportBufferCollection _ 5 50 kClientImage _ true).
      vm_compute. reflexivity. }
    apply (method_steps_step _ _ Scene.with_image); [|apply method_steps_refl].
    apply (method_ImportBufferImage _ Sample.client_image kClientImage _ true).
    vm_compute. reflexivity.
  - vm_compute. reflexivity.
  - vm_compute. discriminate.
Defined.

Lemma frames_retired_in_order_witness :
  handed_off (trace Scene.presented)
  = retired (trace Scene.presented)
    ++ map frame_number (pending_apply_configs_ Scene.presented).
Proof.
  apply (frames_retired_in_order Scene.env (Sample.fresh AttemptDisplayConstraints)
           Scene.presented).
  - reflexivity.
  - reflexivity.
  - apply (method_steps_step _ _ (Sample.with_display Scene.env AttemptDisplayConstraints)).
    { apply (method_AddDisplay _ 7 Sample.hd_info 2); [reflexivity|].
      vm_compute. reflexivity. }
    apply (method_steps_step _ _ Scene.with_collection).
    { apply (method_ImportBufferCollection _ 5 50 kClientImage _ true).
      vm_compute. reflexivity. }
    apply (method_steps_step _ _ Scene.with_image).
    { apply (method_ImportBufferImage _ Sample.client_image kClientImage _ true).
      vm_compute. reflexivity. }
    apply (method_steps_step _ _ (Sample.after_direct_frame Scene.env)).
    { apply (method_RenderFrame _ 1 0 [Sample.image_frame] [30] 40).
      vm_compute. reflexivity. }
    apply (method_steps_step _ _ Scene.presented); [|apply method_steps_refl].
    apply (method_OnVsync _ 5 49). vm_compute. reflexivity.
Defined.
